(** * ocp2aks: OpenShift to AKS manifest transformer

    A shallow embedding of [tools/ocp2aks.py] and the properties of its
    conversion engine.

    Python objects are modelled with an explicit store: a parsed YAML
    document is a graph of dict and list objects that may share
    substructure (anchors), and the program copies ([deepcopy]) and
    mutates such objects in place.  Scalars are immutable values; dicts
    and lists live in the store and are handled through references.

    Scope of the data model: the scalars are None, booleans, integers and
    strings (YAML floats, timestamps and binary scalars are left out);
    strings are sequences of 8-bit characters and [lower] maps the ASCII
    letters only. *)

From stdpp Require Import base list strings gmap.
From Stdlib Require Import ZArith Ascii DecimalString.
From Stdlib Require String.


(** ** Strings *)

Module Str.

(** [s.startswith(p)] *)
Definition startswith (s p : string) : bool := String.prefix p s.

(** [p in s] for two strings: [p] occurs in [s] as a substring. *)
Fixpoint contains (p s : string) : bool :=
  String.prefix p s ||
  match s with
  | EmptyString => false
  | String _ s' => contains p s'
  end.

Definition lower_ascii (c : ascii) : ascii :=
  let n := nat_of_ascii c in
  if (65 <=? n)%nat && (n <=? 90)%nat then ascii_of_nat (n + 32) else c.

(** [s.lower()] *)
Fixpoint lower (s : string) : string :=
  match s with
  | EmptyString => EmptyString
  | String c s' => String (lower_ascii c) (lower s')
  end.

(** [bool(s)]: a string is truthy when it is not empty. *)
Definition nonempty (s : string) : bool :=
  match s with EmptyString => false | _ => true end.

(** [str(z)] for an integer. *)
Definition of_Z (z : Z) : string := NilZero.string_of_int (Z.to_int z).

(** The one-character strings of [s], as iterating over a string yields
    them. *)
Fixpoint chars (s : string) : list string :=
  match s with
  | EmptyString => []
  | String c s' => String c EmptyString :: chars s'
  end.

End Str.

(** ** Values, objects and the store *)

Abbreviation addr := nat.

Inductive scalar :=
| SNone
| SBool (b : bool)
| SInt (z : Z)
| SStr (s : string).

Inductive val :=
| VS (s : scalar)
| VRef (a : addr).

Abbreviation VNone := (VS SNone).
Abbreviation VBool b := (VS (SBool b)).
Abbreviation VInt z := (VS (SInt z)).
Abbreviation VStr s := (VS (SStr s)).

(** A dict keeps its items in insertion order; keys are hashable, hence
    scalars. *)
Inductive obj :=
| ODict (kvs : list (scalar * val))
| OList (xs : list val).

Abbreviation heap := (list obj).

#[global] Instance scalar_eq_dec : EqDecision scalar.
Proof. solve_decision. Defined.
#[global] Instance val_eq_dec : EqDecision val.
Proof. solve_decision. Defined.
#[global] Instance obj_eq_dec : EqDecision obj.
Proof. solve_decision. Defined.

(** ** Exceptions and the state monad of the interpreter *)

Inductive exn :=
| AttributeError
| TypeError
| KeyError
| Stuck.  (* model only: a dangling reference or exhausted copy fuel *)

Inductive result (A : Type) :=
| Ok (x : A)
| Raise (e : exn).
Arguments Ok {A} x.
Arguments Raise {A} e.

Definition M (A : Type) : Type := heap → result (A * heap).

Definition ret {A} (x : A) : M A := λ h, Ok (x, h).

Definition bind {A B} (c : M A) (k : A → M B) : M B :=
  λ h, match c h with
       | Ok (x, h') => k x h'
       | Raise e => Raise e
       end.

Definition raise {A} (e : exn) : M A := λ _, Raise e.

Notation "'let*' x ':=' c 'in' k" := (bind c (λ x, k))
  (at level 10, x name, c at level 100, k at level 200,
   format "'[v' 'let*'  x  :=  c  'in'  '/' k ']'").
Notation "c ';;' k" := (bind c (λ _, k))
  (at level 100, k at level 200, right associativity).
Notation "'let*' ' pat ':=' c 'in' k" :=
  (bind c (λ x, match x with pat => k end))
  (at level 10, pat pattern, c at level 100, k at level 200).

(** ** Python dicts as insertion-ordered association lists

    Keys are compared structurally.  The program only ever looks up string
    keys, for which Python's [==] on keys is structural equality. *)

Module Dict.

Fixpoint get (k : scalar) (kvs : list (scalar * val)) : option val :=
  match kvs with
  | [] => None
  | (k', v) :: r => if decide (k' = k) then Some v else get k r
  end.

(** [d[k] = v]: an existing key keeps its position, a new one goes last. *)
Fixpoint set (k : scalar) (v : val) (kvs : list (scalar * val))
  : list (scalar * val) :=
  match kvs with
  | [] => [(k, v)]
  | (k', v') :: r =>
      if decide (k' = k) then (k', v) :: r else (k', v') :: set k v r
  end.

(** [del d[k]]: the items under other keys, in their order. *)
Fixpoint remove (k : scalar) (kvs : list (scalar * val))
  : list (scalar * val) :=
  match kvs with
  | [] => []
  | (k', v') :: r =>
      if decide (k' = k) then remove k r else (k', v') :: remove k r
  end.

End Dict.

(** ** Store primitives *)

Definition alloc (o : obj) : M val :=
  λ h, Ok (VRef (length h), h ++ [o]).

Definition load (a : addr) : M obj :=
  λ h, match h !! a with
       | Some o => Ok (o, h)
       | None => Raise Stuck
       end.

Definition store (a : addr) (o : obj) : M unit :=
  λ h, Ok (tt, <[a:=o]> h).

(** ** [copy.deepcopy]

    [deepcopy] keeps a memo from the identity of every object it has
    started to copy to the copy, so that sharing and cycles inside the
    copied value are reproduced in the copy.  For a dict or a list it
    creates the empty copy, records it in the memo and then copies the
    items in order.  The items are written into the copy in one step here:
    copying only reads the original objects, so the stages of the copy
    being filled are not observed. *)

Abbreviation memo := (gmap addr addr).

Definition obj_vals (o : obj) : list val :=
  match o with
  | ODict kvs => kvs.*2
  | OList xs => xs
  end.

Definition obj_with_vals (o : obj) (vs : list val) : obj :=
  match o with
  | ODict kvs => ODict (zip (kvs.*1) vs)
  | OList _ => OList vs
  end.

Definition obj_empty (o : obj) : obj :=
  match o with
  | ODict _ => ODict []
  | OList _ => OList []
  end.

Fixpoint copy_all (go : val → memo → heap → option (val * memo * heap))
    (xs : list val) (m : memo) (h : heap)
  : option (list val * memo * heap) :=
  match xs with
  | [] => Some ([], m, h)
  | x :: xs' =>
      match go x m h with
      | None => None
      | Some (x', m1, h1) =>
          match copy_all go xs' m1 h1 with
          | None => None
          | Some (xs'', m2, h2) => Some (x' :: xs'', m2, h2)
          end
      end
  end.

Fixpoint deepcopy_go (fuel : nat) (v : val) (m : memo) (h : heap)
  : option (val * memo * heap) :=
  match v with
  | VS _ => Some (v, m, h)
  | VRef a =>
      match m !! a with
      | Some a' => Some (VRef a', m, h)
      | None =>
          match fuel with
          | 0 => None
          | S fuel' =>
              match h !! a with
              | None => None
              | Some o =>
                  let a' := length h in
                  match copy_all (deepcopy_go fuel') (obj_vals o)
                          (<[a:=a']> m) (h ++ [obj_empty o]) with
                  | None => None
                  | Some (vs, m', h') =>
                      Some (VRef a', m', <[a':=obj_with_vals o vs]> h')
                  end
              end
          end
      end
  end.

Definition deepcopy (v : val) : M val :=
  λ h, match deepcopy_go (S (length h)) v ∅ h with
       | Some (v', _, h') => Ok (v', h')
       | None => Raise Stuck
       end.

(** ** Python operations on values *)

Definition truthy_scalar (s : scalar) : bool :=
  match s with
  | SNone => false
  | SBool b => b
  | SInt z => negb (z =? 0)%Z
  | SStr s => Str.nonempty s
  end.

Definition truthy_obj (o : obj) : bool :=
  match o with
  | ODict [] | OList [] => false
  | _ => true
  end.

(** [bool(v)] *)
Definition py_bool (v : val) : M bool :=
  match v with
  | VS s => ret (truthy_scalar s)
  | VRef a => let* o := load a in ret (truthy_obj o)
  end.

(** [v or alt], with [alt] evaluated only when [v] is falsy *)
Definition py_or (v : val) (alt : M val) : M val :=
  let* b := py_bool v in if b then ret v else alt.

(** The receiver of a dict method: anything else has no such attribute. *)
Definition as_dict (v : val) : M (addr * list (scalar * val)) :=
  match v with
  | VS _ => raise AttributeError
  | VRef a =>
      let* o := load a in
      match o with
      | ODict kvs => ret (a, kvs)
      | OList _ => raise AttributeError
      end
  end.

(** [d.get(k, dflt)] *)
Definition py_get (d : val) (k : string) (dflt : val) : M val :=
  let* '(_, kvs) := as_dict d in
  ret (default dflt (Dict.get (SStr k) kvs)).

(** [d.setdefault(k, dflt)] *)
Definition py_setdefault (d : val) (k : string) (dflt : val) : M val :=
  let* '(a, kvs) := as_dict d in
  match Dict.get (SStr k) kvs with
  | Some v => ret v
  | None => store a (ODict (kvs ++ [(SStr k, dflt)])) ;; ret dflt
  end.

(** [d.items()] *)
Definition py_items (d : val) : M (list (scalar * val)) :=
  let* '(_, kvs) := as_dict d in ret kvs.

(** [d[k]] for a string [k] *)
Definition py_getitem (d : val) (k : string) : M val :=
  match d with
  | VS _ => raise TypeError
  | VRef a =>
      let* o := load a in
      match o with
      | ODict kvs =>
          match Dict.get (SStr k) kvs with
          | Some v => ret v
          | None => raise KeyError
          end
      | OList _ => raise TypeError
      end
  end.

(** [d[k] = v] for a string [k] *)
Definition py_setitem (d : val) (k : string) (v : val) : M unit :=
  match d with
  | VS _ => raise TypeError
  | VRef a =>
      let* o := load a in
      match o with
      | ODict kvs => store a (ODict (Dict.set (SStr k) v kvs))
      | OList _ => raise TypeError
      end
  end.

(** [d.pop(k, None)] for a string [k] *)
Definition py_pop (d : val) (k : string) : M val :=
  match d with
  | VS _ => raise AttributeError
  | VRef a =>
      let* o := load a in
      match o with
      | ODict kvs =>
          match Dict.get (SStr k) kvs with
          | Some v => store a (ODict (Dict.remove (SStr k) kvs)) ;; ret v
          | None => ret VNone
          end
      | OList _ => raise TypeError
      end
  end.

(** The items a [for] loop over [v] visits: the elements of a list, the
    keys of a dict, the characters of a string. *)
Definition py_iter (v : val) : M (list val) :=
  match v with
  | VS (SStr s) => ret ((λ c, VStr c) <$> Str.chars s)
  | VS _ => raise TypeError
  | VRef a =>
      let* o := load a in
      match o with
      | ODict kvs => ret ((λ kv, VS kv.1) <$> kvs)
      | OList xs => ret xs
      end
  end.

(** [p in v] for a string [p]: substring of a string, element of a list,
    key of a dict. *)
Definition py_in (p : string) (v : val) : M bool :=
  match v with
  | VS (SStr s) => ret (Str.contains p s)
  | VS _ => raise TypeError
  | VRef a =>
      let* o := load a in
      match o with
      | ODict kvs => ret (bool_decide (SStr p ∈ kvs.*1))
      | OList xs => ret (bool_decide (VStr p ∈ xs))
      end
  end.

(** [isinstance(v, dict)] *)
Definition is_dict (v : val) : M bool :=
  match v with
  | VS _ => ret false
  | VRef a =>
      let* o := load a in
      ret (match o with ODict _ => true | OList _ => false end)
  end.

(** [for x in xs: body x] *)
Fixpoint for_each {A} (xs : list A) (body : A → M unit) : M unit :=
  match xs with
  | [] => ret tt
  | x :: xs' => body x ;; for_each xs' body
  end.

(** [isinstance(v, str)] *)
Definition is_str (v : val) : bool :=
  match v with
  | VS (SStr _) => true
  | _ => false
  end.

(** [v.lower()]: only strings have the method. *)
Definition py_lower (v : val) : M string :=
  match v with
  | VS (SStr s) => ret (Str.lower s)
  | _ => raise AttributeError
  end.

(** [int(v)] for a value that is not a string *)
Definition py_int (v : val) : M Z :=
  match v with
  | VS (SInt z) => ret z
  | VS (SBool b) => ret (if b then 1 else 0)%Z
  | _ => raise TypeError
  end.

(** [l.append(v)] *)
Definition py_append (l v : val) : M unit :=
  match l with
  | VS _ => raise AttributeError
  | VRef a =>
      let* o := load a in
      match o with
      | OList xs => store a (OList (xs ++ [v]))
      | ODict _ => raise AttributeError
      end
  end.

(** A dict display [{k1: v1, ...}] with string keys, and a list display. *)
Definition new_dict (kvs : list (string * val)) : M val :=
  alloc (ODict (prod_map SStr id <$> kvs)).

Definition new_list (xs : list val) : M val := alloc (OList xs).

(** The prefix of the annotations that belong to the source platform. *)
Definition openshift_prefix : string := "openshift.io/".

(** The items [(k, v)] of a comprehension
    [for k, v in items if not k.startswith("openshift.io/")]. *)
Fixpoint foreign_items (items : list (scalar * val))
  : M (list (scalar * val)) :=
  match items with
  | [] => ret []
  | (SStr k, v) :: r =>
      let* r' := foreign_items r in
      ret (if Str.startswith k openshift_prefix then r' else (SStr k, v) :: r')
  | _ :: _ => raise AttributeError
  end.

(** [{k: v for k, v in (anns or {}).items()
      if not k.startswith("openshift.io/")}] *)
Definition filter_annotations (anns : val) : M val :=
  let* a := py_or anns (new_dict []) in
  let* items := py_items a in
  let* kept := foreign_items items in
  alloc (ODict kept).

Section Program.

(** [str()] of a dict or a list, as an f-string prints it.  The text is
    produced by the interpreter and is left abstract. *)
Variable py_repr : heap → addr → string.

Definition format_scalar (s : scalar) : string :=
  match s with
  | SNone => "None"
  | SBool true => "True"
  | SBool false => "False"
  | SInt z => Str.of_Z z
  | SStr s => s
  end.

(** The text of [v] inside an f-string. *)
Definition py_format (v : val) : M string :=
  match v with
  | VS s => ret (format_scalar s)
  | VRef a => λ h, Ok (py_repr h a, h)
  end.

(** *** Helpers *)

Definition norm_labels (meta : val) : M val :=
  let* meta := py_or meta (new_dict []) in
  let* d := new_dict [] in
  py_setdefault meta "labels" d ;;
  ret meta.

Definition map_image (image name_hint : val)
    (image_registry repo_prefix : string) : M val :=
  let* image := py_or image (ret (VStr "")) in
  let* qualified :=
    (let* b := py_bool image in
     if b then
       let* slash := py_in "/" image in
       let* sep := (if slash then ret true else py_in "." image) in
       if sep then py_in ":" image else ret false
     else ret false) in
  if qualified then ret image
  else if Str.nonempty image_registry && Str.contains ":" image_registry
  then ret (VStr image_registry)
  else
    let* repo :=
      (if Str.nonempty repo_prefix
       then let* r := py_format name_hint in
            ret (VStr (repo_prefix +:+ "/" +:+ r))
       else ret name_hint) in
    if Str.nonempty image_registry
    then let* r := py_format repo in
         ret (VStr (image_registry +:+ "/" +:+ r +:+ ":latest"))
    else py_or image (let* r := py_format repo in
                      ret (VStr (r +:+ ":latest"))).

(** *** Converters *)

(** The strategy block of [to_deployment]. *)
Definition set_strategy (spec deployment : val) : M unit :=
  let* d := new_dict [] in
  let* st0 := py_get spec "strategy" d in
  let* st := py_or st0 (new_dict []) in
  let* ty0 := py_get st "type" VNone in
  let* ty := py_or ty0 (ret (VStr "Rolling")) in
  let* st_type := py_lower ty in
  if Str.startswith st_type "recreate" then
    let* r := new_dict [("type", VStr "Recreate")] in
    let* ds := py_getitem deployment "spec" in
    py_setitem ds "strategy" r
  else
    let* p0 := py_get st "rollingParams" VNone in
    let* params := py_or p0 (new_dict []) in
    let* ms := py_get params "maxSurge" (VStr "25%") in
    let* mu := py_get params "maxUnavailable" (VStr "25%") in
    let* ru := new_dict [("maxSurge", ms); ("maxUnavailable", mu)] in
    let* r := new_dict [("type", VStr "RollingUpdate");
                        ("rollingUpdate", ru)] in
    let* ds := py_getitem deployment "spec" in
    py_setitem ds "strategy" r.

(** The body of the loop over the containers. *)
Definition normalize_container (name : val)
    (image_registry repo_prefix : string) (c : val) : M unit :=
  let* img := py_get c "image" (VStr "") in
  let* hint := py_get c "name" name in
  let* img' := map_image img hint image_registry repo_prefix in
  py_setitem c "image" img' ;;
  let* pp := py_get c "imagePullPolicy" VNone in
  let* b := py_bool pp in
  if b then ret tt else py_setitem c "imagePullPolicy" (VStr "IfNotPresent").

(** The parts of the source that [to_deployment] works on: the copies of
    the metadata and of the spec, the name, and the metadata and the spec
    of the pod template. *)
Definition deployment_parts (dc : val) : M (val * val * val * val * val) :=
  let* d0 := new_dict [] in
  let* m0 := py_get dc "metadata" d0 in
  let* meta := deepcopy m0 in
  let* d1 := new_dict [] in
  let* s0 := py_get dc "spec" d1 in
  let* spec := deepcopy s0 in
  let* name := py_get meta "name" (VStr "app") in
  let* meta := norm_labels meta in
  let* d2 := new_dict [] in
  let* t0 := py_get spec "template" d2 in
  let* template := py_or t0 (new_dict []) in
  let* d3 := new_dict [] in
  let* tm0 := py_get template "metadata" d3 in
  let* tm1 := py_or tm0 (new_dict []) in
  let* tpl_meta := norm_labels tm1 in
  let* d4 := new_dict [] in
  let* ts0 := py_get template "spec" d4 in
  let* tpl_spec := py_or ts0 (new_dict []) in
  ret (meta, spec, name, tpl_meta, tpl_spec).

(** The labels, copied three times:
    [labels], [selector_labels], [template_labels]. *)
Definition deployment_labels (meta tpl_meta name : val)
  : M (val * val * val) :=
  let* l0 := py_get tpl_meta "labels" VNone in
  let* l1 := py_or l0 (let* l := py_get meta "labels" VNone in
                       py_or l (new_dict [("app", name)])) in
  let* labels := deepcopy l1 in
  let* selector_labels := deepcopy labels in
  let* template_labels := deepcopy labels in
  ret (labels, selector_labels, template_labels).

(** The [deployment] display, evaluated left to right. *)
Definition deployment_display
    (meta spec name tpl_meta tpl_spec : val)
    (labels selector_labels template_labels : val) : M val :=
  let* a0 := py_get meta "annotations" VNone in
  let* anns := filter_annotations a0 in
  let* md := new_dict [("name", name); ("labels", labels);
                       ("annotations", anns)] in
  let* replicas := py_get spec "replicas" (VInt 1) in
  let* sel := new_dict [("matchLabels", selector_labels)] in
  let* ta0 := py_get tpl_meta "annotations" VNone in
  let* tanns := filter_annotations ta0 in
  let* tmd := new_dict [("labels", template_labels);
                        ("annotations", tanns)] in
  let* tpl := new_dict [("metadata", tmd); ("spec", tpl_spec)] in
  let* st := new_dict [] in
  let* dspec := new_dict [("replicas", replicas); ("selector", sel);
                          ("template", tpl); ("strategy", st)] in
  new_dict [("apiVersion", VStr "apps/v1"); ("kind", VStr "Deployment");
            ("metadata", md); ("spec", dspec)].

(** The removal of the OpenShift-only fields. *)
Definition drop_openshift_fields (deployment : val) : M unit :=
  for_each ["triggers"; "test"; "paused"]
    (λ fld, let* ds := py_getitem deployment "spec" in
            py_pop ds fld ;; ret tt).

(** The loop over the containers. *)
Definition normalize_containers (deployment name : val)
    (image_registry repo_prefix : string) : M unit :=
  let* ds := py_getitem deployment "spec" in
  let* t := py_getitem ds "template" in
  let* ts := py_getitem t "spec" in
  let* e := new_list [] in
  let* containers := py_get ts "containers" e in
  let* cs := py_iter containers in
  for_each cs (normalize_container name image_registry repo_prefix).

(** [to_deployment].  The line it prints after the labels are copied
    goes to the console only and is left out. *)
Definition to_deployment (dc : val) (image_registry repo_prefix : string)
  : M val :=
  let* '(meta, spec, name, tpl_meta, tpl_spec) := deployment_parts dc in
  let* '(labels, selector_labels, template_labels) :=
    deployment_labels meta tpl_meta name in
  let* deployment :=
    deployment_display meta spec name tpl_meta tpl_spec
      labels selector_labels template_labels in
  set_strategy spec deployment ;;
  drop_openshift_fields deployment ;;
  normalize_containers deployment name image_registry repo_prefix ;;
  ret deployment.

(** The TLS block of [to_ingress]. *)
Definition set_tls (spec name host ingress : val) (tls_secret : string)
  : M unit :=
  let* tls_entries := new_list [] in
  (if Str.nonempty tls_secret then
     let* hosts := new_list [host] in
     let* e := new_dict [("hosts", hosts);
                         ("secretName", VStr tls_secret)] in
     py_append tls_entries e
   else
     let* t := py_get spec "tls" VNone in
     let* b := py_bool t in
     if b then
       let* hosts := new_list [host] in
       let* n := py_format name in
       let* e := new_dict [("hosts", hosts);
                           ("secretName", VStr (n +:+ "-tls"))] in
       py_append tls_entries e
     else ret tt) ;;
  let* b := py_bool tls_entries in
  if b then
    let* s := py_getitem ingress "spec" in
    py_setitem s "tls" tls_entries
  else ret tt.

(** The parts of the source that [to_ingress] works on: the copies of
    the metadata and of the spec, the name, the host, the name of the
    service and the target port. *)
Definition route_parts (route : val) (default_domain : string)
  : M (val * val * val * val * val * val) :=
  let* d0 := new_dict [] in
  let* m0 := py_get route "metadata" d0 in
  let* meta := deepcopy m0 in
  let* d1 := new_dict [] in
  let* s0 := py_get route "spec" d1 in
  let* s1 := py_or s0 (new_dict []) in
  let* spec := deepcopy s1 in
  let* name := py_get meta "name" (VStr "web") in
  let* h0 := py_get spec "host" VNone in
  let* host := py_or h0 (let* n := py_format name in
                         ret (VStr (n +:+ "." +:+ default_domain))) in
  let* to0 := py_get spec "to" VNone in
  let* to_ref := py_or to0 (new_dict []) in
  let* sn0 := py_get to_ref "name" VNone in
  let* svc_name := py_or sn0 (ret name) in
  let* p0 := py_get spec "port" VNone in
  let* p1 := py_or p0 (new_dict []) in
  let* tp0 := py_get p1 "targetPort" VNone in
  let* target_port := py_or tp0 (ret (VInt 80)) in
  ret (meta, spec, name, host, svc_name, target_port).

(** The [ingress] display, evaluated left to right. *)
Definition ingress_display (meta name host svc_name target_port : val)
    (ingress_class : string) : M val :=
  let* l0 := py_get meta "labels" VNone in
  let* l1 := py_or l0 (new_dict []) in
  let* items := py_items l1 in
  let* labels := alloc (ODict items) in
  let* anns := new_dict [("kubernetes.io/ingress.class",
                          VStr ingress_class)] in
  let* md := new_dict [("name", name); ("labels", labels);
                       ("annotations", anns)] in
  let* port :=
    (if is_str target_port then new_dict [("name", target_port)]
     else let* z := py_int target_port in
          new_dict [("number", VInt z)]) in
  let* service := new_dict [("name", svc_name); ("port", port)] in
  let* backend := new_dict [("service", service)] in
  let* path := new_dict [("path", VStr "/"); ("pathType", VStr "Prefix");
                         ("backend", backend)] in
  let* paths := new_list [path] in
  let* http := new_dict [("paths", paths)] in
  let* rule := new_dict [("host", host); ("http", http)] in
  let* rules := new_list [rule] in
  let* ispec := new_dict [("rules", rules)] in
  new_dict [("apiVersion", VStr "networking.k8s.io/v1");
            ("kind", VStr "Ingress");
            ("metadata", md); ("spec", ispec)].

Definition to_ingress (route : val)
    (default_domain ingress_class tls_secret : string) : M val :=
  let* '(meta, spec, name, host, svc_name, target_port) :=
    route_parts route default_domain in
  let* ingress :=
    ingress_display meta name host svc_name target_port ingress_class in
  set_tls spec name host ingress tls_secret ;;
  ret ingress.

(** *** Paths ([pathlib]) *)

(** A path is its directory and its final component: [parent p] is the
    text of [p.parent], which is [.] for the current directory. *)
Record path := Path { parent : string; name : string }.

(** The text ends with the separator, as the text of a root does. *)
Fixpoint ends_with_sep (s : string) : bool :=
  match s with
  | EmptyString => false
  | String c EmptyString => Ascii.eqb c "/"%char
  | String _ s' => ends_with_sep s'
  end.

(** [str(p)]: the directory, the separator and the name; the current
    directory is left out, and a root is not followed by a second
    separator. *)
Definition path_str (p : path) : string :=
  if bool_decide (parent p = ".") || bool_decide (parent p = "") then name p
  else if ends_with_sep (parent p) then parent p +:+ name p
  else parent p +:+ "/" +:+ name p.

(** Splits a name at its last dot: [(before, from the dot on)]. *)
Fixpoint last_dot (s : string) : option (string * string) :=
  match s with
  | EmptyString => None
  | String c s' =>
      match last_dot s' with
      | Some (pre, suf) => Some (String c pre, suf)
      | None => if Ascii.eqb c "."%char then Some (EmptyString, s) else None
      end
  end.

(** [p.suffix]: the last dot-separated part of the name, with its dot;
    empty when the only dot leads or ends the name. *)
Definition suffix (p : path) : string :=
  match last_dot (name p) with
  | Some (pre, suf) =>
      if Str.nonempty pre && Nat.ltb 1 (String.length suf) then suf else ""
  | None => ""
  end.

(** [p.with_suffix(s)] for a well-formed suffix [s] *)
Definition with_suffix (p : path) (s : string) : path :=
  match last_dot (name p) with
  | Some (pre, suf) =>
      if Str.nonempty pre && Nat.ltb 1 (String.length suf)
      then Path (parent p) (pre +:+ s)
      else Path (parent p) (name p +:+ s)
  | None => Path (parent p) (name p +:+ s)
  end.

(** [p.with_name(n)] *)
Definition with_name (p : path) (n : string) : path := Path (parent p) n.

(** [out / n] *)
Definition joinpath (dir n : string) : path := Path dir n.

Definition is_yaml_file (p : path) : bool :=
  let s := Str.lower (suffix p) in
  bool_decide (s = ".yml") || bool_decide (s = ".yaml").

(** *** File naming helper *)

(** [{doc.get("kind") for doc in out_docs if isinstance(doc, dict)}]:
    the members of a set are hashable, so a kind that is a dict or a
    list raises. *)
Fixpoint kinds_of (out_docs : list val) : M (list scalar) :=
  match out_docs with
  | [] => ret []
  | doc :: r =>
      let* d := is_dict doc in
      if d then
        let* k := py_get doc "kind" VNone in
        match k with
        | VS s => let* ks := kinds_of r in ret (s :: ks)
        | VRef _ => raise TypeError
        end
      else kinds_of r
  end.

(** The name mappings, in the order of the dict display. *)
Definition mappings : list (string * string * string) :=
  [("DeploymentConfig", "deploymentconfig", "deployment.yaml");
   ("Route", "route", "ingress.yaml")].

Fixpoint first_mapping (ms : list (string * string * string))
    (name_lower : string) (kinds : list scalar) : option string :=
  match ms with
  | [] => None
  | (kind, pattern, new_name) :: r =>
      if Str.contains pattern name_lower
         || bool_decide (SStr kind ∈ kinds)
      then Some new_name
      else first_mapping r name_lower kinds
  end.

Definition map_output_filename (source_path : path) (out_docs : list val)
  : M path :=
  let* kinds_in_output := kinds_of out_docs in
  let name_lower := Str.lower (name source_path) in
  match first_mapping mappings name_lower kinds_in_output with
  | Some new_name => ret (with_name source_path new_name)
  | None => ret source_path
  end.

(** *** Main transform loop *)

Record args := Args {
  out_dir : string;
  default_domain : string;
  ingress_class : string;
  tls_secret : string;
  image_registry : string;
  repo_prefix : string;
}.

(** What [yaml.safe_load_all] makes of the text of a file: an exception
    with its message, or the documents.  The objects of the documents
    are in the store; parsing a file creates them and touches no other
    object. *)
Inductive loaded :=
| LoadError (msg : string)
| Loaded (docs : list val).

(** An entry of the source tree as [rglob] yields it. *)
Record entry := Entry {
  e_path : path;
  e_is_file : bool;
  e_load : loaded;
}.

Record summary := Summary {
  n_DeploymentConfig : nat;
  n_Route : nat;
  n_BuildConfig : nat;
  n_Other : nat;
}.

(** The state of a run: the counters, the warnings in the order they
    were recorded and the files written, each with its documents in the
    order they were dumped. *)
Record run := Run {
  r_summary : summary;
  converted : nat;
  warnings : list string;
  written : list (path * list val);
}.

Definition run0 : run := Run (Summary 0 0 0 0) 0 [] [].

Definition count_DeploymentConfig (r : run) : run :=
  let s := r_summary r in
  Run (Summary (S (n_DeploymentConfig s)) (n_Route s) (n_BuildConfig s)
         (n_Other s))
    (converted r) (warnings r) (written r).

Definition count_Route (r : run) : run :=
  let s := r_summary r in
  Run (Summary (n_DeploymentConfig s) (S (n_Route s)) (n_BuildConfig s)
         (n_Other s))
    (converted r) (warnings r) (written r).

Definition count_BuildConfig (r : run) : run :=
  let s := r_summary r in
  Run (Summary (n_DeploymentConfig s) (n_Route s) (S (n_BuildConfig s))
         (n_Other s))
    (converted r) (warnings r) (written r).

Definition count_Other (r : run) : run :=
  let s := r_summary r in
  Run (Summary (n_DeploymentConfig s) (n_Route s) (n_BuildConfig s)
         (S (n_Other s)))
    (converted r) (warnings r) (written r).

Definition count_converted (r : run) : run :=
  Run (r_summary r) (S (converted r)) (warnings r) (written r).

Definition warn (w : string) (r : run) : run :=
  Run (r_summary r) (converted r) (warnings r ++ [w]) (written r).

Definition write (dest : path) (docs : list val) (r : run) : run :=
  Run (r_summary r) (converted r) (warnings r) (written r ++ [(dest, docs)]).

(** The warning recorded for a BuildConfig. *)
Definition buildconfig_warning (a : args) (n : string) : string :=
  "BuildConfig '" +:+ n +:+ "' skipped: "
  +:+ "move builds to CI (e.g., GitHub Actions) and push images to "
  +:+ (if Str.nonempty (image_registry a) then image_registry a else "ACR")
  +:+ ".".

(** The pass-through branch: remove the OpenShift-only annotations of
    the document, in place. *)
Definition strip_annotations (doc : val) : M unit :=
  let* md := py_get doc "metadata" VNone in
  let* d := is_dict md in
  if d then
    let* md := py_getitem doc "metadata" in
    let* a0 := py_get md "annotations" VNone in
    let* anns := filter_annotations a0 in
    let* b := py_bool anns in
    if b then
      let* md := py_getitem doc "metadata" in
      py_setitem md "annotations" anns
    else
      let* md := py_getitem doc "metadata" in
      py_pop md "annotations" ;; ret tt
  else ret tt.

(** One turn of the loop over the documents of a file; the state is the
    run and the [out_docs] of the file. *)
Definition dispatch (a : args) (doc : val) (st : run * list val)
  : M (run * list val) :=
  let '(r, out_docs) := st in
  let* d := is_dict doc in
  if negb d then ret st
  else
    let* has_kind := py_in "kind" doc in
    if negb has_kind then ret st
    else
      let* kind := py_get doc "kind" VNone in
      if decide (kind = VStr "DeploymentConfig") then
        let r := count_DeploymentConfig r in
        let* dep := to_deployment doc (image_registry a) (repo_prefix a) in
        ret (count_converted r, out_docs ++ [dep])
      else if decide (kind = VStr "Route") then
        let r := count_Route r in
        let* ing := to_ingress doc (default_domain a) (ingress_class a)
                      (tls_secret a) in
        ret (count_converted r, out_docs ++ [ing])
      else if decide (kind = VStr "BuildConfig") then
        let r := count_BuildConfig r in
        let* e := new_dict [] in
        let* md := py_get doc "metadata" e in
        let* n := py_get md "name" (VStr "unnamed") in
        let* n := py_format n in
        ret (warn (buildconfig_warning a n) r, out_docs)
      else
        let r := count_Other r in
        strip_annotations doc ;;
        ret (r, out_docs ++ [doc])
  .

Fixpoint dispatch_all (a : args) (docs : list val) (st : run * list val)
  : M (run * list val) :=
  match docs with
  | [] => ret st
  | doc :: docs' =>
      let* st' := dispatch a doc st in
      dispatch_all a docs' st'
  end.

(** One turn of the loop over the source tree. *)
Definition process_entry (a : args) (e : entry) (r : run) : M run :=
  if negb (e_is_file e) || negb (is_yaml_file (e_path e)) then ret r
  else
    match e_load e with
    | LoadError msg =>
        ret (warn ("Failed to parse " +:+ path_str (e_path e) +:+ ": "
                   +:+ msg) r)
    | Loaded docs =>
        let* '(r, out_docs) := dispatch_all a docs (r, []) in
        match out_docs with
        | [] => ret r
        | _ :: _ =>
            let* mapped_filename :=
              map_output_filename (e_path e) out_docs in
            let dest := with_suffix
                          (joinpath (out_dir a) (name mapped_filename))
                          ".yaml" in
            ret (write dest out_docs r)
        end
    end.

Fixpoint process_all (a : args) (es : list entry) (r : run) : M run :=
  match es with
  | [] => ret r
  | e :: es' =>
      let* r' := process_entry a e r in
      process_all a es' r'
  end.

(** The run up to the report: the report is rendered from the final
    state of the run. *)
Definition main (a : args) (tree : list entry) : M run :=
  process_all a tree run0.

(** The summary section of the report. *)
Definition report_summary (r : run) : list string :=
  let s := r_summary r in
  let n k := Str.of_Z (Z.of_nat k) in
  ["- DeploymentConfigs converted: **" +:+ n (n_DeploymentConfig s) +:+ "**";
   "- Routes converted: **" +:+ n (n_Route s) +:+ "**";
   "- BuildConfigs skipped (see notes): **" +:+ n (n_BuildConfig s) +:+ "**";
   "- Other resources passed through: **" +:+ n (n_Other s) +:+ "**";
   "- Total converted: **" +:+ n (converted r) +:+ "**"
     +:+ String (ascii_of_nat 10) EmptyString].

End Program.

(** * Specification vocabulary *)

(** ** Reading the store *)

(** The truth value of [v] in the store [h]. *)
Definition truthy (h : heap) (v : val) : bool :=
  match v with
  | VS s => truthy_scalar s
  | VRef a => match h !! a with Some o => truthy_obj o | None => false end
  end.

(** The items of [v] when it is a dict. *)
Definition dict_items (h : heap) (v : val) : option (list (scalar * val)) :=
  match v with
  | VRef a => match h !! a with Some (ODict kvs) => Some kvs | _ => None end
  | VS _ => None
  end.

(** The value under the key [k] of the dict [d], if [d] is a dict that
    has the key. *)
Definition get (h : heap) (d : val) (k : string) : option val :=
  dict_items h d ≫= Dict.get (SStr k).

(** [rd h d k] is [d.get(k)] read leniently: None when [d] is no dict. *)
Definition rd (h : heap) (d : val) (k : string) : val :=
  default VNone (get h d k).

(** The value reached from [v] through the keys [ks]. *)
Fixpoint at_path (h : heap) (v : val) (ks : list string) : option val :=
  match ks with
  | [] => Some v
  | k :: ks' =>
      match get h v k with
      | Some v' => at_path h v' ks'
      | None => None
      end
  end.

(** ** Well-formed stores *)

Definition val_ok (n : nat) (v : val) : Prop :=
  match v with
  | VRef a => a < n
  | VS _ => True
  end.

Definition obj_ok (n : nat) (o : obj) : Prop := Forall (val_ok n) (obj_vals o).

(** No object refers outside the store. *)
Definition wf (h : heap) : Prop :=
  ∀ a o, h !! a = Some o → obj_ok (length h) o.

(** ** Copies *)

(** The renaming of references by a memo. *)
Definition rn (m : memo) (v : val) : val :=
  match v with
  | VRef a => match m !! a with Some a' => VRef a' | None => v end
  | VS _ => v
  end.

Definition obj_map (f : val → val) (o : obj) : obj :=
  match o with
  | ODict kvs => ODict (prod_map id f <$> kvs)
  | OList xs => OList (f <$> xs)
  end.

Definition covered (m : memo) (v : val) : Prop :=
  match v with
  | VRef a => is_Some (m !! a)
  | VS _ => True
  end.

(** The invariants of a copy in progress from the store [H0]. *)
Definition memo_ok (H0 : heap) (m : memo) (n : nat) : Prop :=
  ∀ a a' : addr, m !! a = Some a' → a < length H0 ∧ length H0 ≤ a' < n.

Definition copy_pre (H0 : heap) (m : memo) (h : heap) : Prop :=
  (∃ hx, h = H0 ++ hx) ∧ memo_ok H0 m (length h).

Definition copy_post (H0 : heap) (m : memo) (h : heap) (vs vs' : list val)
    (m' : memo) (h' : heap) : Prop :=
  (∃ h1, h' = h ++ h1) ∧ m ⊆ m' ∧ memo_ok H0 m' (length h') ∧
  Forall (covered m') vs ∧ vs' = rn m' <$> vs ∧
  (∀ a a' : addr, m' !! a = Some a' → m !! a = None →
     length h ≤ a' ∧
     ∃ o, H0 !! a = Some o ∧ h' !! a' = Some (obj_map (rn m') o) ∧
          Forall (covered m') (obj_vals o)) ∧
  (∀ a' : addr, length h ≤ a' < length h' →
     ∃ a, m' !! a = Some a' ∧ m !! a = None).

(** The number of objects of [H0] a copy has not started on. *)
Definition measure (H0 : heap) (m : memo) : nat :=
  size (set_seq 0 (length H0) ∖ dom m : gset nat).

(** [v'] in [h'] is the copy of [v] in [h]: the store has only grown, by
    exactly the copies of the objects reachable from [v], and each copy is
    its original with the references renamed by [m]. *)
Definition copy_of (h : heap) (v : val) (m : memo) (h' : heap) (v' : val)
  : Prop :=
  (∃ h1, h' = h ++ h1) ∧ covered m v ∧ v' = rn m v ∧
  (∀ a a' : addr, m !! a = Some a' →
     a < length h ∧ length h ≤ a' < length h' ∧
     ∃ o, h !! a = Some o ∧ h' !! a' = Some (obj_map (rn m) o) ∧
          Forall (covered m) (obj_vals o)) ∧
  (∀ a' : addr, length h ≤ a' < length h' → ∃ a, m !! a = Some a').

(** ** The content of a value

    The tree a value unfolds to, cut at depth [n]. Two values have the same
    content when their trees agree at every depth. *)

#[warnings="-register-all"]
Inductive tree :=
| TS (s : scalar)
| TD (kvs : list (scalar * tree))
| TL (xs : list tree)
| TCut.

Fixpoint content (n : nat) (h : heap) (v : val) : tree :=
  match v with
  | VS s => TS s
  | VRef a =>
      match n with
      | 0 => TCut
      | S n' =>
          match h !! a with
          | Some (ODict kvs) => TD (prod_map id (content n' h) <$> kvs)
          | Some (OList xs) => TL (content n' h <$> xs)
          | None => TCut
          end
      end
  end.

(** The objects a value reaches. *)
Inductive reach (h : heap) : val → addr → Prop :=
| reach_here a : reach h (VRef a) a
| reach_step a o v b :
    h !! a = Some o → v ∈ obj_vals o → reach h v b → reach h (VRef a) b.

(** ** Image references *)

(** The heuristic for an image that is already fully qualified. *)
Definition image_qualified (image : string) : bool :=
  Str.nonempty image
  && (Str.contains "/" image || Str.contains "." image)
  && Str.contains ":" image.

(** The key of an item does not have the OpenShift prefix. *)
Definition foreign_key (kv : scalar * val) : bool :=
  match kv.1 with
  | SStr k => negb (Str.startswith k openshift_prefix)
  | _ => true
  end.

(** ** Warnings *)

(** The text that stands for the name of a BuildConfig in its warning:
    the name under its metadata, [unnamed] when it has none. *)
Definition buildconfig_name (py_repr : heap → addr → string) (h : heap)
    (doc : val) : string :=
  let n := match get h doc "metadata" with
           | Some md => default (VStr "unnamed") (get h md "name")
           | None => VStr "unnamed"
           end in
  match n with
  | VS s => format_scalar s
  | VRef a => py_repr (h ++ [ODict []]) a
  end.

(** Every copy in [h'] mirrors its original in [h]. *)
Definition mirrored (h : heap) (m : memo) (h' : heap) : Prop :=
  ∀ a a' : addr, m !! a = Some a' →
    ∃ o, h !! a = Some o ∧ h' !! a' = Some (obj_map (rn m) o) ∧
         Forall (covered m) (obj_vals o).

(** ** Ingress TLS *)


(** The name, the host and the TLS declaration of a Route, read from the
    source. *)
Definition route_name (h : heap) (route : val) : val :=
  default (VStr "web") (get h (rd h route "metadata") "name").

Definition route_host (h : heap) (route : val) : val :=
  rd h (rd h route "spec") "host".

Definition route_tls (h : heap) (route : val) : val :=
  rd h (rd h route "spec") "tls".

(** ** Stores that evolve by [norm_labels]

    [norm_labels] adds to a dict that has no [labels] key such a key, in
    place.  Apart from growing, this is the only change the converters
    make to the copies before they read them. *)

Definition labels_added (o o' : obj) : Prop :=
  ∃ kvs lv, o = ODict kvs ∧ kvs ≠ [] ∧
    Dict.get (SStr "labels") kvs = None ∧
    o' = ODict (kvs ++ [(SStr "labels", lv)]).

Definition lext (h h' : heap) : Prop :=
  ∀ a o, h !! a = Some o →
    ∃ o', h' !! a = Some o' ∧ (o' = o ∨ labels_added o o').

(** Reading the copy [rn m x] in [hc] is reading [x] in [hs], but for
    the [labels] key. *)
Definition lmirror (m : memo) (hs hc : heap) : Prop :=
  ∀ x, covered m x →
    truthy hc (rn m x) = truthy hs x ∧
    (is_Some (dict_items hc (rn m x)) ↔ is_Some (dict_items hs x)) ∧
    ∀ k, k ≠ "labels" →
      get hc (rn m x) k = rn m <$> get hs x k ∧
      ∀ v, get hs x k = Some v → covered m v.

(** ** Regions of the store *)

Definition in_region (lo hi : nat) (v : val) : Prop :=
  match v with
  | VRef a => lo ≤ a < hi
  | VS _ => True
  end.

(** The objects of the region refer to objects of the region only. *)
Definition closed_region (lo hi : nat) (h : heap) : Prop :=
  ∀ a o, lo ≤ a < hi → h !! a = Some o → Forall (in_region lo hi) (obj_vals o).

(** [v] stands for the source value [vs]: it is its copy, or [vs] is
    falsy and [v] is an empty dict made in its place. *)
Definition copy_or_fresh (m : memo) (hs hc : heap) (lo : nat) (vs v : val)
  : Prop :=
  (covered m vs ∧ v = rn m vs) ∨
  (truthy hs vs = false ∧
   ∃ a, v = VRef a ∧ lo ≤ a ∧ hc !! a = Some (ODict [])).

(** ** The source of a Deployment *)

Definition dc_name (h : heap) (dc : val) : val :=
  default (VStr "app") (get h (rd h dc "metadata") "name").

Definition dc_labels (h : heap) (dc : val) : val :=
  rd h (rd h dc "metadata") "labels".

Definition dc_template_labels (h : heap) (dc : val) : val :=
  rd h (rd h (rd h (rd h dc "spec") "template") "metadata") "labels".

(** The strategy of the source, whether its type asks for [Recreate], and
    a parameter of its rolling update. *)
Definition dc_strategy (h : heap) (dc : val) : val :=
  rd h (rd h dc "spec") "strategy".

Definition strategy_recreate (h : heap) (st : val) : bool :=
  match rd h st "type" with
  | VS (SStr s) => Str.startswith (Str.lower s) "recreate"
  | _ => false
  end.

Definition rolling_param (h : heap) (st : val) (k : string) : option val :=
  get h (rd h st "rollingParams") k.

(** The value of a rolling-update parameter in the Deployment: the one
    of the source, copied with the spec when it is not a scalar, or the
    default. *)
Definition param_value (src : option val) (v : val) : Prop :=
  match src with
  | None => v = VStr "25%"
  | Some (VS s) => v = VS s
  | Some (VRef _) => ∃ a, v = VRef a
  end.

(** The annotations and the replicas of the source. *)
Definition dc_annotations (h : heap) (dc : val) : val :=
  rd h (rd h dc "metadata") "annotations".

Definition dc_replicas (h : heap) (dc : val) : option val :=
  get h (rd h dc "spec") "replicas".

(** The values of the items are scalars. *)
Definition scalar_items (kvs : list (scalar * val)) : Prop :=
  Forall (λ kv, ∃ s, kv.2 = VS s) kvs.

(** ** The containers of a Deployment *)

(** The value under [k], if any, is a scalar. *)
Definition scalar_at (kvs : list (scalar * val)) (k : string) : Prop :=
  ∀ v, Dict.get (SStr k) kvs = Some v → ∃ s, v = VS s.

(** The items of a container once its image is [img] and its pull policy
    is defaulted. *)
Definition normalized (img : val) (kvs : list (scalar * val))
  : list (scalar * val) :=
  let kvs1 := Dict.set (SStr "image") img kvs in
  if match Dict.get (SStr "imagePullPolicy") kvs with
     | Some (VS s) => truthy_scalar s
     | _ => false
     end
  then kvs1
  else Dict.set (SStr "imagePullPolicy") (VStr "IfNotPresent") kvs1.

(** A container the loop can be followed on: a map whose image, name and
    pull policy are scalars where it has them. *)
Definition plain_container (h : heap) (c : val) : Prop :=
  ∃ a kvs, c = VRef a ∧ h !! a = Some (ODict kvs) ∧
    scalar_at kvs "image" ∧ scalar_at kvs "name" ∧
    scalar_at kvs "imagePullPolicy".

(** ** A sample DeploymentConfig

    [{kind: DeploymentConfig,
      metadata: {name: web, labels: {app: web-top}},
      spec: {replicas: 2,
             strategy: {type: Rolling, rollingParams: {maxSurge: 50%}},
             template: {metadata: {labels: {app: web, tier: front}},
                        spec: {containers: [{name: web, image: web}]}}}}]
    at address [0]. *)
Definition sample_dc : heap :=
  [ODict [(SStr "kind", VStr "DeploymentConfig"); (SStr "metadata", VRef 1);
          (SStr "spec", VRef 2)];
   ODict [(SStr "name", VStr "web"); (SStr "labels", VRef 3)];
   ODict [(SStr "replicas", VInt 2); (SStr "strategy", VRef 4);
          (SStr "template", VRef 6)];
   ODict [(SStr "app", VStr "web-top")];
   ODict [(SStr "type", VStr "Rolling"); (SStr "rollingParams", VRef 5)];
   ODict [(SStr "maxSurge", VStr "50%")];
   ODict [(SStr "metadata", VRef 7); (SStr "spec", VRef 9)];
   ODict [(SStr "labels", VRef 8)];
   ODict [(SStr "app", VStr "web"); (SStr "tier", VStr "front")];
   ODict [(SStr "containers", VRef 10)];
   OList [VRef 11];
   ODict [(SStr "name", VStr "web"); (SStr "image", VStr "web")]].

(** ** A sample Route

    [{kind: Route,
      metadata: {name: api, labels: {app: api},
                 annotations: {haproxy.router.openshift.io/timeout: 30s}},
      spec: {host: api.example.com, to: {kind: Service, name: api-svc},
             port: {targetPort: http}}}]
    at address [0]. *)
Definition sample_route : heap :=
  [ODict [(SStr "kind", VStr "Route"); (SStr "metadata", VRef 1);
          (SStr "spec", VRef 2)];
   ODict [(SStr "name", VStr "api"); (SStr "labels", VRef 3);
          (SStr "annotations", VRef 4)];
   ODict [(SStr "host", VStr "api.example.com"); (SStr "to", VRef 5);
          (SStr "port", VRef 6)];
   ODict [(SStr "app", VStr "api")];
   ODict [(SStr "haproxy.router.openshift.io/timeout", VStr "30s")];
   ODict [(SStr "kind", VStr "Service"); (SStr "name", VStr "api-svc")];
   ODict [(SStr "targetPort", VStr "http")]].

(** ** A sample Deployment before the loop over its containers

    [{spec: {template: {spec: {containers: [
        {name: web, image: web},
        {name: db, image: quay.io/shop/db:1, imagePullPolicy: Always}]}}}}]
    at address [0]. *)
Definition sample_containers : heap :=
  [ODict [(SStr "spec", VRef 1)];
   ODict [(SStr "template", VRef 2)];
   ODict [(SStr "spec", VRef 3)];
   ODict [(SStr "containers", VRef 4)];
   OList [VRef 5; VRef 6];
   ODict [(SStr "name", VStr "web"); (SStr "image", VStr "web")];
   ODict [(SStr "name", VStr "db"); (SStr "image", VStr "quay.io/shop/db:1");
          (SStr "imagePullPolicy", VStr "Always")]].

(** ** Results that fit the store

    [okay n x]: the references in [x] are below [n].  A computation is
    [sound] when, from a well-formed store, it keeps the store well-formed,
    only makes it longer, returns a result that fits it, and never fails
    with the error of the model, [Stuck]: its failures are the exceptions
    of Python. *)
Class Okay (A : Type) := {
  okay : nat → A → Prop;
  okay_mono : ∀ n m x, n ≤ m → okay n x → okay m x
}.

#[global] Instance unit_okay : Okay unit := {|
  okay := λ _ _, True; okay_mono := λ _ _ _ _ _, I |}.

#[global] Instance bool_okay : Okay bool := {|
  okay := λ _ _, True; okay_mono := λ _ _ _ _ _, I |}.

#[global] Instance string_okay : Okay string := {|
  okay := λ _ _, True; okay_mono := λ _ _ _ _ _, I |}.

#[global] Instance Z_okay : Okay Z := {|
  okay := λ _ _, True; okay_mono := λ _ _ _ _ _, I |}.

#[global] Instance scalar_okay : Okay scalar := {|
  okay := λ _ _, True; okay_mono := λ _ _ _ _ _, I |}.

#[global] Instance addr_okay : Okay addr := {|
  okay := λ n a, a < n;
  okay_mono := λ n m a Hn Ha, Nat.lt_le_trans a n m Ha Hn |}.

#[global] Instance val_okay : Okay val.
Proof.
  refine {| okay := val_ok |}. intros n m [s|a]; simpl; [done|lia].
Defined.

#[global] Instance obj_okay : Okay obj.
Proof.
  refine {| okay := obj_ok |}. intros n m o Hn Ho. unfold obj_ok.
  eapply Forall_impl; [exact Ho|]. intros [s|a]; simpl; [done|lia].
Defined.

#[global] Instance prod_okay `{Okay A, Okay B} : Okay (A * B).
Proof.
  refine {| okay := λ n p, okay n p.1 ∧ okay n p.2 |}.
  intros n m [x y] Hn [Hx Hy]. split; by eapply okay_mono.
Defined.

#[global] Instance list_okay `{Okay A} : Okay (list A).
Proof.
  refine {| okay := λ n, Forall (okay n) |}.
  intros n m xs Hn Hxs. eapply Forall_impl; [exact Hxs|].
  intros x. by apply okay_mono.
Defined.

#[global] Instance path_okay : Okay path := {|
  okay := λ _ _, True; okay_mono := λ _ _ _ _ _, I |}.

#[global] Instance run_okay : Okay run.
Proof.
  refine {| okay := λ n r, okay n (written r) |}.
  intros n m r. apply okay_mono.
Defined.

#[global] Instance entry_okay : Okay entry.
Proof.
  refine {| okay := λ n e, match e_load e with
                           | Loaded docs => okay n docs
                           | LoadError _ => True
                           end |}.
  intros n m e Hn. destruct (e_load e); [done|]. by apply okay_mono.
Defined.

Definition sound `{Okay A} (n : nat) (c : M A) : Prop :=
  ∀ h, wf h → n ≤ length h →
    match c h with
    | Ok (x, h') => wf h' ∧ length h ≤ length h' ∧ okay (length h') x
    | Raise e => e ≠ Stuck
    end.

(** ** Computations confined to the new part of the store

    [within lo n x]: the references in [x] are in the region from [lo]
    to [n].  A computation is [tidy] from [lo] when, on a store whose
    objects from [lo] on refer to such objects only, it changes no object
    below [lo], keeps the region closed and returns a result in it. *)
Class Within (A : Type) := {
  within : nat → nat → A → Prop;
  within_mono : ∀ lo n m x, n ≤ m → within lo n x → within lo m x
}.

#[global] Instance unit_within : Within unit := {|
  within := λ _ _ _, True; within_mono := λ _ _ _ _ _ _, I |}.

#[global] Instance bool_within : Within bool := {|
  within := λ _ _ _, True; within_mono := λ _ _ _ _ _ _, I |}.

#[global] Instance string_within : Within string := {|
  within := λ _ _ _, True; within_mono := λ _ _ _ _ _ _, I |}.

#[global] Instance Z_within : Within Z := {|
  within := λ _ _ _, True; within_mono := λ _ _ _ _ _ _, I |}.

#[global] Instance scalar_within : Within scalar := {|
  within := λ _ _ _, True; within_mono := λ _ _ _ _ _ _, I |}.

#[global] Instance addr_within : Within addr.
Proof.
  refine {| within := λ lo n a, lo ≤ a < n |}. intros lo n m a. lia.
Defined.

#[global] Instance val_within : Within val.
Proof.
  refine {| within := in_region |}. intros lo n m [s|a]; simpl; [done|lia].
Defined.

#[global] Instance obj_within : Within obj.
Proof.
  refine {| within := λ lo n o, Forall (in_region lo n) (obj_vals o) |}.
  intros lo n m o Hn Ho.
  eapply Forall_impl; [exact Ho|]. intros [s|a]; simpl; [done|lia].
Defined.

#[global] Instance prod_within `{Within A, Within B} : Within (A * B).
Proof.
  refine {| within := λ lo n p, within lo n p.1 ∧ within lo n p.2 |}.
  intros lo n m [x y] Hn [Hx Hy]. split; by eapply within_mono.
Defined.

#[global] Instance list_within `{Within A} : Within (list A).
Proof.
  refine {| within := λ lo n, Forall (within lo n) |}.
  intros lo n m xs Hn Hxs. eapply Forall_impl; [exact Hxs|].
  intros x. by apply within_mono.
Defined.

Definition tidy `{Within A} (lo n : nat) (c : M A) : Prop :=
  ∀ h, wf h → n ≤ length h → lo ≤ length h →
    closed_region lo (length h) h →
    match c h with
    | Ok (x, h') =>
        wf h' ∧ length h ≤ length h' ∧
        (∀ a, a < lo → h' !! a = h !! a) ∧
        closed_region lo (length h') h' ∧ within lo (length h') x
    | Raise _ => True
    end.

(** ** The destination of a file

    The name a file gets by the patterns of the name mapping alone, and
    the path it is then written to. *)
Definition mapped_name (n : string) : string :=
  if Str.contains "deploymentconfig" (Str.lower n) then "deployment.yaml"
  else if Str.contains "route" (Str.lower n) then "ingress.yaml"
  else n.

Definition destination (a : args) (p : path) : path :=
  with_suffix (joinpath (out_dir a) (mapped_name (name p))) ".yaml".

(** ** The documents of a run by their kind *)

(** What the loop over the documents does with a document: it skips what
    is no map or has no [kind], and tells the three kinds of the source
    platform from the rest. *)
Inductive class :=
| Skipped
| IsDeploymentConfig
| IsRoute
| IsBuildConfig
| IsOther.

#[global] Instance class_eq_dec : EqDecision class.
Proof. solve_decision. Defined.

Definition classify (h : heap) (doc : val) : class :=
  match get h doc "kind" with
  | None => Skipped
  | Some k =>
      if decide (k = VStr "DeploymentConfig") then IsDeploymentConfig
      else if decide (k = VStr "Route") then IsRoute
      else if decide (k = VStr "BuildConfig") then IsBuildConfig
      else IsOther
  end.

(** The classes whose documents go to the output of the file. *)
Definition emits (c : class) : bool :=
  match c with
  | IsDeploymentConfig | IsRoute | IsOther => true
  | Skipped | IsBuildConfig => false
  end.

Definition count_class (h : heap) (c : class) (docs : list val) : nat :=
  length (filter (λ d, classify h d = c) docs).

(** The documents a run goes through: those of the YAML files that
    parse. *)
Definition docs_of (e : entry) : list val :=
  if e_is_file e && is_yaml_file (e_path e) then
    match e_load e with
    | Loaded docs => docs
    | LoadError _ => []
    end
  else [].

(** A file is written for an entry when one of its documents is
    converted or passed through. *)
Definition has_output (h : heap) (e : entry) : bool :=
  existsb (λ d, emits (classify h d)) (docs_of e).

(** The kind of a document is not one that the name mapping looks for. *)
Definition plain_kind (h : heap) (d : val) : Prop :=
  get h d "kind" ≠ Some (VStr "DeploymentConfig") ∧
  get h d "kind" ≠ Some (VStr "Route").

(** ** The accounts of a run *)

(** The number of documents written, over all the files. *)
Definition docs_written (r : run) : nat :=
  length (mjoin ((λ w : path * list val, w.2) <$> written r)).

(** A YAML file of the source tree that failed to parse. *)
Definition parse_failed (e : entry) : bool :=
  e_is_file e && is_yaml_file (e_path e)
  && match e_load e with LoadError _ => true | Loaded _ => false end.

(** ** The source of an Ingress *)

(** The labels of a Route, the name of its service and its target port,
    read from the source with the defaults of [to_ingress]. *)
Definition route_labels (h : heap) (route : val) : val :=
  rd h (rd h route "metadata") "labels".

Definition route_service (h : heap) (route : val) : val :=
  let n := rd h (rd h (rd h route "spec") "to") "name" in
  if truthy h n then n else route_name h route.

Definition route_port (h : heap) (route : val) : val :=
  let p := rd h (rd h (rd h route "spec") "port") "targetPort" in
  if truthy h p then p else VInt 80.

(** [out] has the items of [src], key by key: the scalars as they are,
    the others replaced by references. *)
Definition same_items (src out : list (scalar * val)) : Prop :=
  Forall2 (λ kv kv' : scalar * val,
             kv'.1 = kv.1 ∧
             match kv.2 with
             | VS s => kv'.2 = VS s
             | VRef _ => ∃ a, kv'.2 = VRef a
             end) src out.

(** The port of a backend: a string is the name of a port, a number is its
    number, and a boolean counts as a number. *)
Definition backend_port (p : scalar) : list (scalar * tree) :=
  match p with
  | SStr n => [(SStr "name", TS (SStr n))]
  | SInt z => [(SStr "number", TS (SInt z))]
  | SBool b => [(SStr "number", TS (SInt (if b then 1 else 0)))]
  | SNone => []
  end.

(** * Properties *)

(** ** The state monad *)

Lemma bind_Ok {A B} (c : M A) (k : A → M B) h y h' :
  bind c k h = Ok (y, h') ↔ ∃ x h1, c h = Ok (x, h1) ∧ k x h1 = Ok (y, h').
Proof.
  unfold bind. split.
  - destruct (c h) as [[x h1]|e]; [eauto|done].
  - by intros (x & h1 & -> & ?).
Qed.

Lemma bind_eq {A B} (c : M A) (k : A → M B) h x h1 :
  c h = Ok (x, h1) → bind c k h = k x h1.
Proof. unfold bind. by intros ->. Qed.

Lemma ret_Ok {A} (x y : A) h h' : ret x h = Ok (y, h') ↔ y = x ∧ h' = h.
Proof. unfold ret. naive_solver. Qed.

(** ** Strings and paths *)

Lemma append_nonempty_r (s t : string) : t ≠ "" → s +:+ t ≠ "".
Proof. destruct s; simpl; [done|]. discriminate. Qed.

Lemma nonempty_true (s : string) : Str.nonempty s = true ↔ s ≠ "".
Proof. destruct s; simpl; split; (done || discriminate). Qed.

Lemma last_dot_yaml (pre : string) :
  last_dot (pre +:+ ".yaml") = Some (pre, ".yaml").
Proof.
  induction pre as [|c pre IH]; [reflexivity|].
  simpl. simpl in IH. by rewrite IH.
Qed.

Lemma suffix_yaml (d pre : string) :
  pre ≠ "" → suffix (Path d (pre +:+ ".yaml")) = ".yaml".
Proof.
  intros Hpre. unfold suffix. simpl name. rewrite last_dot_yaml.
  apply nonempty_true in Hpre. by rewrite Hpre.
Qed.

(** A file that passes [is_yaml_file] has a stem, and [with_suffix]
    replaces what follows it. *)
Lemma is_yaml_file_with_suffix (p : path) (d : string) :
  is_yaml_file p = true →
  ∃ pre suf, last_dot (name p) = Some (pre, suf) ∧ pre ≠ "" ∧
    with_suffix (joinpath d (name p)) ".yaml" = Path d (pre +:+ ".yaml").
Proof.
  unfold is_yaml_file, suffix, with_suffix, joinpath. simpl.
  destruct (last_dot (name p)) as [[pre suf]|]; [|done].
  destruct (Str.nonempty pre && Nat.ltb 1 (String.length suf)) eqn:E; [|done].
  intros _. exists pre, suf. apply andb_true_iff in E as [E _].
  by apply nonempty_true in E.
Qed.

(** ** The image resolver *)

Section Images.

Variable py_repr : heap → addr → string.

(** What [map_image] returns on strings. *)
Lemma map_image_str (image name_hint image_registry repo_prefix : string)
    (h : heap) :
  map_image py_repr (VStr image) (VStr name_hint) image_registry repo_prefix h
  = Ok (VStr (if image_qualified image then image
              else if Str.nonempty image_registry
                      && Str.contains ":" image_registry
              then image_registry
              else
                let repo := if Str.nonempty repo_prefix
                            then repo_prefix +:+ "/" +:+ name_hint
                            else name_hint in
                if Str.nonempty image_registry
                then image_registry +:+ "/" +:+ repo +:+ ":latest"
                else if Str.nonempty image then image
                     else repo +:+ ":latest"), h).
Proof.
  unfold map_image, image_qualified, py_or, py_bool, bind, ret, py_in.
  simpl.
  destruct (Str.nonempty image) eqn:Hi; simpl; rewrite ?Hi; simpl;
    destruct (Str.contains "/" image); simpl;
    destruct (Str.contains "." image); simpl;
    destruct (Str.contains ":" image); simpl; try done;
    destruct (Str.nonempty image_registry && Str.contains ":" image_registry);
    try done;
    destruct (Str.nonempty repo_prefix); simpl;
    destruct (Str.nonempty image_registry); simpl; rewrite ?Hi; done.
Qed.

(** C2. An image that is not empty, contains a path separator or a dot,
    and contains a colon is returned unchanged, whatever the name hint,
    the registry override and the repository prefix are. *)
Theorem map_image_qualified (image : string) (name_hint : val)
    (image_registry repo_prefix : string) (h : heap) :
  image ≠ "" →
  Str.contains "/" image = true ∨ Str.contains "." image = true →
  Str.contains ":" image = true →
  map_image py_repr (VStr image) name_hint image_registry repo_prefix h
  = Ok (VStr image, h).
Proof.
  intros Hne Hsep Hcolon. apply nonempty_true in Hne.
  unfold map_image, py_or, py_bool, bind, ret, py_in. simpl.
  rewrite Hne. simpl. rewrite Hne, Hcolon.
  destruct Hsep as [-> | ->]; [done|].
  by destruct (Str.contains "/" image).
Qed.

(** C3. For an image that does not look fully qualified and a registry
    override without a colon, [map_image] returns
    [registry/repo:latest] when the override is not empty, else the
    image when it is not empty, else [repo:latest], where [repo] is
    [prefix/hint] when the prefix is not empty and [hint] otherwise;
    the documented example evaluates as stated; and on strings the
    result is never the empty string. *)
Theorem map_image_unqualified :
  (∀ image name_hint image_registry repo_prefix h,
     image_qualified image = false →
     Str.contains ":" image_registry = false →
     map_image py_repr (VStr image) (VStr name_hint)
       image_registry repo_prefix h
     = Ok (VStr (let repo := if Str.nonempty repo_prefix
                             then repo_prefix +:+ "/" +:+ name_hint
                             else name_hint in
                 if Str.nonempty image_registry
                 then image_registry +:+ "/" +:+ repo +:+ ":latest"
                 else if Str.nonempty image then image
                      else repo +:+ ":latest"), h)) ∧
  (∀ h, map_image py_repr (VStr "") (VStr "web") "myacr.azurecr.io" "apps" h
        = Ok (VStr "myacr.azurecr.io/apps/web:latest", h)) ∧
  (∀ image name_hint image_registry repo_prefix h,
     ∃ s, map_image py_repr (VStr image) (VStr name_hint)
            image_registry repo_prefix h = Ok (VStr s, h) ∧ s ≠ "").
Proof.
  split_and!.
  - intros image name_hint image_registry repo_prefix h Hq Hc.
    rewrite map_image_str, Hq, Hc, andb_false_r. done.
  - intros h. by rewrite map_image_str.
  - intros image name_hint image_registry repo_prefix h.
    eexists. split; [apply map_image_str|].
    destruct (image_qualified image) eqn:Hq.
    { unfold image_qualified in Hq.
      apply andb_true_iff in Hq as [Hq _].
      apply andb_true_iff in Hq as [Hq _]. by apply nonempty_true. }
    destruct (Str.nonempty image_registry && Str.contains ":" image_registry)
      eqn:Hr.
    { apply andb_true_iff in Hr as [Hr _]. by apply nonempty_true. }
    cbv zeta.
    destruct (Str.nonempty image_registry).
    { by apply append_nonempty_r. }
    destruct (Str.nonempty image) eqn:Hi; [by apply nonempty_true|].
    by apply append_nonempty_r.
Qed.

End Images.

(** ** Inversion of the primitives *)

Ltac inv_bind H :=
  let x := fresh "x" in
  let h := fresh "h" in
  let E := fresh "E" in
  apply bind_Ok in H as (x & h & E & H).

Ltac inv_ret H :=
  unfold ret in H; simplify_eq.

Lemma alloc_Ok o h v h' :
  alloc o h = Ok (v, h') ↔ v = VRef (length h) ∧ h' = h ++ [o].
Proof. unfold alloc. naive_solver. Qed.

Lemma new_dict_Ok kvs h v h' :
  new_dict kvs h = Ok (v, h') ↔
  v = VRef (length h) ∧ h' = h ++ [ODict (prod_map SStr id <$> kvs)].
Proof. apply alloc_Ok. Qed.

Lemma new_list_Ok xs h v h' :
  new_list xs h = Ok (v, h') ↔ v = VRef (length h) ∧ h' = h ++ [OList xs].
Proof. apply alloc_Ok. Qed.

Lemma load_Ok a h o h' : load a h = Ok (o, h') ↔ h !! a = Some o ∧ h' = h.
Proof. unfold load. destruct (h !! a); naive_solver. Qed.

Lemma store_Ok a o h u h' : store a o h = Ok (u, h') ↔ h' = <[a:=o]> h.
Proof. unfold store. destruct u. naive_solver. Qed.

Lemma py_bool_Ok v h b h' :
  py_bool v h = Ok (b, h') → b = truthy h v ∧ h' = h.
Proof.
  destruct v as [s|a]; simpl.
  - intros H. by inv_ret H.
  - intros H. inv_bind H. apply load_Ok in E as [E ->]. inv_ret H.
    by rewrite E.
Qed.

Lemma py_or_Ok v alt h v' h' :
  py_or v alt h = Ok (v', h') →
  (truthy h v = true ∧ v' = v ∧ h' = h) ∨
  (truthy h v = false ∧ alt h = Ok (v', h')).
Proof.
  unfold py_or. intros H. inv_bind H. apply py_bool_Ok in E as [-> ->].
  destruct (truthy h v); [left|right; done]. by inv_ret H.
Qed.

Lemma as_dict_Ok v h a kvs h' :
  as_dict v h = Ok ((a, kvs), h') ↔
  v = VRef a ∧ h !! a = Some (ODict kvs) ∧ h' = h.
Proof.
  destruct v as [s|b]; simpl.
  { unfold raise. split; [done|]. by intros [? _]. }
  unfold bind, load, ret, raise. destruct (h !! b) as [[kvs'|xs]|] eqn:E.
  - split; [by intros [= <- <- <-]|].
    intros ([= <-] & Hb & ->). rewrite E in Hb. by injection Hb as <-.
  - split; [done|]. intros ([= <-] & Hb & _). by rewrite E in Hb.
  - split; [done|]. intros ([= <-] & Hb & _). by rewrite E in Hb.
Qed.

Lemma dict_items_Some h v kvs :
  dict_items h v = Some kvs ↔ ∃ a, v = VRef a ∧ h !! a = Some (ODict kvs).
Proof.
  destruct v as [s|a]; simpl.
  { split; [done|]. by intros (? & ? & _). }
  split.
  - destruct (h !! a) as [[kvs'|xs]|] eqn:E; [|done..]. intros [= <-]. eauto.
  - intros (? & [= <-] & ->). done.
Qed.

Lemma py_get_Ok d k dflt h v h' :
  py_get d k dflt h = Ok (v, h') ↔
  ∃ kvs, dict_items h d = Some kvs ∧
         v = default dflt (Dict.get (SStr k) kvs) ∧ h' = h.
Proof.
  unfold py_get. rewrite bind_Ok. split.
  - intros ([a kvs] & h1 & E & H). apply as_dict_Ok in E as (-> & E & ->).
    inv_ret H. exists kvs. split; [|done]. apply dict_items_Some. eauto.
  - intros (kvs & E & -> & ->). apply dict_items_Some in E as (a & -> & E).
    exists (a, kvs), h. split; [|done]. by apply as_dict_Ok.
Qed.

Lemma py_get_Ok_get d k dflt h v h' :
  py_get d k dflt h = Ok (v, h') → v = default dflt (get h d k) ∧ h' = h.
Proof.
  intros (kvs & E & -> & ->)%py_get_Ok. unfold get. by rewrite E.
Qed.

Lemma py_items_Ok d h kvs h' :
  py_items d h = Ok (kvs, h') ↔ dict_items h d = Some kvs ∧ h' = h.
Proof.
  unfold py_items. rewrite bind_Ok. split.
  - intros ([a kvs'] & h1 & E & H). apply as_dict_Ok in E as (-> & E & ->).
    inv_ret H. split; [|done]. apply dict_items_Some. eauto.
  - intros (E & ->). apply dict_items_Some in E as (a & -> & E).
    exists (a, kvs), h. split; [|done]. by apply as_dict_Ok.
Qed.

Lemma is_dict_Ok v h b h' :
  is_dict v h = Ok (b, h') →
  h' = h ∧ (b = true ↔ is_Some (dict_items h v)).
Proof.
  destruct v as [s|a]; simpl.
  - intros H. inv_ret H. split; [done|]. split; [done|]. by intros [? ?].
  - intros H. inv_bind H. apply load_Ok in E as [E ->]. inv_ret H.
    rewrite E. split; [done|]. destruct x; [by split; eauto|].
    split; [done|]. by intros [? ?].
Qed.

Lemma py_getitem_Ok d k h v h' :
  py_getitem d k h = Ok (v, h') ↔ get h d k = Some v ∧ h' = h.
Proof.
  unfold get. destruct d as [s|a]; simpl.
  { split; [done|]. by intros [? _]. }
  unfold bind, load. destruct (h !! a) as [[kvs|xs]|]; simpl;
    [|split; [done|by intros [? _]]..].
  destruct (Dict.get (SStr k) kvs); unfold ret, raise.
  - split; [by intros [= <- <-]|]. by intros [[= <-] ->].
  - split; [done|]. by intros [? _].
Qed.

Lemma py_setitem_Ok d k v h u h' :
  py_setitem d k v h = Ok (u, h') ↔
  ∃ a kvs, d = VRef a ∧ h !! a = Some (ODict kvs) ∧
           h' = <[a:=ODict (Dict.set (SStr k) v kvs)]> h.
Proof.
  destruct u. destruct d as [s|a]; simpl.
  { split; [done|]. by intros (? & ? & ? & _). }
  unfold bind, load, store, raise. destruct (h !! a) as [[kvs|xs]|] eqn:E.
  - split; [intros [= <-]; eauto|].
    intros (? & ? & [= <-] & Ha & ->). rewrite E in Ha. by injection Ha as <-.
  - split; [done|]. intros (? & ? & [= <-] & Ha & _). by rewrite E in Ha.
  - split; [done|]. intros (? & ? & [= <-] & Ha & _). by rewrite E in Ha.
Qed.

Lemma py_pop_Ok d k h v h' :
  py_pop d k h = Ok (v, h') ↔
  ∃ a kvs, d = VRef a ∧ h !! a = Some (ODict kvs) ∧
    match Dict.get (SStr k) kvs with
    | Some x => v = x ∧ h' = <[a:=ODict (Dict.remove (SStr k) kvs)]> h
    | None => v = VNone ∧ h' = h
    end.
Proof.
  destruct d as [s|a]; simpl.
  { split; [done|]. by intros (? & ? & ? & _). }
  unfold bind, load, raise. destruct (h !! a) as [[kvs|xs]|] eqn:E.
  - destruct (Dict.get (SStr k) kvs) eqn:G; unfold store, ret; split.
    + intros [= <- <-]. exists a, kvs. by rewrite G.
    + intros (? & ? & [= <-] & Ha & H). rewrite E in Ha. injection Ha as <-.
      rewrite G in H. by destruct H as [-> ->].
    + intros [= <- <-]. exists a, kvs. by rewrite G.
    + intros (? & ? & [= <-] & Ha & H). rewrite E in Ha. injection Ha as <-.
      rewrite G in H. by destruct H as [-> ->].
  - split; [done|]. intros (? & ? & [= <-] & Ha & _). by rewrite E in Ha.
  - split; [done|]. intros (? & ? & [= <-] & Ha & _). by rewrite E in Ha.
Qed.

Lemma elem_of_keys_get (k : scalar) (kvs : list (scalar * val)) :
  k ∈ kvs.*1 ↔ is_Some (Dict.get k kvs).
Proof.
  induction kvs as [|[k' v'] kvs IH]; csimpl.
  - split; [by intros ?%elem_of_nil|by intros [? ?]].
  - rewrite elem_of_cons. case_decide; subst.
    + split; eauto.
    + rewrite <- IH. split; [by intros [?|?]|by right].
Qed.

Lemma py_in_dict_Ok p d h b h' :
  is_Some (dict_items h d) →
  py_in p d h = Ok (b, h') →
  h' = h ∧ (b = true ↔ is_Some (get h d p)).
Proof.
  intros [kvs Hd]. unfold get. rewrite Hd. simpl.
  apply dict_items_Some in Hd as (a & -> & Ha). simpl.
  unfold bind, load. rewrite Ha. intros H. inv_ret H. split; [done|].
  rewrite bool_decide_eq_true. apply elem_of_keys_get.
Qed.

Lemma foreign_items_Ok items h kept h' :
  foreign_items items h = Ok (kept, h') →
  kept = filter (λ kv, foreign_key kv) items ∧ h' = h.
Proof.
  revert kept h'.
  induction items as [|[k v] items IH]; intros kept h' H; simpl in H.
  - by inv_ret H.
  - destruct k as [|b|z|s]; try done.
    inv_bind H. apply IH in E as [-> ->]. inv_ret H.
    rewrite filter_cons.
    case_decide as Hd; unfold foreign_key in Hd; simpl in Hd;
      destruct (Str.startswith s openshift_prefix); simpl in Hd; done.
Qed.

(** [filter_annotations] reads its argument and allocates: the result is
    a new dict with the items that are not OpenShift's. *)
Lemma filter_annotations_Ok anns h v h' :
  filter_annotations anns h = Ok (v, h') →
  ∃ g, h' = h ++ g ++
            [ODict (filter (λ kv, foreign_key kv)
                      (if truthy h anns then default [] (dict_items h anns)
                       else []))] ∧
       v = VRef (length h + length g) ∧
       Forall (λ o, o = ODict []) g.
Proof.
  unfold filter_annotations. intros H. inv_bind H.
  apply py_or_Ok in E as [(Ht & -> & ->)|[Ht E]].
  - inv_bind H. apply py_items_Ok in E as [E ->].
    inv_bind H. apply foreign_items_Ok in E0 as [-> ->].
    apply alloc_Ok in H as [-> ->]. exists []. rewrite Ht, E. simpl.
    split_and!; [done|by rewrite Nat.add_0_r|done].
  - apply new_dict_Ok in E as [-> ->].
    inv_bind H. apply py_items_Ok in E as [E ->].
    inv_bind H. apply foreign_items_Ok in E0 as [-> ->].
    apply alloc_Ok in H as [-> ->]. exists [ODict []]. rewrite Ht.
    simpl in E. rewrite lookup_app_r, Nat.sub_diag in E by done.
    injection E as <-. rewrite <- app_assoc, length_app. simpl.
    split_and!; [done|done|by constructor].
Qed.

(** ** Dict lemmas *)


Lemma dict_get_set_ne k k' v kvs :
  k ≠ k' → Dict.get k' (Dict.set k v kvs) = Dict.get k' kvs.
Proof.
  intros Hne. induction kvs as [|[k0 v0] kvs IH]; simpl.
  - by rewrite decide_False.
  - case_decide; simpl; subst.
    + by rewrite !decide_False.
    + case_decide; [done|]. apply IH.
Qed.


Lemma dict_get_remove_ne k k' kvs :
  k ≠ k' → Dict.get k' (Dict.remove k kvs) = Dict.get k' kvs.
Proof.
  intros Hne. induction kvs as [|[k0 v0] kvs IH]; simpl; [done|].
  case_decide; simpl; subst.
  - by rewrite decide_False.
  - case_decide; [done|]. apply IH.
Qed.

Lemma dict_remove_absent k kvs :
  Dict.get k kvs = None → Dict.remove k kvs = kvs.
Proof.
  induction kvs as [|[k' v'] kvs IH]; simpl; [done|].
  case_decide; [done|]. intros Hg. by rewrite IH.
Qed.

(** ** The main loop *)

Section MainLoop.

Variable py_repr : heap → addr → string.

Lemma dispatch_written a doc r out h r' out' h' :
  dispatch py_repr a doc (r, out) h = Ok ((r', out'), h') →
  written r' = written r.
Proof.
  unfold dispatch. intros H.
  inv_bind H. destruct (negb x); [by inv_ret H|].
  inv_bind H. destruct (negb x0); [by inv_ret H|].
  inv_bind H. repeat case_decide.
  - inv_bind H. by inv_ret H.
  - inv_bind H. by inv_ret H.
  - do 4 inv_bind H. by inv_ret H.
  - inv_bind H. by inv_ret H.
Qed.

Lemma dispatch_all_written a docs r out h r' out' h' :
  dispatch_all py_repr a docs (r, out) h = Ok ((r', out'), h') →
  written r' = written r.
Proof.
  revert r out h. induction docs as [|doc docs IH]; intros r out h H;
    simpl in H.
  - by inv_ret H.
  - inv_bind H. destruct x as [r1 out1].
    apply dispatch_written in E. apply IH in H. congruence.
Qed.

Lemma process_all_app a t1 t2 r h :
  process_all py_repr a (t1 ++ t2) r h
  = (let* r1 := process_all py_repr a t1 r in
     process_all py_repr a t2 r1) h.
Proof.
  revert r h. induction t1 as [|e t1 IH]; intros r h; simpl; [done|].
  unfold bind in *.
  destruct (process_entry py_repr a e r h) as [[r1 h1]|]; [|done].
  apply IH.
Qed.

(** C8. A file that fails to parse adds exactly one warning, leaves the
    counters, the total and the written files as they are and touches no
    object; the run then goes on with the rest of the tree as it would
    have from that state, wherever in the tree the file is. *)
Theorem parse_failure_skipped (a : args) (p : path) (msg : string)
    (r : run) (h : heap) :
  is_yaml_file p = true →
  let e := Entry p true (LoadError msg) in
  ∃ r', process_entry py_repr a e r h = Ok (r', h) ∧
    warnings r' = warnings r
                  ++ ["Failed to parse " +:+ path_str p +:+ ": " +:+ msg] ∧
    r_summary r' = r_summary r ∧ converted r' = converted r ∧
    written r' = written r ∧
    ∀ before after r0 h0,
      process_all py_repr a before r0 h0 = Ok (r, h) →
      process_all py_repr a (before ++ e :: after) r0 h0
      = process_all py_repr a after r' h.
Proof.
  intros Hy e. eexists. split; [|split_and!].
  - unfold process_entry. simpl. by rewrite Hy.
  - done.
  - done.
  - done.
  - done.
  - intros before after r0 h0 Hb. rewrite process_all_app.
    erewrite bind_eq by done. simpl. unfold process_entry at 1. simpl.
    rewrite Hy. done.
Qed.

(** What [map_output_filename] computes from the kinds of the documents
    it is given. *)
Lemma map_output_filename_Ok p docs h p' h' :
  map_output_filename p docs h = Ok (p', h') →
  ∃ kinds, kinds_of docs h = Ok (kinds, h) ∧ h' = h ∧
    p' = if Str.contains "deploymentconfig" (Str.lower (name p))
            || bool_decide (SStr "DeploymentConfig" ∈ kinds)
         then with_name p "deployment.yaml"
         else if Str.contains "route" (Str.lower (name p))
                 || bool_decide (SStr "Route" ∈ kinds)
         then with_name p "ingress.yaml"
         else p.
Proof.
  unfold map_output_filename. intros H. inv_bind H.
  assert (h0 = h) as ->.
  { clear H. revert x E. induction docs as [|d docs IH]; intros ks E;
      simpl in E; [by inv_ret E|].
    inv_bind E. apply is_dict_Ok in E0 as [-> _].
    destruct x; [|by eapply IH].
    inv_bind E. apply py_get_Ok_get in E0 as [-> ->].
    destruct (default _ _); [|done]. inv_bind E. inv_ret E. by eapply IH. }
  exists x. split; [done|]. simpl in H.
  destruct (_ || _); [by inv_ret H|].
  destruct (_ || _); by inv_ret H.
Qed.

Lemma map_output_filename_suffix p docs h p' h' d :
  is_yaml_file p = true →
  map_output_filename p docs h = Ok (p', h') →
  suffix (with_suffix (joinpath d (name p')) ".yaml") = ".yaml".
Proof.
  intros Hy (ks & _ & _ & ->)%map_output_filename_Ok.
  destruct (_ || _); [done|]. destruct (_ || _); [done|].
  destruct (is_yaml_file_with_suffix p d Hy) as (pre & suf & _ & Hpre & ->).
  by apply suffix_yaml.
Qed.

(** C10. Every file a source file is written to is in the output
    directory and has the extension [.yaml]; when the router keeps the
    name, the file is the source name with its extension replaced, so
    that [config.yml] is written as [config.yaml]. *)
Theorem written_file_suffix (a : args) (e : entry) (r r' : run)
    (h h' : heap) (dest : path) (docs : list val) :
  process_entry py_repr a e r h = Ok (r', h') →
  written r' = written r ++ [(dest, docs)] →
  suffix dest = ".yaml" ∧ parent dest = out_dir a ∧
  (map_output_filename (e_path e) docs h' = Ok (e_path e, h') →
   ∃ stem ext, last_dot (name (e_path e)) = Some (stem, ext) ∧
               name dest = stem +:+ ".yaml") ∧
  with_suffix (joinpath "out" "config.yml") ".yaml" = Path "out" "config.yaml".
Proof.
  unfold process_entry. intros H Hw.
  assert (Hnil : ∀ x : path * list val, written r ≠ written r ++ [x]).
  { intros x Hx. apply (f_equal length) in Hx. rewrite length_app in Hx.
    simpl in Hx. lia. }
  destruct (negb (e_is_file e) || negb (is_yaml_file (e_path e))) eqn:Hy.
  { inv_ret H. by apply Hnil in Hw. }
  apply orb_false_iff in Hy as [_ Hy]. apply negb_false_iff in Hy.
  destruct (e_load e) as [msg|ds].
  { inv_ret H. by apply Hnil in Hw. }
  inv_bind H. destruct x as [r1 out].
  apply dispatch_all_written in E. simpl in E.
  destruct out as [|d out].
  { inv_ret H. rewrite E in Hw. by apply Hnil in Hw. }
  inv_bind H. inv_ret H. simpl in Hw. rewrite E in Hw.
  apply app_inv_head in Hw. injection Hw as <- <-.
  pose proof E0 as (ks & _ & -> & _)%map_output_filename_Ok.
  split_and!.
  - by eapply map_output_filename_suffix.
  - unfold with_suffix, joinpath. simpl. by repeat case_match.
  - intros Hk. rewrite Hk in E0. injection E0 as <-.
    destruct (is_yaml_file_with_suffix (e_path e) (out_dir a) Hy)
      as (pre & suf & Hl & _ & ->). eauto.
  - reflexivity.
Qed.

Lemma is_dict_eq h v :
  is_Some (dict_items h v) → is_dict v h = Ok (true, h).
Proof.
  intros [kvs (a & -> & Ha)%dict_items_Some]. simpl.
  unfold bind, load. by rewrite Ha.
Qed.

Lemma py_get_eq h d k dflt :
  is_Some (dict_items h d) →
  py_get d k dflt h = Ok (default dflt (get h d k), h).
Proof.
  intros [kvs Hd]. apply py_get_Ok. exists kvs. split; [done|].
  unfold get. by rewrite Hd.
Qed.

Lemma py_in_eq h d k v :
  get h d k = Some v → py_in k d h = Ok (true, h).
Proof.
  unfold get. destruct (dict_items h d) as [kvs|] eqn:Hd; [|done].
  simpl. intros Hg. apply dict_items_Some in Hd as (a & -> & Ha). simpl.
  unfold bind, load. rewrite Ha. unfold ret. do 2 f_equal.
  apply bool_decide_eq_true. apply elem_of_keys_get. eauto.
Qed.

Lemma get_is_dict h d k v : get h d k = Some v → is_Some (dict_items h d).
Proof. unfold get. by destruct (dict_items h d). Qed.

Lemma dict_items_app h g v kvs :
  dict_items h v = Some kvs → dict_items (h ++ g) v = Some kvs.
Proof.
  intros (a & -> & Ha)%dict_items_Some. simpl.
  by rewrite (lookup_app_l_Some _ _ _ _ Ha).
Qed.

Lemma get_app h g d k v : get h d k = Some v → get (h ++ g) d k = Some v.
Proof.
  unfold get. destruct (dict_items h d) as [kvs|] eqn:Hd; [|done].
  by rewrite (dict_items_app _ g _ _ Hd).
Qed.

Lemma dispatch_buildconfig a doc r out h :
  get h doc "kind" = Some (VStr "BuildConfig") →
  (∀ md, get h doc "metadata" = Some md → is_Some (dict_items h md)) →
  dispatch py_repr a doc (r, out) h
  = Ok ((warn (buildconfig_warning a (buildconfig_name py_repr h doc))
           (count_BuildConfig r), out), h ++ [ODict []]).
Proof.
  intros Hk Hmd. pose proof (get_is_dict _ _ _ _ Hk) as Hd.
  unfold dispatch, bind.
  rewrite (is_dict_eq h doc Hd). simpl.
  rewrite (py_in_eq h doc "kind" _ Hk). simpl.
  rewrite (py_get_eq h doc "kind" VNone Hd), Hk. simpl.
  unfold new_dict, alloc. simpl.
  destruct Hd as [kvs Hd].
  rewrite (py_get_eq (h ++ [ODict []]) doc "metadata")
    by (eexists; by eapply dict_items_app).
  unfold buildconfig_name.
  destruct (get h doc "metadata") as [md|] eqn:Hm.
  - rewrite (get_app _ _ _ _ _ Hm). simpl.
    destruct (Hmd md eq_refl) as [mkvs Hmk].
    rewrite (py_get_eq (h ++ [ODict []]) md "name")
      by (eexists; by eapply dict_items_app).
    unfold get. rewrite (dict_items_app _ [ODict []] _ _ Hmk), Hmk. simpl.
    by destruct (default _ _).
  - assert (get (h ++ [ODict []]) doc "metadata" = None) as ->.
    { unfold get in *. rewrite (dict_items_app _ [ODict []] _ _ Hd).
      by rewrite Hd in Hm. }
    simpl.
    rewrite (py_get_eq (h ++ [ODict []]) (VRef (length h)) "name").
    2:{ simpl. rewrite lookup_app_r, Nat.sub_diag by done. by eexists. }
    unfold get. simpl. rewrite lookup_app_r, Nat.sub_diag by done. done.
Qed.

(** X18. A file whose only document is a BuildConfig with a metadata
    map, or with none, is processed without writing a file and without an
    output document; exactly one warning is recorded, with the text
    [BuildConfig '<name>' skipped: move builds to CI (e.g., GitHub
    Actions) and push images to <registry>.], where the name is the one
    under the metadata ([unnamed] when there is none) and the registry is
    the registry option ([ACR] when it is empty); the BuildConfig counter
    grows by one and the total of converted resources and the other
    counters stay. *)
Theorem buildconfig_only_file (a : args) (p : path) (doc : val) (r : run)
    (h : heap) :
  is_yaml_file p = true →
  get h doc "kind" = Some (VStr "BuildConfig") →
  (∀ md, get h doc "metadata" = Some md → is_Some (dict_items h md)) →
  ∃ r' h' n,
    process_entry py_repr a (Entry p true (Loaded [doc])) r h = Ok (r', h') ∧
    written r' = written r ∧
    warnings r' = warnings r
      ++ ["BuildConfig '" +:+ n
          +:+ "' skipped: move builds to CI (e.g., GitHub Actions) and push images to "
          +:+ (if Str.nonempty (image_registry a) then image_registry a
               else "ACR")
          +:+ "."] ∧
    (∀ s, get h (rd h doc "metadata") "name" = Some (VStr s) → n = s) ∧
    (∀ s, get h (rd h doc "metadata") "name" = Some (VS s) →
          n = format_scalar s) ∧
    (get h (rd h doc "metadata") "name" = None → n = "unnamed") ∧
    n_BuildConfig (r_summary r') = S (n_BuildConfig (r_summary r)) ∧
    converted r' = converted r ∧
    n_DeploymentConfig (r_summary r') = n_DeploymentConfig (r_summary r) ∧
    n_Route (r_summary r') = n_Route (r_summary r) ∧
    n_Other (r_summary r') = n_Other (r_summary r).
Proof.
  intros Hy Hk Hmd.
  exists (warn (buildconfig_warning a (buildconfig_name py_repr h doc))
            (count_BuildConfig r)), (h ++ [ODict []]),
    (buildconfig_name py_repr h doc).
  assert (Hn : ∀ s, get h (rd h doc "metadata") "name" = Some (VS s) →
                    buildconfig_name py_repr h doc = format_scalar s).
  { intros s Hs. unfold buildconfig_name, rd in *.
    destruct (get h doc "metadata") as [md|]; simpl in Hs; [|done].
    by rewrite Hs. }
  split_and!; try done.
  - unfold process_entry.
    cbn [e_is_file e_path e_load negb orb dispatch_all]. rewrite Hy.
    cbn [negb]. unfold bind. by rewrite dispatch_buildconfig.
  - intros s Hs. by rewrite (Hn _ Hs).
  - intros Hnone. unfold buildconfig_name, rd in *.
    destruct (get h doc "metadata") as [md|]; simpl in Hnone; [|done].
    by rewrite Hnone.
Qed.

(** C7. The run on a file [build.yaml] whose one document is a
    BuildConfig with an empty [metadata:], which loads as None: the name
    is read with [.get] from the metadata, the default [{}] stands in only
    for a missing key, and the run ends with [AttributeError]; no warning
    is recorded and nothing is reported. *)
Theorem buildconfig_null_metadata_aborts :
  let h := [ODict [(SStr "kind", VStr "BuildConfig");
                   (SStr "metadata", VNone)]] in
  let tree := [Entry (Path "openshift" "build.yaml") true (Loaded [VRef 0])] in
  main py_repr (Args "out" "apps.example.com" "nginx" "" "" "") tree h
  = Raise AttributeError.
Proof. cbv zeta. vm_compute. reflexivity. Qed.

Lemma truthy_app h g v :
  val_ok (length h) v → truthy (h ++ g) v = truthy h v.
Proof.
  destruct v as [s|a]; simpl; [done|]. intros Ha.
  by rewrite lookup_app_l.
Qed.

(** The effect of the pass-through branch on the store: when the
    metadata of the document is a dict, a new dict with the kept
    annotations is allocated and the metadata object is updated. *)
Lemma strip_annotations_Ok doc h u h' :
  strip_annotations doc h = Ok (u, h') →
  match dict_items h (rd h doc "metadata") with
  | None => h' = h
  | Some kvs =>
      let anns := default VNone (Dict.get (SStr "annotations") kvs) in
      let kept := filter (λ kv, foreign_key kv)
                    (if truthy h anns then default [] (dict_items h anns)
                     else []) in
      ∃ m g, rd h doc "metadata" = VRef m ∧
        h' = <[m:=ODict (match kept with
                         | [] => Dict.remove (SStr "annotations") kvs
                         | _ => Dict.set (SStr "annotations")
                                  (VRef (length h + length g)) kvs
                         end)]> (h ++ g ++ [ODict kept])
  end.
Proof.
  unfold strip_annotations. intros H.
  inv_bind H. apply py_get_Ok_get in E as [-> ->].
  change (default VNone (get h doc "metadata")) with (rd h doc "metadata")
    in H.
  inv_bind H. apply is_dict_Ok in E as [-> Hd].
  destruct x.
  2:{ unfold ret in H. injection H as _ <-.
      destruct (dict_items h (rd h doc "metadata")); [|done].
      destruct Hd as [_ Hd]. by discriminate Hd. }
  destruct Hd as [Hd _]. destruct (Hd eq_refl) as [kvs Hk]. rewrite Hk.
  pose proof Hk as (m & Hm & Hmk)%dict_items_Some.
  inv_bind H. apply py_getitem_Ok in E as [Hg ->].
  assert (x = VRef m) as ->.
  { unfold rd in Hm. by rewrite Hg in Hm. }
  inv_bind H. apply py_get_Ok in E as (kvs' & Hk' & -> & ->).
  simpl in Hk'. rewrite Hmk in Hk'. injection Hk' as <-.
  inv_bind H. apply filter_annotations_Ok in E as (g & -> & -> & Hgarb).
  set (kept := filter _ _) in *.
  pose proof (lookup_lt_Some _ _ _ Hmk) as Hlt.
  assert (Hm1 : (h ++ g ++ [ODict kept]) !! m = Some (ODict kvs)).
  { by rewrite lookup_app_l. }
  assert (Hg1 : get (h ++ g ++ [ODict kept]) doc "metadata" = Some (VRef m)).
  { by apply get_app. }
  inv_bind H. apply py_bool_Ok in E as [-> ->]. simpl in H.
  rewrite app_assoc, lookup_app_r in H by (rewrite length_app; lia).
  rewrite length_app, Nat.sub_diag in H. simpl in H.
  rewrite <- app_assoc in H.
  exists m, g. split; [done|].
  destruct kept as [|kv kept'] eqn:Hkept; simpl in H.
  - inv_bind H. apply py_getitem_Ok in E as [E ->].
    rewrite Hg1 in E. injection E as <-.
    inv_bind H. inv_ret H.
    apply py_pop_Ok in E as (m' & kvs' & [= <-] & Hm' & Hpop).
    rewrite Hm1 in Hm'. injection Hm' as <-.
    destruct (Dict.get (SStr "annotations") kvs) eqn:Ha.
    + by destruct Hpop as [_ ->].
    + destruct Hpop as [_ ->]. rewrite dict_remove_absent by done.
      by rewrite list_insert_id.
  - inv_bind H. apply py_getitem_Ok in E as [E ->].
    rewrite Hg1 in E. injection E as <-.
    apply py_setitem_Ok in H as (m' & kvs' & [= <-] & Hm' & ->).
    rewrite Hm1 in Hm'. by injection Hm' as <-.
Qed.


(** C1. The run on a file [app.yaml] whose one document is a
    DeploymentConfig: the converted document has the kind of the target
    platform, [Deployment], which no name mapping looks for, and the
    file is written as [app.yaml], not as [deployment.yaml]. *)
Theorem deploymentconfig_file_keeps_name :
  let h := [ODict [(SStr "kind", VStr "DeploymentConfig");
                   (SStr "metadata", VRef 1)];
            ODict [(SStr "name", VStr "web")]] in
  let tree := [Entry (Path "openshift" "app.yaml") true (Loaded [VRef 0])] in
  ∃ r h' d,
    main py_repr (Args "out" "apps.example.com" "nginx" "" "" "") tree h
    = Ok (r, h') ∧
    written r = [(Path "out" "app.yaml", [d])] ∧
    get h' d "kind" = Some (VStr "Deployment") ∧
    n_DeploymentConfig (r_summary r) = 1.
Proof.
  cbv zeta. eexists _, _, _. split; [vm_compute; reflexivity|].
  split_and!; reflexivity.
Qed.

End MainLoop.

(** ** Instances on concrete inputs *)

Lemma map_image_qualified_witness :
  map_image (λ _ _, "") (VStr "quay.io/team/web:1.4") (VStr "web")
    "myacr.azurecr.io" "apps" []
  = Ok (VStr "quay.io/team/web:1.4", []).
Proof. apply map_image_qualified; [done|by left|done]. Defined.

Lemma map_image_unqualified_witness :
  map_image (λ _ _, "") (VStr "web") (VStr "web") "myacr.azurecr.io" "apps" []
  = Ok (VStr "myacr.azurecr.io/apps/web:latest", []).
Proof.
  apply (proj1 (map_image_unqualified (λ _ _, "")) "web" "web"
           "myacr.azurecr.io" "apps" []); reflexivity.
Defined.

Lemma parse_failure_skipped_witness :
  ∃ r', process_entry (λ _ _, "") (Args "out" "apps.example.com" "nginx" "" "" "")
          (Entry (Path "openshift" "broken.yml") true (LoadError "bad indent"))
          run0 [] = Ok (r', []) ∧
        warnings r' = ["Failed to parse openshift/broken.yml: bad indent"] ∧
        converted r' = 0.
Proof.
  destruct (parse_failure_skipped (λ _ _, "")
              (Args "out" "apps.example.com" "nginx" "" "" "")
              (Path "openshift" "broken.yml") "bad indent" run0 [] eq_refl)
    as (r' & H1 & H2 & _ & H3 & _).
  exists r'. split; [exact H1|]. split; [exact H2|exact H3].
Defined.

Lemma written_file_suffix_witness :
  suffix (Path "out" "config.yaml") = ".yaml".
Proof.
  eapply (λ H1 H2, proj1 (written_file_suffix (λ _ _, "")
            (Args "out" "apps.example.com" "nginx" "" "" "")
            (Entry (Path "openshift" "config.yml") true (Loaded [VRef 0]))
            run0 _ [ODict [(SStr "kind", VStr "ConfigMap")]] _
            (Path "out" "config.yaml") [VRef 0] H1 H2)).
  - vm_compute. reflexivity.
  - reflexivity.
Defined.

Lemma buildconfig_only_file_witness :
  ∃ r' h',
    process_entry (λ _ _, "") (Args "out" "apps.example.com" "nginx" "" "" "")
      (Entry (Path "openshift" "build.yaml") true (Loaded [VRef 0])) run0
      [ODict [(SStr "kind", VStr "BuildConfig"); (SStr "metadata", VRef 1)];
       ODict [(SStr "name", VStr "web-build")]]
    = Ok (r', h') ∧
    written r' = [] ∧
    warnings r' = ["BuildConfig 'web-build' skipped: move builds to CI (e.g., GitHub Actions) and push images to ACR."] ∧
    n_BuildConfig (r_summary r') = 1 ∧ converted r' = 0.
Proof.
  destruct (buildconfig_only_file (λ _ _, "")
              (Args "out" "apps.example.com" "nginx" "" "" "")
              (Path "openshift" "build.yaml") (VRef 0) run0
              [ODict [(SStr "kind", VStr "BuildConfig");
                      (SStr "metadata", VRef 1)];
               ODict [(SStr "name", VStr "web-build")]])
    as (r' & h' & n & H1 & H2 & H3 & Hn & _ & _ & H4 & H5 & _).
  - reflexivity.
  - reflexivity.
  - intros md [= <-]. by eexists.
  - exists r', h'. rewrite (Hn "web-build" eq_refl) in H3.
    split_and!; assumption.
Defined.


(** ** Copies *)

Lemma obj_with_vals_fmap f o : obj_with_vals o (f <$> obj_vals o) = obj_map f o.
Proof.
  destruct o as [kvs|xs]; simpl; [|done]. f_equal.
  induction kvs as [|[k v] kvs IH]; csimpl; [done|]. by f_equal.
Qed.

Lemma rn_mono m m' v : m ⊆ m' → covered m v → rn m' v = rn m v ∧ covered m' v.
Proof.
  intros Hs Hc. destruct v as [s|a]; simpl in *; [done|].
  destruct Hc as [a' Ha']. pose proof (lookup_weaken _ _ _ _ Ha' Hs) as Hw.
  rewrite Ha', Hw. eauto.
Qed.

Lemma rn_fmap_mono m m' vs :
  m ⊆ m' → Forall (covered m) vs → rn m' <$> vs = rn m <$> vs ∧ Forall (covered m') vs.
Proof.
  intros Hs. induction 1 as [|v vs Hv Hvs [IH1 IH2]]; csimpl; [done|].
  destruct (rn_mono m m' v Hs Hv) as [-> ?]. rewrite IH1. by split; [|constructor].
Qed.

Lemma obj_map_rn_mono m m' o :
  m ⊆ m' → Forall (covered m) (obj_vals o) → obj_map (rn m') o = obj_map (rn m) o.
Proof.
  intros Hs Hc. rewrite <- !obj_with_vals_fmap.
  by destruct (rn_fmap_mono m m' _ Hs Hc) as [-> _].
Qed.

Section deepcopy.
Variable H0 : heap.
Hypothesis H0wf : wf H0.

Lemma copy_all_spec go :
  (∀ v m h v' m' h', go v m h = Some (v', m', h') → copy_pre H0 m h → val_ok (length H0) v →
      copy_post H0 m h [v] [v'] m' h') →
  ∀ vs m h vs' m' h', copy_all go vs m h = Some (vs', m', h') → copy_pre H0 m h →
    Forall (val_ok (length H0)) vs → copy_post H0 m h vs vs' m' h'.
Proof.
  intros Hgo vs. induction vs as [|v vs IH]; intros m h vs' m' h' Hc Hpre Hok; simpl in Hc.
  - simplify_eq. destruct Hpre as [Hx Hm]. split_and!; try done.
    + exists []. by rewrite app_nil_r.
    + intros a a' ? ?; simplify_eq.
    + lia.
  - destruct (go v m h) as [[[v1 m1] h1]|] eqn:Hg; [|done].
    destruct (copy_all go vs m1 h1) as [[[vs2 m2] h2]|] eqn:Hc2; [|done].
    injection Hc as <- <- <-.
    inversion Hok as [|? ? Hv Hvs]; subst.
    pose proof (Hgo _ _ _ _ _ _ Hg Hpre Hv) as (Hx1 & Hs1 & Hm1 & Hcov1 & Hv1 & Hnew1 & Hsur1).
    assert (Hpre1 : copy_pre H0 m1 h1).
    { split; [|done]. destruct Hpre as [[hx ->] _]. destruct Hx1 as [h1' ->].
      exists (hx ++ h1'). by rewrite app_assoc. }
    pose proof (IH _ _ _ _ _ Hc2 Hpre1 Hvs) as (Hx2 & Hs2 & Hm2 & Hcov2 & Hv2 & Hnew2 & Hsur2).
    destruct Hx1 as [hx1 ->]. destruct Hx2 as [hx2 ->].
    inversion Hcov1 as [|? ? Hcv _]; subst. simpl in Hv1. simplify_eq.
    destruct (rn_mono m1 m2 v Hs2 Hcv) as [Hrn Hcv2].
    split_and!.
    + exists (hx1 ++ hx2). by rewrite app_assoc.
    + by etrans.
    + done.
    + by constructor.
    + csimpl. by rewrite Hrn.
    + intros a a' Ha Hn. destruct (m1 !! a) as [a1|] eqn:Ha1.
      * pose proof (lookup_weaken _ _ _ _ Ha1 Hs2). simplify_eq.
        destruct (Hnew1 _ _ Ha1 Hn) as [? (o & Ho & Hh & Hco)].
        split; [done|].
        exists o. split; [done|]. destruct (Hm1 _ _ Ha1) as [_ [_ Hlt]].
        rewrite lookup_app_l by done. rewrite Hh.
        rewrite (obj_map_rn_mono m1 m2 o Hs2 Hco).
        split; [done|]. by destruct (rn_fmap_mono m1 m2 _ Hs2 Hco).
      * destruct (Hnew2 _ _ Ha Ha1) as [? ?]. split; [|done].
        rewrite length_app in *. lia.
    + intros a' [Hlo Hhi].
      destruct (decide (a' < length (h ++ hx1))) as [Hlt|Hge].
      * destruct (Hsur1 a' (conj Hlo Hlt)) as (a & Ha & Hn). exists a.
        split; [|done]. by eapply lookup_weaken.
      * destruct (Hsur2 a') as (a & Ha & Hn); [lia|]. exists a. split; [done|].
        destruct (m !! a) eqn:E; [|done]. pose proof (lookup_weaken _ _ _ _ E Hs1). congruence.
Qed.

Lemma copy_post_refl m h v :
  copy_pre H0 m h → covered m v → copy_post H0 m h [v] [rn m v] m h.
Proof.
  intros [Hx Hm] Hc. split_and!; try done.
  - exists []. by rewrite app_nil_r.
  - by constructor.
  - intros a a' ? ?; simplify_eq.
  - lia.
Qed.

Lemma insert_alloc (h hc : heap) (e x : obj) :
  <[length h:=x]> ((h ++ [e]) ++ hc) = h ++ [x] ++ hc.
Proof.
  rewrite <- app_assoc. rewrite insert_app_r_alt by lia.
  by rewrite Nat.sub_diag.
Qed.

Lemma deepcopy_go_spec fuel :
  ∀ v m h v' m' h', deepcopy_go fuel v m h = Some (v', m', h') →
    copy_pre H0 m h → val_ok (length H0) v → copy_post H0 m h [v] [v'] m' h'.
Proof.
  induction fuel as [|fuel IH]; intros v m h v' m' h' Hgo Hpre Hv.
  - destruct v as [s|a]; simpl in Hgo.
    + injection Hgo as <- <- <-. by apply (copy_post_refl m h (VS s)).
    + destruct (m !! a) as [a1|] eqn:Hm; [|done]. injection Hgo as <- <- <-.
      pose proof (copy_post_refl m h (VRef a) Hpre) as Hp. simpl in Hp.
      rewrite Hm in Hp. by apply Hp.
  - destruct v as [s|a]; simpl in Hgo.
    + injection Hgo as <- <- <-. by apply (copy_post_refl m h (VS s)).
    + destruct (m !! a) as [a1|] eqn:Hm.
      { injection Hgo as <- <- <-.
        pose proof (copy_post_refl m h (VRef a) Hpre) as Hp. simpl in Hp.
        rewrite Hm in Hp. by apply Hp. }
      destruct (h !! a) as [o|] eqn:Hh; [|done].
      destruct (copy_all _ _ _ _) as [[[vs m1] h1]|] eqn:Hc; [|done].
      injection Hgo as <- <- <-.
      destruct Hpre as [[hx ->] Hmok]. simpl in Hv.
      rewrite lookup_app_l in Hh by done.
      pose proof (H0wf _ _ Hh) as Hok.
      eapply (copy_all_spec _ IH) in Hc; [|split|done].
      2:{ exists (hx ++ [obj_empty o]). by rewrite app_assoc. }
      2:{ intros x x'. rewrite lookup_insert. case_decide; intros ?; simplify_eq.
          - rewrite !length_app. simpl. lia.
          - destruct (Hmok _ _ H1). rewrite length_app. lia. }
      destruct Hc as ([hc ->] & Hs & Hm1 & Hcov & -> & Hnew & Hsur).
      assert (Hma : m1 !! a = Some (length (H0 ++ hx))).
      { eapply lookup_weaken; [|done]. apply lookup_insert_eq. }
      assert (Hsub : m ⊆ m1).
      { etrans; [|done]. by apply insert_subseteq. }
      rewrite insert_alloc. split_and!.
      * by eexists.
      * done.
      * intros x x' Hx. destruct (Hm1 _ _ Hx). rewrite !length_app in *. simpl in *. lia.
      * constructor; [|done]. simpl. by rewrite Hma.
      * simpl. by rewrite Hma.
      * intros x x' Hx Hn. destruct (decide (x = a)) as [->|Hne].
        -- rewrite Hma in Hx. injection Hx as <-. split; [done|].
           exists o. split; [done|]. split; [|done].
           rewrite lookup_app_r by done. rewrite Nat.sub_diag. simpl.
           by rewrite obj_with_vals_fmap.
        -- destruct (Hnew x x' Hx) as [Hge (o' & Ho' & Hh' & Hc')].
           { by rewrite lookup_insert_ne. }
           rewrite length_app in Hge. simpl in Hge. split; [lia|].
           exists o'. split; [done|]. split; [|done].
           rewrite <- Hh'. rewrite <- (app_assoc (H0 ++ hx) [obj_empty o] hc).
           rewrite !(lookup_app_r (H0 ++ hx)) by lia.
           replace (x' - length (H0 ++ hx)) with (S (x' - S (length (H0 ++ hx)))) by lia. done.
      * intros a' [Hlo Hhi]. destruct (decide (a' = length (H0 ++ hx))) as [->|Hne].
        -- by exists a.
        -- destruct (Hsur a') as (x & Hx & Hn).
           { rewrite !length_app in *. simpl in *. lia. }
           exists x. split; [done|]. apply lookup_insert_None in Hn. tauto.
Qed.

Lemma measure_mono m m' : m ⊆ m' → measure H0 m' ≤ measure H0 m.
Proof.
  intros Hs. unfold measure. apply subseteq_size. apply subseteq_dom in Hs. set_solver.
Qed.

Lemma measure_insert m a a' :
  a < length H0 → m !! a = None → measure H0 (<[a:=a']> m) < measure H0 m.
Proof.
  intros Ha Hm. unfold measure. apply subset_size. rewrite dom_insert_L.
  apply not_elem_of_dom in Hm.
  assert (a ∈ (set_seq 0 (length H0) : gset nat)) by (apply elem_of_set_seq; lia).
  set_solver.
Qed.

Lemma copy_all_total go k :
  (∀ v m h v' m' h', go v m h = Some (v', m', h') → copy_pre H0 m h → val_ok (length H0) v →
      copy_post H0 m h [v] [v'] m' h') →
  (∀ v m h, copy_pre H0 m h → val_ok (length H0) v → measure H0 m < k → is_Some (go v m h)) →
  ∀ vs m h, copy_pre H0 m h → Forall (val_ok (length H0)) vs → measure H0 m < k →
    is_Some (copy_all go vs m h).
Proof.
  intros Hspec Htot vs. induction vs as [|v vs IH]; intros m h Hpre Hok Hk; simpl; [done|].
  inversion Hok as [|? ? Hv Hvs]; subst.
  destruct (Htot v m h Hpre Hv Hk) as [[[v1 m1] h1] Hg]. rewrite Hg.
  pose proof (Hspec _ _ _ _ _ _ Hg Hpre Hv) as (Hx1 & Hs1 & Hm1 & _).
  destruct (IH m1 h1) as [[[vs2 m2] h2] Hc]; [|done| |].
  - split; [|done]. destruct Hpre as [[hx ->] _]. destruct Hx1 as [h1' ->].
    exists (hx ++ h1'). by rewrite app_assoc.
  - pose proof (measure_mono _ _ Hs1). lia.
  - by rewrite Hc.
Qed.

Lemma deepcopy_go_total fuel :
  ∀ v m h, copy_pre H0 m h → val_ok (length H0) v → measure H0 m < fuel →
    is_Some (deepcopy_go fuel v m h).
Proof.
  induction fuel as [|fuel IH]; intros v m h Hpre Hv Hk; [lia|].
  destruct v as [s|a]; simpl; [done|].
  destruct (m !! a) as [a1|] eqn:Hm; [done|].
  destruct Hpre as [[hx ->] Hmok]. simpl in Hv.
  destruct (lookup_lt_is_Some_2 H0 a Hv) as [o Ho].
  rewrite lookup_app_l by done. rewrite Ho.
  destruct (copy_all_total (deepcopy_go fuel) fuel (deepcopy_go_spec fuel) IH
              (obj_vals o) (<[a:=length (H0 ++ hx)]> m) ((H0 ++ hx) ++ [obj_empty o]))
    as [[[vs m1] h1] Hc].
  - split.
    + exists (hx ++ [obj_empty o]). by rewrite app_assoc.
    + intros x x'. rewrite lookup_insert. case_decide; intros ?; simplify_eq.
      * rewrite !length_app. simpl. lia.
      * destruct (Hmok _ _ H1). rewrite length_app. lia.
  - by apply (H0wf _ _ Ho).
  - pose proof (measure_insert m a (length (H0 ++ hx)) Hv Hm). lia.
  - by rewrite Hc.
Qed.

(** [deepcopy] never runs out of fuel on a well-formed store, and what it
    returns is a copy. *)
Lemma deepcopy_spec v :
  val_ok (length H0) v →
  ∃ v' h' m, deepcopy v H0 = Ok (v', h') ∧ copy_of H0 v m h' v'.
Proof.
  intros Hv. unfold deepcopy.
  assert (Hpre : copy_pre H0 ∅ H0).
  { split; [exists []; by rewrite app_nil_r|]. intros a a' Ha. by simplify_map_eq. }
  destruct (deepcopy_go_total (S (length H0)) v ∅ H0 Hpre Hv)
    as [[[v' m] h'] Hgo].
  { unfold measure. rewrite dom_empty_L, difference_empty_L, size_set_seq. lia. }
  rewrite Hgo. exists v', h', m. split; [done|].
  apply deepcopy_go_spec in Hgo as (Hx & _ & Hm & Hcov & Hv' & Hnew & Hsur);
    [|done..].
  inversion Hcov as [|? ? Hc _]; subst. simpl in Hv'. injection Hv' as ->.
  split_and!; [done..| |].
  - intros a a' Ha. destruct (Hm _ _ Ha) as [? ?].
    destruct (Hnew _ _ Ha (lookup_empty _)) as [_ ?]. done.
  - intros a' Ha'. destruct (Hsur a' Ha') as (a & ? & _). eauto.
Qed.

End deepcopy.

(** ** Well-formed stores *)

Lemma val_ok_mono n n' v : n ≤ n' → val_ok n v → val_ok n' v.
Proof. destruct v; simpl; [done|lia]. Qed.

Lemma obj_ok_mono n n' o : n ≤ n' → obj_ok n o → obj_ok n' o.
Proof.
  intros Hn Ho. unfold obj_ok. eapply Forall_impl; [exact Ho|].
  intros v. by apply val_ok_mono.
Qed.

Lemma wf_app h g :
  wf h → Forall (obj_ok (length h + length g)) g → wf (h ++ g).
Proof.
  intros Hwf Hg a o Ha. rewrite length_app.
  apply lookup_app_Some in Ha as [Ha|[_ Ha]].
  - eapply obj_ok_mono; [|by eapply Hwf]. lia.
  - rewrite Forall_lookup in Hg. by eapply Hg.
Qed.

Lemma wf_Forall (h : heap) : Forall (obj_ok (length h)) h → wf h.
Proof.
  intros Hall a o Ho. rewrite Forall_forall in Hall.
  apply Hall. by eapply list_elem_of_lookup_2.
Qed.

Lemma wf_insert h a o : wf h → obj_ok (length h) o → wf (<[a:=o]> h).
Proof.
  intros Hwf Ho b o' Hb. rewrite length_insert.
  apply list_lookup_insert_Some in Hb as [(-> & -> & _)|[_ Hb]]; [done|].
  by eapply Hwf.
Qed.

Lemma obj_ok_dict n kvs :
  obj_ok n (ODict kvs) ↔ Forall (λ kv, val_ok n kv.2) kvs.
Proof. unfold obj_ok. simpl. by rewrite Forall_fmap. Qed.

Lemma dict_get_elem k kvs v : Dict.get k kvs = Some v → (k, v) ∈ kvs.
Proof.
  induction kvs as [|[k' v'] kvs IH]; simpl; [done|].
  case_decide; subst.
  - intros [= ->]. by left.
  - intros Hg. right. by apply IH.
Qed.

Lemma wf_dict_items h d kvs :
  wf h → dict_items h d = Some kvs → Forall (λ kv, val_ok (length h) kv.2) kvs.
Proof.
  intros Hwf (a & -> & Ha)%dict_items_Some. apply obj_ok_dict. by eapply Hwf.
Qed.

Lemma wf_get h d k v : wf h → get h d k = Some v → val_ok (length h) v.
Proof.
  unfold get. intros Hwf Hg.
  destruct (dict_items h d) as [kvs|] eqn:Hd; [|done]. simpl in Hg.
  pose proof (wf_dict_items _ _ _ Hwf Hd) as Hall.
  rewrite Forall_forall in Hall. by apply (Hall _ (dict_get_elem _ _ _ Hg)).
Qed.

Lemma wf_rd h d k : wf h → val_ok (length h) (rd h d k).
Proof.
  intros Hwf. unfold rd. destruct (get h d k) eqn:Hg; [|done].
  by eapply wf_get.
Qed.

(** ** Reading through a growing store *)

Lemma dict_items_prefix h h' v kvs :
  h `prefix_of` h' → dict_items h v = Some kvs → dict_items h' v = Some kvs.
Proof. intros [g ->]. apply dict_items_app. Qed.

Lemma get_prefix h h' d k v :
  h `prefix_of` h' → get h d k = Some v → get h' d k = Some v.
Proof. intros [g ->]. apply get_app. Qed.

Lemma dict_items_ok_app h g v :
  val_ok (length h) v → dict_items (h ++ g) v = dict_items h v.
Proof.
  destruct v as [s|a]; simpl; [done|]. intros Ha. by rewrite lookup_app_l.
Qed.

Lemma get_ok_app h g d k :
  val_ok (length h) d → get (h ++ g) d k = get h d k.
Proof. intros Hd. unfold get. by rewrite dict_items_ok_app. Qed.

Lemma rd_ok_app h g d k :
  val_ok (length h) d → rd (h ++ g) d k = rd h d k.
Proof. intros Hd. unfold rd. by rewrite get_ok_app. Qed.

Lemma truthy_ok_app h g v :
  val_ok (length h) v → truthy (h ++ g) v = truthy h v.
Proof.
  destruct v as [s|a]; simpl; [done|]. intros Ha. by rewrite lookup_app_l.
Qed.

(** ** Reading through a copy *)

Lemma dict_get_fmap (f : val → val) k kvs :
  Dict.get k (prod_map id f <$> kvs) = f <$> Dict.get k kvs.
Proof.
  induction kvs as [|[k' v'] kvs IH]; csimpl; [done|].
  by case_decide.
Qed.

Lemma copy_of_mirrored h v m h' v' : copy_of h v m h' v' → mirrored h m h'.
Proof.
  intros (_ & _ & _ & Hm & _) a a' Ha.
  by destruct (Hm _ _ Ha) as (_ & _ & ?).
Qed.

Lemma mirrored_prefix h m h' h'' :
  mirrored h m h' → h' `prefix_of` h'' → mirrored h m h''.
Proof.
  intros Hm Hp a a' Ha. destruct (Hm _ _ Ha) as (o & Ho & Ho' & Hc).
  exists o. split_and!; [done| |done]. by eapply prefix_lookup_Some.
Qed.

Lemma mirrored_dict_items h m h' x :
  mirrored h m h' → covered m x →
  dict_items h' (rn m x)
  = (λ kvs : list (scalar * val), prod_map id (rn m) <$> kvs)
      <$> dict_items h x.
Proof.
  intros Hm Hc. destruct x as [s|a]; simpl; [done|].
  destruct Hc as [a' Ha]. rewrite Ha. simpl.
  destruct (Hm _ _ Ha) as (o & -> & -> & _). by destruct o.
Qed.

Lemma mirrored_get h m h' x k :
  mirrored h m h' → covered m x →
  get h' (rn m x) k = rn m <$> get h x k ∧
  ∀ v, get h x k = Some v → covered m v.
Proof.
  intros Hm Hc. unfold get. rewrite (mirrored_dict_items _ _ _ _ Hm Hc).
  destruct x as [s|a]; simpl; [done|].
  destruct Hc as [a' Ha]. destruct (Hm _ _ Ha) as (o & Ho & _ & Hcov).
  rewrite Ho. destruct o as [kvs|xs]; simpl; [|done].
  split; [apply dict_get_fmap|].
  intros v Hv. apply dict_get_elem in Hv. simpl in Hcov.
  rewrite Forall_fmap, Forall_forall in Hcov. by apply (Hcov _ Hv).
Qed.

Lemma mirrored_rd h m h' x k :
  mirrored h m h' → covered m x →
  rd h' (rn m x) k = rn m (rd h x k) ∧ covered m (rd h x k).
Proof.
  intros Hm Hc. destruct (mirrored_get _ _ _ _ k Hm Hc) as [Hg Hcov].
  unfold rd. rewrite Hg. destruct (get h x k) as [v|]; simpl; [|done].
  split; [done|]. by apply Hcov.
Qed.

Lemma truthy_obj_map f o : truthy_obj (obj_map f o) = truthy_obj o.
Proof. by destruct o as [[|??]|[|??]]. Qed.

Lemma mirrored_truthy h m h' x :
  mirrored h m h' → covered m x → truthy h' (rn m x) = truthy h x.
Proof.
  intros Hm Hc. destruct x as [s|a]; simpl; [done|].
  destruct Hc as [a' Ha]. rewrite Ha. simpl.
  destruct (Hm _ _ Ha) as (o & -> & -> & _). apply truthy_obj_map.
Qed.

Lemma rn_scalar m v s : rn m v = VS s → covered m v → v = VS s.
Proof.
  destruct v as [s'|a]; simpl; [done|]. intros H [a' Ha]. by rewrite Ha in H.
Qed.

Lemma wf_copy h v m h' v' :
  wf h → copy_of h v m h' v' → wf h' ∧ val_ok (length h') v'.
Proof.
  intros Hwf ([g ->] & Hc & -> & Hm & Hsur).
  assert (Hrn : ∀ x, covered m x → val_ok (length (h ++ g)) (rn m x)).
  { intros [s|a]; simpl; [done|]. intros [a' Ha]. rewrite Ha. simpl.
    destruct (Hm _ _ Ha) as (_ & ? & _). lia. }
  split; [|by apply Hrn].
  intros a o Ha. destruct (decide (a < length h)) as [Hlt|Hge].
  - rewrite lookup_app_l in Ha by done.
    eapply obj_ok_mono; [|by eapply Hwf]. rewrite length_app. lia.
  - destruct (Hsur a) as (a0 & Ha0).
    { apply lookup_lt_Some in Ha. lia. }
    destruct (Hm _ _ Ha0) as (_ & _ & o0 & _ & Ho & Hcov).
    rewrite Ho in Ha. injection Ha as <-.
    unfold obj_ok. rewrite <- obj_with_vals_fmap.
    assert (obj_vals (obj_with_vals o0 (rn m <$> obj_vals o0))
            = rn m <$> obj_vals o0) as ->.
    { rewrite obj_with_vals_fmap. destruct o0 as [kvs|xs]; simpl; [|done].
      rewrite <- !list_fmap_compose. by apply list_fmap_ext. }
    rewrite Forall_fmap. eapply Forall_impl; [exact Hcov|]. apply Hrn.
Qed.

Lemma deepcopy_Ok h v v' h' :
  wf h → val_ok (length h) v → deepcopy v h = Ok (v', h') →
  ∃ m, copy_of h v m h' v'.
Proof.
  intros Hwf Hv H. destruct (deepcopy_spec h Hwf v Hv) as (v1 & h1 & m & E & Hc).
  rewrite E in H. injection H as <- <-. eauto.
Qed.

Lemma wf_app_empty_dict h : wf h → wf (h ++ [ODict []]).
Proof. intros Hwf. apply wf_app; [done|]. by repeat constructor. Qed.

(** [x.get(k, {})]: the fresh default reads like None. *)
Lemma py_get_fresh_default h x k v h1 :
  wf h → val_ok (length h) x →
  py_get x k (VRef (length h)) (h ++ [ODict []]) = Ok (v, h1) →
  h1 = h ++ [ODict []] ∧ val_ok (length h1) v ∧
  (∀ k2, get h1 v k2 = get h (rd h x k) k2) ∧
  truthy h1 v = truthy h (rd h x k).
Proof.
  intros Hwf Hx (kvs & Hd & -> & ->)%py_get_Ok.
  rewrite dict_items_ok_app in Hd by done.
  assert (rd h x k = default VNone (Dict.get (SStr k) kvs)) as ->.
  { unfold rd, get. by rewrite Hd. }
  split; [done|]. rewrite length_app. simpl.
  destruct (Dict.get (SStr k) kvs) as [v0|] eqn:Hg; simpl.
  - assert (Hv0 : val_ok (length h) v0).
    { apply (wf_get h x k); [done|]. unfold get. by rewrite Hd. }
    split_and!.
    + eapply val_ok_mono; [|done]. lia.
    + intros k2. by apply get_ok_app.
    + by apply truthy_ok_app.
  - split_and!.
    + simpl. lia.
    + intros k2. unfold get. simpl.
      by rewrite lookup_app_r, Nat.sub_diag.
    + simpl. by rewrite lookup_app_r, Nat.sub_diag.
Qed.

Lemma get_falsy h v k : truthy h v = false → get h v k = None.
Proof.
  unfold get. destruct v as [s|a]; simpl; [done|].
  destruct (h !! a) as [[[|??]|?]|]; done.
Qed.

(** [v or {}]: the fresh default reads like the falsy value. *)
Lemma py_or_new_dict_Ok h v v' h' :
  wf h → val_ok (length h) v →
  py_or v (new_dict []) h = Ok (v', h') →
  h `prefix_of` h' ∧ wf h' ∧ val_ok (length h') v' ∧
  (∀ k, get h' v' k = get h v k).
Proof.
  intros Hwf Hv [(Ht & -> & ->)|[Ht E]]%py_or_Ok; [done|].
  apply new_dict_Ok in E as [-> ->]. split_and!.
  - by apply prefix_app_r.
  - by apply wf_app_empty_dict.
  - rewrite length_app. simpl. lia.
  - intros k. rewrite (get_falsy _ _ _ Ht). unfold get. simpl.
    by rewrite lookup_app_r, Nat.sub_diag.
Qed.

Tactic Notation "mbind" hyp(H) "as" simple_intropattern(x)
    simple_intropattern(h) ident(E) :=
  apply bind_Ok in H as (x & h & E & H).

Lemma get_ok_prefix (h h' : heap) d k :
  h `prefix_of` h' → val_ok (length h) d → get h' d k = get h d k.
Proof. intros [g ->]. apply get_ok_app. Qed.

Lemma rd_ok_prefix (h h' : heap) d k :
  h `prefix_of` h' → val_ok (length h) d → rd h' d k = rd h d k.
Proof. intros [g ->]. apply rd_ok_app. Qed.

Lemma truthy_ok_prefix (h h' : heap) v :
  h `prefix_of` h' → val_ok (length h) v → truthy h' v = truthy h v.
Proof. intros [g ->]. apply truthy_ok_app. Qed.

Lemma dict_items_ok_prefix (h h' : heap) v :
  h `prefix_of` h' → val_ok (length h) v → dict_items h' v = dict_items h v.
Proof. intros [g ->]. apply dict_items_ok_app. Qed.

Lemma val_ok_prefix (h h' : heap) v :
  h `prefix_of` h' → val_ok (length h) v → val_ok (length h') v.
Proof. intros Hp. apply val_ok_mono. by apply prefix_length. Qed.

Lemma copy_of_prefix h v m h' v' : copy_of h v m h' v' → h `prefix_of` h'.
Proof. by intros (? & _). Qed.

(** ** The Route converter *)

Section Ingress.

Variable py_repr : heap → addr → string.

Lemma py_format_Ok v h n h' :
  py_format py_repr v h = Ok (n, h') →
  h' = h ∧ ∀ s, v = VS s → n = format_scalar s.
Proof.
  destruct v as [s|a]; simpl.
  - intros [= <- <-]. split; [done|]. by intros ? [= <-].
  - intros [= <- <-]. split; [done|]. by intros ? [=].
Qed.





Lemma lookup_rel (hb l : heap) k : (hb ++ l) !! (length hb + k) = l !! k.
Proof. rewrite lookup_app_r by lia. f_equal. lia. Qed.

Lemma insert_rel (hb l : heap) k o :
  <[length hb + k:=o]> (hb ++ l) = hb ++ <[k:=o]> l.
Proof. rewrite insert_app_r_alt by lia. do 2 f_equal. lia. Qed.

Lemma py_append_Ok l v h u h' :
  py_append l v h = Ok (u, h') →
  ∃ a xs, l = VRef a ∧ h !! a = Some (OList xs) ∧
          h' = <[a:=OList (xs ++ [v])]> h.
Proof.
  destruct l as [s|a]; simpl; [done|].
  unfold bind, load, store, raise. destruct (h !! a) as [[kvs|xs]|] eqn:E;
    [done| |done].
  intros [= <-]. eauto.
Qed.

(** Normal form of a store [hb ++ [o1; ...]] and of its addresses. *)
Ltac heap_norm H :=
  repeat (rewrite ?length_app, <- ?app_assoc in H; cbn [length app] in H);
  repeat rewrite <- Nat.add_assoc in H; cbn [Nat.add] in H.

Lemma set_tls_Ok spec name host tls hb o1 o2 r kvs4 u h' :
  val_ok (length hb) (rd hb spec "tls") → val_ok (length hb) spec →
  Dict.get (SStr "spec") kvs4 = Some (VRef (length hb + 2)) →
  set_tls py_repr spec name host (VRef (length hb + 3)) tls
    (hb ++ [o1; o2; ODict [(SStr "rules", r)]; ODict kvs4]) = Ok (u, h') →
  ∃ n, (∀ s, name = VS s → n = format_scalar s) ∧
    h' = if Str.nonempty tls then
           hb ++ [o1; o2;
                  ODict [(SStr "rules", r); (SStr "tls", VRef (length hb + 4))];
                  ODict kvs4;
                  OList [VRef (length hb + 6)];
                  OList [host];
                  ODict [(SStr "hosts", VRef (length hb + 5));
                         (SStr "secretName", VStr tls)]]
         else if truthy hb (rd hb spec "tls") then
           hb ++ [o1; o2;
                  ODict [(SStr "rules", r); (SStr "tls", VRef (length hb + 4))];
                  ODict kvs4;
                  OList [VRef (length hb + 6)];
                  OList [host];
                  ODict [(SStr "hosts", VRef (length hb + 5));
                         (SStr "secretName", VStr (n +:+ "-tls"))]]
         else hb ++ [o1; o2; ODict [(SStr "rules", r)]; ODict kvs4; OList []].
Proof.
  intros Hwf Hspec Hk4 H. unfold set_tls in H.
  mbind H as tls_entries h1 E. apply new_list_Ok in E as [-> ->].
  mbind H as u1 h2 E.
  assert (Hfinal : ∀ e_secret hx,
    hx = hb ++ [o1; o2; ODict [(SStr "rules", r)]; ODict kvs4;
                OList [VRef (length hb + 6)]; OList [host];
                ODict [(SStr "hosts", VRef (length hb + 5));
                       (SStr "secretName", VStr e_secret)]] →
    (let* b := py_bool (VRef (length hb + 4)) in
     if b then let* s := py_getitem (VRef (length hb + 3)) "spec" in
               py_setitem s "tls" (VRef (length hb + 4))
     else ret tt) hx = Ok (u, h') →
    h' = hb ++ [o1; o2;
                ODict [(SStr "rules", r); (SStr "tls", VRef (length hb + 4))];
                ODict kvs4;
                OList [VRef (length hb + 6)];
                OList [host];
                ODict [(SStr "hosts", VRef (length hb + 5));
                       (SStr "secretName", VStr e_secret)]]).
  { intros e_secret hx -> Hx.
    mbind Hx as b h3 E1. apply py_bool_Ok in E1 as [-> ->].
    match type of Hx with (if ?t then _ else _) _ = _ =>
      assert (t = true) as Ht by (simpl; by rewrite lookup_rel);
      rewrite Ht in Hx end.
    mbind Hx as s h3 E1. apply py_getitem_Ok in E1 as [E1 ->].
    unfold get in E1. simpl in E1. rewrite lookup_rel in E1. simpl in E1.
    rewrite Hk4 in E1. injection E1 as <-.
    apply py_setitem_Ok in Hx as (a & kvs & [= <-] & Ha & ->).
    rewrite lookup_rel in Ha. simpl in Ha. injection Ha as <-.
    rewrite insert_rel. done. }
  heap_norm E. heap_norm H.
  destruct (Str.nonempty tls) eqn:Htls.
  - exists (match name with VS s => format_scalar s | VRef _ => "" end).
    split; [by intros s ->|].
    mbind E as hosts h3 E1. apply new_list_Ok in E1 as [-> ->].
    mbind E as e h3 E1. apply new_dict_Ok in E1 as [-> ->].
    heap_norm E.
    apply py_append_Ok in E as (a & xs & [= <-] & Ha & ->).
    rewrite lookup_rel in Ha. simpl in Ha. injection Ha as <-.
    rewrite insert_rel in H. simpl in H.
    by eapply Hfinal.
  - mbind E as t h3 E1. apply py_get_Ok_get in E1 as [-> ->].
    mbind E as b h3 E1. apply py_bool_Ok in E1 as [-> ->].
    change (default VNone (get ?h spec "tls")) with (rd h spec "tls") in E.
    rewrite rd_ok_app in E by done.
    rewrite truthy_ok_app in E by done.
    destruct (truthy hb (rd hb spec "tls")).
    + mbind E as hosts h3 E1. apply new_list_Ok in E1 as [-> ->].
      mbind E as n h3 E1. apply py_format_Ok in E1 as [-> Hn].
      exists n. split; [done|].
      mbind E as e h3 E1. apply new_dict_Ok in E1 as [-> ->].
      heap_norm E.
      apply py_append_Ok in E as (a & xs & [= <-] & Ha & ->).
      rewrite lookup_rel in Ha. simpl in Ha. injection Ha as <-.
      rewrite insert_rel in H. simpl in H.
      by eapply Hfinal.
    + exists (match name with VS s => format_scalar s | VRef _ => "" end).
      split; [by intros s ->|].
      unfold ret in E. injection E as _ <-.
      mbind H as b h3 E1. apply py_bool_Ok in E1 as [-> ->].
      match type of H with (if ?t then _ else _) _ = _ =>
        assert (t = false) as Ht by (simpl; by rewrite lookup_rel);
        rewrite Ht in H end.
      unfold ret in H. by injection H as <-.
Qed.


End Ingress.


(** ** Stores that evolve by [norm_labels] *)

Lemma lext_refl h : lext h h.
Proof. intros a o Ha. eauto. Qed.

Lemma dict_get_app_None k kvs kvs' :
  Dict.get k kvs = None → Dict.get k (kvs ++ kvs') = Dict.get k kvs'.
Proof.
  induction kvs as [|[k' v'] kvs IH]; simpl; [done|].
  case_decide; [done|]. apply IH.
Qed.

Lemma dict_get_app_Some k kvs kvs' v :
  Dict.get k kvs = Some v → Dict.get k (kvs ++ kvs') = Some v.
Proof.
  induction kvs as [|[k' v'] kvs IH]; simpl; [done|].
  case_decide; [done|]. apply IH.
Qed.

Lemma lext_trans h1 h2 h3 : lext h1 h2 → lext h2 h3 → lext h1 h3.
Proof.
  intros H12 H23 a o Ha.
  destruct (H12 _ _ Ha) as (o2 & Ha2 & Ho2).
  destruct (H23 _ _ Ha2) as (o3 & Ha3 & Ho3).
  exists o3. split; [done|].
  destruct Ho2 as [->|Hadd2]; [done|].
  destruct Ho3 as [->|Hadd3]; [by right|].
  destruct Hadd2 as (kvs & lv & -> & Hne & Hg & ->).
  destruct Hadd3 as (kvs' & lv' & [= <-] & _ & Hg' & _).
  rewrite (dict_get_app_None _ _ _ Hg) in Hg'. by simpl in Hg'.
Qed.

Lemma prefix_lext (h h' : heap) : h `prefix_of` h' → lext h h'.
Proof.
  intros Hp a o Ha. exists o. split; [|by left].
  by eapply prefix_lookup_Some.
Qed.

Lemma lext_length h h' : lext h h' → length h ≤ length h'.
Proof.
  intros Hl. destruct (decide (length h ≤ length h')) as [|Hn]; [done|].
  destruct (lookup_lt_is_Some_2 h (length h')) as [o Ho]; [lia|].
  destruct (Hl _ _ Ho) as (o' & Ho' & _).
  apply lookup_lt_Some in Ho'. lia.
Qed.

Lemma lext_val_ok h h' v : lext h h' → val_ok (length h) v → val_ok (length h') v.
Proof. intros Hl. apply val_ok_mono. by apply lext_length. Qed.

Lemma lext_truthy h h' v :
  lext h h' → val_ok (length h) v → truthy h' v = truthy h v.
Proof.
  intros Hl. destruct v as [s|a]; simpl; [done|]. intros Ha.
  destruct (lookup_lt_is_Some_2 h a Ha) as [o Ho]. rewrite Ho.
  destruct (Hl _ _ Ho) as (o' & -> & [->|Hadd]); [done|].
  destruct Hadd as (kvs & lv & -> & Hne & _ & ->).
  by destruct kvs.
Qed.

Lemma lext_dict_items h h' v :
  lext h h' → val_ok (length h) v →
  is_Some (dict_items h' v) ↔ is_Some (dict_items h v).
Proof.
  intros Hl. destruct v as [s|a]; simpl; [done|]. intros Ha.
  destruct (lookup_lt_is_Some_2 h a Ha) as [o Ho]. rewrite Ho.
  destruct (Hl _ _ Ho) as (o' & -> & [->|Hadd]); [done|].
  destruct Hadd as (kvs & lv & -> & Hne & _ & ->). split; eauto.
Qed.

Lemma lext_get h h' d k :
  lext h h' → val_ok (length h) d → k ≠ "labels" →
  get h' d k = get h d k.
Proof.
  intros Hl Hd Hk. unfold get. destruct d as [s|a]; simpl; [done|].
  simpl in Hd. destruct (lookup_lt_is_Some_2 h a Hd) as [o Ho]. rewrite Ho.
  destruct (Hl _ _ Ho) as (o' & -> & [->|Hadd]); [done|].
  destruct Hadd as (kvs & lv & -> & Hne & _ & ->). simpl.
  destruct (Dict.get (SStr k) kvs) as [v|] eqn:Hg.
  - by apply dict_get_app_Some.
  - rewrite (dict_get_app_None _ _ _ Hg). simpl.
    rewrite decide_False; [done|]. congruence.
Qed.

Lemma lext_rd h h' d k :
  lext h h' → val_ok (length h) d → k ≠ "labels" → rd h' d k = rd h d k.
Proof. intros. unfold rd. by rewrite (lext_get h h'). Qed.

Lemma lext_get_Some h h' d k v :
  lext h h' → get h d k = Some v → get h' d k = Some v.
Proof.
  intros Hl. unfold get. destruct d as [s|a]; simpl; [done|].
  destruct (h !! a) as [o|] eqn:Ho; [|done].
  destruct (Hl _ _ Ho) as (o' & -> & [->|Hadd]); [done|].
  destruct Hadd as (kvs & lv & -> & Hne & _ & ->). simpl.
  apply dict_get_app_Some.
Qed.

Lemma wf_lmirror_of_mirrored m hs hc h' :
  mirrored hs m hc → lext hc h' →
  (∀ a a' : addr, m !! a = Some a' → a' < length hc) →
  lmirror m hs h'.
Proof.
  intros Hm Hl Hlt x Hc.
  assert (Hok : val_ok (length hc) (rn m x)).
  { destruct x as [s|a]; simpl; [done|]. destruct Hc as [a' Ha].
    rewrite Ha. simpl. by eapply Hlt. }
  split_and!.
  - rewrite (lext_truthy hc h') by done. by apply mirrored_truthy.
  - rewrite (lext_dict_items hc h') by done.
    rewrite (mirrored_dict_items _ _ _ _ Hm Hc).
    destruct (dict_items hs x); simpl; split; intros [? ?]; by eauto.
  - intros k Hk. rewrite (lext_get hc h') by done.
    by apply mirrored_get.
Qed.

Lemma lmirror_lext m hs hc h' :
  lmirror m hs hc → lext hc h' →
  (∀ a a' : addr, m !! a = Some a' → a' < length hc) →
  lmirror m hs h'.
Proof.
  intros Hm Hl Hlt x Hc.
  assert (Hok : val_ok (length hc) (rn m x)).
  { destruct x as [s|a]; simpl; [done|]. destruct Hc as [a' Ha].
    rewrite Ha. simpl. by eapply Hlt. }
  destruct (Hm x Hc) as (Ht & Hd & Hg). split_and!.
  - by rewrite (lext_truthy hc h').
  - by rewrite (lext_dict_items hc h').
  - intros k Hk. rewrite (lext_get hc h') by done. by apply Hg.
Qed.

(** ** The Deployment converter *)

Lemma py_setdefault_Ok d k dflt h v h' :
  py_setdefault d k dflt h = Ok (v, h') →
  ∃ a kvs, d = VRef a ∧ h !! a = Some (ODict kvs) ∧
    match Dict.get (SStr k) kvs with
    | Some x => v = x ∧ h' = h
    | None => v = dflt ∧ h' = <[a:=ODict (kvs ++ [(SStr k, dflt)])]> h
    end.
Proof.
  unfold py_setdefault. intros H. mbind H as p h1 E. destruct p as [a kvs].
  apply as_dict_Ok in E as (-> & Ha & ->). exists a, kvs.
  split; [done|]. split; [done|].
  destruct (Dict.get (SStr k) kvs).
  - unfold ret in H. by injection H as <- <-.
  - mbind H as u h2 E. apply store_Ok in E as ->.
    unfold ret in H. by injection H as <- <-.
Qed.

Lemma norm_labels_Ok x h x' h' :
  wf h → val_ok (length h) x →
  norm_labels x h = Ok (x', h') →
  wf h' ∧ lext h h' ∧ val_ok (length h') x' ∧
  (∀ a, a < length h → VRef a ≠ x → h' !! a = h !! a) ∧
  (∀ k, k ≠ "labels" → get h' x' k = get h x k) ∧
  match get h x "labels" with
  | Some v => h `prefix_of` h' ∧ get h' x' "labels" = Some v
  | None => ∃ lv, get h' x' "labels" = Some (VRef lv) ∧
                  h' !! lv = Some (ODict []) ∧ length h ≤ lv
  end.
Proof.
  intros Hwf Hx H. unfold norm_labels in H.
  mbind H as x1 h1 E.
  apply py_or_Ok in E as [(Ht & -> & ->)|[Ht E]].
  - (* the value is truthy *)
    mbind H as d h2 E. apply new_dict_Ok in E as [-> ->].
    mbind H as v h3 E. unfold ret in H. injection H as <- <-.
    apply py_setdefault_Ok in E as (a & kvs & -> & Ha & Hs).
    simpl in Hx. rewrite lookup_app_l in Ha by done.
    assert (Hg : get h (VRef a) "labels" = Dict.get (SStr "labels") kvs).
    { unfold get. simpl. by rewrite Ha. }
    rewrite Hg.
    destruct (Dict.get (SStr "labels") kvs) as [v0|] eqn:Hl.
    + destruct Hs as [-> ->]. split_and!.
      * by apply wf_app_empty_dict.
      * apply prefix_lext. by apply prefix_app_r.
      * simpl. rewrite length_app. lia.
      * intros b Hb _. by rewrite lookup_app_l.
      * intros k _. by apply get_ok_app.
      * by apply prefix_app_r.
      * rewrite get_ok_app by done. by rewrite Hg.
    + destruct Hs as [-> ->].
      assert (Hne : kvs ≠ []).
      { intros ->. simpl in Ht. by rewrite Ha in Ht. }
      assert (Hlen : a < length (h ++ [ODict []])).
      { rewrite length_app. lia. }
      split_and!.
      * apply wf_insert; [by apply wf_app_empty_dict|].
        apply obj_ok_dict. rewrite Forall_app. split.
        -- apply obj_ok_dict. eapply obj_ok_mono; [|by eapply Hwf].
           rewrite length_app. lia.
        -- repeat constructor. simpl. rewrite length_app. simpl. lia.
      * intros b o Hb. destruct (decide (b = a)) as [->|Hne'].
        -- rewrite Ha in Hb. injection Hb as <-.
           eexists. split; [by apply list_lookup_insert_eq|].
           right. by eexists _, _.
        -- exists o. split; [|by left].
           rewrite list_lookup_insert_ne by done. by apply lookup_app_l_Some.
      * simpl. rewrite length_insert, length_app. lia.
      * intros b Hb Hne'. rewrite list_lookup_insert_ne by congruence.
        by rewrite lookup_app_l.
      * intros k Hk. unfold get. simpl.
        rewrite list_lookup_insert_eq by done. rewrite Ha. simpl.
        destruct (Dict.get (SStr k) kvs) as [v|] eqn:Hgk.
        -- by apply dict_get_app_Some.
        -- rewrite (dict_get_app_None _ _ _ Hgk). simpl.
           rewrite decide_False; [done|]. congruence.
      * cbv iota beta. exists (length h). split_and!; [|
          rewrite list_lookup_insert_ne by lia;
          by rewrite lookup_app_r, Nat.sub_diag|done].
        unfold get. simpl. rewrite list_lookup_insert_eq by done. simpl.
        by rewrite (dict_get_app_None _ _ _ Hl).
  - (* the value is falsy: a new dict takes its place *)
    apply new_dict_Ok in E as [-> ->].
    mbind H as d h2 E. apply new_dict_Ok in E as [-> ->].
    mbind H as v h3 E. unfold ret in H. injection H as <- <-.
    apply py_setdefault_Ok in E as (a & kvs & [= <-] & Ha & Hs).
    rewrite <- app_assoc in Ha, Hs. simpl in Ha, Hs.
    rewrite lookup_app_r, Nat.sub_diag in Ha by done. injection Ha as <-.
    simpl in Hs. destruct Hs as [-> ->].
    rewrite insert_app_r_alt, Nat.sub_diag by done. simpl.
    rewrite (get_falsy _ _ _ Ht).
    assert (Hwf' : wf (h ++ [ODict [(SStr "labels",
                                     VRef (length (h ++ [ODict []])))];
                             ODict []])).
    { apply wf_app; [done|]. simpl. repeat constructor.
      simpl. rewrite length_app. simpl. lia. }
    split_and!.
    + done.
    + apply prefix_lext. by apply prefix_app_r.
    + simpl. rewrite length_app. simpl. lia.
    + intros b Hb _. by rewrite lookup_app_l.
    + intros k Hk. rewrite (get_falsy _ _ _ Ht). unfold get. simpl.
      rewrite lookup_app_r, Nat.sub_diag by done. simpl.
      rewrite decide_False; [done|]. congruence.
    + cbv iota beta. exists (length (h ++ [ODict []])). split_and!.
      * unfold get. simpl. by rewrite lookup_app_r, Nat.sub_diag.
      * rewrite length_app. simpl. rewrite lookup_app_r by lia.
        by replace (length h + 1 - length h) with 1 by lia.
      * rewrite length_app. lia.
Qed.

Lemma mirrored_agree hs m hc h' :
  mirrored hs m hc →
  (∀ a a' : addr, m !! a = Some a' → h' !! a' = hc !! a') →
  mirrored hs m h'.
Proof.
  intros Hm Hag a a' Ha. destruct (Hm _ _ Ha) as (o & Ho & Ho' & Hc).
  exists o. split_and!; [done| |done]. by rewrite (Hag _ _ Ha).
Qed.

Lemma content_mirrored hs m hc n x :
  mirrored hs m hc → covered m x → content n hc (rn m x) = content n hs x.
Proof.
  intros Hm. revert x. induction n as [|n IH]; intros [s|a] Hc; simpl; try done.
  - destruct Hc as [a' Ha]. by rewrite Ha.
  - destruct Hc as [a' Ha]. rewrite Ha. simpl.
    destruct (Hm _ _ Ha) as (o & -> & -> & Hcov).
    destruct o as [kvs|xs]; simpl in *.
    + f_equal. rewrite <- list_fmap_compose. apply Forall_fmap_ext_1.
      rewrite Forall_fmap in Hcov. eapply Forall_impl; [exact Hcov|].
      intros [k v] Hv. simpl in *. f_equal. by apply IH.
    + f_equal. rewrite <- list_fmap_compose. apply Forall_fmap_ext_1.
      eapply Forall_impl; [exact Hcov|]. intros v Hv. simpl. by apply IH.
Qed.

(** The content of a value depends on the objects it reaches only. *)
Lemma content_agree (P : addr → Prop) h h' n v :
  (∀ a, P a → h' !! a = h !! a) →
  (∀ a o, P a → h !! a = Some o →
          Forall (λ x, match x with VRef b => P b | VS _ => True end)
            (obj_vals o)) →
  match v with VRef b => P b | VS _ => True end →
  content n h' v = content n h v.
Proof.
  intros Hag Hcl. revert v. induction n as [|n IH]; intros [s|a] Hv; simpl;
    try done.
  rewrite (Hag _ Hv). destruct (h !! a) as [o|] eqn:Ho; [|done].
  pose proof (Hcl _ _ Hv Ho) as Hall.
  destruct o as [kvs|xs]; simpl in *.
  - f_equal. apply Forall_fmap_ext_1. rewrite Forall_fmap in Hall.
    eapply Forall_impl; [exact Hall|]. intros [k v] Hx. simpl in *.
    f_equal. by apply IH.
  - f_equal. apply Forall_fmap_ext_1.
    eapply Forall_impl; [exact Hall|]. intros v Hx. by apply IH.
Qed.

Lemma content_prefix (h h' : heap) n v :
  h `prefix_of` h' → wf h → val_ok (length h) v →
  content n h' v = content n h v.
Proof.
  intros [g ->] Hwf Hv. apply (content_agree (λ a, a < length h)).
  - intros a Ha. by rewrite lookup_app_l.
  - intros a o _ Ho. pose proof (Hwf _ _ Ho) as Hok.
    eapply Forall_impl; [exact Hok|]. by intros [s|b].
  - by destruct v.
Qed.

Lemma new_dict_nil_Ok h v h' :
  new_dict [] h = Ok (v, h') ↔ v = VRef (length h) ∧ h' = h ++ [ODict []].
Proof. apply new_dict_Ok. Qed.

Lemma copy_or_fresh_step m hs hc lo xs x k d h1 v0 h2 v hc' :
  mirrored hs m hc → wf hc →
  (∀ a a' : addr, m !! a = Some a' → lo ≤ a' < length hc) →
  lo ≤ length hc →
  copy_or_fresh m hs hc lo xs x →
  new_dict [] hc = Ok (d, h1) → py_get x k d h1 = Ok (v0, h2) →
  py_or v0 (new_dict []) h2 = Ok (v, hc') →
  hc `prefix_of` hc' ∧ wf hc' ∧ val_ok (length hc') v ∧
  copy_or_fresh m hs hc' lo (rd hs xs k) v.
Proof.
  intros Hm Hwf Hrange Hlo Hx [-> ->]%new_dict_nil_Ok [-> ->]%py_get_Ok_get
    Hor.
  pose proof (wf_app_empty_dict hc Hwf) as Hwf1.
  assert (Hfresh : truthy (hc ++ [ODict []]) (VRef (length hc)) = false).
  { simpl. by rewrite lookup_app_r, Nat.sub_diag. }
  assert (Hcase_fresh :
    truthy hs (rd hs xs k) = false →
    py_or (VRef (length hc)) (new_dict []) (hc ++ [ODict []]) = Ok (v, hc') →
    hc `prefix_of` hc' ∧ wf hc' ∧ val_ok (length hc') v ∧
    copy_or_fresh m hs hc' lo (rd hs xs k) v).
  { intros Hf [(Ht & _)|[_ E]]%py_or_Ok; [congruence|].
    apply new_dict_nil_Ok in E as [-> ->]. split_and!.
    - rewrite <- app_assoc. by apply prefix_app_r.
    - by apply wf_app_empty_dict.
    - simpl. rewrite !length_app. simpl. lia.
    - right. split; [done|]. eexists. split; [done|].
      split; [rewrite length_app; lia|].
      by rewrite lookup_app_r, Nat.sub_diag. }
  destruct Hx as [[Hc ->]|(Hf & a & -> & Ha & Hemp)].
  - assert (Hok : val_ok (length hc) (rn m xs)).
    { destruct xs as [s|a]; simpl; [done|]. destruct Hc as [a' Ha].
      rewrite Ha. simpl. destruct (Hrange _ _ Ha). lia. }
    rewrite get_ok_app in Hor by done.
    destruct (mirrored_get _ _ _ _ k Hm Hc) as [Hg Hcov]. rewrite Hg in Hor.
    unfold rd in *. destruct (get hs xs k) as [vs0|] eqn:Hgs; simpl in *.
    + specialize (Hcov _ eq_refl).
      assert (Hok0 : val_ok (length hc) (rn m vs0)).
      { destruct vs0 as [s|a]; simpl; [done|]. destruct Hcov as [a' Ha].
        rewrite Ha. simpl. destruct (Hrange _ _ Ha). lia. }
      assert (Htr : truthy (hc ++ [ODict []]) (rn m vs0) = truthy hs vs0).
      { rewrite truthy_ok_app by done. by apply mirrored_truthy. }
      apply py_or_Ok in Hor as [(Ht & -> & ->)|[Ht E]].
      * split_and!.
        -- by apply prefix_app_r.
        -- done.
        -- eapply val_ok_mono; [|exact Hok0]. rewrite length_app. lia.
        -- by left.
      * apply new_dict_nil_Ok in E as [-> ->]. split_and!.
        -- rewrite <- app_assoc. by apply prefix_app_r.
        -- by apply wf_app_empty_dict.
        -- simpl. rewrite !length_app. simpl. lia.
        -- right. split; [congruence|]. eexists. split; [done|].
           split; [rewrite length_app; lia|].
           by rewrite lookup_app_r, Nat.sub_diag.
    + by apply Hcase_fresh.
  - assert (get (hc ++ [ODict []]) (VRef a) k = None) as Hn.
    { unfold get. simpl. by rewrite (lookup_app_l_Some _ _ _ _ Hemp). }
    rewrite Hn in Hor. simpl in Hor. apply Hcase_fresh; [|done].
    unfold rd. by rewrite (get_falsy _ _ _ Hf).
Qed.

Lemma lext_lookup_empty h h' a :
  lext h h' → h !! a = Some (ODict []) → h' !! a = Some (ODict []).
Proof.
  intros Hl Ha. destruct (Hl _ _ Ha) as (o' & Ho' & [->|Hadd]); [done|].
  by destruct Hadd as (kvs & lv & [= <-] & Hne & _).
Qed.

Lemma copy_of_range h v m h' v' :
  copy_of h v m h' v' →
  ∀ a a' : addr, m !! a = Some a' → length h ≤ a' < length h'.
Proof.
  intros (_ & _ & _ & Hm & _) a a' Ha. by destruct (Hm _ _ Ha) as (_ & ? & _).
Qed.

Lemma rn_val_ok m n v :
  (∀ a a' : addr, m !! a = Some a' → a' < n) → covered m v →
  val_ok n (rn m v).
Proof.
  intros Hr. destruct v as [s|a]; simpl; [done|]. intros [a' Ha].
  rewrite Ha. simpl. by eapply Hr.
Qed.

Lemma rn_above m lo v b :
  (∀ a a' : addr, m !! a = Some a' → lo ≤ a') → covered m v →
  rn m v = VRef b → lo ≤ b.
Proof.
  intros Hr. destruct v as [s|a]; simpl; [done|]. intros [a' Ha].
  rewrite Ha. intros [= <-]. by eapply Hr.
Qed.

Lemma deployment_parts_Ok dc h meta spec name tpl_meta tpl_spec hP :
  wf h → val_ok (length h) dc →
  deployment_parts dc h = Ok ((meta, spec, name, tpl_meta, tpl_spec), hP) →
  wf hP ∧ length h ≤ length hP ∧
  val_ok (length hP) meta ∧ val_ok (length hP) spec ∧
  val_ok (length hP) name ∧ val_ok (length hP) tpl_meta ∧
  val_ok (length hP) tpl_spec ∧
  (∃ ms hs s0, spec = rn ms s0 ∧ covered ms s0 ∧ lmirror ms hs hP ∧
     (∀ a a' : addr, ms !! a = Some a' → a' < length hP) ∧
     h `prefix_of` hs ∧ ∀ k, get hs s0 k = get h (rd h dc "spec") k) ∧
  (∀ s, dc_name h dc = VS s → name = VS s) ∧
  truthy hP (rd hP tpl_meta "labels") = truthy h (dc_template_labels h dc) ∧
  (truthy h (dc_template_labels h dc) = true →
   ∀ n, content n hP (rd hP tpl_meta "labels")
        = content n h (dc_template_labels h dc)) ∧
  truthy hP (rd hP meta "labels") = truthy h (dc_labels h dc) ∧
  (truthy h (dc_labels h dc) = true →
   ∀ n, content n hP (rd hP meta "labels") = content n h (dc_labels h dc)) ∧
  (∀ kvs, dict_items h (dc_annotations h dc) = Some kvs → scalar_items kvs →
          dict_items hP (rd hP meta "annotations") = Some kvs) ∧
  (∀ s, dc_annotations h dc = VS s → rd hP meta "annotations" = VS s).
Proof.
  intros Hwf Hdc H. unfold deployment_parts in H.
  (* the copy of the metadata *)
  mbind H as d0 h1 E. apply new_dict_nil_Ok in E as [-> ->].
  mbind H as m0 h1 E.
  apply py_get_fresh_default in E as (-> & Hm0ok & Hm0get & _); [|done..].
  pose proof (wf_app_empty_dict h Hwf) as Hwf1.
  set (h1 := h ++ [ODict []]) in *.
  assert (Hp01 : h `prefix_of` h1) by by apply prefix_app_r.
  mbind H as meta0 h2 E. apply deepcopy_Ok in E as [mm Hc1]; [|done..].
  destruct (wf_copy _ _ _ _ _ Hwf1 Hc1) as [Hwf2 Hmeta0ok].
  pose proof (copy_of_mirrored _ _ _ _ _ Hc1) as Hmir1.
  pose proof (copy_of_prefix _ _ _ _ _ Hc1) as Hp12.
  pose proof (copy_of_range _ _ _ _ _ Hc1) as Hr1.
  destruct Hc1 as (_ & Hcov1 & -> & _).
  assert (Hp02 : h `prefix_of` h2) by by etrans.
  (* the copy of the spec *)
  mbind H as d1 h3 E. apply new_dict_nil_Ok in E as [-> ->].
  mbind H as s0 h3 E.
  apply py_get_fresh_default in E as (-> & Hs0ok & Hs0get & _);
    [|done|by eapply val_ok_prefix].
  pose proof (wf_app_empty_dict h2 Hwf2) as Hwf3.
  set (h3 := h2 ++ [ODict []]) in *.
  assert (Hp23 : h2 `prefix_of` h3) by by apply prefix_app_r.
  assert (Hp03 : h `prefix_of` h3) by by etrans.
  mbind H as spec0 h4 E. apply deepcopy_Ok in E as [ms Hc2]; [|done..].
  destruct (wf_copy _ _ _ _ _ Hwf3 Hc2) as [Hwf4 Hspecok].
  pose proof (copy_of_mirrored _ _ _ _ _ Hc2) as Hmir2.
  pose proof (copy_of_prefix _ _ _ _ _ Hc2) as Hp34.
  pose proof (copy_of_range _ _ _ _ _ Hc2) as Hr2.
  destruct Hc2 as (_ & Hcov2 & -> & _).
  assert (Hp24 : h2 `prefix_of` h4) by by etrans.
  pose proof (prefix_length _ _ Hp12) as Hlen12.
  pose proof (prefix_length _ _ Hp23) as Hlen23.
  pose proof (prefix_length _ _ Hp34) as Hlen34.
  (* the name *)
  mbind H as name0 h5 E. apply py_get_Ok_get in E as [-> ->].
  (* norm_labels(meta) *)
  mbind H as meta1 h5 E.
  apply norm_labels_Ok in E
    as (Hwf5 & Hl45 & Hmetaok & Hfr1 & Hget1 & Hlab1); [|done|].
  2:{ eapply val_ok_prefix; [exact Hp24|done]. }
  pose proof (lext_length _ _ Hl45) as Hlen45.
  assert (Hmir25 : mirrored h3 ms h5).
  { eapply mirrored_agree; [exact Hmir2|]. intros a a' Ha.
    destruct (Hr2 _ _ Ha). apply Hfr1; [lia|].
    intros Heq. rewrite <- Heq in Hmeta0ok. simpl in Hmeta0ok. lia. }
  (* the template *)
  mbind H as d2 h6 E1. mbind H as t0 h6' E2. mbind H as template h7 E3.
  destruct (copy_or_fresh_step ms h3 h5 (length h3) s0 (rn ms s0) "template"
              d2 h6 t0 h6' template h7 Hmir25 Hwf5)
    as (Hp57 & Hwf7 & Htok & Hcf_t);
    [intros a a' Ha; destruct (Hr2 _ _ Ha); lia|lia|by left|done..|].
  clear E1 E2 E3.
  pose proof (prefix_length _ _ Hp57) as Hlen57.
  (* the metadata of the template *)
  mbind H as d3 h8 E1. mbind H as tm0 h8' E2. mbind H as tm1 h9 E3.
  destruct (copy_or_fresh_step ms h3 h7 (length h3) (rd h3 s0 "template")
              template "metadata"
              d3 h8 tm0 h8' tm1 h9 (mirrored_prefix _ _ _ _ Hmir25 Hp57) Hwf7)
    as (Hp79 & Hwf9 & Htm1ok & Hcf_tm);
    [intros a a' Ha; destruct (Hr2 _ _ Ha); lia|lia|done..|].
  clear E1 E2 E3.
  pose proof (prefix_length _ _ Hp79) as Hlen79.
  assert (Hmir29 : mirrored h3 ms h9).
  { eapply mirrored_prefix; [exact Hmir25|]. by etrans. }
  (* norm_labels(tpl_meta) *)
  mbind H as tpl_meta0 h10 E.
  apply norm_labels_Ok in E
    as (Hwf10 & Hl910 & Htplok & Hfr2 & Hget2 & Hlab2); [|done..].
  pose proof (lext_length _ _ Hl910) as Hlen910.
  (* the spec of the template *)
  mbind H as d4 h11 E. apply new_dict_nil_Ok in E as [-> ->].
  mbind H as ts0 h11 E.
  apply py_get_fresh_default in E as (-> & Hts0ok & _ & _);
    [|done|by eapply lext_val_ok; [exact Hl910|eapply val_ok_prefix]].
  mbind H as tpl_spec0 h12 E.
  apply py_or_new_dict_Ok in E as (Hp1112 & Hwf12 & Htsok & _);
    [|by apply wf_app_empty_dict|done].
  unfold ret in H. injection H as <- <- <- <- <- <-.
  assert (Hp1012 : h10 `prefix_of` h12).
  { etrans; [|exact Hp1112]. by apply prefix_app_r. }
  pose proof (prefix_length _ _ Hp1012) as Hlen1012.
  pose proof (prefix_length _ _ Hp01) as Hlen01.
  assert (Hl412 : lext h4 h12).
  { eapply lext_trans; [exact Hl45|].
    eapply lext_trans; [apply prefix_lext; etrans; [exact Hp57|exact Hp79]|].
    eapply lext_trans; [exact Hl910|]. by apply prefix_lext. }
  assert (Hl512 : lext h5 h12).
  { eapply lext_trans; [apply prefix_lext; etrans; [exact Hp57|exact Hp79]|].
    eapply lext_trans; [exact Hl910|]. by apply prefix_lext. }
  (* reading the source through the stores it is a prefix of *)
  assert (Hsrc : ∀ k, get h3 s0 k = get h (rd h dc "spec") k).
  { intros k. rewrite Hs0get, (rd_ok_prefix h h2) by done.
    apply get_ok_prefix; [done|]. by apply wf_rd. }
  assert (Hrd3 : ∀ y k, val_ok (length h) y → rd h3 y k = rd h y k).
  { intros y k Hy. by apply rd_ok_prefix. }
  assert (HtlS : rd h3 (rd h3 (rd h3 s0 "template") "metadata") "labels"
                 = dc_template_labels h dc).
  { unfold dc_template_labels.
    assert (rd h3 s0 "template" = rd h (rd h dc "spec") "template") as ->.
    { unfold rd at 1 2. by rewrite Hsrc. }
    rewrite (Hrd3 (rd h (rd h dc "spec") "template")) by by apply wf_rd.
    by rewrite Hrd3 by by apply wf_rd. }
  assert (HmlS : rd h1 m0 "labels" = dc_labels h dc).
  { unfold dc_labels, rd at 1 2. by rewrite Hm0get. }
  assert (Hsrcok : ∀ y k, val_ok (length h) (rd h y k)).
  { intros. by apply wf_rd. }
  (* the labels of the template *)
  assert (Htl :
    truthy h12 (rd h12 tpl_meta0 "labels") = truthy h (dc_template_labels h dc) ∧
    (truthy h (dc_template_labels h dc) = true →
     ∀ n, content n h12 (rd h12 tpl_meta0 "labels")
          = content n h (dc_template_labels h dc))).
  { assert (Hnone : get h9 tm1 "labels" = None →
      truthy h (dc_template_labels h dc) = false →
      truthy h12 (rd h12 tpl_meta0 "labels") = truthy h (dc_template_labels h dc) ∧
      (truthy h (dc_template_labels h dc) = true →
       ∀ n, content n h12 (rd h12 tpl_meta0 "labels")
            = content n h (dc_template_labels h dc))).
    { intros Hn Hf. rewrite Hn in Hlab2. destruct Hlab2 as (lv & Hg & Hlv & _).
      rewrite Hf. split; [|done]. unfold rd.
      rewrite (get_ok_prefix h10 h12), Hg by done. simpl.
      by rewrite (prefix_lookup_Some _ _ _ _ Hlv Hp1012). }
    destruct Hcf_tm as [[Hc ->]|(Hf & a & -> & Ha & Hemp)].
    - destruct (mirrored_get _ _ _ _ "labels" Hmir29 Hc) as [Hg Hcov].
      revert HtlS. unfold rd at 1.
      destruct (get h3 (rd h3 (rd h3 s0 "template") "metadata") "labels")
        as [vs|] eqn:Hgs; simpl; intros HtlS.
      + specialize (Hcov _ eq_refl). rewrite Hg in Hlab2. simpl in Hlab2.
        destruct Hlab2 as [Hp910 Hg10].
        assert (Hmir212 : mirrored h3 ms h12).
        { eapply mirrored_prefix; [exact Hmir29|]. by etrans. }
        assert (Hvs : val_ok (length h) vs).
        { rewrite HtlS. by apply wf_rd. }
        rewrite <- HtlS.
        unfold rd. rewrite (get_ok_prefix h10 h12), Hg10 by done. simpl.
        split.
        * rewrite (mirrored_truthy _ _ _ _ Hmir212 Hcov).
          by apply truthy_ok_prefix.
        * intros _ n. rewrite (content_mirrored _ _ _ n _ Hmir212 Hcov).
          by apply content_prefix.
      + apply Hnone; [by rewrite Hg|by rewrite <- HtlS].
    - apply Hnone.
      + unfold get. simpl. by rewrite Hemp.
      + rewrite <- HtlS. unfold rd. by rewrite (get_falsy _ _ _ Hf). }
  (* the labels of the resource *)
  assert (Hml :
    truthy h12 (rd h12 meta1 "labels") = truthy h (dc_labels h dc) ∧
    (truthy h (dc_labels h dc) = true →
     ∀ n, content n h12 (rd h12 meta1 "labels")
          = content n h (dc_labels h dc))).
  { assert (Hg4 : get h4 (rn mm m0) "labels" = rn mm <$> get h1 m0 "labels").
    { rewrite (get_ok_prefix h2 h4) by done.
      by destruct (mirrored_get _ _ _ _ "labels" Hmir1 Hcov1). }
    destruct (mirrored_get _ _ _ _ "labels" Hmir1 Hcov1) as [_ Hcov].
    rewrite Hg4 in Hlab1. revert HmlS. unfold rd at 1.
    destruct (get h1 m0 "labels") as [vs|] eqn:Hgs; simpl; intros HmlS.
    - specialize (Hcov _ eq_refl). simpl in Hlab1.
      destruct Hlab1 as [Hp45 Hg5].
      assert (Hvs : val_ok (length h) vs).
      { rewrite HmlS. by apply wf_rd. }
      assert (Htm1 : ∀ a, a < length h3 → VRef a ≠ tm1).
      { intros a Ha <-.
        destruct Hcf_tm as [[Hc Heq]|(_ & b & [= ->] & Hb & _)]; [|lia].
        symmetry in Heq. apply (rn_above ms (length h3)) in Heq; [lia| |done].
        intros ?? Hx. by destruct (Hr2 _ _ Hx). }
      assert (Hmir112 : mirrored h1 mm h12).
      { eapply mirrored_agree; [exact Hmir1|]. intros a a' Hx.
        destruct (Hr1 _ _ Hx) as [_ Hlt].
        assert (Hlt10 : a' < length h10) by lia.
        rewrite <- (prefix_lookup_lt _ _ _ Hlt10 Hp1012).
        rewrite Hfr2 by (try apply Htm1; lia).
        assert (Hp29 : h2 `prefix_of` h9).
        { etrans; [exact Hp24|]. etrans; [exact Hp45|]. by etrans. }
        symmetry. by apply prefix_lookup_lt. }
      rewrite <- HmlS. unfold rd.
      rewrite (lext_get_Some _ _ _ _ _ Hl512 Hg5). simpl. split.
      + rewrite (mirrored_truthy _ _ _ _ Hmir112 Hcov).
        by apply truthy_ok_prefix.
      + intros _ n. rewrite (content_mirrored _ _ _ n _ Hmir112 Hcov).
        by apply content_prefix.
    - simpl in Hlab1. destruct Hlab1 as (lv & Hg & Hlv & _).
      rewrite <- HmlS. simpl. split; [|done]. unfold rd.
      rewrite (lext_get_Some _ _ _ _ _ Hl512 Hg). simpl.
      by rewrite (lext_lookup_empty _ _ _ Hl512 Hlv). }
  destruct Htl as [Htl1 Htl2]. destruct Hml as [Hml1 Hml2].
  (* the annotations of the resource *)
  assert (Hga : get h12 meta1 "annotations"
                = rn mm <$> get h (rd h dc "metadata") "annotations").
  { rewrite (lext_get _ _ _ _ Hl512 Hmetaok) by done.
    rewrite Hget1 by done. rewrite (get_ok_prefix h2 h4) by done.
    destruct (mirrored_get _ _ _ _ "annotations" Hmir1 Hcov1) as [-> _].
    by rewrite Hm0get. }
  assert (Hann1 : ∀ kvs, dict_items h (dc_annotations h dc) = Some kvs →
    scalar_items kvs → dict_items h12 (rd h12 meta1 "annotations") = Some kvs).
  { intros kvs Hk Hsc. unfold dc_annotations, rd at 1 in Hk.
    destruct (get h (rd h dc "metadata") "annotations") as [[s|a]|] eqn:Hg;
      simpl in Hk; try done.
    destruct (h !! a) as [[kvs0|xs]|] eqn:Hha; try done.
    injection Hk as ->.
    assert (Hrn : prod_map id (rn mm) <$> kvs = kvs).
    { clear -Hsc. induction Hsc as [|[k v] kvs [s Hs] Hall IH]; [done|].
      simpl in Hs. subst v. rewrite fmap_cons. by f_equal. }
    pose proof (Hm0get "annotations") as Hg1. rewrite Hg in Hg1.
    destruct (mirrored_get _ _ _ _ "annotations" Hmir1 Hcov1) as [Hg2 Hcv].
    specialize (Hcv _ Hg1). destruct Hcv as [a' Ha'].
    destruct (Hmir1 _ _ Ha') as (o & Ho & Ho' & _).
    assert (Halt : a < length h) by by eapply lookup_lt_Some.
    unfold h1 in Ho. rewrite lookup_app_l, Hha in Ho by done.
    injection Ho as <-. simpl in Ho'. rewrite Hrn in Ho'.
    destruct (Hr1 _ _ Ha') as [Hlo Hhi].
    assert (Hne : VRef a' ≠ rn mm m0).
    { intros Heq. destruct m0 as [s|b]; [done|].
      destruct Hcov1 as [b' Hb']. simpl in Heq. rewrite Hb' in Heq.
      injection Heq as <-.
      destruct (Hmir1 _ _ Hb') as (ob & Hob & Hob' & _).
      rewrite Ho' in Hob'. injection Hob' as Hob'.
      unfold get in Hg1. simpl in Hg1. rewrite Hob in Hg1.
      destruct ob as [kvsb|xsb]; [|done]. simpl in Hg1, Hob'.
      injection Hob' as Hob'.
      assert (Hbad : Dict.get (SStr "annotations") kvs = Some (VRef a')).
      { rewrite Hob', dict_get_fmap, Hg1. simpl. by rewrite Ha'. }
      apply dict_get_elem in Hbad. unfold scalar_items in Hsc.
      rewrite Forall_forall in Hsc. by destruct (Hsc _ Hbad) as [s Hs]. }
    assert (Htm1 : VRef a' ≠ tm1).
    { intros <-.
      destruct Hcf_tm as [[Hc Heq]|(_ & b & [= ->] & Hb & _)];
        [|unfold h3 in Hb; rewrite length_app in Hb; lia].
      symmetry in Heq. apply (rn_above ms (length h3)) in Heq; [|by intros ?? Hx; destruct (Hr2 _ _ Hx)|done].
      unfold h3 in Heq. rewrite length_app in Heq. lia. }
    unfold rd. rewrite Hga. simpl. rewrite Ha'. simpl.
    assert (Hlk : h12 !! a' = h2 !! a').
    { assert (Hp59 : h5 `prefix_of` h9) by by etrans.
      assert (E1 : h10 !! a' = h12 !! a')
        by (apply prefix_lookup_lt; [lia|done]).
      assert (E2 : h10 !! a' = h9 !! a') by (apply Hfr2; [lia|done]).
      assert (E3 : h5 !! a' = h9 !! a')
        by (apply prefix_lookup_lt; [lia|done]).
      assert (E4 : h5 !! a' = h4 !! a') by (apply Hfr1; [lia|done]).
      assert (E5 : h2 !! a' = h4 !! a')
        by (apply prefix_lookup_lt; [lia|done]).
      congruence. }
    by rewrite Hlk, Ho'. }
  assert (Hann2 : ∀ s, dc_annotations h dc = VS s →
                       rd h12 meta1 "annotations" = VS s).
  { intros s Hs. unfold rd at 1. rewrite Hga.
    unfold dc_annotations, rd at 1 in Hs.
    destruct (get h (rd h dc "metadata") "annotations") as [[s'|a]|];
      simpl in *; congruence. }
  split_and!.
  - done.
  - lia.
  - eapply val_ok_mono; [|exact Hmetaok]. lia.
  - eapply val_ok_mono; [|exact Hspecok]. lia.
  - eapply (val_ok_mono (length h4)); [lia|].
    destruct (get h4 (rn mm m0) "name") eqn:Hg; simpl; [|done].
    by eapply wf_get.
  - eapply val_ok_mono; [|exact Htplok]. lia.
  - done.
  - exists ms, h3, s0. split_and!; [done..| | |done|done].
    + eapply wf_lmirror_of_mirrored; [exact Hmir2|exact Hl412|].
      intros a a' Ha. by destruct (Hr2 _ _ Ha).
    + intros a a' Ha. destruct (Hr2 _ _ Ha). lia.
  - intros s. unfold dc_name.
    rewrite (get_ok_prefix h2 h4) by done.
    destruct (mirrored_get _ _ _ _ "name" Hmir1 Hcov1) as [-> _].
    rewrite Hm0get.
    by destruct (get h (rd h dc "metadata") "name") as [[?|?]|].
  - exact Htl1.
  - exact Htl2.
  - exact Hml1.
  - exact Hml2.
  - exact Hann1.
  - exact Hann2.
Qed.

(** ** Regions of the store *)

Lemma obj_vals_map f o : obj_vals (obj_map f o) = f <$> obj_vals o.
Proof.
  destruct o as [kvs|xs]; simpl; [|done].
  rewrite <- !list_fmap_compose. by apply list_fmap_ext.
Qed.

Lemma in_region_rn m lo hi v :
  (∀ a a' : addr, m !! a = Some a' → lo ≤ a' < hi) → covered m v →
  in_region lo hi (rn m v).
Proof.
  intros Hr. destruct v as [s|a]; simpl; [done|]. intros [a' Ha].
  rewrite Ha. simpl. by eapply Hr.
Qed.

(** A copy lives in the part of the store its making added. *)
Lemma copy_of_closed h v m h' v' :
  copy_of h v m h' v' →
  closed_region (length h) (length h') h' ∧
  in_region (length h) (length h') v'.
Proof.
  intros (_ & Hc & -> & Hm & Hsur).
  assert (Hr : ∀ a a' : addr, m !! a = Some a' → length h ≤ a' < length h').
  { intros a a' Ha. by destruct (Hm _ _ Ha) as (_ & ? & _). }
  split; [|by apply in_region_rn].
  intros a' o Ha' Ho. destruct (Hsur _ Ha') as [a Ha].
  destruct (Hm _ _ Ha) as (_ & _ & o0 & _ & Ho0 & Hcov).
  rewrite Ho0 in Ho. injection Ho as <-. rewrite obj_vals_map, Forall_fmap.
  eapply Forall_impl; [exact Hcov|]. intros x Hx. by apply in_region_rn.
Qed.

Lemma closed_region_agree lo hi (h h' : heap) :
  (∀ a, lo ≤ a < hi → h' !! a = h !! a) →
  closed_region lo hi h → closed_region lo hi h'.
Proof. intros Hag Hcl a o Ha Ho. rewrite Hag in Ho by done. by eapply Hcl. Qed.

Lemma content_region lo hi (h h' : heap) n v :
  (∀ a, lo ≤ a < hi → h' !! a = h !! a) →
  closed_region lo hi h → in_region lo hi v →
  content n h' v = content n h v.
Proof.
  intros Hag Hcl Hv. apply (content_agree (λ a, lo ≤ a < hi)).
  - done.
  - intros a o Ha Ho. eapply Forall_impl; [by eapply Hcl|]. by intros [s|b].
  - by destruct v.
Qed.

Lemma reach_region lo hi h v a :
  closed_region lo hi h → in_region lo hi v → reach h v a → lo ≤ a < hi.
Proof.
  intros Hcl Hv Hr. induction Hr as [a|a o v b Ho Hin Hr IH]; [done|].
  apply IH. pose proof (Hcl _ _ Hv Ho) as Hall.
  rewrite Forall_forall in Hall. by apply Hall.
Qed.


(** ** The labels of a Deployment *)

Lemma copy_of_content h v m h' v' n :
  copy_of h v m h' v' → content n h' v' = content n h v.
Proof.
  intros Hc. pose proof (copy_of_mirrored _ _ _ _ _ Hc) as Hm.
  destruct Hc as (_ & Hcov & -> & _). by apply content_mirrored.
Qed.

Lemma closed_region_prefix lo hi (h h' : heap) :
  h `prefix_of` h' → hi ≤ length h →
  closed_region lo hi h → closed_region lo hi h'.
Proof.
  intros Hp Hhi. apply closed_region_agree. intros a Ha.
  symmetry. apply prefix_lookup_lt; [lia|done].
Qed.

Lemma deployment_labels_Ok meta tpl_meta name h labels sel tl h' :
  wf h → val_ok (length h) name →
  deployment_labels meta tpl_meta name h = Ok ((labels, sel, tl), h') →
  ∃ n0 n1 n2,
    length h ≤ n0 ∧ n0 ≤ n1 ∧ n1 ≤ n2 ∧ n2 ≤ length h' ∧
    h `prefix_of` h' ∧ wf h' ∧
    val_ok (length h') labels ∧ val_ok (length h') sel ∧
    val_ok (length h') tl ∧
    in_region n0 n1 labels ∧ in_region n1 n2 sel ∧
    in_region n2 (length h') tl ∧
    closed_region n0 n1 h' ∧ closed_region n1 n2 h' ∧
    closed_region n2 (length h') h' ∧
    (∀ n, content n h' sel = content n h' labels) ∧
    (∀ n, content n h' tl = content n h' labels) ∧
    (∀ n, content n h' labels =
       if truthy h (rd h tpl_meta "labels")
       then content n h (rd h tpl_meta "labels")
       else if truthy h (rd h meta "labels")
       then content n h (rd h meta "labels")
       else match n with
            | 0 => TCut
            | S n' => TD [(SStr "app", content n' h name)]
            end).
Proof.
  intros Hwf Hname H. unfold deployment_labels in H.
  mbind H as l0 h0 E. apply py_get_Ok_get in E as [-> ->].
  fold (rd h tpl_meta "labels") in H.
  mbind H as l1 hs E.
  assert (Hl1 : wf hs ∧ h `prefix_of` hs ∧ val_ok (length hs) l1 ∧
    ∀ n, content n hs l1 =
       if truthy h (rd h tpl_meta "labels")
       then content n h (rd h tpl_meta "labels")
       else if truthy h (rd h meta "labels")
       then content n h (rd h meta "labels")
       else match n with
            | 0 => TCut
            | S n' => TD [(SStr "app", content n' h name)]
            end).
  { apply py_or_Ok in E as [(Ht & -> & ->)|[Ht E]].
    - rewrite Ht. split_and!; [done|done|by apply wf_rd|done].
    - rewrite Ht. mbind E as l h1 E1. apply py_get_Ok_get in E1 as [-> ->].
      fold (rd h meta "labels") in E.
      apply py_or_Ok in E as [(Ht2 & -> & ->)|[Ht2 E]].
      + rewrite Ht2. split_and!; [done|done|by apply wf_rd|done].
      + rewrite Ht2. apply new_dict_Ok in E as [-> ->]. simpl.
        split_and!.
        * apply wf_app; [done|]. repeat constructor. simpl.
          eapply val_ok_mono; [|exact Hname]. lia.
        * by apply prefix_app_r.
        * rewrite length_app. simpl. lia.
        * intros [|n]; simpl; [done|].
          rewrite lookup_app_r, Nat.sub_diag by done. simpl.
          do 3 f_equal. apply content_prefix; [by apply prefix_app_r|done..]. }
  clear E. destruct Hl1 as (Hwfs & Hps & Hl1ok & Hcont).
  mbind H as lab h1 E. apply deepcopy_Ok in E as [m1 Hc1]; [|done..].
  destruct (wf_copy _ _ _ _ _ Hwfs Hc1) as [Hwf1 Hlabok].
  mbind H as sel0 h2 E. apply deepcopy_Ok in E as [m2 Hc2]; [|done..].
  destruct (wf_copy _ _ _ _ _ Hwf1 Hc2) as [Hwf2 Hselok].
  pose proof (copy_of_prefix _ _ _ _ _ Hc1) as Hp1.
  pose proof (copy_of_prefix _ _ _ _ _ Hc2) as Hp2.
  mbind H as tl0 h3 E. apply deepcopy_Ok in E as [m3 Hc3];
    [|done|by eapply val_ok_prefix].
  destruct (wf_copy _ _ _ _ _ Hwf2 Hc3) as [Hwf3 Htlok].
  pose proof (copy_of_prefix _ _ _ _ _ Hc3) as Hp3.
  unfold ret in H. injection H as <- <- <- <-.
  pose proof (prefix_length _ _ Hps). pose proof (prefix_length _ _ Hp1).
  pose proof (prefix_length _ _ Hp2). pose proof (prefix_length _ _ Hp3).
  destruct (copy_of_closed _ _ _ _ _ Hc1) as [Hcl1 Hin1].
  destruct (copy_of_closed _ _ _ _ _ Hc2) as [Hcl2 Hin2].
  destruct (copy_of_closed _ _ _ _ _ Hc3) as [Hcl3 Hin3].
  assert (Hlab3 : ∀ n, content n h3 lab = content n h1 lab).
  { intros n. apply content_prefix; [by etrans|done..]. }
  exists (length hs), (length h1), (length h2).
  split_and!; try done; try lia.
  - etrans; [exact Hps|]. etrans; [exact Hp1|]. by etrans.
  - eapply val_ok_prefix; [|exact Hlabok]. by etrans.
  - by eapply val_ok_prefix.
  - eapply (closed_region_prefix _ _ h1 h3); [by etrans|done|exact Hcl1].
  - by eapply (closed_region_prefix _ _ h2 h3).
  - intros n. rewrite Hlab3, (content_prefix h2 h3) by done.
    by eapply copy_of_content.
  - intros n. rewrite Hlab3, (copy_of_content _ _ _ _ _ n Hc3).
    by apply content_prefix.
  - intros n. rewrite Hlab3, (copy_of_content _ _ _ _ _ n Hc1). apply Hcont.
Qed.

(** ** The Deployment display *)

Lemma deployment_display_Ok meta spec name tpl_meta tpl_spec labels sel tl
    h dep h' :
  deployment_display meta spec name tpl_meta tpl_spec labels sel tl h
  = Ok (dep, h') →
  ∃ hb amd asel anns tanns replicas,
    h `prefix_of` hb ∧ length h ≤ amd ∧ length h ≤ asel ∧
    hb !! amd = Some (ODict [(SStr "name", name); (SStr "labels", labels);
                             (SStr "annotations", anns)]) ∧
    hb !! asel = Some (ODict [(SStr "matchLabels", sel)]) ∧
    dep = VRef (length hb + 4) ∧
    h' = hb ++ [ODict [(SStr "labels", tl); (SStr "annotations", tanns)];
                ODict [(SStr "metadata", VRef (length hb));
                       (SStr "spec", tpl_spec)];
                ODict [];
                ODict [(SStr "replicas", replicas);
                       (SStr "selector", VRef asel);
                       (SStr "template", VRef (length hb + 1));
                       (SStr "strategy", VRef (length hb + 2))];
                ODict [(SStr "apiVersion", VStr "apps/v1");
                       (SStr "kind", VStr "Deployment");
                       (SStr "metadata", VRef amd);
                       (SStr "spec", VRef (length hb + 3))]] ∧
    (∃ hr, h `prefix_of` hr ∧
           replicas = default (VInt 1) (get hr spec "replicas")) ∧
    ∃ aanns, anns = VRef aanns ∧ length h ≤ aanns < length hb ∧
      hb !! aanns
      = Some (ODict (filter (λ kv, foreign_key kv)
                       (if truthy h (rd h meta "annotations")
                        then default [] (dict_items h (rd h meta "annotations"))
                        else []))).
Proof.
  unfold deployment_display. intros H.
  mbind H as a0 h1 E. apply py_get_Ok_get in E as [-> ->].
  mbind H as anns h1 E. apply filter_annotations_Ok in E as (g1 & -> & -> & _).
  set (h1 := h ++ g1 ++ _) in *.
  mbind H as md h2 E. apply new_dict_Ok in E as [-> ->].
  mbind H as replicas h2 E. apply py_get_Ok_get in E as [-> ->].
  mbind H as sel0 h3 E. apply new_dict_Ok in E as [-> ->].
  mbind H as ta0 h3 E. apply py_get_Ok_get in E as [-> ->].
  mbind H as tanns h3 E. apply filter_annotations_Ok in E as (g2 & -> & -> & _).
  set (hb := (_ ++ _) ++ g2 ++ _) in *.
  mbind H as tmd h4 E. apply new_dict_Ok in E as [-> ->].
  mbind H as tpl h4 E. apply new_dict_Ok in E as [-> ->].
  mbind H as st h4 E. apply new_dict_Ok in E as [-> ->].
  mbind H as dspec h4 E. apply new_dict_Ok in E as [-> ->].
  apply new_dict_Ok in H as [-> ->].
  assert (Hp1 : h `prefix_of` h1) by by apply prefix_app_r.
  pose proof (prefix_length _ _ Hp1) as Hlen1.
  exists hb, (length h1), (length (h1 ++ [ODict (prod_map SStr id <$>
    [("name", name); ("labels", labels);
     ("annotations", VRef (length h + length g1))])])).
  eexists _, _, _. split_and!.
  - etrans; [exact Hp1|]. unfold hb. rewrite <- !app_assoc.
    by apply prefix_app_r.
  - done.
  - rewrite length_app. lia.
  - unfold hb. rewrite <- !app_assoc.
    rewrite lookup_app_r, Nat.sub_diag by done. reflexivity.
  - unfold hb. rewrite lookup_app_l by (rewrite !length_app; simpl; lia).
    rewrite lookup_app_r, Nat.sub_diag by done. reflexivity.
  - rewrite !length_app. simpl. f_equal. lia.
  - rewrite <- !app_assoc. simpl. rewrite !length_app. simpl.
    rewrite <- !Nat.add_assoc. reflexivity.
  - eexists. split; [|reflexivity].
    etrans; [exact Hp1|]. by apply prefix_app_r.
  - exists (length h + length g1). split; [done|].
    assert (Hlk : h1 !! (length h + length g1)
                  = Some (ODict (filter (λ kv, foreign_key kv)
                       (if truthy h (rd h meta "annotations")
                        then default [] (dict_items h (rd h meta "annotations"))
                        else [])))).
    { unfold h1. rewrite lookup_app_r by lia.
      replace (length h + length g1 - length h) with (length g1) by lia.
      rewrite lookup_app_r, Nat.sub_diag by done. reflexivity. }
    pose proof (lookup_lt_Some _ _ _ Hlk) as Hlt.
    assert (Hph : h1 `prefix_of` hb).
    { unfold hb. rewrite <- !app_assoc. by apply prefix_app_r. }
    pose proof (prefix_length _ _ Hph).
    split; [lia|]. by apply (prefix_lookup_Some _ _ _ _ Hlk).
Qed.

(** ** The strategy of a Deployment *)

Lemma copy_or_fresh_prefix m hs (hc hc' : heap) lo vs v :
  hc `prefix_of` hc' → copy_or_fresh m hs hc lo vs v →
  copy_or_fresh m hs hc' lo vs v.
Proof.
  intros Hp [Hl|(Hf & a & -> & Ha & Hemp)]; [by left|right].
  split; [done|]. exists a. split_and!; [done..|].
  by eapply prefix_lookup_Some.
Qed.

Lemma lmirror_prefix m hs (hc hc' : heap) :
  lmirror m hs hc → hc `prefix_of` hc' →
  (∀ a a' : addr, m !! a = Some a' → a' < length hc) →
  lmirror m hs hc'.
Proof. intros Hm Hp. apply lmirror_lext; [done|]. by apply prefix_lext. Qed.

(** Reading a key of a copy, or of the empty dict that stands for a falsy
    value. *)
Lemma copy_or_fresh_get m hs hc lo xs x k :
  lmirror m hs hc → copy_or_fresh m hs hc lo xs x → k ≠ "labels" →
  get hc x k = rn m <$> get hs xs k ∧
  ∀ v, get hs xs k = Some v → covered m v.
Proof.
  intros Hm [[Hc ->]|(Hf & a & -> & _ & Hemp)] Hk.
  - destruct (Hm _ Hc) as (_ & _ & Hg). by apply Hg.
  - rewrite (get_falsy _ _ _ Hf). split; [|done].
    unfold get. simpl. by rewrite Hemp.
Qed.

(** [x.get(k, d)] for a falsy default [d]. *)
Lemma copy_or_fresh_default m hs hc lo xs x k d :
  lmirror m hs hc → copy_or_fresh m hs hc lo xs x → k ≠ "labels" →
  truthy hc d = false →
  (covered m (rd hs xs k) ∧ default d (get hc x k) = rn m (rd hs xs k)) ∨
  (truthy hs (rd hs xs k) = false ∧ truthy hc (default d (get hc x k)) = false).
Proof.
  intros Hm Hx Hk Hd.
  destruct (copy_or_fresh_get _ _ _ _ _ _ k Hm Hx Hk) as [-> Hcov].
  unfold rd. destruct (get hs xs k) as [v|]; simpl.
  - left. split; [by apply Hcov|done].
  - by right.
Qed.

(** [v0 or {}] *)
Lemma copy_or_fresh_or m hs hc vs v0 v hc' :
  lmirror m hs hc →
  (covered m vs ∧ v0 = rn m vs) ∨
  (truthy hs vs = false ∧ truthy hc v0 = false) →
  py_or v0 (new_dict []) hc = Ok (v, hc') →
  hc `prefix_of` hc' ∧ length hc' ≤ S (length hc) ∧
  copy_or_fresh m hs hc' (length hc) vs v.
Proof.
  intros Hm Hv0 [(Ht & -> & ->)|[Ht E]]%py_or_Ok.
  - split; [done|]. split; [lia|].
    destruct Hv0 as [Hl|[_ Hf]]; [by left|congruence].
  - apply new_dict_nil_Ok in E as [-> ->].
    split; [by apply prefix_app_r|]. split; [rewrite length_app; simpl; lia|].
    right. split.
    + destruct Hv0 as [[Hc ->]|[Hf _]]; [|done].
      destruct (Hm _ Hc) as (<- & _). done.
    + exists (length hc). split_and!; [done..|].
      by rewrite lookup_app_r, Nat.sub_diag.
Qed.

Lemma get_lookup (h : heap) a kvs k :
  h !! a = Some (ODict kvs) → get h (VRef a) k = Dict.get (SStr k) kvs.
Proof. intros Ha. unfold get. simpl. by rewrite Ha. Qed.

Lemma nonempty_false s : Str.nonempty s = false → s = "".
Proof. by destruct s. Qed.

Lemma rn_scalar_inv m v s : covered m v → rn m v = VS s → v = VS s.
Proof.
  destruct v as [s'|a]; simpl; [done|]. intros [a' ->]. done.
Qed.

Lemma set_strategy_Ok m hs s0 (h : heap) dep ads kvsd kvs u h' :
  lmirror m hs h →
  (∀ a a' : addr, m !! a = Some a' → a' < length h) →
  covered m s0 →
  h !! dep = Some (ODict kvsd) →
  Dict.get (SStr "spec") kvsd = Some (VRef ads) →
  h !! ads = Some (ODict kvs) →
  set_strategy (rn m s0) (VRef dep) h = Ok (u, h') →
  ∃ g r,
    length h ≤ r ∧
    h' = <[ads:=ODict (Dict.set (SStr "strategy") (VRef r) kvs)]> (h ++ g) ∧
    if strategy_recreate hs (rd hs s0 "strategy")
    then (h ++ g) !! r = Some (ODict [(SStr "type", VStr "Recreate")])
    else ∃ ru,
      length h ≤ ru ∧
      (h ++ g) !! r = Some (ODict [(SStr "type", VStr "RollingUpdate");
                                   (SStr "rollingUpdate", VRef ru)]) ∧
      (h ++ g) !! ru
      = Some (ODict
          [(SStr "maxSurge",
            default (VStr "25%")
              (rn m <$> rolling_param hs (rd hs s0 "strategy") "maxSurge"));
           (SStr "maxUnavailable",
            default (VStr "25%")
              (rn m <$> rolling_param hs (rd hs s0 "strategy")
                          "maxUnavailable"))]).
Proof.
  intros Hm Hr Hc Hdep Hspec Hads H. unfold set_strategy in H.
  mbind H as d h1 E. apply new_dict_nil_Ok in E as [-> ->].
  set (h1 := h ++ [ODict []]) in *.
  assert (Hp1 : h `prefix_of` h1) by by apply prefix_app_r.
  pose proof (lmirror_prefix _ _ _ _ Hm Hp1 Hr) as Hm1.
  assert (Hlen1 : length h1 = S (length h)).
  { unfold h1. rewrite length_app. simpl. lia. }
  mbind H as st0 h2 E. apply py_get_Ok_get in E as [-> ->].
  mbind H as st h2 E.
  apply (copy_or_fresh_or m hs h1 (rd hs s0 "strategy")) in E
    as (Hp2 & Hlen2 & Hst); [|done|]; cycle 1.
  { apply (copy_or_fresh_default _ _ _ 0 s0); [done|by left|done|].
    simpl. unfold h1. by rewrite lookup_app_r, Nat.sub_diag. }
  assert (Hr2 : ∀ a a' : addr, m !! a = Some a' → a' < length h1).
  { intros a a' Ha. specialize (Hr _ _ Ha). lia. }
  pose proof (lmirror_prefix _ _ _ _ Hm1 Hp2 Hr2) as Hm2.
  pose proof (prefix_length _ _ Hp2) as Hlen12.
  set (sts := rd hs s0 "strategy") in *.
  mbind H as ty0 h3 E. apply py_get_Ok_get in E as [-> ->].
  mbind H as ty h3 E. mbind H as st_type h4 E1.
  assert (Hty : h4 = h2 ∧ h3 = h2 ∧
                Str.startswith st_type "recreate" = strategy_recreate hs sts).
  { destruct (copy_or_fresh_get _ _ _ _ _ _ "type" Hm2 Hst) as [Hg Hcov];
      [done|].
    rewrite Hg in E. unfold strategy_recreate, rd.
    destruct (get hs sts "type") as [tv|] eqn:Htv; simpl in E.
    - specialize (Hcov _ eq_refl).
      destruct (Hm2 _ Hcov) as (Htr & _).
      apply py_or_Ok in E as [(Ht & -> & ->)|[Ht E]].
      + destruct (rn m tv) as [[| | |s]|] eqn:Hrn; simpl in E1; try done.
        unfold ret in E1. injection E1 as <- <-.
        apply rn_scalar_inv in Hrn as ->; [|done]. done.
      + unfold ret in E. injection E as <- <-. simpl in E1.
        unfold ret in E1. injection E1 as <- <-.
        split; [done|]. split; [done|].
        rewrite Htr in Ht. destruct tv as [[| | |s]|]; simpl; try done.
        simpl in Ht. by apply nonempty_false in Ht as ->.
    - apply py_or_Ok in E as [(Ht & _)|[_ E]]; [done|].
      unfold ret in E. injection E as <- <-. simpl in E1.
      unfold ret in E1. by injection E1 as <- <-. }
  destruct Hty as (-> & -> & Hrec). clear E E1. rewrite Hrec in H.
  assert (Hlk : ∀ (hx : heap) a o, h `prefix_of` hx → h !! a = Some o →
                  hx !! a = Some o).
  { intros. by eapply prefix_lookup_Some. }
  destruct (strategy_recreate hs sts).
  - mbind H as r h3 E. apply new_dict_Ok in E as [-> ->].
    mbind H as ds h3 E. apply py_getitem_Ok in E as [Hds ->].
    assert (Hp3 : h `prefix_of` h2 ++ [ODict (prod_map SStr id <$>
                     [("type", VStr "Recreate")])]).
    { etrans; [exact Hp1|]. etrans; [exact Hp2|]. by apply prefix_app_r. }
    rewrite (get_lookup _ _ _ _ (Hlk _ _ _ Hp3 Hdep)), Hspec in Hds.
    injection Hds as <-.
    apply py_setitem_Ok in H as (a & kvs' & [= <-] & Ha & ->).
    rewrite (Hlk _ _ _ Hp3 Hads) in Ha. injection Ha as <-.
    destruct Hp3 as [g Hg]. exists g, (length h2).
    split; [lia|]. rewrite <- Hg. split; [done|].
    by rewrite lookup_app_r, Nat.sub_diag.
  - mbind H as p0 h3 E. apply py_get_Ok_get in E as [-> ->].
    mbind H as params h3 E.
    apply (copy_or_fresh_or m hs h2 (rd hs sts "rollingParams")) in E
      as (Hp3 & Hlen3 & Hpar); [|done|]; cycle 1.
    { by apply (copy_or_fresh_default _ _ _ (length h1) sts). }
    assert (Hr3 : ∀ a a' : addr, m !! a = Some a' → a' < length h2).
    { intros a a' Ha. specialize (Hr _ _ Ha). lia. }
    pose proof (lmirror_prefix _ _ _ _ Hm2 Hp3 Hr3) as Hm3.
    mbind H as msv h4 E. apply py_get_Ok_get in E as [-> ->].
    mbind H as muv h4 E. apply py_get_Ok_get in E as [-> ->].
    destruct (copy_or_fresh_get _ _ _ _ _ _ "maxSurge" Hm3 Hpar) as [Hg1 _];
      [done|].
    destruct (copy_or_fresh_get _ _ _ _ _ _ "maxUnavailable" Hm3 Hpar)
      as [Hg2 _]; [done|].
    rewrite Hg1, Hg2 in H.
    mbind H as ru h4 E. apply new_dict_Ok in E as [-> ->].
    mbind H as r h4 E. apply new_dict_Ok in E as [-> ->].
    mbind H as ds h4 E. apply py_getitem_Ok in E as [Hds ->].
    set (hf := (h3 ++ _) ++ _) in *.
    assert (Hp4 : h `prefix_of` hf).
    { etrans; [exact Hp1|]. etrans; [exact Hp2|]. etrans; [exact Hp3|].
      unfold hf. rewrite <- app_assoc. by apply prefix_app_r. }
    rewrite (get_lookup _ _ _ _ (Hlk _ _ _ Hp4 Hdep)), Hspec in Hds.
    injection Hds as <-.
    apply py_setitem_Ok in H as (a & kvs' & [= <-] & Ha & ->).
    rewrite (Hlk _ _ _ Hp4 Hads) in Ha. injection Ha as <-.
    pose proof (prefix_length _ _ Hp3) as Hlen23.
    destruct Hp4 as [g Hg]. exists g, (length (h3 ++ [ODict (prod_map SStr id <$>
      [("maxSurge", default (VStr "25%")
                      (rn m <$> get hs (rd hs sts "rollingParams") "maxSurge"));
       ("maxUnavailable", default (VStr "25%")
                      (rn m <$> get hs (rd hs sts "rollingParams")
                                  "maxUnavailable"))])])).
    split; [rewrite length_app; lia|]. rewrite <- Hg. split; [done|].
    exists (length h3). split; [lia|]. unfold hf. split.
    + by rewrite lookup_app_r, Nat.sub_diag.
    + rewrite lookup_app_l by (rewrite length_app; simpl; lia).
      by rewrite lookup_app_r, Nat.sub_diag.
Qed.

(** ** The fields and the containers of a Deployment *)

Lemma drop_openshift_fields_Ok (h : heap) dep kvsd ads kvs u h' :
  h !! dep = Some (ODict kvsd) →
  Dict.get (SStr "spec") kvsd = Some (VRef ads) →
  h !! ads = Some (ODict kvs) →
  Dict.get (SStr "triggers") kvs = None →
  Dict.get (SStr "test") kvs = None →
  Dict.get (SStr "paused") kvs = None →
  drop_openshift_fields (VRef dep) h = Ok (u, h') → h' = h.
Proof.
  intros Hdep Hspec Hads H1 H2 H3 H. unfold drop_openshift_fields in H.
  assert (Hstep : ∀ fld v h1,
    Dict.get (SStr fld) kvs = None →
    (let* ds := py_getitem (VRef dep) "spec" in py_pop ds fld ;; ret tt) h
    = Ok (v, h1) → h1 = h).
  { intros fld v h1 Hf E. mbind E as ds h2 E1.
    apply py_getitem_Ok in E1 as [Hds ->].
    rewrite (get_lookup _ _ _ _ Hdep), Hspec in Hds. injection Hds as <-.
    mbind E as x h2 E1. apply py_pop_Ok in E1 as (a & kvs' & [= <-] & Ha & E1).
    rewrite Hads in Ha. injection Ha as <-. rewrite Hf in E1.
    destruct E1 as [_ ->]. unfold ret in E. by injection E as _ <-. }
  cbn [for_each] in H.
  mbind H as u1 h1 E. apply Hstep in E as ->; [|done].
  mbind H as u2 h2 E. apply Hstep in E as ->; [|done].
  mbind H as u3 h3 E. apply Hstep in E as ->; [|done].
  unfold ret in H. by injection H as _ <-.
Qed.

Lemma wf_closed_region h : wf h → closed_region 0 (length h) h.
Proof.
  intros Hwf a o _ Ho. eapply Forall_impl; [by eapply Hwf|].
  intros [s|b]; simpl; [done|lia].
Qed.

Lemma get_in_region lo hi h d k v :
  closed_region lo hi h → in_region lo hi d → get h d k = Some v →
  in_region lo hi v.
Proof.
  intros Hcl Hd Hg. unfold get in Hg.
  destruct (dict_items h d) as [kvs|] eqn:Hi; [|done]. simpl in Hg.
  apply dict_items_Some in Hi as (a & -> & Ha).
  pose proof (Hcl _ _ Hd Ha) as Hall. rewrite Forall_forall in Hall.
  apply Hall. simpl. apply list_elem_of_fmap. exists (SStr k, v).
  split; [done|]. by apply dict_get_elem.
Qed.

Lemma dict_set_Forall (P : val → Prop) k v kvs :
  Forall P kvs.*2 → P v → Forall P (Dict.set k v kvs).*2.
Proof.
  intros Hall Hv. induction kvs as [|[k' v'] kvs IH]; simpl.
  - by repeat constructor.
  - inversion Hall as [|?? Hv' Hall']; subst.
    destruct (decide (k' = k)); csimpl; constructor; auto.
Qed.

(** A store into an object of a closed region, of a value of the region,
    leaves the rest of the store as it is. *)
Lemma py_setitem_frame N d k v (h : heap) u h' :
  closed_region 0 N h → in_region 0 N d → in_region 0 N v →
  py_setitem d k v h = Ok (u, h') →
  closed_region 0 N h' ∧ length h' = length h ∧
  ∀ a, N ≤ a → h' !! a = h !! a.
Proof.
  intros Hcl Hd Hv (a & kvs & -> & Ha & ->)%py_setitem_Ok. simpl in Hd.
  split_and!.
  - intros b o Hb Ho. destruct (decide (b = a)) as [->|Hne].
    + rewrite list_lookup_insert_eq in Ho by by eapply lookup_lt_Some.
      injection Ho as <-. simpl. apply dict_set_Forall; [|done].
      by apply (Hcl _ _ Hb Ha).
    + rewrite list_lookup_insert_ne in Ho by done. by eapply Hcl.
  - by rewrite length_insert.
  - intros b Hb. apply list_lookup_insert_ne. lia.
Qed.

Lemma py_in_Ok_heap p v h b h' : py_in p v h = Ok (b, h') → h' = h.
Proof.
  destruct v as [[| | |s]|a]; simpl; unfold ret, raise; try done.
  - by intros [= _ <-].
  - unfold bind, load. destruct (h !! a) as [[kvs|xs]|]; simpl; try done;
      unfold ret; by intros [= _ <-].
Qed.

Section Containers.

Variable py_repr : heap → addr → string.

(** The image reference [map_image] returns is the one it was given or a
    string; it leaves the store as it is. *)
Lemma map_image_Ok_val image hint reg pre h v h' :
  map_image py_repr image hint reg pre h = Ok (v, h') →
  h' = h ∧ (v = image ∨ ∃ s, v = VStr s).
Proof.
  unfold map_image. intros H.
  assert (Hor : ∀ (alt : M val) x h1,
    (∀ y h2, alt h = Ok (y, h2) → h2 = h ∧ ∃ s, y = VStr s) →
    py_or image alt h = Ok (x, h1) →
    h1 = h ∧ (x = image ∨ ∃ s, x = VStr s)).
  { intros alt x h1 Halt [(_ & -> & ->)|[_ E]]%py_or_Ok; [by split; [|left]|].
    apply Halt in E as [-> ?]. by split; [|right]. }
  mbind H as image0 h1 E. apply Hor in E as [-> Himg0]; cycle 1.
  { intros y h2 [-> ->]%ret_Ok. eauto. }
  assert (Himg : ∀ x, (x = image0 ∨ ∃ s, x = VStr s) →
                      x = image ∨ ∃ s, x = VStr s).
  { intros x [->|?]; [done|by right]. }
  mbind H as qualified h1 E.
  assert (h1 = h) as ->.
  { mbind E as b h2 E1. apply py_bool_Ok in E1 as [-> ->].
    destruct (truthy h image0); [|unfold ret in E; by injection E as _ <-].
    mbind E as slash h2 E1. apply py_in_Ok_heap in E1 as ->.
    mbind E as sep h2 E1.
    assert (h2 = h) as ->.
    { destruct slash; [unfold ret in E1; by injection E1 as _ <-|].
      by apply py_in_Ok_heap in E1. }
    destruct sep; [by apply py_in_Ok_heap in E|].
    unfold ret in E. by injection E as _ <-. }
  clear E. destruct qualified.
  { unfold ret in H. injection H as <- <-. split; [done|]. by apply Himg; left. }
  destruct (Str.nonempty reg && Str.contains ":" reg).
  { unfold ret in H. injection H as <- <-. split; [done|]. right. eauto. }
  mbind H as repo h1 E.
  assert (h1 = h) as ->.
  { destruct (Str.nonempty pre).
    - mbind E as r h2 E1. apply py_format_Ok in E1 as [-> _].
      unfold ret in E. by injection E as _ <-.
    - unfold ret in E. by injection E as _ <-. }
  clear E. destruct (Str.nonempty reg).
  - mbind H as r h2 E1. apply py_format_Ok in E1 as [-> _].
    unfold ret in H. injection H as <- <-. split; [done|]. right. eauto.
  - mbind H as b h2 E1. apply py_bool_Ok in E1 as [-> ->].
    destruct (truthy h image0).
    + unfold ret in H. injection H as <- <-. split; [done|].
      by apply Himg; left.
    + mbind H as r h2 E1. apply py_format_Ok in E1 as [-> _].
      unfold ret in H. injection H as <- <-. split; [done|]. right. eauto.
Qed.

Lemma normalize_container_frame N name reg pre c (h : heap) u h' :
  closed_region 0 N h → in_region 0 N c →
  normalize_container py_repr name reg pre c h = Ok (u, h') →
  closed_region 0 N h' ∧ length h' = length h ∧
  ∀ a, N ≤ a → h' !! a = h !! a.
Proof.
  intros Hcl Hc H. unfold normalize_container in H.
  mbind H as img h1 E. apply py_get_Ok_get in E as [-> ->].
  mbind H as hint h1 E. apply py_get_Ok_get in E as [-> ->].
  mbind H as img' h1 E. apply map_image_Ok_val in E as [-> Himg'].
  assert (Hin : in_region 0 N img').
  { destruct Himg' as [->|[s ->]]; [|done].
    destruct (get h c "image") as [v|] eqn:Hg; simpl; [|done].
    by eapply get_in_region. }
  mbind H as u1 h1 E.
  apply (py_setitem_frame N) in E as (Hcl1 & Hlen1 & Hfr1); [|done..].
  mbind H as pp h2 E. apply py_get_Ok_get in E as [-> ->].
  mbind H as b h2 E. apply py_bool_Ok in E as [-> ->].
  destruct (truthy h1 _).
  - unfold ret in H. by injection H as _ <-.
  - apply (py_setitem_frame N) in H as (Hcl2 & Hlen2 & Hfr2); [|done..].
    split_and!; [done|congruence|]. intros a Ha.
    by rewrite Hfr2, Hfr1.
Qed.

Lemma for_each_container_frame N name reg pre cs (h : heap) u h' :
  closed_region 0 N h → Forall (in_region 0 N) cs →
  for_each cs (normalize_container py_repr name reg pre) h = Ok (u, h') →
  closed_region 0 N h' ∧ length h' = length h ∧
  ∀ a, N ≤ a → h' !! a = h !! a.
Proof.
  intros Hcl Hcs. revert h Hcl.
  induction Hcs as [|c cs Hc Hcs IH]; intros h Hcl H; simpl in H.
  - unfold ret in H. by injection H as _ <-.
  - mbind H as u1 h1 E.
    apply (normalize_container_frame N) in E as (Hcl1 & Hlen1 & Hfr1);
      [|done..].
    apply IH in H as (Hcl2 & Hlen2 & Hfr2); [|done].
    split_and!; [done|congruence|]. intros a Ha. by rewrite Hfr2, Hfr1.
Qed.

Lemma normalize_containers_frame N dep name reg pre (h : heap) u h' :
  closed_region 0 N h → N ≤ length h →
  (∀ ds t ts, get h dep "spec" = Some ds → get h ds "template" = Some t →
              get h t "spec" = Some ts → in_region 0 N ts) →
  normalize_containers py_repr dep name reg pre h = Ok (u, h') →
  ∀ a, N ≤ a < length h → h' !! a = h !! a.
Proof.
  intros Hcl HN Hts H. unfold normalize_containers in H.
  mbind H as ds h1 E. apply py_getitem_Ok in E as [Hds ->].
  mbind H as t h1 E. apply py_getitem_Ok in E as [Ht ->].
  mbind H as ts h1 E. apply py_getitem_Ok in E as [Hts0 ->].
  specialize (Hts _ _ _ Hds Ht Hts0).
  mbind H as e h1 E. apply new_list_Ok in E as [-> ->].
  mbind H as containers h1 E. apply py_get_Ok_get in E as [-> ->].
  mbind H as cs h1 E.
  assert (Hcl1 : closed_region 0 N (h ++ [OList []])).
  { eapply closed_region_prefix; [by apply prefix_app_r|done..]. }
  assert (Hcs : h1 = h ++ [OList []] ∧ Forall (in_region 0 N) cs).
  { destruct (get (h ++ [OList []]) ts "containers") as [v|] eqn:Hg;
      simpl in E.
    - pose proof (get_in_region _ _ _ _ _ _ Hcl1 Hts Hg) as Hv.
      destruct v as [[| | |s]|a]; simpl in E; unfold ret, raise in E;
        try done.
      + injection E as <- <-. split; [done|].
        rewrite Forall_fmap. by apply Forall_true.
      + unfold bind, load in E.
        destruct ((h ++ [OList []]) !! a) as [[kvs|xs]|] eqn:Ha; try done;
          unfold ret in E; injection E as <- <-; (split; [done|]).
        * rewrite Forall_fmap. by apply Forall_true.
        * by apply (Hcl1 _ _ Hv Ha).
    - simpl in E. unfold bind, load in E.
      rewrite lookup_app_r, Nat.sub_diag in E by done. simpl in E.
      unfold ret in E. by injection E as <- <-. }
  destruct Hcs as [-> Hcs].
  apply (for_each_container_frame N) in H as (_ & _ & Hfr); [|done..].
  intros a Ha. rewrite Hfr by lia. by rewrite lookup_app_l by lia.
Qed.

End Containers.

(** ** The run of the Deployment converter *)

Lemma param_value_rn m src :
  param_value src (default (VStr "25%") (rn m <$> src)).
Proof.
  destruct src as [[s|a]|]; simpl; [done| |done].
  destruct (m !! a); eauto.
Qed.

Section Deployment.

Variable py_repr : heap → addr → string.

Lemma to_deployment_run dc reg pre h dep h' :
  wf h → val_ok (length h) dc →
  to_deployment py_repr dc reg pre h = Ok (dep, h') →
  ∃ adep amd ads asel atpl atmd r name labels sel tl anns tanns replicas
    tpl_spec n0 n1 n2 n3,
    dep = VRef adep ∧
    h' !! adep = Some (ODict [(SStr "apiVersion", VStr "apps/v1");
                              (SStr "kind", VStr "Deployment");
                              (SStr "metadata", VRef amd);
                              (SStr "spec", VRef ads)]) ∧
    h' !! amd = Some (ODict [(SStr "name", name); (SStr "labels", labels);
                             (SStr "annotations", anns)]) ∧
    h' !! ads = Some (ODict [(SStr "replicas", replicas);
                             (SStr "selector", VRef asel);
                             (SStr "template", VRef atpl);
                             (SStr "strategy", VRef r)]) ∧
    h' !! asel = Some (ODict [(SStr "matchLabels", sel)]) ∧
    h' !! atpl = Some (ODict [(SStr "metadata", VRef atmd);
                              (SStr "spec", tpl_spec)]) ∧
    h' !! atmd = Some (ODict [(SStr "labels", tl);
                              (SStr "annotations", tanns)]) ∧
    (n0 ≤ n1 ∧ n1 ≤ n2 ∧ n2 ≤ n3) ∧
    (in_region n0 n1 labels ∧ in_region n1 n2 sel ∧ in_region n2 n3 tl) ∧
    (closed_region n0 n1 h' ∧ closed_region n1 n2 h' ∧
     closed_region n2 n3 h') ∧
    (∀ n, content n h' sel = content n h' labels) ∧
    (∀ n, content n h' tl = content n h' labels) ∧
    (∀ n, if truthy h (dc_template_labels h dc)
          then content n h' labels = content n h (dc_template_labels h dc)
          else if truthy h (dc_labels h dc)
          then content n h' labels = content n h (dc_labels h dc)
          else ∀ s, dc_name h dc = VS s →
                    content n h' labels
                    = match n with
                      | 0 => TCut
                      | S _ => TD [(SStr "app", TS s)]
                      end) ∧
    (if strategy_recreate h (dc_strategy h dc)
     then h' !! r = Some (ODict [(SStr "type", VStr "Recreate")])
     else ∃ ru msv muv,
       h' !! r = Some (ODict [(SStr "type", VStr "RollingUpdate");
                              (SStr "rollingUpdate", VRef ru)]) ∧
       h' !! ru = Some (ODict [(SStr "maxSurge", msv);
                               (SStr "maxUnavailable", muv)]) ∧
       param_value (rolling_param h (dc_strategy h dc) "maxSurge") msv ∧
       param_value (rolling_param h (dc_strategy h dc) "maxUnavailable")
         muv) ∧
    (∀ s, dc_name h dc = VS s → name = VS s) ∧
    (dc_replicas h dc = None → replicas = VInt 1) ∧
    (∀ s, dc_replicas h dc = Some (VS s) → replicas = VS s) ∧
    ∃ aanns, anns = VRef aanns ∧ length h ≤ aanns ∧
      (∀ kvs, dict_items h (dc_annotations h dc) = Some kvs →
              scalar_items kvs →
              h' !! aanns = Some (ODict (filter (λ kv, foreign_key kv) kvs))) ∧
      (∀ s, dc_annotations h dc = VS s → h' !! aanns = Some (ODict [])).
Proof.
  intros Hwf Hdc H. unfold to_deployment in H.
  mbind H as parts hP E.
  destruct parts as [[[[meta spec] name] tpl_meta] tpl_spec].
  apply deployment_parts_Ok in E
    as (HwfP & HlenP & Hmetaok & Hspecok & Hnameok & Htmok & Htsok & Hsp &
        Hname & Htl1 & Htl2 & Hml1 & Hml2 & Hann1 & Hann2); [|done..].
  destruct Hsp as (ms & hs & s0 & -> & Hcov & Hlm & Hrange & Hphs & Hs0).
  mbind H as lbls hL E. destruct lbls as [[labels sel] tl].
  apply deployment_labels_Ok in E
    as (n0 & n1 & n2 & Hn0 & Hn01 & Hn12 & Hn2L & HpPL & HwfL & Hlok & Hsok &
        Htok & Hin1 & Hin2 & Hin3 & Hcl1 & Hcl2 & Hcl3 & Hcsel & Hctl &
        Hclab); [|done..].
  mbind H as dep0 hD E.
  apply deployment_display_Ok in E
    as (hb & amd & asel & anns & tanns & replicas & HpLb & Hamd & Hasel &
        Hmd & Hsel & -> & -> & (hr & Hphr & Hrep) & aanns & Hanns & Haanns &
        Hannsobj).
  pose proof (prefix_length _ _ HpPL) as HlenPL.
  pose proof (prefix_length _ _ HpLb) as HlenLb.
  set (l5 := [ODict [(SStr "labels", tl); (SStr "annotations", tanns)];
              ODict [(SStr "metadata", VRef (length hb));
                     (SStr "spec", tpl_spec)];
              ODict [];
              ODict [(SStr "replicas", replicas);
                     (SStr "selector", VRef asel);
                     (SStr "template", VRef (length hb + 1));
                     (SStr "strategy", VRef (length hb + 2))];
              ODict [(SStr "apiVersion", VStr "apps/v1");
                     (SStr "kind", VStr "Deployment");
                     (SStr "metadata", VRef amd);
                     (SStr "spec", VRef (length hb + 3))]]) in *.
  assert (HpPD : hP `prefix_of` hb ++ l5).
  { etrans; [exact HpPL|]. etrans; [exact HpLb|]. by apply prefix_app_r. }
  (* the strategy *)
  mbind H as u1 hS E.
  assert (HlmD : lmirror ms hs (hb ++ l5)) by by eapply lmirror_prefix.
  assert (HrangeD : ∀ a a' : addr, ms !! a = Some a' → a' < length (hb ++ l5)).
  { intros a a' Ha. specialize (Hrange _ _ Ha).
    pose proof (prefix_length _ _ HpPD). lia. }
  assert (HdepD : (hb ++ l5) !! (length hb + 4) = l5 !! 4) by apply lookup_rel.
  assert (HadsD : (hb ++ l5) !! (length hb + 3) = l5 !! 3) by apply lookup_rel.
  destruct (set_strategy_Ok ms hs s0 (hb ++ l5) (length hb + 4)
              (length hb + 3) _ _ _ _ HlmD HrangeD Hcov HdepD eq_refl HadsD E)
    as (g & r & Hr & -> & Hstrat).
  clear E.
  set (lS := [ODict [(SStr "labels", tl); (SStr "annotations", tanns)];
              ODict [(SStr "metadata", VRef (length hb));
                     (SStr "spec", tpl_spec)];
              ODict [];
              ODict [(SStr "replicas", replicas);
                     (SStr "selector", VRef asel);
                     (SStr "template", VRef (length hb + 1));
                     (SStr "strategy", VRef r)];
              ODict [(SStr "apiVersion", VStr "apps/v1");
                     (SStr "kind", VStr "Deployment");
                     (SStr "metadata", VRef amd);
                     (SStr "spec", VRef (length hb + 3))]]).
  match type of H with
  | _ ?st = _ =>
      assert (st = hb ++ lS ++ g) as Hins
        by (rewrite <- app_assoc, insert_rel; reflexivity);
      rewrite Hins in H; clear Hins
  end.
  set (hS := hb ++ lS ++ g) in *.
  assert (HSrel : ∀ k, hS !! (length hb + k) = (lS ++ g) !! k).
  { intros k. apply lookup_rel. }
  assert (HSlow : ∀ a, a < length hb → hS !! a = hb !! a).
  { intros a Ha. unfold hS. by rewrite lookup_app_l. }
  assert (HShi : ∀ a, length (hb ++ l5) ≤ a →
                      hS !! a = ((hb ++ l5) ++ g) !! a).
  { intros a Ha. rewrite length_app in Ha. simpl in Ha. unfold hS.
    rewrite <- app_assoc.
    assert (Hge : length hb ≤ a) by lia.
    rewrite !(lookup_app_r hb) by exact Hge.
    assert (Hge5 : 5 ≤ a - length hb) by lia.
    rewrite (lookup_app_r lS), (lookup_app_r l5) by exact Hge5. done. }
  assert (HSlen : length hb + 5 ≤ length hS).
  { unfold hS. rewrite !length_app. simpl. lia. }
  assert (HSP : ∀ a, a < length hP → hS !! a = hP !! a).
  { intros a Ha. rewrite HSlow by lia. symmetry.
    apply prefix_lookup_lt; [done|]. by etrans; [exact HpPL|]. }
  (* the fields *)
  mbind H as u2 h2 E.
  assert (HSdep : hS !! (length hb + 4) = lS !! 4) by apply HSrel.
  assert (HSads : hS !! (length hb + 3) = lS !! 3) by apply HSrel.
  assert (HStpl : hS !! (length hb + 1) = lS !! 1) by apply HSrel.
  assert (HStmd : hS !! length hb = lS !! 0).
  { pose proof (HSrel 0) as H0. by rewrite Nat.add_0_r in H0. }
  pose proof (drop_openshift_fields_Ok hS (length hb + 4) _ (length hb + 3)
                _ _ _ HSdep eq_refl HSads eq_refl eq_refl eq_refl E) as ->.
  clear E.
  (* the containers *)
  mbind H as u3 hF E.
  assert (Hfr : ∀ a, length hP ≤ a < length hS → hF !! a = hS !! a).
  { eapply (normalize_containers_frame py_repr (length hP)); [| | |exact E].
  { eapply closed_region_agree; [|by apply wf_closed_region].
    intros a Ha. apply HSP. lia. }
  { lia. }
  { intros ds t ts Hds Ht Hts.
    rewrite (get_lookup hS (length hb + 4) _ _ HSdep) in Hds.
    injection Hds as <-.
    rewrite (get_lookup hS (length hb + 3) _ _ HSads) in Ht.
    injection Ht as <-.
    rewrite (get_lookup hS (length hb + 1) _ _ HStpl) in Hts.
    injection Hts as <-. destruct tpl_spec; simpl in *; [done|lia]. } }
  clear E. unfold ret in H. injection H as <- <-.
  assert (Hto : ∀ a o, length hP ≤ a → hS !! a = Some o → hF !! a = Some o).
  { intros a o Ha Ho. rewrite Hfr; [done|]. split; [done|].
    by eapply lookup_lt_Some. }
  assert (HFL : ∀ a, length hP ≤ a < length hL → hF !! a = hL !! a).
  { intros a Ha. rewrite Hfr by lia. rewrite HSlow by lia.
    symmetry. apply prefix_lookup_lt; [lia|done]. }
  assert (Hamdlt : amd < length hb) by by eapply lookup_lt_Some.
  assert (Hasellt : asel < length hb) by by eapply lookup_lt_Some.
  (* the source of the strategy *)
  assert (Hst : rd hs s0 "strategy" = dc_strategy h dc).
  { unfold dc_strategy, rd. by rewrite Hs0. }
  assert (Hstok : val_ok (length h) (dc_strategy h dc)) by by apply wf_rd.
  assert (Hrec : strategy_recreate hs (dc_strategy h dc)
                 = strategy_recreate h (dc_strategy h dc)).
  { unfold strategy_recreate. by rewrite (rd_ok_prefix h hs). }
  assert (Hpar : ∀ k, rolling_param hs (dc_strategy h dc) k
                      = rolling_param h (dc_strategy h dc) k).
  { intros k. unfold rolling_param. rewrite (rd_ok_prefix h hs) by done.
    apply get_ok_prefix; [done|]. by apply wf_rd. }
  rewrite Hst, Hrec in Hstrat.
  (* the replicas *)
  assert (Hgrep : get hr (rn ms s0) "replicas"
                  = rn ms <$> get h (rd h dc "spec") "replicas").
  { assert (HpPr : hP `prefix_of` hr) by (etrans; [exact HpPL|exact Hphr]).
    rewrite (get_ok_prefix hP hr) by done.
    destruct (Hlm s0 Hcov) as (_ & _ & Hk).
    destruct (Hk "replicas") as [-> _]; [done|]. by rewrite Hs0. }
  exists (length hb + 4), amd, (length hb + 3), asel, (length hb + 1),
    (length hb), r, name, labels, sel, tl, anns, tanns, replicas,
    tpl_spec, n0, n1, n2, (length hL).
  split_and!.
  - done.
  - apply Hto; [lia|]. by rewrite HSdep.
  - apply Hto; [lia|]. by rewrite HSlow.
  - apply Hto; [lia|]. by rewrite HSads.
  - apply Hto; [lia|]. by rewrite HSlow.
  - apply Hto; [lia|]. by rewrite HStpl.
  - apply Hto; [lia|]. by rewrite HStmd.
  - done.
  - done.
  - done.
  - done.
  - done.
  - done.
  - eapply closed_region_agree; [|exact Hcl1]. intros a Ha. apply HFL. lia.
  - eapply closed_region_agree; [|exact Hcl2]. intros a Ha. apply HFL. lia.
  - eapply closed_region_agree; [|exact Hcl3]. intros a Ha. apply HFL. lia.
  - intros n.
    rewrite (content_region n1 n2 hL hF), (content_region n0 n1 hL hF);
      [done|try done..]; intros a Ha; apply HFL; lia.
  - intros n.
    rewrite (content_region n2 (length hL) hL hF),
      (content_region n0 n1 hL hF);
      [done|try done..]; intros a Ha; apply HFL; lia.
  - intros n.
    rewrite (content_region n0 n1 hL hF);
      [|intros a Ha; apply HFL; lia|done..].
    rewrite Hclab, Htl1, Hml1.
    destruct (truthy h (dc_template_labels h dc)); [by apply Htl2|].
    destruct (truthy h (dc_labels h dc)); [by apply Hml2|].
    intros s Hs. rewrite (Hname _ Hs). by destruct n as [|[|n']].
  - destruct (strategy_recreate h (dc_strategy h dc)).
    + apply Hto; [rewrite length_app in Hr; lia|]. by rewrite HShi.
    + destruct Hstrat as (ru & Hru & Hr1 & Hr2).
      eexists ru, _, _. split_and!.
      * apply Hto; [rewrite length_app in Hr; lia|]. by rewrite HShi.
      * apply Hto; [rewrite length_app in Hru; lia|]. rewrite HShi by done.
        exact Hr2.
      * rewrite Hpar. apply param_value_rn.
      * rewrite Hpar. apply param_value_rn.
  - exact Hname.
  - intros Hnone. rewrite Hrep, Hgrep. unfold dc_replicas in Hnone.
    by rewrite Hnone.
  - intros s Hs. rewrite Hrep, Hgrep. unfold dc_replicas in Hs.
    by rewrite Hs.
  - exists aanns. split; [done|]. split; [lia|].
    assert (Hfin : ∀ o, hb !! aanns = Some o → hF !! aanns = Some o).
    { intros o Ho. apply Hto; [lia|]. by rewrite HSlow by lia. }
    assert (HrdA : rd hL meta "annotations" = rd hP meta "annotations").
    { by apply rd_ok_prefix. }
    assert (HokA : val_ok (length hP) (rd hP meta "annotations")).
    { by apply wf_rd. }
    rewrite HrdA, (truthy_ok_prefix hP hL), (dict_items_ok_prefix hP hL)
      in Hannsobj by done.
    split.
    + intros kvs Hk Hsc. apply Hfin. rewrite Hannsobj.
      rewrite (Hann1 _ Hk Hsc). simpl.
      destruct (truthy hP (rd hP meta "annotations")) eqn:Ht; [done|].
      pose proof (Hann1 _ Hk Hsc) as Hd.
      destruct (rd hP meta "annotations") as [s|a]; [done|]. simpl in Hd, Ht.
      destruct (hP !! a) as [[kvs0|xs]|]; try done. injection Hd as ->.
      by destruct kvs.
    + intros s Hs. apply Hfin. rewrite Hannsobj, (Hann2 _ Hs). simpl.
      by destruct (truthy_scalar s).
Qed.

Lemma to_deployment_Ok dc reg pre h dep h' :
  wf h → val_ok (length h) dc →
  to_deployment py_repr dc reg pre h = Ok (dep, h') →
  ∃ adep amd ads asel atpl atmd r name labels sel tl anns tanns replicas
    tpl_spec n0 n1 n2 n3,
    dep = VRef adep ∧
    h' !! adep = Some (ODict [(SStr "apiVersion", VStr "apps/v1");
                              (SStr "kind", VStr "Deployment");
                              (SStr "metadata", VRef amd);
                              (SStr "spec", VRef ads)]) ∧
    h' !! amd = Some (ODict [(SStr "name", name); (SStr "labels", labels);
                             (SStr "annotations", anns)]) ∧
    h' !! ads = Some (ODict [(SStr "replicas", replicas);
                             (SStr "selector", VRef asel);
                             (SStr "template", VRef atpl);
                             (SStr "strategy", VRef r)]) ∧
    h' !! asel = Some (ODict [(SStr "matchLabels", sel)]) ∧
    h' !! atpl = Some (ODict [(SStr "metadata", VRef atmd);
                              (SStr "spec", tpl_spec)]) ∧
    h' !! atmd = Some (ODict [(SStr "labels", tl);
                              (SStr "annotations", tanns)]) ∧
    (n0 ≤ n1 ∧ n1 ≤ n2 ∧ n2 ≤ n3) ∧
    (in_region n0 n1 labels ∧ in_region n1 n2 sel ∧ in_region n2 n3 tl) ∧
    (closed_region n0 n1 h' ∧ closed_region n1 n2 h' ∧
     closed_region n2 n3 h') ∧
    (∀ n, content n h' sel = content n h' labels) ∧
    (∀ n, content n h' tl = content n h' labels) ∧
    (∀ n, if truthy h (dc_template_labels h dc)
          then content n h' labels = content n h (dc_template_labels h dc)
          else if truthy h (dc_labels h dc)
          then content n h' labels = content n h (dc_labels h dc)
          else ∀ s, dc_name h dc = VS s →
                    content n h' labels
                    = match n with
                      | 0 => TCut
                      | S _ => TD [(SStr "app", TS s)]
                      end) ∧
    (if strategy_recreate h (dc_strategy h dc)
     then h' !! r = Some (ODict [(SStr "type", VStr "Recreate")])
     else ∃ ru msv muv,
       h' !! r = Some (ODict [(SStr "type", VStr "RollingUpdate");
                              (SStr "rollingUpdate", VRef ru)]) ∧
       h' !! ru = Some (ODict [(SStr "maxSurge", msv);
                               (SStr "maxUnavailable", muv)]) ∧
       param_value (rolling_param h (dc_strategy h dc) "maxSurge") msv ∧
       param_value (rolling_param h (dc_strategy h dc) "maxUnavailable")
         muv).
Proof.
  intros Hwf Hdc H.
  destruct (to_deployment_run _ _ _ _ _ _ Hwf Hdc H)
    as (adep & amd & ads & asel & atpl & atmd & r & name & labels & sel & tl &
        anns & tanns & replicas & tpl_spec & n0 & n1 & n2 & n3 &
        H1 & H2 & H3 & H4 & H5 & H6 & H7 & H8 & H9 & H10 & H11 & H12 & H13 &
        H14 & _).
  exists adep, amd, ads, asel, atpl, atmd, r, name, labels, sel, tl, anns,
    tanns, replicas, tpl_spec, n0, n1, n2, n3.
  do 13 (split; [assumption|]). assumption.
Qed.



End Deployment.

(** ** The error of the model

    No computation of the program fails with [Stuck] on a well-formed
    store: a reference is never dangling and a copy never runs out of
    fuel. *)

Lemma sound_ret `{Okay A} n (x : A) : okay n x → sound n (ret x).
Proof.
  intros Hx h Hwf Hn. simpl. split_and!; [done..|]. by eapply okay_mono.
Qed.

Lemma sound_raise `{Okay A} n e : e ≠ Stuck → sound (A:=A) n (raise e).
Proof. by intros He h Hwf Hn. Qed.

Lemma sound_bind `{Okay A, Okay B} n (c : M A) (k : A → M B) :
  sound n c → (∀ m x, n ≤ m → okay m x → sound m (k x)) →
  sound n (bind c k).
Proof.
  intros Hc Hk h Hwf Hn. unfold bind. specialize (Hc h Hwf Hn).
  destruct (c h) as [[x h1]|e]; [|done]. destruct Hc as (Hwf1 & Hlen & Hx).
  assert (Hm : n ≤ length h1) by lia.
  specialize (Hk (length h1) x Hm Hx h1 Hwf1 (le_n _)).
  destruct (k x h1) as [[y h2]|e]; [|done].
  destruct Hk as (? & ? & ?). split_and!; [done|lia|done].
Qed.

Lemma sound_alloc n o : okay n o → sound n (alloc o).
Proof.
  intros Ho h Hwf Hn. simpl. rewrite length_app. simpl. split_and!.
  - apply wf_app; [done|]. repeat constructor.
    eapply obj_ok_mono; [|exact Ho]. simpl. lia.
  - lia.
  - lia.
Qed.

Lemma sound_load n a : a < n → sound n (load a).
Proof.
  intros Ha h Hwf Hn. unfold load.
  destruct (h !! a) as [o|] eqn:E.
  - split_and!; [done..|]. by eapply Hwf.
  - apply lookup_ge_None in E. lia.
Qed.

Lemma sound_store n a o : okay n o → sound n (store a o).
Proof.
  intros Ho h Hwf Hn. simpl. rewrite length_insert. split_and!; [|done..].
  apply wf_insert; [done|]. by eapply obj_ok_mono.
Qed.

Lemma sound_deepcopy n v : okay n v → sound n (deepcopy v).
Proof.
  intros Hv h Hwf Hn.
  assert (Hv' : val_ok (length h) v) by by eapply val_ok_mono.
  destruct (deepcopy_spec h Hwf v Hv') as (v' & h' & m & -> & Hc).
  destruct (wf_copy _ _ _ _ _ Hwf Hc) as [Hwf' Hok].
  split_and!; [done| |done]. apply prefix_length. by eapply copy_of_prefix.
Qed.

Lemma okay_items n (kvs : list (scalar * val)) :
  okay n kvs ↔ okay n (ODict kvs).
Proof.
  simpl. unfold obj_ok. simpl. rewrite Forall_fmap.
  apply Forall_iff. intros [k v]. simpl. tauto.
Qed.

Lemma okay_dict_get n k (kvs : list (scalar * val)) v :
  okay n kvs → Dict.get k kvs = Some v → okay n v.
Proof.
  intros Hall Hg. simpl in Hall. rewrite Forall_forall in Hall.
  by destruct (Hall _ (dict_get_elem _ _ _ Hg)).
Qed.

Lemma okay_dict_set n k v (kvs : list (scalar * val)) :
  okay n kvs → okay n v → okay n (Dict.set k v kvs).
Proof.
  intros Hall Hv. induction kvs as [|[k' v'] kvs IH]; simpl.
  - by repeat constructor.
  - inversion Hall as [|?? Hv' Hall']; subst.
    destruct (decide (k' = k)); constructor; auto. by apply IH.
Qed.

Lemma okay_dict_remove n k (kvs : list (scalar * val)) :
  okay n kvs → okay n (Dict.remove k kvs).
Proof.
  intros Hall. induction kvs as [|[k' v'] kvs IH]; simpl; [done|].
  inversion Hall as [|?? Hv' Hall']; subst.
  destruct (decide (k' = k)); [by apply IH|constructor; [done|by apply IH]].
Qed.

(** Side conditions: a value fits the store at a later length. *)
Ltac okay_tac :=
  repeat match goal with
  | H : okay _ (_, _) |- _ => destruct H as [? ?]; simpl fst in *; simpl snd in *
  | H : @okay _ prod_okay _ ?p |- _ => destruct p
  end;
  try exact I;
  first
    [ eassumption
    | eapply okay_mono; [|eassumption]; lia
    | (simpl; lia)
    | (simpl; exact I)
    | (repeat constructor; simpl;
       first [ exact I | eassumption
             | eapply val_ok_mono; [|eassumption]; lia ]) ].

Lemma sound_py_bool n v : okay n v → sound n (py_bool v).
Proof.
  intros Hv. destruct v as [s|a]; simpl; [by apply sound_ret|].
  eapply sound_bind; [by apply sound_load|]. intros. by apply sound_ret.
Qed.

Lemma sound_py_or n v (alt : M val) :
  okay n v → sound n alt → sound n (py_or v alt).
Proof.
  intros Hv Halt. unfold py_or.
  eapply sound_bind; [by apply sound_py_bool|]. intros m [|] Hm _.
  - apply sound_ret. okay_tac.
  - intros h Hwf Hh. apply Halt; [done|lia].
Qed.

Lemma sound_as_dict n v : okay n v → sound n (as_dict v).
Proof.
  intros Hv. destruct v as [s|a]; simpl; [by apply sound_raise|].
  eapply sound_bind; [by apply sound_load|]. intros m [kvs|xs] Hm Ho.
  - apply sound_ret. split; [simpl in *; lia|]. by apply okay_items.
  - by apply sound_raise.
Qed.

Lemma sound_py_get n d k dflt :
  okay n d → okay n dflt → sound n (py_get d k dflt).
Proof.
  intros Hd Hdf. unfold py_get.
  eapply sound_bind; [by apply sound_as_dict|]. intros m [a kvs] Hm [_ Hk].
  apply sound_ret. simpl in Hk.
  destruct (Dict.get (SStr k) kvs) as [v|] eqn:Hg; simpl.
  - exact (okay_dict_get m _ _ _ Hk Hg).
  - okay_tac.
Qed.

Lemma sound_py_setdefault n d k dflt :
  okay n d → okay n dflt → sound n (py_setdefault d k dflt).
Proof.
  intros Hd Hdf. unfold py_setdefault.
  eapply sound_bind; [by apply sound_as_dict|]. intros m [a kvs] Hm [_ Hk].
  simpl in Hk. destruct (Dict.get (SStr k) kvs) as [v|] eqn:Hg.
  - apply sound_ret. exact (okay_dict_get m _ _ _ Hk Hg).
  - eapply sound_bind.
    + apply sound_store. apply okay_items. apply Forall_app. split; [done|].
      repeat constructor. simpl. okay_tac.
    + intros. apply sound_ret. okay_tac.
Qed.

Lemma sound_py_items n d : okay n d → sound n (py_items d).
Proof.
  intros Hd. unfold py_items.
  eapply sound_bind; [by apply sound_as_dict|]. intros m [a kvs] Hm [_ Hk].
  by apply sound_ret.
Qed.

Lemma sound_py_getitem n d k : okay n d → sound n (py_getitem d k).
Proof.
  intros Hd. destruct d as [s|a]; simpl; [by apply sound_raise|].
  eapply sound_bind; [by apply sound_load|]. intros m [kvs|xs] Hm Ho;
    [|by apply sound_raise].
  apply okay_items in Ho.
  destruct (Dict.get (SStr k) kvs) as [v|] eqn:Hg; [|by apply sound_raise].
  apply sound_ret. exact (okay_dict_get m _ _ _ Ho Hg).
Qed.

Lemma sound_py_setitem n d k v :
  okay n d → okay n v → sound n (py_setitem d k v).
Proof.
  intros Hd Hv. destruct d as [s|a]; simpl; [by apply sound_raise|].
  eapply sound_bind; [by apply sound_load|]. intros m [kvs|xs] Hm Ho;
    [|by apply sound_raise].
  apply okay_items in Ho. apply sound_store. apply okay_items.
  apply okay_dict_set; [done|]. okay_tac.
Qed.

Lemma sound_py_pop n d k : okay n d → sound n (py_pop d k).
Proof.
  intros Hd. destruct d as [s|a]; simpl; [by apply sound_raise|].
  eapply sound_bind; [by apply sound_load|]. intros m [kvs|xs] Hm Ho;
    [|by apply sound_raise].
  apply okay_items in Ho.
  destruct (Dict.get (SStr k) kvs) as [v|] eqn:Hg.
  - eapply sound_bind.
    + apply sound_store. apply okay_items. by apply okay_dict_remove.
    + intros m' _ Hm' _. apply sound_ret.
      eapply okay_mono; [exact Hm'|]. exact (okay_dict_get m _ _ _ Ho Hg).
  - by apply sound_ret.
Qed.

Lemma sound_py_iter n v : okay n v → sound n (py_iter v).
Proof.
  intros Hv. destruct v as [[| | |s]|a]; simpl; try by apply sound_raise.
  - apply sound_ret. simpl. rewrite Forall_fmap. by apply Forall_true.
  - eapply sound_bind; [by apply sound_load|]. intros m [kvs|xs] Hm Ho.
    + apply sound_ret. simpl. rewrite Forall_fmap. by apply Forall_true.
    + by apply sound_ret.
Qed.

Lemma sound_py_in n p v : okay n v → sound n (py_in p v).
Proof.
  intros Hv. destruct v as [[| | |s]|a]; simpl; try by apply sound_raise.
  - by apply sound_ret.
  - eapply sound_bind; [by apply sound_load|].
    intros m [kvs|xs] Hm Ho; by apply sound_ret.
Qed.

Lemma sound_is_dict n v : okay n v → sound n (is_dict v).
Proof.
  intros Hv. destruct v as [s|a]; simpl; [by apply sound_ret|].
  eapply sound_bind; [by apply sound_load|]. intros. by apply sound_ret.
Qed.

Lemma sound_py_lower n v : sound n (py_lower v).
Proof.
  destruct v as [[| | |s]|a]; simpl;
    first [by apply sound_ret | by apply sound_raise].
Qed.

Lemma sound_py_int n v : sound n (py_int v).
Proof.
  destruct v as [[| | |s]|a]; simpl;
    first [by apply sound_ret | by apply sound_raise].
Qed.

Lemma sound_py_append n l v : okay n l → okay n v → sound n (py_append l v).
Proof.
  intros Hl Hv. destruct l as [s|a]; simpl; [by apply sound_raise|].
  eapply sound_bind; [by apply sound_load|]. intros m [kvs|xs] Hm Ho;
    [by apply sound_raise|].
  apply sound_store. simpl in *. unfold obj_ok in *. simpl in *.
  apply Forall_app. split; [done|]. repeat constructor.
  by eapply val_ok_mono.
Qed.

Lemma sound_new_dict n kvs :
  Forall (λ kv, okay n kv.2) kvs → sound n (new_dict kvs).
Proof.
  intros Hk. apply sound_alloc. simpl. unfold obj_ok. simpl.
  rewrite <- list_fmap_compose, Forall_fmap.
  eapply Forall_impl; [exact Hk|]. by intros [k v].
Qed.

Lemma sound_new_list n xs : okay n xs → sound n (new_list xs).
Proof. intros Hx. by apply sound_alloc. Qed.

Lemma sound_for_each `{Okay A} n (xs : list A) (body : A → M unit) :
  okay n xs → (∀ m x, n ≤ m → okay m x → sound m (body x)) →
  sound n (for_each xs body).
Proof.
  intros Hxs Hb. revert n Hxs Hb.
  induction xs as [|x xs IH]; intros n Hxs Hb; simpl.
  - by apply sound_ret.
  - inversion Hxs as [|?? Hx Hxs']; subst.
    eapply sound_bind; [by apply Hb|]. intros m _ Hm _. apply IH.
    + by eapply (okay_mono n m).
    + intros m' y Hm' Hy. apply Hb; [lia|done].
Qed.

Lemma sound_foreign_items n items : okay n items → sound n (foreign_items items).
Proof.
  revert n. induction items as [|[k v] r IH]; intros n Hall; simpl.
  - by apply sound_ret.
  - inversion Hall as [|?? Hv Hr]; subst.
    destruct k; try by apply sound_raise.
    eapply sound_bind; [by apply IH|]. intros m r' Hm Hr'.
    apply sound_ret. destruct (Str.startswith _ _); [done|].
    constructor; [|done]. by eapply (okay_mono n m).
Qed.

Lemma sound_filter_annotations n anns :
  okay n anns → sound n (filter_annotations anns).
Proof.
  intros Ha. unfold filter_annotations.
  eapply sound_bind.
  { apply sound_py_or; [done|]. by apply sound_new_dict. }
  intros m a Hm Hok.
  eapply sound_bind; [by apply sound_py_items|]. intros m1 items Hm1 Hi.
  eapply sound_bind; [by apply sound_foreign_items|]. intros m2 kept Hm2 Hk.
  apply sound_alloc. by apply okay_items.
Qed.

Create HintDb sound discriminated.

#[global] Hint Resolve sound_alloc sound_load sound_store sound_deepcopy
  sound_py_bool sound_as_dict sound_py_get sound_py_setdefault sound_py_items
  sound_py_getitem sound_py_setitem sound_py_pop sound_py_iter sound_py_in
  sound_is_dict sound_py_lower sound_py_int sound_py_append sound_new_dict
  sound_new_list sound_foreign_items sound_filter_annotations : sound.

#[global] Hint Extern 1 (okay _ _) => okay_tac : sound.

#[global] Hint Extern 2 (okay _ (ODict _)) =>
  apply okay_items; okay_tac : sound.

#[global] Hint Extern 1 (Forall _ _) =>
  repeat constructor; simpl; okay_tac : sound.

(** The rules applied along the structure of a computation. *)
Ltac sound_go :=
  cbv beta;
  lazymatch goal with
  | |- sound _ (bind _ _) =>
      eapply sound_bind; [sound_go | intros ? ? ? ?; sound_go]
  | |- sound _ (py_or _ _) => apply sound_py_or; [okay_tac | sound_go]
  | |- sound _ (for_each _ _) =>
      eapply sound_for_each; [okay_tac | intros ? ? ? ?; sound_go]
  | |- sound _ (if ?b then _ else _) => destruct b; sound_go
  | |- sound _ (match ?x with _ => _ end) => destruct x; sound_go
  | |- sound _ (ret _) => apply sound_ret; okay_tac
  | |- sound _ (raise _) => by apply sound_raise
  | |- _ => solve [eauto with sound]
  end.

Section Sound.

Variable py_repr : heap → addr → string.

Lemma sound_py_format n v : sound n (py_format py_repr v).
Proof.
  destruct v as [s|a]; simpl; [by apply sound_ret|].
  intros h Hwf Hn. done.
Qed.

Lemma sound_norm_labels n meta : okay n meta → sound n (norm_labels meta).
Proof. intros Hm. unfold norm_labels. sound_go. Qed.

#[local] Hint Resolve sound_py_format sound_norm_labels : sound.

Lemma sound_map_image n image name_hint reg pre :
  okay n image → okay n name_hint →
  sound n (map_image py_repr image name_hint reg pre).
Proof. intros Hi Hh. unfold map_image. sound_go. Qed.

#[local] Hint Resolve sound_map_image : sound.

Lemma sound_set_strategy n spec deployment :
  okay n spec → okay n deployment → sound n (set_strategy spec deployment).
Proof. intros Hs Hd. unfold set_strategy. sound_go. Qed.

Lemma sound_normalize_container n name reg pre c :
  okay n name → okay n c →
  sound n (normalize_container py_repr name reg pre c).
Proof. intros Hn Hc. unfold normalize_container. sound_go. Qed.

Lemma sound_deployment_parts n dc : okay n dc → sound n (deployment_parts dc).
Proof. intros Hd. unfold deployment_parts. sound_go. Qed.

Lemma sound_deployment_labels n meta tpl_meta name :
  okay n meta → okay n tpl_meta → okay n name →
  sound n (deployment_labels meta tpl_meta name).
Proof. intros Hm Ht Hn. unfold deployment_labels. sound_go. Qed.

Lemma sound_deployment_display n meta spec name tpl_meta tpl_spec
    labels sel tl :
  okay n meta → okay n spec → okay n name → okay n tpl_meta →
  okay n tpl_spec → okay n labels → okay n sel → okay n tl →
  sound n (deployment_display meta spec name tpl_meta tpl_spec labels sel tl).
Proof. intros. unfold deployment_display. sound_go. Qed.

Lemma sound_drop_openshift_fields n deployment :
  okay n deployment → sound n (drop_openshift_fields deployment).
Proof. intros Hd. unfold drop_openshift_fields. sound_go. Qed.

#[local] Hint Resolve sound_normalize_container : sound.

Lemma sound_normalize_containers n deployment name reg pre :
  okay n deployment → okay n name →
  sound n (normalize_containers py_repr deployment name reg pre).
Proof. intros Hd Hn. unfold normalize_containers. sound_go. Qed.

#[local] Hint Resolve sound_set_strategy sound_deployment_parts
  sound_deployment_labels sound_deployment_display
  sound_drop_openshift_fields sound_normalize_containers : sound.

Lemma sound_to_deployment n dc reg pre :
  okay n dc → sound n (to_deployment py_repr dc reg pre).
Proof. intros Hd. unfold to_deployment. sound_go. Qed.

Lemma sound_set_tls n spec name host ingress tls :
  okay n spec → okay n name → okay n host → okay n ingress →
  sound n (set_tls py_repr spec name host ingress tls).
Proof. intros. unfold set_tls. sound_go. Qed.

Lemma sound_route_parts n route dd :
  okay n route → sound n (route_parts py_repr route dd).
Proof. intros Hr. unfold route_parts. sound_go. Qed.

Lemma sound_ingress_display n meta name host svc tp ic :
  okay n meta → okay n name → okay n host → okay n svc → okay n tp →
  sound n (ingress_display meta name host svc tp ic).
Proof. intros. unfold ingress_display. sound_go. Qed.

#[local] Hint Resolve sound_set_tls sound_route_parts sound_ingress_display
  : sound.

Lemma sound_to_ingress n route dd ic tls :
  okay n route → sound n (to_ingress py_repr route dd ic tls).
Proof. intros Hr. unfold to_ingress. sound_go. Qed.

#[local] Hint Resolve sound_to_deployment sound_to_ingress : sound.

Lemma sound_strip_annotations n doc :
  okay n doc → sound n (strip_annotations doc).
Proof. intros Hd. unfold strip_annotations. sound_go. Qed.

Lemma sound_kinds_of n docs : okay n docs → sound n (kinds_of docs).
Proof.
  revert n. induction docs as [|doc r IH]; intros n Hall; simpl.
  - apply sound_ret. constructor.
  - inversion Hall as [|?? Hd Hr]; subst.
    eapply sound_bind; [by apply sound_is_dict|]. intros m [|] Hm _.
    + eapply sound_bind; [apply sound_py_get; okay_tac|].
      intros m1 [s|a] Hm1 _; [|by apply sound_raise].
      eapply sound_bind; [apply IH; eapply okay_mono; [|exact Hr]; lia|].
      intros. apply sound_ret. by apply Forall_true.
    + apply IH. eapply okay_mono; [|exact Hr]. lia.
Qed.

Lemma sound_map_output_filename n p docs :
  okay n docs → sound n (map_output_filename p docs).
Proof.
  intros Hd. unfold map_output_filename.
  eapply sound_bind; [by apply sound_kinds_of|]. intros m ks Hm _.
  destruct (first_mapping _ _ _); by apply sound_ret.
Qed.

#[local] Hint Resolve sound_strip_annotations sound_map_output_filename
  : sound.

Lemma sound_dispatch n a doc st :
  okay n doc → okay n st → sound n (dispatch py_repr a doc st).
Proof.
  intros Hd Hst. unfold dispatch. destruct st as [r out_docs].
  destruct Hst as [Hr Ho]. simpl in Hr, Ho.
  assert (Hr2 : ∀ m', n ≤ m' → okay m' (written r)).
  { intros m' Hm'. by eapply okay_mono. }
  assert (Ho2 : ∀ m', n ≤ m' → okay m' out_docs).
  { intros m' Hm'. by eapply okay_mono. }
  assert (Hd2 : ∀ m', n ≤ m' → okay m' doc).
  { intros m' Hm'. by eapply okay_mono. }
  assert (Hst : ∀ m', n ≤ m' → sound m' (ret (r, out_docs))).
  { intros m' Hm'. apply sound_ret. split; simpl; [by apply Hr2|by apply Ho2]. }
  eapply sound_bind; [by apply sound_is_dict|]. intros m [|] Hm _; simpl;
    [|by apply Hst].
  eapply sound_bind; [apply sound_py_in; by apply Hd2|].
  intros m1 [|] Hm1 _; simpl; [|apply Hst; lia].
  eapply sound_bind; [apply sound_py_get; [apply Hd2; lia|done]|].
  intros m2 kind Hm2 Hk.
  assert (Hn2 : n ≤ m2) by lia.
  repeat case_decide.
  - eapply sound_bind; [apply sound_to_deployment; by apply Hd2|].
    intros m3 dep Hm3 Hdep. apply sound_ret. split; simpl.
    + apply Hr2. lia.
    + apply Forall_app. split; [apply Ho2; lia|by constructor].
  - eapply sound_bind; [apply sound_to_ingress; by apply Hd2|].
    intros m3 ing Hm3 Hing. apply sound_ret. split; simpl.
    + apply Hr2. lia.
    + apply Forall_app. split; [apply Ho2; lia|by constructor].
  - eapply sound_bind; [by apply sound_new_dict|]. intros m3 e Hm3 He.
    eapply sound_bind; [apply sound_py_get; [apply Hd2; lia|done]|].
    intros m4 md Hm4 Hmd.
    eapply sound_bind; [apply sound_py_get; [done|done]|].
    intros m5 nm Hm5 Hnm.
    eapply sound_bind; [apply sound_py_format|]. intros m6 s Hm6 _.
    apply sound_ret. split; simpl; [apply Hr2|apply Ho2]; lia.
  - eapply sound_bind; [apply sound_strip_annotations; by apply Hd2|].
    intros m3 _ Hm3 _. apply sound_ret. split; simpl.
    + apply Hr2. lia.
    + apply Forall_app. split; [apply Ho2; lia|].
      constructor; [apply Hd2; lia|constructor].
Qed.

Lemma sound_dispatch_all n a docs st :
  okay n docs → okay n st → sound n (dispatch_all py_repr a docs st).
Proof.
  revert n st. induction docs as [|doc docs IH]; intros n st Hall Hst; simpl.
  - by apply sound_ret.
  - inversion Hall as [|?? Hd Hr]; subst.
    eapply sound_bind; [by apply sound_dispatch|]. intros m st' Hm Hst'.
    apply IH; [|done]. by eapply (okay_mono n).
Qed.

Lemma sound_process_entry n a e r :
  okay n e → okay n r → sound n (process_entry py_repr a e r).
Proof.
  intros He Hr. unfold process_entry.
  destruct (negb (e_is_file e) || negb (is_yaml_file (e_path e)));
    [by apply sound_ret|].
  simpl in He. destruct (e_load e) as [msg|docs]; [by apply sound_ret|].
  eapply sound_bind.
  { apply sound_dispatch_all; [done|]. split; [done|]. by constructor. }
  intros m [r' out_docs] Hm [Hr' Ho]. simpl in Hr', Ho.
  destruct out_docs as [|d ds]; [by apply sound_ret|].
  eapply sound_bind; [by apply sound_map_output_filename|].
  intros m1 mf Hm1 _. apply sound_ret. simpl.
  apply Forall_app. split.
  - exact (okay_mono m m1 (written r') Hm1 Hr').
  - constructor; [|constructor]. split; [done|]. simpl.
    exact (okay_mono m m1 (d :: ds) Hm1 Ho).
Qed.

Lemma sound_process_all n a es r :
  okay n es → okay n r → sound n (process_all py_repr a es r).
Proof.
  revert n r. induction es as [|e es IH]; intros n r Hall Hr; simpl.
  - by apply sound_ret.
  - inversion Hall as [|?? He Hes]; subst.
    eapply sound_bind; [by apply sound_process_entry|]. intros m r' Hm Hr'.
    apply IH; [|done]. by eapply (okay_mono n).
Qed.

(** A run on a well-formed store, over a source tree whose documents are
    in the store, does not fail with [Stuck]. *)
Lemma main_not_stuck a tree h :
  wf h → okay (length h) tree → main py_repr a tree h ≠ Raise Stuck.
Proof.
  intros Hwf Ht. unfold main.
  pose proof (sound_process_all (length h) a tree run0 Ht) as Hs.
  specialize (Hs ltac:(by constructor) h Hwf (le_n _)).
  destruct (process_all _ _ _ _ _) as [[r h']|e]; [done|]. congruence.
Qed.

(** The converters do not fail with [Stuck] either. *)
Lemma to_deployment_not_stuck dc reg pre h :
  wf h → val_ok (length h) dc →
  to_deployment py_repr dc reg pre h ≠ Raise Stuck.
Proof.
  intros Hwf Hd.
  pose proof (sound_to_deployment (length h) dc reg pre Hd h Hwf (le_n _))
    as Hs.
  destruct (to_deployment _ _ _ _ _) as [[r h']|e]; [done|]. congruence.
Qed.

Lemma to_ingress_not_stuck route dd ic tls h :
  wf h → val_ok (length h) route →
  to_ingress py_repr route dd ic tls h ≠ Raise Stuck.
Proof.
  intros Hwf Hd.
  pose proof (sound_to_ingress (length h) route dd ic tls Hd h Hwf (le_n _))
    as Hs.
  destruct (to_ingress _ _ _ _ _ _) as [[r h']|e]; [done|]. congruence.
Qed.

End Sound.



(** A DeploymentConfig without labels whose strategy type is [RECREATE]:
    the strategy is [{type: Recreate}] and the labels are [{app: db}]. *)
Example to_deployment_recreate_example :
  ∃ deployment h',
    to_deployment (λ _ _, "") (VRef 0) "" ""
      [ODict [(SStr "kind", VStr "DeploymentConfig");
              (SStr "metadata", VRef 1); (SStr "spec", VRef 2)];
       ODict [(SStr "name", VStr "db")];
       ODict [(SStr "strategy", VRef 3)];
       ODict [(SStr "type", VStr "RECREATE")]]
    = Ok (deployment, h') ∧
    content 1 h' <$> at_path h' deployment ["spec"; "strategy"]
    = Some (TD [(SStr "type", TS (SStr "Recreate"))]) ∧
    content 1 h' <$> at_path h' deployment ["metadata"; "labels"]
    = Some (TD [(SStr "app", TS (SStr "db"))]) ∧
    content 1 h' <$> at_path h' deployment
                       ["spec"; "selector"; "matchLabels"]
    = Some (TD [(SStr "app", TS (SStr "db"))]).
Proof.
  eexists _, _. split; [vm_compute; reflexivity|].
  split_and!; vm_compute; reflexivity.
Qed.

(** * Further properties of the program *)

(** ** Substrings *)

Lemma prefix_app_l (p a b : string) :
  String.prefix p a = true → String.prefix p (a +:+ b) = true.
Proof.
  revert a. induction p as [|c p IH]; intros a; destruct a as [|d a]; simpl;
    try done.
  - by destruct b.
  - destruct (ascii_dec c d); [apply IH|done].
Qed.

Lemma contains_cons (p : string) c (s : string) :
  Str.contains p (String c s)
  = String.prefix p (String c s) || Str.contains p s.
Proof. done. Qed.

Lemma contains_app_l (p a b : string) :
  Str.contains p a = true → Str.contains p (a +:+ b) = true.
Proof.
  induction a as [|c a IH].
  - destruct p; [by destruct b|done].
  - rewrite contains_cons. intros [Hp|Hc]%orb_true_iff.
    + change (String c a +:+ b) with (String c (a +:+ b)).
      rewrite contains_cons.
      change (String c (a +:+ b)) with (String c a +:+ b).
      by rewrite (prefix_app_l p (String c a) b Hp).
    + change (String c a +:+ b) with (String c (a +:+ b)).
      rewrite contains_cons, (IH Hc). apply orb_true_r.
Qed.

Lemma contains_app_r (p a b : string) :
  Str.contains p b = true → Str.contains p (a +:+ b) = true.
Proof.
  intros Hb. induction a as [|c a IH]; [done|].
  change (String c a +:+ b) with (String c (a +:+ b)).
  rewrite contains_cons, IH. apply orb_true_r.
Qed.

Lemma contains_head c (s : string) :
  Str.contains (String c "") (String c s) = true.
Proof.
  rewrite contains_cons. simpl. destruct (ascii_dec c c); [|done].
  by destruct s.
Qed.

Lemma contains_nonempty (p s : string) :
  p ≠ "" → Str.contains p s = true → Str.nonempty s = true.
Proof. intros Hp. destruct s; simpl; [|done]. by destruct p. Qed.

(** ** [map_image] *)

Section MoreImages.

Variable py_repr : heap → addr → string.

(** A string that looks fully qualified is returned, whatever the hint. *)
Lemma map_image_keeps_qualified (image : string) (name_hint : val)
    (image_registry repo_prefix : string) (h : heap) :
  image_qualified image = true →
  map_image py_repr (VStr image) name_hint image_registry repo_prefix h
  = Ok (VStr image, h).
Proof.
  unfold image_qualified.
  intros [[Hne Hsep]%andb_true_iff Hc]%andb_true_iff.
  unfold map_image, py_or, py_bool, bind, ret, py_in. simpl.
  rewrite Hne. simpl. rewrite Hne, Hc.
  apply orb_true_iff in Hsep as [-> | ->]; [done|].
  by destruct (Str.contains "/" image).
Qed.

(** A string that does not look fully qualified reaches the test of the
    registry override. *)
Lemma map_image_unqualified_step (image : string) (name_hint : val)
    (image_registry repo_prefix : string) (h : heap) :
  image_qualified image = false →
  map_image py_repr (VStr image) name_hint image_registry repo_prefix h
  = (if Str.nonempty image_registry && Str.contains ":" image_registry
     then ret (VStr image_registry)
     else
       let* repo :=
         (if Str.nonempty repo_prefix
          then let* r := py_format py_repr name_hint in
               ret (VStr (repo_prefix +:+ "/" +:+ r))
          else ret name_hint) in
       if Str.nonempty image_registry
       then let* r := py_format py_repr repo in
            ret (VStr (image_registry +:+ "/" +:+ r +:+ ":latest"))
       else py_or (VStr image)
              (let* r := py_format py_repr repo in
               ret (VStr (r +:+ ":latest")))) h.
Proof.
  unfold image_qualified. intros Hq.
  unfold map_image, py_or, py_bool, bind, ret, py_in. simpl.
  destruct (Str.nonempty image) eqn:Hi; simpl in *; rewrite ?Hi; [|done].
  destruct (Str.contains "/" image); simpl in *; rewrite ?Hq; [done|].
  destruct (Str.contains "." image); simpl in *; rewrite ?Hq; done.
Qed.

Lemma py_format_total v h : ∃ s, py_format py_repr v h = Ok (s, h).
Proof. destruct v as [s|a]; simpl; eauto. Qed.

(** Without a registry override, an image that is not empty is kept. *)
Lemma map_image_keeps_nonempty (image : string) (name_hint : val)
    (repo_prefix : string) (h : heap) :
  image ≠ "" →
  map_image py_repr (VStr image) name_hint "" repo_prefix h
  = Ok (VStr image, h).
Proof.
  intros Hi%nonempty_true. destruct (image_qualified image) eqn:Hq.
  { by apply map_image_keeps_qualified. }
  rewrite map_image_unqualified_step by done. cbn [Str.nonempty andb].
  destruct (py_format_total name_hint h) as [s Hs].
  destruct (Str.nonempty repo_prefix); unfold bind, py_or, py_bool, ret;
    simpl; rewrite ?Hs; simpl; by rewrite Hi.
Qed.

(** X1. A registry override that holds a colon is taken for a complete
    image reference: an image that does not look fully qualified is
    replaced by the override as it is, and neither the image, nor the name
    hint, nor the repository prefix has a part in the result. *)
Theorem map_image_registry_reference (image : string) (name_hint : val)
    (image_registry repo_prefix : string) (h : heap) :
  image_qualified image = false →
  Str.contains ":" image_registry = true →
  map_image py_repr (VStr image) name_hint image_registry repo_prefix h
  = Ok (VStr image_registry, h).
Proof.
  intros Hq Hc. rewrite map_image_unqualified_step by done.
  by rewrite (contains_nonempty ":" image_registry), Hc.
Qed.

(** X2. [map_image] is idempotent on strings: the reference it returns
    is mapped to itself under the same registry override, whatever the
    name hint and the repository prefix of the second call are. *)
Theorem map_image_idempotent
    (image name_hint image_registry repo_prefix : string)
    (name_hint' : val) (repo_prefix' : string) (h h' : heap) (r : val) :
  map_image py_repr (VStr image) (VStr name_hint) image_registry repo_prefix h
  = Ok (r, h) →
  map_image py_repr r name_hint' image_registry repo_prefix' h' = Ok (r, h').
Proof.
  rewrite map_image_str. intros [= <-].
  destruct (image_qualified image) eqn:Hq.
  { by apply map_image_keeps_qualified. }
  destruct (Str.nonempty image_registry && Str.contains ":" image_registry)
    eqn:Hr.
  { destruct (image_qualified image_registry) eqn:Hq2.
    - by apply map_image_keeps_qualified.
    - rewrite map_image_unqualified_step by done. by rewrite Hr. }
  cbv zeta. destruct (Str.nonempty image_registry) eqn:Hne.
  { apply map_image_keeps_qualified. unfold image_qualified.
    set (repo := if Str.nonempty repo_prefix then _ else _).
    assert (Str.nonempty (image_registry +:+ "/" +:+ repo +:+ ":latest")
            = true) as ->.
    { apply nonempty_true. by apply append_nonempty_r. }
    assert (Str.contains "/" (image_registry +:+ "/" +:+ repo +:+ ":latest")
            = true) as ->.
    { apply contains_app_r. apply contains_head. }
    assert (Str.contains ":" (image_registry +:+ "/" +:+ repo +:+ ":latest")
            = true) as ->.
    { apply contains_app_r. apply (contains_app_r ":" "/").
      apply contains_app_r. apply contains_head. }
    done. }
  apply nonempty_false in Hne as ->.
  apply map_image_keeps_nonempty.
  destruct (Str.nonempty image) eqn:Hi; [by apply nonempty_true|].
  by apply append_nonempty_r.
Qed.

(** X3. An image that is not a string.  A falsy scalar ([None], [False],
    [0]) counts as the empty image; a truthy one (a non-zero number,
    [True]) makes [map_image] raise [TypeError], at the test for a path
    separator, before anything else is looked at. *)
Theorem map_image_scalar_image (s : scalar) (name_hint : val)
    (image_registry repo_prefix : string) (h : heap) :
  (∀ x, s ≠ SStr x) →
  map_image py_repr (VS s) name_hint image_registry repo_prefix h
  = if truthy_scalar s then Raise TypeError
    else map_image py_repr (VStr "") name_hint image_registry repo_prefix h.
Proof.
  intros Hs. unfold map_image at 1.
  unfold py_or at 1, py_bool at 1, bind at 1 2, ret at 1. 
  destruct (truthy_scalar s) eqn:Ht.
  - unfold ret at 1. unfold bind at 1 2. unfold py_bool at 1, ret at 1.
    rewrite Ht. unfold bind at 1.
    destruct s as [| | |x]; simpl; try done. by destruct (Hs x).
  - done.
Qed.

End MoreImages.

(** ** [norm_labels] *)

(** X4. [norm_labels] returns a dict that has a [labels] key.  A truthy
    argument is returned itself, with its labels when it has some and with
    new, empty labels added in place otherwise; for a falsy argument (an
    empty dict, [None]) a new dict is returned and the argument is left as
    it is, without labels.  No other key and no other object of the store
    changes, and a second call on the result changes nothing. *)
Theorem norm_labels_result (x : val) (h : heap) (x' : val) (h' : heap) :
  norm_labels x h = Ok (x', h') →
  (truthy h x = true → x' = x) ∧
  (truthy h x = false → x' = VRef (length h)) ∧
  (∀ v, get h x "labels" = Some v → get h' x' "labels" = Some v) ∧
  (get h x "labels" = None →
   ∃ lv, get h' x' "labels" = Some (VRef lv) ∧ length h ≤ lv ∧
         h' !! lv = Some (ODict [])) ∧
  (∀ k, k ≠ "labels" → get h' x' k = get h x k) ∧
  (∀ a, a < length h → VRef a ≠ x' → h' !! a = h !! a) ∧
  norm_labels x' h' = Ok (x', h' ++ [ODict []]).
Proof.
  unfold norm_labels. intros H.
  mbind H as meta h1 E. mbind H as d h2 E2.
  apply new_dict_nil_Ok in E2 as [-> ->].
  mbind H as u h3 E3. unfold ret in H. injection H as <- <-.
  apply py_setdefault_Ok in E3 as (a & kvs & -> & Ha & E3).
  assert (Hagain : ∀ (hx : heap) kvx,
    hx !! a = Some (ODict kvx) → kvx ≠ [] →
    is_Some (Dict.get (SStr "labels") kvx) →
    (let* meta := py_or (VRef a) (new_dict []) in
     let* d := new_dict [] in
     py_setdefault meta "labels" d;; ret meta) hx
    = Ok (VRef a, hx ++ [ODict []])).
  { intros hx kvx Hx Hne [v Hv].
    assert (Ht' : truthy_obj (ODict kvx) = true) by by destruct kvx.
    assert (Hor : py_or (VRef a) (new_dict []) hx = Ok (VRef a, hx)).
    { unfold py_or, py_bool, bind, load, ret. rewrite Hx. cbv beta iota.
      by rewrite Ht'. }
    rewrite (bind_eq _ _ _ _ _ Hor).
    rewrite (bind_eq _ _ hx (VRef (length hx)) (hx ++ [ODict []]))
      by by apply new_dict_nil_Ok.
    assert (Hsd : py_setdefault (VRef a) "labels" (VRef (length hx))
                    (hx ++ [ODict []]) = Ok (v, hx ++ [ODict []])).
    { unfold py_setdefault.
      rewrite (bind_eq _ _ _ (a, kvx) (hx ++ [ODict []])).
      - by rewrite Hv.
      - apply as_dict_Ok. split; [done|]. split; [|done].
        by apply lookup_app_l_Some. }
    by rewrite (bind_eq _ _ _ _ _ Hsd). }
  apply py_or_Ok in E as [(Ht & Hx & ->)|[Ht E]].
  - (* a truthy argument *)
    subst x.
    assert (Hlt0 : a < length h).
    { simpl in Ht. destruct (h !! a) eqn:Ho; [|done].
      by eapply lookup_lt_Some. }
    rewrite lookup_app_l in Ha by done.
    assert (Hne : kvs ≠ []).
    { intros ->. simpl in Ht. by rewrite Ha in Ht. }
    split; [done|]. split; [congruence|].
    rewrite (get_lookup _ _ _ _ Ha).
    destruct (Dict.get (SStr "labels") kvs) as [v|] eqn:Hl.
    + destruct E3 as [_ ->]. split_and!.
      * intros v' [= <-]. by rewrite (get_lookup _ a kvs),
          Hl by by apply lookup_app_l_Some.
      * done.
      * intros k Hk. unfold get. simpl.
        by rewrite (lookup_app_l_Some _ _ _ _ Ha), Ha.
      * intros b Hb _. by rewrite lookup_app_l.
      * apply (Hagain _ kvs); [|done|by eexists].
        by apply lookup_app_l_Some.
    + destruct E3 as [_ ->].
      assert (Hlt : a < length (h ++ [ODict []])).
      { rewrite length_app. apply lookup_lt_Some in Ha. lia. }
      split_and!.
      * done.
      * intros _. exists (length h). split_and!.
        -- rewrite (get_lookup _ a (kvs ++ [(SStr "labels", VRef (length h))])).
           ++ by rewrite (dict_get_app_None _ _ _ Hl).
           ++ by rewrite list_lookup_insert_eq.
        -- done.
        -- rewrite list_lookup_insert_ne
             by (apply lookup_lt_Some in Ha; lia).
           by rewrite lookup_app_r, Nat.sub_diag.
      * intros k Hk.
        rewrite (get_lookup _ a (kvs ++ [(SStr "labels", VRef (length h))]))
          by by rewrite list_lookup_insert_eq.
        rewrite (get_lookup _ _ _ _ Ha).
        destruct (Dict.get (SStr k) kvs) as [v|] eqn:Hk'.
        -- by rewrite (dict_get_app_Some _ _ _ _ Hk').
        -- rewrite (dict_get_app_None _ _ _ Hk'). simpl.
           by rewrite decide_False by congruence.
      * intros b Hb Hne'. rewrite list_lookup_insert_ne by congruence.
        by rewrite lookup_app_l.
      * apply (Hagain _ (kvs ++ [(SStr "labels", VRef (length h))])).
        -- by rewrite list_lookup_insert_eq.
        -- by destruct kvs.
        -- rewrite (dict_get_app_None _ _ _ Hl). by eexists.
  - (* a falsy argument *)
    apply new_dict_nil_Ok in E as [[= ->] ->].
    rewrite lookup_app_l in Ha by (rewrite length_app; simpl; lia).
    rewrite lookup_app_r, Nat.sub_diag in Ha by done.
    injection Ha as <-. simpl in E3. destruct E3 as [_ ->].
    assert (Hlt : length h < length ((h ++ [ODict []]) ++ [ODict []])).
    { rewrite !length_app. simpl. lia. }
    split; [congruence|]. split; [done|].
    rewrite (get_falsy _ _ _ Ht). split_and!.
    + done.
    + intros _. exists (length (h ++ [ODict []])). split_and!.
      * rewrite (get_lookup _ _ [(SStr "labels", VRef (length (h ++ [ODict []])))])
          by by rewrite list_lookup_insert_eq.
        done.
      * rewrite length_app. lia.
      * rewrite list_lookup_insert_ne by (rewrite length_app; simpl; lia).
        by rewrite lookup_app_r, Nat.sub_diag.
    + intros k Hk. rewrite (get_falsy _ _ _ Ht).
      rewrite (get_lookup _ _ [(SStr "labels", VRef (length (h ++ [ODict []])))])
        by by rewrite list_lookup_insert_eq.
      simpl. rewrite decide_False; [done|congruence].
    + intros b Hb _. rewrite list_lookup_insert_ne by lia.
      by rewrite <- app_assoc, lookup_app_l.
    + apply (Hagain _ [(SStr "labels", VRef (length (h ++ [ODict []])))]).
      * by rewrite list_lookup_insert_eq.
      * done.
      * by eexists.
Qed.

(** ** The accounts of a run *)

Section Accounts.

Variable py_repr : heap → addr → string.

(** What a turn of the loop over the documents does to the run. *)
Lemma dispatch_cases a doc r out h r' out' h' :
  dispatch py_repr a doc (r, out) h = Ok ((r', out'), h') →
  (r' = r ∧ out' = out) ∨
  (r' = count_converted (count_DeploymentConfig r) ∧ ∃ d, out' = out ++ [d]) ∨
  (r' = count_converted (count_Route r) ∧ ∃ d, out' = out ++ [d]) ∨
  (∃ w, r' = warn w (count_BuildConfig r) ∧ out' = out) ∨
  (r' = count_Other r ∧ out' = out ++ [doc]).
Proof.
  unfold dispatch. intros H.
  mbind H as d h1 E. destruct d; simpl in H;
    [|unfold ret in H; injection H as <- <- <-; by left].
  mbind H as k h2 E2. destruct k; simpl in H;
    [|unfold ret in H; injection H as <- <- <-; by left].
  mbind H as kind h3 E3. repeat case_decide.
  - mbind H as dep h4 E4. unfold ret in H. injection H as <- <- <-.
    right. left. eauto.
  - mbind H as ing h4 E4. unfold ret in H. injection H as <- <- <-.
    do 2 right. left. eauto.
  - mbind H as e h4 E4. mbind H as md h5 E5. mbind H as n h6 E6.
    mbind H as n' h7 E7. unfold ret in H. injection H as <- <- <-.
    do 3 right. left. eauto.
  - mbind H as u h4 E4. unfold ret in H. injection H as <- <- <-.
    do 4 right. done.
Qed.

Lemma dispatch_all_counts a docs r out h r' out' h' :
  dispatch_all py_repr a docs (r, out) h = Ok ((r', out'), h') →
  written r' = written r ∧
  converted r' + n_DeploymentConfig (r_summary r) + n_Route (r_summary r)
  = converted r + n_DeploymentConfig (r_summary r') + n_Route (r_summary r') ∧
  length out' + n_DeploymentConfig (r_summary r) + n_Route (r_summary r)
    + n_Other (r_summary r)
  = length out + n_DeploymentConfig (r_summary r') + n_Route (r_summary r')
    + n_Other (r_summary r') ∧
  length (warnings r') + n_BuildConfig (r_summary r)
  = length (warnings r) + n_BuildConfig (r_summary r').
Proof.
  revert r out h. induction docs as [|doc docs IH]; intros r out h H;
    simpl in H.
  - unfold ret in H. by injection H as <- <- <-.
  - mbind H as st h1 E. destruct st as [r1 out1].
    apply IH in H as (Hw & Hc & Ho & Hwarn).
    apply dispatch_cases in E
      as [[-> ->]|[[-> [d ->]]|[[-> [d ->]]|[[w [-> ->]]|[-> ->]]]]];
      simpl in *; rewrite ?length_app in *; simpl in *;
      (split; [done|lia]).
Qed.

Lemma docs_written_write dest docs r :
  docs_written (write dest docs r) = docs_written r + length docs.
Proof.
  unfold docs_written, write. simpl. rewrite fmap_app, join_app, length_app.
  simpl. rewrite app_nil_r. done.
Qed.

Lemma process_entry_counts a e r h r' h' :
  process_entry py_repr a e r h = Ok (r', h') →
  converted r' + n_DeploymentConfig (r_summary r) + n_Route (r_summary r)
  = converted r + n_DeploymentConfig (r_summary r') + n_Route (r_summary r') ∧
  docs_written r' + n_DeploymentConfig (r_summary r) + n_Route (r_summary r)
    + n_Other (r_summary r)
  = docs_written r + n_DeploymentConfig (r_summary r')
    + n_Route (r_summary r') + n_Other (r_summary r') ∧
  length (warnings r') + n_BuildConfig (r_summary r)
  = length (warnings r) + n_BuildConfig (r_summary r')
    + (if parse_failed e then 1 else 0) ∧
  (Forall (λ w, w.2 ≠ []) (written r) → Forall (λ w, w.2 ≠ []) (written r')).
Proof.
  unfold process_entry, parse_failed. intros H.
  destruct (e_is_file e); simpl in *;
    [|unfold ret in H; injection H as <- <-; split_and!; [lia..|done]].
  destruct (is_yaml_file (e_path e)); simpl in *;
    [|unfold ret in H; injection H as <- <-; split_and!; [lia..|done]].
  destruct (e_load e) as [msg|docs].
  { unfold ret in H. injection H as <- <-. simpl. rewrite length_app. simpl.
    change (docs_written (warn _ r)) with (docs_written r).
    split_and!; [lia..|done]. }
  mbind H as st h1 E. destruct st as [r1 out].
  apply dispatch_all_counts in E as (Hw & Hc & Ho & Hwarn). simpl in Ho.
  destruct out as [|d ds].
  - unfold ret in H. injection H as <- <-. unfold docs_written.
    rewrite Hw. simpl in Ho. split_and!; [lia..|done].
  - mbind H as mf h2 E. unfold ret in H. injection H as <- <-.
    rewrite docs_written_write. simpl.
    assert (docs_written r1 = docs_written r) as ->.
    { unfold docs_written. by rewrite Hw. }
    simpl in Ho. split_and!; [lia..|].
    rewrite Hw. intros Hall. apply Forall_app. split; [done|].
    by repeat constructor.
Qed.

Lemma process_all_counts a es r h r' h' :
  process_all py_repr a es r h = Ok (r', h') →
  converted r' + n_DeploymentConfig (r_summary r) + n_Route (r_summary r)
  = converted r + n_DeploymentConfig (r_summary r') + n_Route (r_summary r') ∧
  docs_written r' + n_DeploymentConfig (r_summary r) + n_Route (r_summary r)
    + n_Other (r_summary r)
  = docs_written r + n_DeploymentConfig (r_summary r')
    + n_Route (r_summary r') + n_Other (r_summary r') ∧
  length (warnings r') + n_BuildConfig (r_summary r)
  = length (warnings r) + n_BuildConfig (r_summary r')
    + length (filter (λ e, parse_failed e = true) es) ∧
  (Forall (λ w, w.2 ≠ []) (written r) → Forall (λ w, w.2 ≠ []) (written r')).
Proof.
  revert r h. induction es as [|e es IH]; intros r h H; simpl in H.
  - unfold ret in H. injection H as <- <-. simpl. split_and!; [lia..|done].
  - mbind H as r1 h1 E.
    apply process_entry_counts in E as (Hc1 & Hd1 & Hw1 & Hn1).
    apply IH in H as (Hc2 & Hd2 & Hw2 & Hn2).
    rewrite filter_cons. destruct (parse_failed e); simpl;
      (split_and!; [lia..|auto]).
Qed.

(** X5. The accounts of a run that ends.  The total of converted
    resources is the number of DeploymentConfigs plus the number of
    Routes; the documents written, over all the files, are as many as the
    DeploymentConfigs, the Routes and the resources passed through; the
    warnings are as many as the BuildConfigs plus the YAML files that
    failed to parse; and no file is written without a document. *)
Theorem main_accounts (a : args) (tree : list entry) (h : heap) (r : run)
    (h' : heap) :
  main py_repr a tree h = Ok (r, h') →
  converted r
  = n_DeploymentConfig (r_summary r) + n_Route (r_summary r) ∧
  docs_written r
  = n_DeploymentConfig (r_summary r) + n_Route (r_summary r)
    + n_Other (r_summary r) ∧
  length (warnings r)
  = n_BuildConfig (r_summary r)
    + length (filter (λ e, parse_failed e = true) tree) ∧
  Forall (λ w, w.2 ≠ []) (written r).
Proof.
  unfold main. intros H.
  apply process_all_counts in H as (Hc & Hd & Hw & Hn).
  change (docs_written run0) with 0 in Hd. simpl in *.
  split_and!; [lia..|]. by apply Hn.
Qed.

End Accounts.

(** ** The kinds of the documents of a file *)

Lemma kinds_of_unhashable (out_docs : list val) (h : heap) :
  Forall (val_ok (length h)) out_docs →
  (∃ d kvs k, d ∈ out_docs ∧ dict_items h d = Some kvs ∧
              Dict.get (SStr "kind") kvs = Some (VRef k)) →
  kinds_of out_docs h = Raise TypeError.
Proof.
  intros Hall (d & kvs & k & Hd & Hi & Hk).
  induction Hall as [|doc r Hdoc Hr IH]; [by apply elem_of_nil in Hd|].
  simpl. destruct (dict_items h doc) as [kvs'|] eqn:Hi'.
  - rewrite (bind_eq _ _ _ true h) by (apply is_dict_eq; by eexists).
    rewrite (bind_eq _ _ _ (default VNone (get h doc "kind")) h)
      by (apply py_get_eq; by eexists).
    destruct (get h doc "kind") as [[s|b]|] eqn:Hg; simpl; [|done|].
    + apply elem_of_cons in Hd as [->|Hd].
      { unfold get in Hg. rewrite Hi in Hg. simpl in Hg. congruence. }
      unfold bind. by rewrite (IH Hd).
    + apply elem_of_cons in Hd as [->|Hd].
      { unfold get in Hg. rewrite Hi in Hg. simpl in Hg. congruence. }
      unfold bind. by rewrite (IH Hd).
  - assert (Hnd : is_dict doc h = Ok (false, h)).
    { destruct doc as [s|a]; simpl in *; [done|].
      destruct (lookup_lt_is_Some_2 h a Hdoc) as [o Ho].
      unfold bind, load. rewrite Ho in *. by destruct o. }
    rewrite (bind_eq _ _ _ _ _ Hnd).
    apply elem_of_cons in Hd as [->|Hd]; [congruence|]. by apply IH.
Qed.

(** X6. A kind that cannot be hashed.  When one of the documents put out
    for a file is a map whose [kind] is a list or a map, collecting the
    kinds raises [TypeError] and [map_output_filename] returns no name,
    whatever the name of the file and the other documents are. *)
Theorem map_output_filename_unhashable_kind (source_path : path)
    (out_docs : list val) (h : heap) :
  Forall (val_ok (length h)) out_docs →
  (∃ d kvs k, d ∈ out_docs ∧ dict_items h d = Some kvs ∧
              Dict.get (SStr "kind") kvs = Some (VRef k)) →
  map_output_filename source_path out_docs h = Raise TypeError.
Proof.
  intros Hall Hbad. unfold map_output_filename, bind.
  by rewrite (kinds_of_unhashable _ _ Hall Hbad).
Qed.

(** ** The Ingress converter *)

Lemma same_items_rn m (kvs : list (scalar * val)) :
  same_items kvs (prod_map id (rn m) <$> kvs).
Proof.
  induction kvs as [|[k v] kvs IH]; csimpl; constructor; [|done].
  split; [done|]. simpl. destruct v as [s|a]; simpl; [done|].
  destruct (m !! a); eauto.
Qed.

Section MoreIngress.

Variable py_repr : heap → addr → string.

(** The values [to_ingress] takes from the source. *)
Lemma route_parts_values route dd h meta spec name host svc tp h' :
  wf h → val_ok (length h) route →
  route_parts py_repr route dd h = Ok ((meta, spec, name, host, svc, tp), h') →
  wf h' ∧ val_ok (length h') spec ∧ val_ok (length h') meta ∧
  truthy h' (rd h' spec "tls") = truthy h (route_tls h route) ∧
  (∀ s, route_name h route = VS s → name = VS s) ∧
  (truthy h (route_host h route) = false →
   ∀ s, route_name h route = VS s →
        host = VStr (format_scalar s +:+ "." +:+ dd)) ∧
  (truthy h (route_host h route) = true →
   ∀ s, route_host h route = VS s → host = VS s) ∧
  (∀ s, route_service h route = VS s → svc = VS s) ∧
  (∀ s, route_port h route = VS s → tp = VS s) ∧
  truthy h' (rd h' meta "labels") = truthy h (route_labels h route) ∧
  (∀ kvs, dict_items h (route_labels h route) = Some kvs →
     ∃ kvs', dict_items h' (rd h' meta "labels") = Some kvs' ∧
             same_items kvs kvs') ∧
  (dict_items h (route_labels h route) = None →
   dict_items h' (rd h' meta "labels") = None).
Proof.
  intros Hwf Hr H. unfold route_parts in H.
  mbind H as d0 h1 E. apply new_dict_Ok in E as [-> ->].
  mbind H as m0 h1 E.
  apply py_get_fresh_default in E as (-> & Hm0ok & Hm0get & _); [|done..].
  pose proof (wf_app_empty_dict h Hwf) as Hwf1.
  mbind H as meta0 h2 E. apply deepcopy_Ok in E as [mm Hc1]; [|done..].
  destruct (wf_copy _ _ _ _ _ Hwf1 Hc1) as [Hwf2 Hmetaok].
  pose proof (copy_of_mirrored _ _ _ _ _ Hc1) as Hmir1.
  pose proof (copy_of_prefix _ _ _ _ _ Hc1) as Hp12.
  pose proof (copy_of_range _ _ _ _ _ Hc1) as Hrange1.
  destruct Hc1 as (_ & Hcov1 & -> & _).
  assert (Hp01 : h `prefix_of` h ++ [ODict []]) by by apply prefix_app_r.
  assert (Hp2 : h `prefix_of` h2) by by etrans.
  mbind H as d1 h3 E. apply new_dict_Ok in E as [-> ->].
  mbind H as s0 h3 E.
  apply py_get_fresh_default in E as (-> & Hs0ok & Hs0get & _);
    [|done|by eapply val_ok_prefix].
  pose proof (wf_app_empty_dict h2 Hwf2) as Hwf3.
  mbind H as s1 h4 E.
  apply py_or_new_dict_Ok in E as (Hp34 & Hwf4 & Hs1ok & Hs1get); [|done..].
  mbind H as spec0 h5 E. apply deepcopy_Ok in E as [ms Hc2]; [|done..].
  destruct (wf_copy _ _ _ _ _ Hwf4 Hc2) as [Hwf5 Hspecok].
  pose proof (copy_of_mirrored _ _ _ _ _ Hc2) as Hmir2.
  pose proof (copy_of_prefix _ _ _ _ _ Hc2) as Hp45.
  pose proof (copy_of_range _ _ _ _ _ Hc2) as Hrange2.
  destruct Hc2 as (_ & Hcov2 & -> & _).
  assert (Hp4 : h `prefix_of` h4).
  { etrans; [exact Hp2|]. etrans; [|exact Hp34]. by apply prefix_app_r. }
  assert (Hp25 : h2 `prefix_of` h5).
  { etrans; [|exact Hp45]. etrans; [|exact Hp34]. by apply prefix_app_r. }
  (* what the copy of the spec holds, in terms of the source *)
  assert (Hsrc : ∀ k, get h4 s1 k = get h (rd h route "spec") k).
  { intros k. rewrite Hs1get, Hs0get.
    rewrite (rd_ok_prefix h h2) by done.
    apply get_ok_prefix; [done|]. by apply wf_rd. }
  assert (Hrd4 : ∀ k, rd h4 s1 k = rd h (rd h route "spec") k).
  { intros k. unfold rd. by rewrite Hsrc. }
  assert (Hspec : ∀ k, rd h5 (rn ms s1) k = rn ms (rd h (rd h route "spec") k)
                       ∧ covered ms (rd h (rd h route "spec") k)
                       ∧ truthy h5 (rd h5 (rn ms s1) k)
                         = truthy h (rd h (rd h route "spec") k)).
  { intros k. destruct (mirrored_rd _ _ _ _ k Hmir2 Hcov2) as [Hrd Hc].
    rewrite Hrd4 in Hrd, Hc. split_and!; [done..|].
    rewrite Hrd, (mirrored_truthy _ _ _ _ Hmir2 Hc).
    apply truthy_ok_prefix; [done|]. by apply wf_rd. }
  assert (Hlm : lmirror ms h4 h5).
  { eapply wf_lmirror_of_mirrored; [exact Hmir2|apply lext_refl|].
    intros a a' Ha. by destruct (Hrange2 _ _ Ha). }
  assert (Hrlt : ∀ (hx : heap), h5 `prefix_of` hx →
            ∀ a a' : addr, ms !! a = Some a' → a' < length hx).
  { intros hx Hx a a' Ha. destruct (Hrange2 _ _ Ha).
    pose proof (prefix_length _ _ Hx). lia. }
  (* a value read under a key of a part of the spec *)
  assert (Hsub : ∀ (hx : heap) k1 k2 x,
    h5 `prefix_of` hx →
    copy_or_fresh ms h4 hx (length h4) (rd h (rd h route "spec") k1) x →
    k2 ≠ "labels" →
    let v := rd h (rd h (rd h route "spec") k1) k2 in
    rd hx x k2 = rn ms v ∧ covered ms v ∧ truthy hx (rd hx x k2) = truthy h v).
  { intros hx k1 k2 x Hx Hcf Hk2. cbv zeta.
    set (src := rd h (rd h route "spec") k1) in *.
    assert (Hlmx : lmirror ms h4 hx).
    { eapply lmirror_prefix; [exact Hlm|done|by apply Hrlt]. }
    destruct (copy_or_fresh_get _ _ _ _ _ _ k2 Hlmx Hcf Hk2) as [Hg Hcov].
    assert (Hg4 : get h4 src k2 = get h src k2).
    { apply get_ok_prefix; [done|]. by apply wf_rd. }
    rewrite Hg4 in Hg, Hcov.
    assert (Hrdx : rd hx x k2 = rn ms (rd h src k2)).
    { unfold rd. rewrite Hg. by destruct (get h src k2). }
    assert (Hcx : covered ms (rd h src k2)).
    { unfold rd. destruct (get h src k2) eqn:Hv; simpl; [|done].
      by apply Hcov. }
    split_and!; [done..|]. rewrite Hrdx.
    destruct (Hlmx _ Hcx) as (-> & _).
    apply truthy_ok_prefix; [done|]. by apply wf_rd. }
  (* the name *)
  mbind H as name0 h6 E. apply py_get_Ok_get in E as [-> ->].
  assert (Hname : ∀ s, route_name h route = VS s →
                       default (VStr "web") (get h5 (rn mm m0) "name") = VS s).
  { intros s. unfold route_name.
    rewrite (get_ok_prefix h2 h5) by done.
    destruct (mirrored_get _ _ _ _ "name" Hmir1 Hcov1) as [-> _].
    rewrite Hm0get. by destruct (get h (rd h route "metadata") "name") as [[?|?]|]. }
  (* the host *)
  mbind H as h0 h6 E. apply py_get_Ok_get in E as [-> ->].
  change (default VNone (get h5 (rn ms s1) "host"))
    with (rd h5 (rn ms s1) "host") in H.
  destruct (Hspec "host") as (Hhost_rd & Hhost_cov & Hhost_t).
  mbind H as host0 h6 E.
  assert (Hhost :
    h6 = h5 ∧
    (truthy h (route_host h route) = false →
     ∀ s, route_name h route = VS s →
          host0 = VStr (format_scalar s +:+ "." +:+ dd)) ∧
    (truthy h (route_host h route) = true →
     ∀ s, route_host h route = VS s → host0 = VS s)).
  { unfold route_host. rewrite <- Hhost_t.
    apply py_or_Ok in E as [(Ht & -> & ->)|[Ht E]]; rewrite Ht.
    - split_and!; [done..|]. intros _ s Hs. rewrite Hhost_rd, Hs. done.
    - mbind E as n h7 E1. apply py_format_Ok in E1 as [-> Hn].
      unfold ret in E. injection E as <- <-.
      split_and!; [done| |done]. intros _ s Hs.
      by rewrite (Hn s (Hname s Hs)). }
  destruct Hhost as (-> & Hhost1 & Hhost2). clear E.
  (* the service *)
  mbind H as to0 h6 E. apply py_get_Ok_get in E as [-> ->].
  change (default VNone (get h5 (rn ms s1) "to"))
    with (rd h5 (rn ms s1) "to") in H.
  destruct (Hspec "to") as (Hto_rd & Hto_cov & _).
  mbind H as to_ref h6 E.
  pose proof (py_or_new_dict_Ok _ _ _ _ Hwf5 (wf_rd _ _ _ Hwf5) E)
    as (_ & Hwf6 & _ & _).
  apply (copy_or_fresh_or ms h4 h5 (rd h (rd h route "spec") "to")) in E
    as (Hp56 & Hlen56 & Hto); [|done|by left].
  assert (Hto' : copy_or_fresh ms h4 h6 (length h4)
                   (rd h (rd h route "spec") "to") to_ref).
  { destruct Hto as [?|(? & a & ? & ? & ?)]; [by left|right].
    split; [done|]. exists a. split_and!; [done| |done].
    pose proof (prefix_length _ _ Hp45). lia. }
  destruct (Hsub h6 "to" "name" to_ref Hp56 Hto' ltac:(done))
    as (Hsn_rd & Hsn_cov & Hsn_t).
  mbind H as sn0 h7 E. apply py_get_Ok_get in E as [-> ->].
  change (default VNone (get h6 to_ref "name")) with (rd h6 to_ref "name") in H.
  mbind H as svc0 h7 E.
  assert (Hsvc : h7 = h6 ∧
            ∀ s, route_service h route = VS s → svc0 = VS s).
  { unfold route_service. rewrite <- Hsn_t.
    apply py_or_Ok in E as [(Ht & -> & ->)|[Ht E]]; rewrite Ht.
    - split; [done|]. intros s Hs. by rewrite Hsn_rd, Hs.
    - unfold ret in E. injection E as <- <-. split; [done|].
      intros s Hs. by apply Hname. }
  destruct Hsvc as [-> Hsvc]. clear E.
  (* the port *)
  mbind H as p0 h7 E. apply py_get_Ok_get in E as [-> ->].
  assert (Hp0 : default VNone (get h6 (rn ms s1) "port")
                = rd h5 (rn ms s1) "port").
  { unfold rd. f_equal. apply get_ok_prefix; [done|done]. }
  rewrite Hp0 in H.
  destruct (Hspec "port") as (Hport_rd & Hport_cov & _).
  mbind H as p1 h7 E.
  assert (Hlm6 : lmirror ms h4 h6).
  { eapply lmirror_prefix; [exact Hlm|done|by apply Hrlt]. }
  assert (Hp0ok : val_ok (length h6) (rd h5 (rn ms s1) "port")).
  { eapply val_ok_prefix; [exact Hp56|]. by apply wf_rd. }
  pose proof (py_or_new_dict_Ok _ _ _ _ Hwf6 Hp0ok E) as (_ & Hwf7 & _ & _).
  apply (copy_or_fresh_or ms h4 h6 (rd h (rd h route "spec") "port")) in E
    as (Hp67 & Hlen67 & Hport); [|done|by left].
  assert (Hp57 : h5 `prefix_of` h7) by by etrans.
  assert (Hport' : copy_or_fresh ms h4 h7 (length h4)
                     (rd h (rd h route "spec") "port") p1).
  { destruct Hport as [?|(? & a & ? & ? & ?)]; [by left|right].
    split; [done|]. exists a. split_and!; [done| |done].
    pose proof (prefix_length _ _ Hp45). pose proof (prefix_length _ _ Hp56).
    lia. }
  destruct (Hsub h7 "port" "targetPort" p1 Hp57 Hport' ltac:(done))
    as (Htp_rd & Htp_cov & Htp_t).
  mbind H as tp0 h8 E. apply py_get_Ok_get in E as [-> ->].
  change (default VNone (get h7 p1 "targetPort"))
    with (rd h7 p1 "targetPort") in H.
  mbind H as tp1 h8 E.
  assert (Htp : h8 = h7 ∧ ∀ s, route_port h route = VS s → tp1 = VS s).
  { unfold route_port. rewrite <- Htp_t.
    apply py_or_Ok in E as [(Ht & -> & ->)|[Ht E]]; rewrite Ht.
    - split; [done|]. intros s Hs. by rewrite Htp_rd, Hs.
    - unfold ret in E. injection E as <- <-. split; [done|].
      by intros s [= <-]. }
  destruct Htp as [-> Htp]. clear E.
  unfold ret in H. injection H as <- <- <- <- <- <- <-.
  (* the labels *)
  assert (Hp27 : h2 `prefix_of` h7) by by etrans.
  assert (HL : rd h7 (rn mm m0) "labels" = rn mm (route_labels h route)
               ∧ covered mm (route_labels h route)).
  { rewrite (rd_ok_prefix h2 h7) by done.
    destruct (mirrored_rd _ _ _ _ "labels" Hmir1 Hcov1) as [-> Hc].
    assert (rd (h ++ [ODict []]) m0 "labels" = route_labels h route) as Heq.
    { unfold route_labels, rd at 1 2. by rewrite Hm0get. }
    by rewrite Heq in *. }
  destruct HL as [HL HLcov].
  assert (HLok : val_ok (length h) (route_labels h route)) by by apply wf_rd.
  assert (HLok2 : val_ok (length h2) (rn mm (route_labels h route))).
  { apply rn_val_ok; [|done]. intros a a' Ha. by destruct (Hrange1 _ _ Ha). }
  assert (HLitems : dict_items h7 (rn mm (route_labels h route))
            = (λ kvs : list (scalar * val), prod_map id (rn mm) <$> kvs)
                <$> dict_items h (route_labels h route)).
  { rewrite (dict_items_ok_prefix h2 h7) by done.
    rewrite (mirrored_dict_items _ _ _ _ Hmir1 HLcov).
    by rewrite (dict_items_ok_prefix h (h ++ [ODict []])). }
  split_and!.
  - done.
  - eapply val_ok_prefix; [exact Hp57|exact Hspecok].
  - eapply val_ok_prefix; [exact Hp27|exact Hmetaok].
  - rewrite (rd_ok_prefix h5 h7) by done.
    rewrite (truthy_ok_prefix h5 h7); [|done|by apply wf_rd].
    by destruct (Hspec "tls") as (_ & _ & ->).
  - done.
  - done.
  - done.
  - done.
  - done.
  - rewrite HL, (truthy_ok_prefix h2 h7) by done.
    rewrite (mirrored_truthy _ _ _ _ Hmir1 HLcov).
    by apply truthy_ok_prefix.
  - intros kvs Hk. rewrite HL, HLitems, Hk. simpl. eexists. split; [done|].
    apply same_items_rn.
  - intros Hk. by rewrite HL, HLitems, Hk.
Qed.

(** The objects [ingress_display] makes, in the order it makes them. *)
Lemma ingress_display_objects meta name host svc tp ic h ing h1 :
  ingress_display meta name host svc tp ic h = Ok (ing, h1) →
  ∃ hb items port,
    h `prefix_of` hb ∧
    (if truthy h (rd h meta "labels")
     then dict_items h (rd h meta "labels") = Some items
     else items = []) ∧
    match tp with
    | VS (SStr n) => port = [(SStr "name", tp)]
    | VS (SInt z) => port = [(SStr "number", VInt z)]
    | VS (SBool b) => port = [(SStr "number", VInt (if b then 1 else 0))]
    | _ => False
    end ∧
    ing = VRef (length hb + 12) ∧
    h1 = hb ++
      [ODict items;
       ODict [(SStr "kubernetes.io/ingress.class", VStr ic)];
       ODict [(SStr "name", name); (SStr "labels", VRef (length hb));
              (SStr "annotations", VRef (length hb + 1))];
       ODict port;
       ODict [(SStr "name", svc); (SStr "port", VRef (length hb + 3))];
       ODict [(SStr "service", VRef (length hb + 4))];
       ODict [(SStr "path", VStr "/"); (SStr "pathType", VStr "Prefix");
              (SStr "backend", VRef (length hb + 5))];
       OList [VRef (length hb + 6)];
       ODict [(SStr "paths", VRef (length hb + 7))];
       ODict [(SStr "host", host); (SStr "http", VRef (length hb + 8))];
       OList [VRef (length hb + 9)];
       ODict [(SStr "rules", VRef (length hb + 10))];
       ODict [(SStr "apiVersion", VStr "networking.k8s.io/v1");
              (SStr "kind", VStr "Ingress");
              (SStr "metadata", VRef (length hb + 2));
              (SStr "spec", VRef (length hb + 11))]].
Proof.
  unfold ingress_display. intros H.
  mbind H as l0 h2 E. apply py_get_Ok_get in E as [-> ->].
  change (default VNone (get h meta "labels")) with (rd h meta "labels") in H.
  mbind H as l1 hb E.
  mbind H as items h3 E0. apply py_items_Ok in E0 as [Hitems ->].
  assert (Hl1 : h `prefix_of` hb ∧
    if truthy h (rd h meta "labels")
    then dict_items h (rd h meta "labels") = Some items
    else items = []).
  { apply py_or_Ok in E as [(Ht & -> & ->)|[Ht E]]; rewrite Ht.
    - done.
    - apply new_dict_nil_Ok in E as [-> ->].
      split; [by apply prefix_app_r|]. simpl in Hitems.
      rewrite lookup_app_r, Nat.sub_diag in Hitems by done.
      simpl in Hitems. by injection Hitems as <-. }
  destruct Hl1 as [Hp Hit]. clear E Hitems.
  mbind H as labels h3 E0. apply alloc_Ok in E0 as [-> ->].
  mbind H as anns h3 E0. apply new_dict_Ok in E0 as [-> ->].
  mbind H as md h3 E0. apply new_dict_Ok in E0 as [-> ->].
  mbind H as port h3 E0.
  set (h3' := ((hb ++ _) ++ _) ++ _) in *.
  assert (Hport : ∃ pitems, port = VRef (length h3') ∧
    h3 = h3' ++ [ODict pitems] ∧
    match tp with
    | VS (SStr n) => pitems = [(SStr "name", tp)]
    | VS (SInt z) => pitems = [(SStr "number", VInt z)]
    | VS (SBool b) => pitems = [(SStr "number", VInt (if b then 1 else 0))]
    | _ => False
    end).
  { destruct tp as [[|b|z|n]|a]; simpl in E0; unfold bind, raise in E0;
      simpl in E0; try done;
      apply new_dict_Ok in E0 as [-> ->]; eexists; done. }
  destruct Hport as (pitems & -> & -> & Hport). clear E0.
  mbind H as service h4 E0. apply new_dict_Ok in E0 as [-> ->].
  mbind H as backend h4 E0. apply new_dict_Ok in E0 as [-> ->].
  mbind H as path0 h4 E0. apply new_dict_Ok in E0 as [-> ->].
  mbind H as paths h4 E0. apply new_list_Ok in E0 as [-> ->].
  mbind H as http h4 E0. apply new_dict_Ok in E0 as [-> ->].
  mbind H as rule h4 E0. apply new_dict_Ok in E0 as [-> ->].
  mbind H as rules h4 E0. apply new_list_Ok in E0 as [-> ->].
  mbind H as ispec h4 E0. apply new_dict_Ok in E0 as [-> ->].
  apply new_dict_Ok in H as [-> ->].
  exists hb, items, pitems. split_and!; [done..| |].
  - unfold h3'. rewrite !length_app. simpl. f_equal. lia.
  - unfold h3'. rewrite <- !app_assoc. simpl. rewrite !length_app. simpl.
    reflexivity.
Qed.

(** The store after [to_ingress]: the objects of the Ingress, but for
    the TLS section. *)
Lemma to_ingress_store route dd ic tls h ing h' :
  wf h → val_ok (length h) route →
  to_ingress py_repr route dd ic tls h = Ok (ing, h') →
  ∃ n name host svc items port,
    length h ≤ n ∧
    (∀ s, route_name h route = VS s → name = VS s) ∧
    (truthy h (route_host h route) = false →
     ∀ s, route_name h route = VS s →
          host = VStr (format_scalar s +:+ "." +:+ dd)) ∧
    (truthy h (route_host h route) = true →
     ∀ s, route_host h route = VS s → host = VS s) ∧
    (∀ s, route_service h route = VS s → svc = VS s) ∧
    (∀ s, route_port h route = VS s →
          port = prod_map id VS <$> match s with
                                     | SStr x => [(SStr "name", SStr x)]
                                     | SInt z => [(SStr "number", SInt z)]
                                     | SBool b =>
                                         [(SStr "number",
                                           SInt (if b then 1 else 0))]
                                     | SNone => []
                                     end) ∧
    (if truthy h (route_labels h route)
     then ∃ kvs, dict_items h (route_labels h route) = Some kvs ∧
                 same_items kvs items
     else items = []) ∧
    ing = VRef (n + 12) ∧
    h' !! n = Some (ODict items) ∧
    h' !! (n + 1)
    = Some (ODict [(SStr "kubernetes.io/ingress.class", VStr ic)]) ∧
    h' !! (n + 2)
    = Some (ODict [(SStr "name", name); (SStr "labels", VRef n);
                   (SStr "annotations", VRef (n + 1))]) ∧
    h' !! (n + 3) = Some (ODict port) ∧
    h' !! (n + 4)
    = Some (ODict [(SStr "name", svc); (SStr "port", VRef (n + 3))]) ∧
    h' !! (n + 5) = Some (ODict [(SStr "service", VRef (n + 4))]) ∧
    h' !! (n + 6)
    = Some (ODict [(SStr "path", VStr "/"); (SStr "pathType", VStr "Prefix");
                   (SStr "backend", VRef (n + 5))]) ∧
    h' !! (n + 7) = Some (OList [VRef (n + 6)]) ∧
    h' !! (n + 8) = Some (ODict [(SStr "paths", VRef (n + 7))]) ∧
    h' !! (n + 9)
    = Some (ODict [(SStr "host", host); (SStr "http", VRef (n + 8))]) ∧
    h' !! (n + 10) = Some (OList [VRef (n + 9)]) ∧
    (∃ kvs, h' !! (n + 11) = Some (ODict kvs) ∧
            Dict.get (SStr "rules") kvs = Some (VRef (n + 10))) ∧
    h' !! (n + 12)
    = Some (ODict [(SStr "apiVersion", VStr "networking.k8s.io/v1");
                   (SStr "kind", VStr "Ingress");
                   (SStr "metadata", VRef (n + 2));
                   (SStr "spec", VRef (n + 11))]).
Proof.
  intros Hwf Hr H. unfold to_ingress in H.
  mbind H as parts h1 E. destruct parts as [[[[[meta spec] name] host] svc] tp].
  assert (Hlen01 : length h ≤ length h1).
  { pose proof (sound_route_parts py_repr (length h) route dd Hr h Hwf (le_n _))
      as Hs.
    rewrite E in Hs. by destruct Hs as (_ & ? & _). }
  apply route_parts_values in E
    as (Hwf1 & Hspec & Hmeta & Htls & Hname & Hhost1 & Hhost2 & Hsvc & Htp &
        Hlt & Hlsome & Hlnone); [|done..].
  mbind H as ing0 h2 E.
  apply ingress_display_objects in E
    as (hb & items & port & Hp & Hit & Hport & -> & ->).
  mbind H as u h3 E. apply ret_Ok in H as [-> ->].
  pose proof (prefix_length _ _ Hp) as Hlenb.
  set (l9 := [ODict items;
       ODict [(SStr "kubernetes.io/ingress.class", VStr ic)];
       ODict [(SStr "name", name); (SStr "labels", VRef (length hb));
              (SStr "annotations", VRef (length hb + 1))];
       ODict port;
       ODict [(SStr "name", svc); (SStr "port", VRef (length hb + 3))];
       ODict [(SStr "service", VRef (length hb + 4))];
       ODict [(SStr "path", VStr "/"); (SStr "pathType", VStr "Prefix");
              (SStr "backend", VRef (length hb + 5))];
       OList [VRef (length hb + 6)];
       ODict [(SStr "paths", VRef (length hb + 7))]]).
  set (o9 := ODict [(SStr "host", host); (SStr "http", VRef (length hb + 8))]).
  set (o10 := OList [VRef (length hb + 9)]).
  set (kvs4 := [(SStr "apiVersion", VStr "networking.k8s.io/v1");
              (SStr "kind", VStr "Ingress");
              (SStr "metadata", VRef (length hb + 2));
              (SStr "spec", VRef (length hb + 11))]).
  assert (Hlen9 : length (hb ++ l9) = length hb + 9)
    by (rewrite length_app; reflexivity).
  assert (Hp9 : h1 `prefix_of` hb ++ l9)
    by (etrans; [exact Hp|by apply prefix_app_r]).
  assert (Hst : ∃ rest kvs, h3 = (hb ++ l9) ++ [o9; o10; ODict kvs; ODict kvs4] ++ rest
                 ∧ Dict.get (SStr "rules") kvs = Some (VRef (length hb + 10))).
  { replace (hb ++ _) with
      ((hb ++ l9) ++ [o9; o10; ODict [(SStr "rules", VRef (length hb + 10))];
                      ODict kvs4]) in E
      by (rewrite <- app_assoc; reflexivity).
    replace (length hb + 12) with (length (hb ++ l9) + 3) in E by lia.
    apply set_tls_Ok in E as (nm & _ & ->).
    - destruct (Str.nonempty tls);
        [|destruct (truthy (hb ++ l9) (rd (hb ++ l9) spec "tls"))];
        eexists _, _; (split; [reflexivity|reflexivity]).
    - rewrite (rd_ok_prefix h1 (hb ++ l9)) by done.
      eapply val_ok_prefix; [exact Hp9|by apply wf_rd].
    - eapply val_ok_prefix; [exact Hp9|exact Hspec].
    - simpl. do 2 f_equal. lia. }
  destruct Hst as (rest & kvs & -> & Hrules).
  assert (Hlk : ∀ k o,
    (l9 ++ [o9; o10; ODict kvs; ODict kvs4]) !! k = Some o →
    (((hb ++ l9) ++ [o9; o10; ODict kvs; ODict kvs4] ++ rest) : heap)
      !! (length hb + k) = Some o).
  { intros k o Hk. rewrite (app_assoc _ _ rest), <- (app_assoc hb).
    rewrite lookup_app_l.
    - rewrite lookup_app_r by lia.
      by replace (length hb + k - length hb) with k by lia.
    - apply lookup_lt_Some in Hk. rewrite length_app.
      rewrite length_app in Hk |- *. simpl in Hk |- *. lia. }
  exists (length hb), name, host, svc, items, port.
  split; [lia|]. do 4 (split; [done|]).
  split.
  { intros s Hs. specialize (Htp s Hs). subst tp.
    by destruct s as [| | |]. }
  split.
  { rewrite <- Hlt. destruct (truthy h1 (rd h1 meta "labels")) eqn:Ht; [|done].
    destruct (dict_items h (route_labels h route)) as [src|] eqn:Hsrc.
    - destruct (Hlsome src eq_refl) as (kvs' & Hk' & Hsame).
      rewrite Hit in Hk'. injection Hk' as ->. by exists src.
    - rewrite (Hlnone eq_refl) in Hit. done. }
  split; [done|].
  rewrite <- (Nat.add_0_r (length hb)) at 1.
  split_and!; try (by apply Hlk).
  exists kvs. split; [by apply Hlk|done].
Qed.

(** X7. The head of the Ingress made from a Route: it is a
    [networking.k8s.io/v1] [Ingress] whose metadata has exactly the keys
    [name], [labels] and [annotations]; the name is that of the Route; the
    annotations are the single ingress class annotation, so those of the
    Route are dropped; and the labels are a new dict with the keys of the
    labels of the Route, in order, with their scalar values (empty when the
    Route has no labels). *)
Theorem to_ingress_metadata (route : val)
    (default_domain ingress_class tls_secret : string)
    (h : heap) (ingress : val) (h' : heap) :
  wf h → val_ok (length h) route →
  to_ingress py_repr route default_domain ingress_class tls_secret h
  = Ok (ingress, h') →
  get h' ingress "apiVersion" = Some (VStr "networking.k8s.io/v1") ∧
  get h' ingress "kind" = Some (VStr "Ingress") ∧
  ∃ md name lb an items,
    get h' ingress "metadata" = Some md ∧
    dict_items h' md
    = Some [(SStr "name", name); (SStr "labels", VRef lb);
            (SStr "annotations", an)] ∧
    (∀ s, route_name h route = VS s → name = VS s) ∧
    dict_items h' an
    = Some [(SStr "kubernetes.io/ingress.class", VStr ingress_class)] ∧
    length h ≤ lb ∧ h' !! lb = Some (ODict items) ∧
    if truthy h (route_labels h route)
    then ∃ kvs, dict_items h (route_labels h route) = Some kvs ∧
                same_items kvs items
    else items = [].
Proof.
  intros Hwf Hr H.
  destruct (to_ingress_store _ _ _ _ _ _ _ Hwf Hr H)
    as (n & name & host & svc & items & port & Hn & Hname & _ & _ & _ & _ &
        Hitems & -> & H0 & H1 & H2 & _ & _ & _ & _ & _ & _ & _ & _ & _ & H12).
  rewrite !(get_lookup _ _ _ _ H12).
  split; [done|]. split; [done|].
  exists (VRef (n + 2)), name, n, (VRef (n + 1)), items.
  simpl. rewrite H2, H1. done.
Qed.

(** X8. The rule of the Ingress made from a Route: [spec.rules] is one
    rule for the host of the Route (or [<name>.<default domain>] when the
    Route has none), with the single path [/] of type [Prefix], whose
    backend is the service the Route points to (the name of the Route when
    it names none) at the target port of the Route (80 when it has none): a
    port given by name goes under [name], a number under [number]. *)
Theorem to_ingress_rule (route : val)
    (default_domain ingress_class tls_secret : string)
    (h : heap) (ingress : val) (h' : heap) (hs ss ps : scalar) :
  wf h → val_ok (length h) route →
  to_ingress py_repr route default_domain ingress_class tls_secret h
  = Ok (ingress, h') →
  (if truthy h (route_host h route) then route_host h route = VS hs
   else ∃ n, route_name h route = VS n ∧
             hs = SStr (format_scalar n +:+ "." +:+ default_domain)) →
  route_service h route = VS ss → route_port h route = VS ps →
  ∃ rules,
    at_path h' ingress ["spec"; "rules"] = Some rules ∧
    content 8 h' rules
    = TL [TD [(SStr "host", TS hs);
              (SStr "http",
               TD [(SStr "paths",
                    TL [TD [(SStr "path", TS (SStr "/"));
                            (SStr "pathType", TS (SStr "Prefix"));
                            (SStr "backend",
                             TD [(SStr "service",
                                  TD [(SStr "name", TS ss);
                                      (SStr "port",
                                       TD (backend_port ps))])])]])])]].
Proof.
  intros Hwf Hr H Hhs Hss Hps.
  destruct (to_ingress_store _ _ _ _ _ _ _ Hwf Hr H)
    as (n & name & host & svc & items & port & Hn & Hname & Hh1 & Hh2 & Hsvc &
        Hport & _ & -> & _ & _ & _ & H3 & H4 & H5 & H6 & H7 & H8 & H9 & H10 &
        (kvs & H11 & Hrules) & H12).
  assert (Hhost : host = VS hs).
  { destruct (truthy h (route_host h route)) eqn:Ht.
    - by apply Hh2.
    - destruct Hhs as (nm & Hnm & ->). by apply Hh1. }
  rewrite (Hsvc _ Hss) in H4. rewrite (Hport _ Hps) in H3. subst host.
  exists (VRef (n + 10)). split.
  - simpl. rewrite (get_lookup _ _ _ _ H12). simpl.
    rewrite (get_lookup _ _ _ _ H11). by rewrite Hrules.
  - simpl. rewrite H10. simpl. rewrite H9. simpl. rewrite H8. simpl.
    rewrite H7. simpl. rewrite H6. simpl. rewrite H5. simpl. rewrite H4.
    simpl. rewrite H3. by destruct ps.
Qed.

End MoreIngress.

(** ** The converters work on copies

    The converters copy what they read of their argument before they
    change anything, and build their result from the copies and from new
    objects. *)

Lemma in_region_mono lo n m v : n ≤ m → in_region lo n v → in_region lo m v.
Proof. intros Hn. destruct v as [s|a]; simpl; [done|lia]. Qed.

Lemma in_region_val_ok lo n v : in_region lo n v → val_ok n v.
Proof. destruct v as [s|a]; simpl; [done|lia]. Qed.

Lemma within_obj_ok lo n (o : obj) : within lo n o → obj_ok n o.
Proof.
  intros Ho. unfold obj_ok. eapply Forall_impl; [exact Ho|].
  intros v. apply in_region_val_ok.
Qed.

Lemma closed_region_mono lo hi hi' (h : heap) :
  hi ≤ hi' → hi' ≤ length h →
  closed_region lo hi h →
  (∀ a o, hi ≤ a < hi' → h !! a = Some o →
          Forall (in_region lo hi') (obj_vals o)) →
  closed_region lo hi' h.
Proof.
  intros Hhi Hlen Hcl Hnew a o Ha Ho.
  destruct (decide (a < hi)) as [Hlt|Hge].
  - eapply Forall_impl; [apply (Hcl a o); [lia|done]|].
    intros v. apply in_region_mono. lia.
  - apply (Hnew a o); [lia|done].
Qed.

Lemma tidy_ret `{Within A} lo n (x : A) : within lo n x → tidy lo n (ret x).
Proof.
  intros Hx h Hwf Hn Hlo Hcl. simpl. split_and!; [done..|].
  eapply within_mono; [|exact Hx]. done.
Qed.

Lemma tidy_raise `{Within A} lo n e : tidy (A:=A) lo n (raise e).
Proof. by intros h. Qed.

Lemma tidy_bind `{Within A, Within B} lo n (c : M A) (k : A → M B) :
  tidy lo n c → (∀ m x, n ≤ m → within lo m x → tidy lo m (k x)) →
  tidy lo n (bind c k).
Proof.
  intros Hc Hk h Hwf Hn Hlo Hcl. unfold bind.
  specialize (Hc h Hwf Hn Hlo Hcl).
  destruct (c h) as [[x h1]|e]; [|done].
  destruct Hc as (Hwf1 & Hlen & Hfr & Hcl1 & Hx).
  assert (Hm : n ≤ length h1) by lia.
  assert (Hlo1 : lo ≤ length h1) by lia.
  specialize (Hk (length h1) x Hm Hx h1 Hwf1 (le_n _) Hlo1 Hcl1).
  destruct (k x h1) as [[y h2]|e]; [|done].
  destruct Hk as (? & ? & Hfr2 & ? & ?). split_and!; [done|lia| |done|done].
  intros a Ha. rewrite Hfr2 by done. by apply Hfr.
Qed.

Lemma tidy_alloc lo n o : within lo n o → tidy lo n (alloc o).
Proof.
  intros Ho h Hwf Hn Hlo Hcl. simpl. rewrite length_app. simpl.
  split; [|split; [|split; [|split]]].
  - apply wf_app; [done|]. repeat constructor.
    eapply obj_ok_mono; [|by eapply within_obj_ok]. simpl. lia.
  - lia.
  - intros a Ha. by rewrite lookup_app_l by lia.
  - apply (closed_region_mono lo (length h)).
    + lia.
    + rewrite length_app. simpl. lia.
    + eapply closed_region_prefix; [by apply prefix_app_r|done..].
    + intros a o' Ha Ho'. rewrite lookup_app_r in Ho' by lia.
      replace (a - length h) with 0 in Ho' by lia. injection Ho' as <-.
      eapply Forall_impl; [exact Ho|]. intros v. apply in_region_mono. lia.
  - lia.
Qed.

Lemma tidy_load lo n (a : addr) : within lo n a → tidy lo n (load a).
Proof.
  intros Ha h Hwf Hn Hlo Hcl. unfold load. simpl in Ha.
  destruct (h !! a) as [o|] eqn:E; [|done].
  split_and!; [done..|]. apply (Hcl a o); [lia|done].
Qed.

Lemma tidy_store lo n (a : addr) o :
  within lo n a → within lo n o → tidy lo n (store a o).
Proof.
  intros Ha Ho h Hwf Hn Hlo Hcl. simpl. simpl in Ha.
  rewrite length_insert. split_and!; [|done| | |done].
  - apply wf_insert; [done|]. eapply obj_ok_mono; [|by eapply within_obj_ok].
    done.
  - intros b Hb. apply list_lookup_insert_ne. lia.
  - intros b o' Hb Ho'.
    destruct (decide (a = b)) as [->|Hne].
    + rewrite list_lookup_insert_eq in Ho' by lia. injection Ho' as <-.
      eapply Forall_impl; [exact Ho|]. intros v. apply in_region_mono. lia.
    + rewrite list_lookup_insert_ne in Ho' by done. by apply (Hcl b o').
Qed.

(** A deep copy is new, whatever is copied. *)
Lemma tidy_deepcopy lo n v : okay n v → tidy lo n (deepcopy v).
Proof.
  intros Hv h Hwf Hn Hlo Hcl.
  assert (Hv' : val_ok (length h) v).
  { eapply val_ok_mono; [exact Hn|exact Hv]. }
  destruct (deepcopy_spec h Hwf v Hv') as (v' & h' & m & -> & Hc).
  destruct (wf_copy _ _ _ _ _ Hwf Hc) as [Hwf' Hok].
  pose proof (copy_of_prefix _ _ _ _ _ Hc) as Hp.
  pose proof (prefix_length _ _ Hp) as Hlen.
  destruct (copy_of_closed _ _ _ _ _ Hc) as [Hclc Hin].
  split_and!; [done|done| | |].
  - intros a Ha. symmetry. apply prefix_lookup_lt; [lia|done].
  - apply (closed_region_mono lo (length h)); [done|done| |].
    + eapply closed_region_prefix; [exact Hp|done..].
    + intros a o Ha Ho. eapply Forall_impl; [by apply (Hclc a o)|].
      intros [s|b]; simpl; [done|lia].
  - destruct v' as [s|b]; simpl in *; [done|lia].
Qed.

Lemma within_items lo n (kvs : list (scalar * val)) :
  within lo n kvs ↔ within lo n (ODict kvs).
Proof.
  simpl. rewrite Forall_fmap.
  apply Forall_iff. intros [k v]. simpl. tauto.
Qed.

Lemma within_dict_get lo n k (kvs : list (scalar * val)) v :
  within lo n kvs → Dict.get k kvs = Some v → within lo n v.
Proof.
  intros Hall Hg. simpl in Hall. rewrite Forall_forall in Hall.
  by destruct (Hall _ (dict_get_elem _ _ _ Hg)).
Qed.

Lemma within_dict_set lo n k v (kvs : list (scalar * val)) :
  within lo n kvs → within lo n v → within lo n (Dict.set k v kvs).
Proof.
  intros Hall Hv. induction kvs as [|[k' v'] kvs IH]; simpl.
  - by repeat constructor.
  - inversion Hall as [|?? Hv' Hall']; subst.
    destruct (decide (k' = k)); constructor; auto. by apply IH.
Qed.

Lemma within_dict_remove lo n k (kvs : list (scalar * val)) :
  within lo n kvs → within lo n (Dict.remove k kvs).
Proof.
  intros Hall. induction kvs as [|[k' v'] kvs IH]; simpl; [done|].
  inversion Hall as [|?? Hv' Hall']; subst.
  destruct (decide (k' = k)); [by apply IH|constructor; [done|by apply IH]].
Qed.

(** Side conditions: a value is in the region up to a later length. *)
Ltac within_tac :=
  repeat match goal with
  | H : within _ _ (_, _) |- _ =>
      destruct H as [? ?]; simpl fst in *; simpl snd in *
  | H : @within _ prod_within _ _ ?p |- _ => destruct p
  end;
  try exact I;
  first
    [ eassumption
    | eapply within_mono; [|eassumption]; lia
    | (simpl; lia)
    | (simpl; exact I)
    | (repeat constructor; simpl;
       first [ exact I | eassumption
             | eapply in_region_mono; [|eassumption]; lia ]) ].

Lemma tidy_py_bool lo n v : within lo n v → tidy lo n (py_bool v).
Proof.
  intros Hv. destruct v as [s|a]; simpl; [by apply tidy_ret|].
  eapply tidy_bind; [by apply tidy_load|]. intros. by apply tidy_ret.
Qed.

Lemma tidy_py_or lo n v (alt : M val) :
  within lo n v → (∀ m, n ≤ m → tidy lo m alt) → tidy lo n (py_or v alt).
Proof.
  intros Hv Halt. unfold py_or.
  eapply tidy_bind; [by apply tidy_py_bool|]. intros m [|] Hm _.
  - apply tidy_ret. within_tac.
  - by apply Halt.
Qed.

Lemma tidy_as_dict lo n v : within lo n v → tidy lo n (as_dict v).
Proof.
  intros Hv. destruct v as [s|a]; simpl; [by apply tidy_raise|].
  eapply tidy_bind; [by apply tidy_load|]. intros m [kvs|xs] Hm Ho.
  - apply tidy_ret. split; [simpl in *; lia|]. by apply within_items.
  - by apply tidy_raise.
Qed.

Lemma tidy_py_get lo n d k dflt :
  within lo n d → within lo n dflt → tidy lo n (py_get d k dflt).
Proof.
  intros Hd Hdf. unfold py_get.
  eapply tidy_bind; [by apply tidy_as_dict|]. intros m [a kvs] Hm [_ Hk].
  apply tidy_ret. simpl in Hk.
  destruct (Dict.get (SStr k) kvs) as [v|] eqn:Hg; simpl.
  - exact (within_dict_get lo m _ _ _ Hk Hg).
  - within_tac.
Qed.

Lemma tidy_py_setdefault lo n d k dflt :
  within lo n d → within lo n dflt → tidy lo n (py_setdefault d k dflt).
Proof.
  intros Hd Hdf. unfold py_setdefault.
  eapply tidy_bind; [by apply tidy_as_dict|]. intros m [a kvs] Hm [Ha Hk].
  simpl in Hk, Ha. destruct (Dict.get (SStr k) kvs) as [v|] eqn:Hg.
  - apply tidy_ret. exact (within_dict_get lo m _ _ _ Hk Hg).
  - eapply tidy_bind.
    + apply tidy_store; [done|]. apply within_items. apply Forall_app.
      split; [done|]. repeat constructor. simpl. within_tac.
    + intros. apply tidy_ret. within_tac.
Qed.

Lemma tidy_py_items lo n d : within lo n d → tidy lo n (py_items d).
Proof.
  intros Hd. unfold py_items.
  eapply tidy_bind; [by apply tidy_as_dict|]. intros m [a kvs] Hm [_ Hk].
  by apply tidy_ret.
Qed.

Lemma tidy_py_getitem lo n d k : within lo n d → tidy lo n (py_getitem d k).
Proof.
  intros Hd. destruct d as [s|a]; simpl; [by apply tidy_raise|].
  eapply tidy_bind; [by apply tidy_load|]. intros m [kvs|xs] Hm Ho;
    [|by apply tidy_raise].
  apply within_items in Ho.
  destruct (Dict.get (SStr k) kvs) as [v|] eqn:Hg; [|by apply tidy_raise].
  apply tidy_ret. exact (within_dict_get lo m _ _ _ Ho Hg).
Qed.

Lemma tidy_py_setitem lo n d k v :
  within lo n d → within lo n v → tidy lo n (py_setitem d k v).
Proof.
  intros Hd Hv. destruct d as [s|a]; simpl; [by apply tidy_raise|].
  eapply tidy_bind; [by apply tidy_load|]. intros m [kvs|xs] Hm Ho;
    [|by apply tidy_raise].
  apply within_items in Ho. apply tidy_store; [simpl in *; lia|].
  apply within_items. apply within_dict_set; [done|]. within_tac.
Qed.

Lemma tidy_py_pop lo n d k : within lo n d → tidy lo n (py_pop d k).
Proof.
  intros Hd. destruct d as [s|a]; simpl; [by apply tidy_raise|].
  eapply tidy_bind; [by apply tidy_load|]. intros m [kvs|xs] Hm Ho;
    [|by apply tidy_raise].
  apply within_items in Ho.
  destruct (Dict.get (SStr k) kvs) as [v|] eqn:Hg.
  - eapply tidy_bind.
    + apply tidy_store; [simpl in *; lia|]. apply within_items.
      by apply within_dict_remove.
    + intros m' _ Hm' _. apply tidy_ret.
      eapply within_mono; [exact Hm'|].
      exact (within_dict_get lo m _ _ _ Ho Hg).
  - by apply tidy_ret.
Qed.

Lemma tidy_py_iter lo n v : within lo n v → tidy lo n (py_iter v).
Proof.
  intros Hv. destruct v as [[| | |s]|a]; simpl; try by apply tidy_raise.
  - apply tidy_ret. simpl. rewrite Forall_fmap. by apply Forall_true.
  - eapply tidy_bind; [by apply tidy_load|]. intros m [kvs|xs] Hm Ho.
    + apply tidy_ret. simpl. rewrite Forall_fmap. by apply Forall_true.
    + by apply tidy_ret.
Qed.

Lemma tidy_py_in lo n p v : within lo n v → tidy lo n (py_in p v).
Proof.
  intros Hv. destruct v as [[| | |s]|a]; simpl; try by apply tidy_raise.
  - by apply tidy_ret.
  - eapply tidy_bind; [by apply tidy_load|].
    intros m [kvs|xs] Hm Ho; by apply tidy_ret.
Qed.

Lemma tidy_is_dict lo n v : within lo n v → tidy lo n (is_dict v).
Proof.
  intros Hv. destruct v as [s|a]; simpl; [by apply tidy_ret|].
  eapply tidy_bind; [by apply tidy_load|]. intros. by apply tidy_ret.
Qed.

Lemma tidy_py_lower lo n v : tidy lo n (py_lower v).
Proof.
  destruct v as [[| | |s]|a]; simpl;
    first [by apply tidy_ret | by apply tidy_raise].
Qed.

Lemma tidy_py_int lo n v : tidy lo n (py_int v).
Proof.
  destruct v as [[| | |s]|a]; simpl;
    first [by apply tidy_ret | by apply tidy_raise].
Qed.

Lemma tidy_py_append lo n l v :
  within lo n l → within lo n v → tidy lo n (py_append l v).
Proof.
  intros Hl Hv. destruct l as [s|a]; simpl; [by apply tidy_raise|].
  eapply tidy_bind; [by apply tidy_load|]. intros m [kvs|xs] Hm Ho;
    [by apply tidy_raise|].
  apply tidy_store; [simpl in *; lia|]. simpl in *.
  apply Forall_app. split; [done|]. repeat constructor.
  by eapply in_region_mono.
Qed.

Lemma tidy_new_dict lo n kvs :
  Forall (λ kv, within lo n kv.2) kvs → tidy lo n (new_dict kvs).
Proof.
  intros Hk. apply tidy_alloc. simpl.
  rewrite <- list_fmap_compose, Forall_fmap.
  eapply Forall_impl; [exact Hk|]. by intros [k v].
Qed.

Lemma tidy_new_list lo n xs : within lo n xs → tidy lo n (new_list xs).
Proof. intros Hx. by apply tidy_alloc. Qed.

Lemma tidy_for_each `{Within A} lo n (xs : list A) (body : A → M unit) :
  within lo n xs → (∀ m x, n ≤ m → within lo m x → tidy lo m (body x)) →
  tidy lo n (for_each xs body).
Proof.
  intros Hxs Hb. revert n Hxs Hb.
  induction xs as [|x xs IH]; intros n Hxs Hb; simpl.
  - by apply tidy_ret.
  - inversion Hxs as [|?? Hx Hxs']; subst.
    eapply tidy_bind; [by apply Hb|]. intros m _ Hm _. apply IH.
    + by eapply (within_mono lo n m).
    + intros m' y Hm' Hy. apply Hb; [lia|done].
Qed.

Lemma tidy_foreign_items lo n items :
  within lo n items → tidy lo n (foreign_items items).
Proof.
  revert n. induction items as [|[k v] r IH]; intros n Hall; simpl.
  - by apply tidy_ret.
  - inversion Hall as [|?? Hv Hr]; subst.
    destruct k; try by apply tidy_raise.
    eapply tidy_bind; [by apply IH|]. intros m r' Hm Hr'.
    apply tidy_ret. destruct (Str.startswith _ _); [done|].
    constructor; [|done]. by eapply (within_mono lo n m).
Qed.

Lemma tidy_filter_annotations lo n anns :
  within lo n anns → tidy lo n (filter_annotations anns).
Proof.
  intros Ha. unfold filter_annotations.
  eapply tidy_bind.
  { apply tidy_py_or; [done|]. intros. by apply tidy_new_dict. }
  intros m a Hm Hok.
  eapply tidy_bind; [by apply tidy_py_items|]. intros m1 items Hm1 Hi.
  eapply tidy_bind; [by apply tidy_foreign_items|]. intros m2 kept Hm2 Hk.
  apply tidy_alloc. by apply within_items.
Qed.

Create HintDb tidy discriminated.

#[global] Hint Resolve tidy_alloc tidy_load tidy_store
  tidy_py_bool tidy_as_dict tidy_py_get tidy_py_setdefault tidy_py_items
  tidy_py_getitem tidy_py_setitem tidy_py_pop tidy_py_iter tidy_py_in
  tidy_is_dict tidy_py_lower tidy_py_int tidy_py_append tidy_new_dict
  tidy_new_list tidy_foreign_items tidy_filter_annotations : tidy.

#[global] Hint Extern 1 (within _ _ _) => within_tac : tidy.

#[global] Hint Extern 2 (within _ _ (ODict _)) =>
  apply within_items; within_tac : tidy.

#[global] Hint Extern 1 (Forall _ _) =>
  repeat constructor; simpl; within_tac : tidy.

(** The rules applied along the structure of a computation. *)
Ltac tidy_go :=
  cbv beta;
  lazymatch goal with
  | |- tidy _ _ (bind (deepcopy _) _) =>
      eapply tidy_bind;
        [apply tidy_deepcopy; eapply in_region_val_ok; within_tac
        | intros ? ? ? ?; tidy_go]
  | |- tidy _ _ (bind _ _) =>
      eapply tidy_bind; [tidy_go | intros ? ? ? ?; tidy_go]
  | |- tidy _ _ (py_or _ _) =>
      apply tidy_py_or; [within_tac | intros ? ?; tidy_go]
  | |- tidy _ _ (for_each _ _) =>
      eapply tidy_for_each; [within_tac | intros ? ? ? ?; tidy_go]
  | |- tidy _ _ (if ?b then _ else _) => destruct b; tidy_go
  | |- tidy _ _ (match ?x with _ => _ end) => destruct x; tidy_go
  | |- tidy _ _ (ret _) => apply tidy_ret; within_tac
  | |- tidy _ _ (raise _) => by apply tidy_raise
  | |- _ => solve [eauto with tidy]
  end.

Section Tidy.

Variable py_repr : heap → addr → string.

Lemma tidy_py_format lo n v : tidy lo n (py_format py_repr v).
Proof.
  destruct v as [s|a]; simpl; [by apply tidy_ret|].
  intros h Hwf Hn Hlo Hcl. done.
Qed.

Lemma tidy_norm_labels lo n meta :
  within lo n meta → tidy lo n (norm_labels meta).
Proof. intros Hm. unfold norm_labels. tidy_go. Qed.

#[local] Hint Resolve tidy_py_format tidy_norm_labels : tidy.

Lemma tidy_map_image lo n image name_hint reg pre :
  within lo n image → within lo n name_hint →
  tidy lo n (map_image py_repr image name_hint reg pre).
Proof. intros Hi Hh. unfold map_image. tidy_go. Qed.

#[local] Hint Resolve tidy_map_image : tidy.

Lemma tidy_set_strategy lo n spec deployment :
  within lo n spec → within lo n deployment →
  tidy lo n (set_strategy spec deployment).
Proof. intros Hs Hd. unfold set_strategy. tidy_go. Qed.

Lemma tidy_normalize_container lo n name reg pre c :
  within lo n name → within lo n c →
  tidy lo n (normalize_container py_repr name reg pre c).
Proof. intros Hn Hc. unfold normalize_container. tidy_go. Qed.

(** Reading the argument of a converter, which is not new. *)
Lemma tidy_bind_get `{Within B} lo n d k dflt (K : val → M B) :
  okay n d → okay n dflt →
  (∀ m x, n ≤ m → okay m x → tidy lo m (K x)) →
  tidy lo n (bind (py_get d k dflt) K).
Proof.
  intros Hd Hdf HK h Hwf Hn Hlo Hcl. unfold bind.
  pose proof (sound_py_get n d k dflt Hd Hdf h Hwf Hn) as Hs.
  destruct (py_get d k dflt h) as [[x h1]|e] eqn:E; [|done].
  apply py_get_Ok_get in E as [_ ->]. destruct Hs as (_ & _ & Hx).
  exact (HK (length h) x Hn Hx h Hwf (le_n _) Hlo Hcl).
Qed.

Lemma tidy_deepcopy_within lo n v : within lo n v → tidy lo n (deepcopy v).
Proof. intros Hv. apply tidy_deepcopy. by eapply in_region_val_ok. Qed.

#[local] Hint Resolve tidy_deepcopy_within : tidy.

Lemma tidy_deployment_parts lo n dc :
  okay n dc → tidy lo n (deployment_parts dc).
Proof.
  intros Hd. unfold deployment_parts.
  eapply tidy_bind; [tidy_go|]. intros m1 d0 Hm1 Hd0.
  apply tidy_bind_get;
    [by eapply (okay_mono n m1)|by eapply in_region_val_ok|].
  intros m2 m0 Hm2 Hm0.
  eapply tidy_bind; [by apply tidy_deepcopy|]. intros m3 meta Hm3 Hmeta.
  eapply tidy_bind; [tidy_go|]. intros m4 d1 Hm4 Hd1.
  apply tidy_bind_get;
    [eapply (okay_mono n m4); [lia|done]|by eapply in_region_val_ok|].
  intros m5 s0 Hm5 Hs0.
  eapply tidy_bind; [by apply tidy_deepcopy|]. intros m6 spec Hm6 Hspec.
  tidy_go.
Qed.

Lemma tidy_deployment_labels lo n meta tpl_meta name :
  within lo n meta → within lo n tpl_meta → within lo n name →
  tidy lo n (deployment_labels meta tpl_meta name).
Proof. intros Hm Ht Hn. unfold deployment_labels. tidy_go. Qed.

Lemma tidy_deployment_display lo n meta spec name tpl_meta tpl_spec
    labels sel tl :
  within lo n meta → within lo n spec → within lo n name →
  within lo n tpl_meta → within lo n tpl_spec → within lo n labels →
  within lo n sel → within lo n tl →
  tidy lo n
    (deployment_display meta spec name tpl_meta tpl_spec labels sel tl).
Proof. intros. unfold deployment_display. tidy_go. Qed.

Lemma tidy_drop_openshift_fields lo n deployment :
  within lo n deployment → tidy lo n (drop_openshift_fields deployment).
Proof. intros Hd. unfold drop_openshift_fields. tidy_go. Qed.

#[local] Hint Resolve tidy_normalize_container : tidy.

Lemma tidy_normalize_containers lo n deployment name reg pre :
  within lo n deployment → within lo n name →
  tidy lo n (normalize_containers py_repr deployment name reg pre).
Proof. intros Hd Hn. unfold normalize_containers. tidy_go. Qed.

#[local] Hint Extern 1 (okay _ _) => okay_tac : tidy.

#[local] Hint Resolve tidy_set_strategy tidy_deployment_parts
  tidy_deployment_labels tidy_deployment_display
  tidy_drop_openshift_fields tidy_normalize_containers : tidy.

Lemma tidy_to_deployment lo n dc reg pre :
  okay n dc → tidy lo n (to_deployment py_repr dc reg pre).
Proof. intros Hd. unfold to_deployment. tidy_go. Qed.

Lemma tidy_set_tls lo n spec name host ingress tls :
  within lo n spec → within lo n name → within lo n host →
  within lo n ingress →
  tidy lo n (set_tls py_repr spec name host ingress tls).
Proof. intros. unfold set_tls. tidy_go. Qed.

Lemma tidy_bind_or `{Within B} lo n v (K : val → M B) :
  okay n v →
  (∀ m x, n ≤ m → okay m x → tidy lo m (K x)) →
  tidy lo n (bind (py_or v (new_dict [])) K).
Proof.
  intros Hv HK h Hwf Hn Hlo Hcl. unfold bind.
  destruct (py_or v (new_dict []) h) as [[x h1]|e] eqn:E; [|done].
  apply py_or_Ok in E as [(Ht & -> & ->)|[Ht E]].
  - assert (Hv1 : okay (length h) v) by (eapply okay_mono; [exact Hn|done]).
    exact (HK (length h) v Hn Hv1 h Hwf (le_n _) Hlo Hcl).
  - pose proof (tidy_new_dict lo n [] (Forall_nil_2 _) h Hwf Hn Hlo Hcl) as Hd.
    rewrite E in Hd. destruct Hd as (Hwf1 & Hlen1 & Hfr1 & Hcl1 & Hx1).
    assert (Hm : n ≤ length h1) by lia.
    assert (Hlo1 : lo ≤ length h1) by lia.
    assert (Hx : okay (length h1) x) by by eapply in_region_val_ok.
    specialize (HK (length h1) x Hm Hx h1 Hwf1 (le_n _) Hlo1 Hcl1).
    destruct (K x h1) as [[y h2]|e]; [|done].
    destruct HK as (? & ? & Hfr2 & ? & ?).
    split_and!; [done|lia| |done|done].
    intros a Ha. rewrite Hfr2 by done. by apply Hfr1.
Qed.

Lemma tidy_route_parts lo n route dd :
  okay n route → tidy lo n (route_parts py_repr route dd).
Proof.
  intros Hd. unfold route_parts.
  eapply tidy_bind; [tidy_go|]. intros m1 d0 Hm1 Hd0.
  apply tidy_bind_get;
    [by eapply (okay_mono n m1)|by eapply in_region_val_ok|].
  intros m2 m0 Hm2 Hm0.
  eapply tidy_bind; [by apply tidy_deepcopy|]. intros m3 meta Hm3 Hmeta.
  eapply tidy_bind; [tidy_go|]. intros m4 d1 Hm4 Hd1.
  apply tidy_bind_get;
    [eapply (okay_mono n m4); [lia|done]|by eapply in_region_val_ok|].
  intros m5 s0 Hm5 Hs0.
  apply tidy_bind_or; [done|]. intros m6 s1 Hm6 Hs1.
  eapply tidy_bind; [by apply tidy_deepcopy|]. intros m7 spec Hm7 Hspec.
  tidy_go.
Qed.

Lemma tidy_ingress_display lo n meta name host svc tp ic :
  within lo n meta → within lo n name → within lo n host →
  within lo n svc → within lo n tp →
  tidy lo n (ingress_display meta name host svc tp ic).
Proof. intros. unfold ingress_display. tidy_go. Qed.

#[local] Hint Resolve tidy_set_tls tidy_route_parts tidy_ingress_display
  : tidy.

Lemma tidy_to_ingress lo n route dd ic tls :
  okay n route → tidy lo n (to_ingress py_repr route dd ic tls).
Proof. intros Hr. unfold to_ingress. tidy_go. Qed.

(** What a computation that is tidy from the end of the store makes of
    it. *)
Lemma tidy_fresh (c : M val) (h : heap) v h' :
  tidy (length h) (length h) c → wf h → c h = Ok (v, h') →
  h `prefix_of` h' ∧ wf h' ∧
  closed_region (length h) (length h') h' ∧
  ∀ a, reach h' v a → length h ≤ a < length h'.
Proof.
  intros Hc Hwf H.
  assert (Hcl0 : closed_region (length h) (length h) h).
  { intros a o Ha. lia. }
  specialize (Hc h Hwf (le_n _) (le_n _) Hcl0). rewrite H in Hc.
  destruct Hc as (Hwf' & Hlen & Hfr & Hcl & Hin).
  split_and!; [|done|done|].
  - exists (drop (length h) h'). apply list_eq. intros i.
    destruct (decide (i < length h)) as [Hi|Hi].
    + rewrite lookup_app_l by done. by apply Hfr.
    + rewrite lookup_app_r by lia. rewrite lookup_drop. f_equal. lia.
  - intros a Ha. by eapply reach_region.
Qed.

(** X9. [to_deployment] works on copies.  The converter changes no
    object of the store it is given, so the DeploymentConfig reads after
    the call as before; and every object that can be reached from the
    Deployment it returns was created by the call: the result shares
    nothing with the source document. *)
Theorem to_deployment_source_untouched (dc : val)
    (image_registry repo_prefix : string) (h : heap)
    (deployment : val) (h' : heap) :
  wf h → val_ok (length h) dc →
  to_deployment py_repr dc image_registry repo_prefix h
  = Ok (deployment, h') →
  h `prefix_of` h' ∧
  (∀ n, content n h' dc = content n h dc) ∧
  ∀ a, reach h' deployment a → length h ≤ a < length h'.
Proof.
  intros Hwf Hdc H.
  destruct (tidy_fresh _ h deployment h'
              (tidy_to_deployment _ _ dc _ _ Hdc) Hwf H)
    as (Hp & _ & _ & Hreach).
  split_and!; [done| |done].
  intros n. by apply content_prefix.
Qed.

(** X10. [to_ingress] works on copies.  The converter changes no object
    of the store it is given, so the Route reads after the call as before;
    and every object that can be reached from the Ingress it returns was
    created by the call. *)
Theorem to_ingress_source_untouched (route : val)
    (default_domain ingress_class tls_secret : string)
    (h : heap) (ingress : val) (h' : heap) :
  wf h → val_ok (length h) route →
  to_ingress py_repr route default_domain ingress_class tls_secret h
  = Ok (ingress, h') →
  h `prefix_of` h' ∧
  (∀ n, content n h' route = content n h route) ∧
  ∀ a, reach h' ingress a → length h ≤ a < length h'.
Proof.
  intros Hwf Hr H.
  destruct (tidy_fresh _ h ingress h'
              (tidy_to_ingress _ _ route _ _ _ Hr) Hwf H)
    as (Hp & _ & _ & Hreach).
  split_and!; [done| |done].
  intros n. by apply content_prefix.
Qed.


End Tidy.

(** ** The kinds of the documents along a run *)

Lemma strip_annotations_kind doc h u h' d :
  strip_annotations doc h = Ok (u, h') → val_ok (length h) d →
  get h' d "kind" = get h d "kind".
Proof.
  intros H Hd. apply strip_annotations_Ok in H.
  destruct (dict_items h (rd h doc "metadata")) as [kvs|] eqn:Hk;
    [|by subst].
  cbv zeta in H. destruct H as (m & g & Hm & ->).
  rewrite Hm in Hk. simpl in Hk.
  destruct (h !! m) as [[kvs0|xs]|] eqn:Hhm; try done. injection Hk as ->.
  pose proof (lookup_lt_Some _ _ _ Hhm) as Hlt.
  destruct d as [s|b]; [done|]. simpl in Hd. unfold get. simpl.
  destruct (decide (m = b)) as [<-|Hne].
  - rewrite list_lookup_insert_eq by (rewrite length_app; lia).
    rewrite Hhm. simpl.
    destruct (filter _ _);
      [by apply dict_get_remove_ne|by apply dict_get_set_ne].
  - rewrite list_lookup_insert_ne by done. by rewrite lookup_app_l.
Qed.

Section Kinds.

Variable py_repr : heap → addr → string.

(** A turn of the loop over the documents: what it does by the kind of
    the document, and that it changes the kind of no document. *)
Lemma dispatch_step a doc r out h r' out' h' :
  wf h → val_ok (length h) doc →
  dispatch py_repr a doc (r, out) h = Ok ((r', out'), h') →
  (∀ d, val_ok (length h) d → get h' d "kind" = get h d "kind") ∧
  match get h doc "kind" with
  | None => r' = r ∧ out' = out
  | Some k =>
      if decide (k = VStr "DeploymentConfig") then
        r' = count_converted (count_DeploymentConfig r) ∧
        ∃ d, out' = out ++ [d] ∧ get h' d "kind" = Some (VStr "Deployment")
      else if decide (k = VStr "Route") then
        r' = count_converted (count_Route r) ∧
        ∃ d, out' = out ++ [d] ∧ get h' d "kind" = Some (VStr "Ingress")
      else if decide (k = VStr "BuildConfig") then
        ∃ w, r' = warn w (count_BuildConfig r) ∧ out' = out
      else r' = count_Other r ∧ out' = out ++ [doc]
  end.
Proof.
  intros Hwf Hdoc H. unfold dispatch in H.
  mbind H as d h1 E. apply is_dict_Ok in E as [-> Hd].
  destruct d; simpl in H.
  2:{ unfold ret in H. injection H as <- <- <-. split; [done|].
      unfold get. destruct (dict_items h doc); [|done].
      destruct Hd as [_ Hd]. by discriminate Hd. }
  destruct Hd as [Hd _]. specialize (Hd eq_refl).
  mbind H as hk h2 E. apply py_in_dict_Ok in E as [-> Hk]; [|done].
  destruct hk; simpl in H.
  2:{ unfold ret in H. injection H as <- <- <-. split; [done|].
      destruct (get h doc "kind") eqn:Hg; [|done].
      destruct Hk as [_ Hk]. by discriminate Hk. }
  destruct Hk as [Hk _]. destruct (Hk eq_refl) as [k Hgk].
  mbind H as kind h3 E. apply py_get_Ok_get in E as [-> ->].
  rewrite Hgk in *. simpl in H.
  destruct (decide (k = VStr "DeploymentConfig")) as [Hk1|Hk1].
  { mbind H as dep h4 E. unfold ret in H. injection H as <- <- <-.
    destruct (tidy_fresh _ h dep h4
                (tidy_to_deployment py_repr _ _ doc _ _ Hdoc) Hwf E)
      as (Hp & _).
    apply to_deployment_Ok in E as (adep & amd & ads & asel & atpl & atmd &
      r0 & name & labels & sel & tl & anns & tanns & replicas & tpl_spec &
      n0 & n1 & n2 & n3 & -> & Hdep & _); [|done..].
    split; [intros d Hd'; by apply get_ok_prefix|]. split; [done|].
    exists (VRef adep). split; [done|].
    by rewrite (get_lookup _ _ _ _ Hdep). }
  destruct (decide (k = VStr "Route")) as [Hk2|Hk2].
  { mbind H as ing h4 E. unfold ret in H. injection H as <- <- <-.
    destruct (tidy_fresh _ h ing h4
                (tidy_to_ingress py_repr _ _ doc _ _ _ Hdoc) Hwf E)
      as (Hp & _).
    apply to_ingress_store in E as (n & name & host & svc & items & port &
      _ & _ & _ & _ & _ & _ & _ & -> & _ & _ & _ & _ & _ & _ & _ & _ & _ & _ &
      _ & _ & Hing); [|done..].
    split; [intros d Hd'; by apply get_ok_prefix|]. split; [done|].
    exists (VRef (n + 12)). split; [done|].
    by rewrite (get_lookup _ _ _ _ Hing). }
  destruct (decide (k = VStr "BuildConfig")) as [Hk3|Hk3].
  { mbind H as e h4 E. apply new_dict_nil_Ok in E as [-> ->].
    mbind H as md h5 E. apply py_get_Ok_get in E as [-> ->].
    mbind H as n h6 E. apply py_get_Ok_get in E as [-> ->].
    mbind H as n' h7 E. apply py_format_Ok in E as [-> _].
    unfold ret in H. injection H as <- <- <-.
    split; [|by eexists].
    intros d Hd'. apply get_ok_prefix; [by apply prefix_app_r|done]. }
  mbind H as u h4 E. unfold ret in H. injection H as <- <- <-.
  split; [|done]. intros d Hd'. by eapply strip_annotations_kind.
Qed.

Lemma filter_Forall_iff {A} (P Q : A → Prop)
    `{∀ x, Decision (P x)} `{∀ x, Decision (Q x)} (l : list A) :
  Forall (λ x, P x ↔ Q x) l → filter P l = filter Q l.
Proof.
  induction 1 as [|x l Hx Hall IH]; [done|].
  rewrite !filter_cons, IH. repeat case_decide; tauto.
Qed.

Lemma dispatch_all_run a docs r out h r' out' h' :
  wf h → Forall (val_ok (length h)) docs → okay (length h) r →
  Forall (val_ok (length h)) out → Forall (plain_kind h) out →
  dispatch_all py_repr a docs (r, out) h = Ok ((r', out'), h') →
  wf h' ∧ length h ≤ length h' ∧ okay (length h') r' ∧
  (∀ d, val_ok (length h) d → get h' d "kind" = get h d "kind") ∧
  Forall (plain_kind h') out' ∧
  written r' = written r ∧
  length out'
  = length out + length (filter (λ d, emits (classify h d) = true) docs) ∧
  n_DeploymentConfig (r_summary r')
  = n_DeploymentConfig (r_summary r) + count_class h IsDeploymentConfig docs ∧
  n_Route (r_summary r')
  = n_Route (r_summary r) + count_class h IsRoute docs ∧
  n_BuildConfig (r_summary r')
  = n_BuildConfig (r_summary r) + count_class h IsBuildConfig docs ∧
  n_Other (r_summary r')
  = n_Other (r_summary r) + count_class h IsOther docs.
Proof.
  revert r out h. induction docs as [|doc docs IH];
    intros r out h Hwf Hdocs Hr Hout Hplain H; cbn [dispatch_all] in H.
  - unfold ret in H. injection H as <- <- <-. unfold count_class. simpl.
    split_and!; try done; lia.
  - mbind H as st h1 E. destruct st as [r1 out1].
    inversion Hdocs as [|?? Hdoc Hdocs']; subst.
    pose proof (sound_dispatch py_repr (length h) a doc (r, out) Hdoc
                  (conj Hr Hout) h Hwf (le_n _)) as Hs.
    rewrite E in Hs. destruct Hs as (Hwf1 & Hlen1 & [Hr1 Hout1]).
    simpl in Hr1, Hout1.
    destruct (dispatch_step _ _ _ _ _ _ _ _ Hwf Hdoc E) as [Hkept Hcase].
    assert (Hdocs1 : Forall (val_ok (length h1)) docs).
    { eapply Forall_impl; [exact Hdocs'|]. intros d. by apply val_ok_mono. }
    assert (Hold : Forall (plain_kind h1) out).
    { rewrite Forall_forall in Hplain, Hout. apply Forall_forall.
      intros d Hd. unfold plain_kind. rewrite Hkept by by apply Hout.
      by apply Hplain. }
    assert (Hkd : Forall (λ d, get h1 d "kind" = get h d "kind") docs).
    { eapply Forall_impl; [exact Hdocs'|]. intros d. apply Hkept. }
    assert (Hplain1 : Forall (plain_kind h1) out1 ∧
      written r1 = written r ∧
      length out1 = length out + (if emits (classify h doc) then 1 else 0) ∧
      ∀ c, (match c with
            | Skipped => 0
            | IsDeploymentConfig => n_DeploymentConfig (r_summary r1)
            | IsRoute => n_Route (r_summary r1)
            | IsBuildConfig => n_BuildConfig (r_summary r1)
            | IsOther => n_Other (r_summary r1)
            end)
           = (match c with
              | Skipped => 0
              | IsDeploymentConfig => n_DeploymentConfig (r_summary r)
              | IsRoute => n_Route (r_summary r)
              | IsBuildConfig => n_BuildConfig (r_summary r)
              | IsOther => n_Other (r_summary r)
              end)
             + (if decide (classify h doc = c) then
                  match c with Skipped => 0 | _ => 1 end
                else 0)).
    { unfold classify. destruct (get h doc "kind") as [k|] eqn:Hg.
      - repeat case_decide.
        + destruct Hcase as (-> & d & -> & Hd). split_and!.
          * apply Forall_app. split; [done|]. apply Forall_singleton.
            unfold plain_kind. rewrite Hd. by split.
          * done.
          * rewrite length_app. simpl. lia.
          * intros []; simpl; lia.
        + destruct Hcase as (-> & d & -> & Hd). split_and!.
          * apply Forall_app. split; [done|]. apply Forall_singleton.
            unfold plain_kind. rewrite Hd. by split.
          * done.
          * rewrite length_app. simpl. lia.
          * intros []; simpl; lia.
        + destruct Hcase as (w & -> & ->). split_and!.
          * done.
          * done.
          * simpl. lia.
          * intros []; simpl; lia.
        + destruct Hcase as (-> & ->). split_and!.
          * apply Forall_app. split; [done|]. apply Forall_singleton.
            unfold plain_kind. rewrite Hkept, Hg by done.
            split; congruence.
          * done.
          * rewrite length_app. simpl. lia.
          * intros []; simpl; lia.
      - destruct Hcase as [-> ->]. split_and!; [done|done|simpl; lia|].
        intros []; simpl; lia. }
    destruct Hplain1 as (Hplain1 & Hw1 & Hlen_out & Hcount).
    apply IH in H as (Hwf' & Hlen' & Hr' & Hkept' & Hplain' & Hw' & Hout' &
                      HDC & HR & HB & HO); [|done..].
    assert (Hcls : Forall (λ d, classify h1 d = classify h d) docs).
    { eapply Forall_impl; [exact Hkd|]. intros d Hd. unfold classify.
      by rewrite Hd. }
    assert (Hfc : ∀ c, count_class h1 c docs = count_class h c docs).
    { intros c. unfold count_class. f_equal. apply filter_Forall_iff.
      eapply Forall_impl; [exact Hcls|]. by intros d ->. }
    assert (Hfe : filter (λ d, emits (classify h1 d) = true) docs
                  = filter (λ d, emits (classify h d) = true) docs).
    { apply filter_Forall_iff.
      eapply Forall_impl; [exact Hcls|]. by intros d ->. }
    rewrite !Hfc in *. rewrite Hfe in Hout'.
    unfold count_class in *.
    pose proof (Hcount IsDeploymentConfig) as C1.
    pose proof (Hcount IsRoute) as C2.
    pose proof (Hcount IsBuildConfig) as C3.
    pose proof (Hcount IsOther) as C4.
    simpl in C1, C2, C3, C4.
    rewrite !filter_cons.
    split_and!.
    + done.
    + lia.
    + done.
    + intros d Hd. rewrite Hkept' by by eapply val_ok_mono. by apply Hkept.
    + done.
    + congruence.
    + destruct (emits (classify h doc)); repeat case_decide; simpl;
        try done; lia.
    + repeat case_decide; simpl; try done; lia.
    + repeat case_decide; simpl; try done; lia.
    + repeat case_decide; simpl; try done; lia.
    + repeat case_decide; simpl; try done; lia.
Qed.

Lemma kinds_of_plain docs h ks h' :
  Forall (plain_kind h) docs → kinds_of docs h = Ok (ks, h') →
  SStr "DeploymentConfig" ∉ ks ∧ SStr "Route" ∉ ks.
Proof.
  intros Hall. revert ks.
  induction Hall as [|d docs Hd Hall IH]; intros ks H; simpl in H.
  - unfold ret in H. injection H as <- <-. split; apply not_elem_of_nil.
  - mbind H as b h1 E. apply is_dict_Ok in E as [-> _].
    destruct b; [|by apply IH].
    mbind H as k h1 E. apply py_get_Ok_get in E as [-> ->].
    destruct (get h d "kind") as [[s|x]|] eqn:Hg; simpl in H; [|done|].
    + mbind H as ks' h1 E. unfold ret in H. injection H as <- <-.
      destruct (IH _ E) as [H1 H2]. destruct Hd as [Hd1 Hd2].
      split; apply not_elem_of_cons; (split; [congruence|done]).
    + mbind H as ks' h1 E. unfold ret in H. injection H as <- <-.
      destruct (IH _ E) as [H1 H2].
      split; apply not_elem_of_cons; (split; [done|done]).
Qed.

Lemma existsb_filter {A} (f : A → bool) (l : list A) :
  existsb f l = negb (Nat.eqb (length (filter (λ x, f x = true) l)) 0).
Proof.
  induction l as [|x l IH]; [done|]. simpl. rewrite filter_cons.
  destruct (f x) eqn:Hf; simpl; done.
Qed.

Lemma docs_of_okay n e : okay n e → Forall (val_ok n) (docs_of e).
Proof.
  unfold docs_of. simpl. intros He.
  destruct (_ && _); [|done]. by destruct (e_load e).
Qed.

Lemma has_output_kept (h h' : heap) e :
  Forall (λ d, get h' d "kind" = get h d "kind") (docs_of e) →
  has_output h' e = has_output h e.
Proof.
  intros Hall. unfold has_output. rewrite !existsb_filter. do 3 f_equal.
  apply filter_Forall_iff. eapply Forall_impl; [exact Hall|].
  intros d Hd. unfold classify. by rewrite Hd.
Qed.

Lemma count_class_kept (h h' : heap) c docs :
  Forall (λ d, get h' d "kind" = get h d "kind") docs →
  count_class h' c docs = count_class h c docs.
Proof.
  intros Hall. unfold count_class. f_equal.
  apply filter_Forall_iff. eapply Forall_impl; [exact Hall|].
  intros d Hd. unfold classify. by rewrite Hd.
Qed.

Lemma count_class_app h c l1 l2 :
  count_class h c (l1 ++ l2) = count_class h c l1 + count_class h c l2.
Proof. unfold count_class. by rewrite filter_app, length_app. Qed.

(** A turn of the loop over the source tree. *)
Lemma process_entry_run a e r h r' h' :
  wf h → okay (length h) e → okay (length h) r →
  process_entry py_repr a e r h = Ok (r', h') →
  wf h' ∧ length h ≤ length h' ∧ okay (length h') r' ∧
  (∀ d, val_ok (length h) d → get h' d "kind" = get h d "kind") ∧
  (written r').*1
  = (written r).*1
    ++ (if has_output h e then [destination a (e_path e)] else []) ∧
  n_DeploymentConfig (r_summary r')
  = n_DeploymentConfig (r_summary r)
    + count_class h IsDeploymentConfig (docs_of e) ∧
  n_Route (r_summary r')
  = n_Route (r_summary r) + count_class h IsRoute (docs_of e) ∧
  n_BuildConfig (r_summary r')
  = n_BuildConfig (r_summary r) + count_class h IsBuildConfig (docs_of e) ∧
  n_Other (r_summary r')
  = n_Other (r_summary r) + count_class h IsOther (docs_of e).
Proof.
  intros Hwf He Hr H.
  pose proof (sound_process_entry py_repr (length h) a e r He Hr h Hwf
                (le_n _)) as Hs.
  rewrite H in Hs. destruct Hs as (Hwf' & Hlen & Hr').
  split; [done|]. split; [done|]. split; [done|].
  pose proof (docs_of_okay _ _ He) as Hdocs.
  unfold process_entry in H. unfold has_output. unfold docs_of in *.
  destruct (e_is_file e); simpl in H |- *;
    [|unfold ret in H; injection H as <- <-; unfold count_class; simpl;
      rewrite app_nil_r; split_and!; try done; lia].
  destruct (is_yaml_file (e_path e)); simpl in H |- *;
    [|unfold ret in H; injection H as <- <-; unfold count_class; simpl;
      rewrite app_nil_r; split_and!; try done; lia].
  destruct (e_load e) as [msg|docs];
    [unfold ret in H; injection H as <- <-; unfold count_class; simpl;
      rewrite app_nil_r; split_and!; try done; lia|].
  mbind H as st h1 E. destruct st as [r1 out].
  apply dispatch_all_run in E
    as (Hwf1 & Hlen1 & Hr1 & Hkept & Hplain & Hw & Hout & HDC & HR & HB & HO);
    [|done..].
  rewrite existsb_filter. simpl in Hout.
  destruct out as [|d out].
  - unfold ret in H. injection H as <- <-. rewrite <- Hout. simpl.
    rewrite app_nil_r, Hw. done.
  - mbind H as mapped h2 E.
    apply map_output_filename_Ok in E as (kinds & Hk & -> & ->).
    destruct (kinds_of_plain _ _ _ _ Hplain Hk) as [Hn1 Hn2].
    rewrite !bool_decide_false, !orb_false_r in H by done.
    unfold ret in H. injection H as <- <-. rewrite <- Hout. simpl.
    rewrite fmap_app, Hw. simpl.
    split; [done|]. split; [|done]. do 2 f_equal.
    unfold destination, mapped_name.
    destruct (Str.contains "deploymentconfig" _); [done|].
    by destruct (Str.contains "route" _).
Qed.

Lemma process_all_run a tree r h r' h' :
  wf h → okay (length h) tree → okay (length h) r →
  process_all py_repr a tree r h = Ok (r', h') →
  (written r').*1
  = (written r).*1
    ++ (destination a ∘ e_path <$> filter (λ e, has_output h e = true) tree) ∧
  n_DeploymentConfig (r_summary r')
  = n_DeploymentConfig (r_summary r)
    + count_class h IsDeploymentConfig (tree ≫= docs_of) ∧
  n_Route (r_summary r')
  = n_Route (r_summary r) + count_class h IsRoute (tree ≫= docs_of) ∧
  n_BuildConfig (r_summary r')
  = n_BuildConfig (r_summary r)
    + count_class h IsBuildConfig (tree ≫= docs_of) ∧
  n_Other (r_summary r')
  = n_Other (r_summary r) + count_class h IsOther (tree ≫= docs_of).
Proof.
  revert r h. induction tree as [|e tree IH]; intros r h Hwf Ht Hr H;
    cbn [process_all] in H.
  - unfold ret in H. injection H as <- <-. unfold count_class. simpl.
    rewrite app_nil_r. split_and!; try done; lia.
  - mbind H as r1 h1 E. inversion Ht as [|?? He Ht']; subst.
    apply process_entry_run in E
      as (Hwf1 & Hlen1 & Hr1 & Hkept & Hw & HDC & HR & HB & HO); [|done..].
    assert (Ht1 : okay (length h1) tree).
    { eapply (okay_mono (length h)); [exact Hlen1|exact Ht']. }
    apply IH in H as (Hw' & HDC' & HR' & HB' & HO'); [|done..].
    assert (Hall : Forall (λ e, Forall (λ d, get h1 d "kind" = get h d "kind")
                                  (docs_of e)) tree).
    { eapply Forall_impl; [exact Ht'|]. intros e' He'.
      eapply Forall_impl; [by apply docs_of_okay|]. intros d. apply Hkept. }
    assert (Hdocs : Forall (λ d, get h1 d "kind" = get h d "kind")
                      (tree ≫= docs_of)).
    { clear -Hall. induction Hall as [|e' l He' Hl IHl]; [done|].
      rewrite bind_cons. apply Forall_app. by split. }
    assert (Hf : filter (λ e, has_output h1 e = true) tree
                 = filter (λ e, has_output h e = true) tree).
    { apply filter_Forall_iff. eapply Forall_impl; [exact Hall|].
      intros e' He'. by rewrite (has_output_kept h h1). }
    rewrite !(count_class_kept h h1) in * by done.
    rewrite Hf in Hw'. rewrite bind_cons, !count_class_app, filter_cons.
    split.
    + rewrite Hw', Hw, <- app_assoc. f_equal.
      destruct (has_output h e); by simpl.
    + lia.
Qed.

(** X11. The files a run writes.  In a run that ends, the files are
    written in the order of the source tree, one for each YAML file with a
    document that is converted or passed through, and the path of each is
    fixed by the name of the source file alone: the output directory, the
    name mapped by the patterns [deploymentconfig] and [route], and the
    suffix [.yaml].  The kinds of the documents never change a name, and
    the directory of the source file is not kept. *)
Theorem main_destinations (a : args) (tree : list entry) (h : heap)
    (r : run) (h' : heap) :
  wf h → okay (length h) tree →
  main py_repr a tree h = Ok (r, h') →
  (written r).*1
  = (destination a ∘ e_path <$> filter (λ e, has_output h e = true) tree).
Proof.
  intros Hwf Ht H. unfold main in H.
  apply process_all_run in H as (Hw & _); [|done|done|by constructor].
  exact Hw.
Qed.

(** X12. The counters of the report count the documents of the source.
    In a run that ends, each counter is the number of documents, over the
    YAML files that parse, whose [kind] in the source is the one counted:
    the conversions and the pass-through of the documents before it change
    the kind of no document. *)
Theorem main_counts_source (a : args) (tree : list entry) (h : heap)
    (r : run) (h' : heap) :
  wf h → okay (length h) tree →
  main py_repr a tree h = Ok (r, h') →
  n_DeploymentConfig (r_summary r)
  = count_class h IsDeploymentConfig (tree ≫= docs_of) ∧
  n_Route (r_summary r) = count_class h IsRoute (tree ≫= docs_of) ∧
  n_BuildConfig (r_summary r)
  = count_class h IsBuildConfig (tree ≫= docs_of) ∧
  n_Other (r_summary r) = count_class h IsOther (tree ≫= docs_of).
Proof.
  intros Hwf Ht H. unfold main in H.
  apply process_all_run in H as (_ & HDC & HR & HB & HO);
    [|done|done|by constructor].
  done.
Qed.

End Kinds.

(** ** The head of a Deployment *)

Section Head.

Variable py_repr : heap → addr → string.

(** X13. The head of the Deployment made from a DeploymentConfig.  The
    result is an [apps/v1] [Deployment] with exactly the keys
    [apiVersion], [kind], [metadata] and [spec]; the metadata has exactly
    [name], [labels] and [annotations], with the name of the source (or
    [app]); the spec has exactly [replicas], [selector], [template] and
    [strategy], so every other key of the source spec, [triggers], [test]
    and [paused] among them, is dropped; and the replicas are those of the
    source, or 1 when the source spec has no such key. *)
Theorem to_deployment_head (dc : val) (image_registry repo_prefix : string)
    (h : heap) (deployment : val) (h' : heap) :
  wf h → val_ok (length h) dc →
  to_deployment py_repr dc image_registry repo_prefix h
  = Ok (deployment, h') →
  ∃ md dspec name labels anns replicas sel tpl strat,
    dict_items h' deployment
    = Some [(SStr "apiVersion", VStr "apps/v1");
            (SStr "kind", VStr "Deployment");
            (SStr "metadata", md); (SStr "spec", dspec)] ∧
    dict_items h' md
    = Some [(SStr "name", name); (SStr "labels", labels);
            (SStr "annotations", anns)] ∧
    (∀ s, dc_name h dc = VS s → name = VS s) ∧
    dict_items h' dspec
    = Some [(SStr "replicas", replicas); (SStr "selector", sel);
            (SStr "template", tpl); (SStr "strategy", strat)] ∧
    (dc_replicas h dc = None → replicas = VInt 1) ∧
    (∀ s, dc_replicas h dc = Some (VS s) → replicas = VS s).
Proof.
  intros Hwf Hdc H.
  destruct (to_deployment_run py_repr _ _ _ _ _ _ Hwf Hdc H)
    as (adep & amd & ads & asel & atpl & atmd & r & name & labels & sel & tl &
        anns & tanns & replicas & tpl_spec & n0 & n1 & n2 & n3 &
        -> & Hdep & Hmd & Hds & _ & _ & _ & _ & _ & _ & _ & _ & _ & _ &
        Hname & Hr1 & Hr2 & _).
  exists (VRef amd), (VRef ads), name, labels, anns, replicas, (VRef asel),
    (VRef atpl), (VRef r).
  simpl. rewrite Hdep, Hmd, Hds. done.
Qed.

(** X14. The annotations of the Deployment.  [metadata.annotations] is
    always there, as a new map: with the annotations of the source whose
    key does not start with [openshift.io/], in their order, when the
    source has a map of annotations with scalar values; empty when the
    source has no annotations. *)
Theorem to_deployment_annotations (dc : val)
    (image_registry repo_prefix : string)
    (h : heap) (deployment : val) (h' : heap) :
  wf h → val_ok (length h) dc →
  to_deployment py_repr dc image_registry repo_prefix h
  = Ok (deployment, h') →
  ∃ anns,
    at_path h' deployment ["metadata"; "annotations"] = Some (VRef anns) ∧
    length h ≤ anns ∧
    (∀ kvs, dict_items h (dc_annotations h dc) = Some kvs →
            scalar_items kvs →
            dict_items h' (VRef anns)
            = Some (filter (λ kv, foreign_key kv) kvs)) ∧
    (∀ s, dc_annotations h dc = VS s → dict_items h' (VRef anns) = Some []).
Proof.
  intros Hwf Hdc H.
  destruct (to_deployment_run py_repr _ _ _ _ _ _ Hwf Hdc H)
    as (adep & amd & ads & asel & atpl & atmd & r & name & labels & sel & tl &
        anns & tanns & replicas & tpl_spec & n0 & n1 & n2 & n3 &
        -> & Hdep & Hmd & _ & _ & _ & _ & _ & _ & _ & _ & _ & _ & _ &
        _ & _ & _ & aanns & -> & Hlo & Ha1 & Ha2).
  exists aanns. split_and!.
  - simpl. rewrite (get_lookup _ _ _ _ Hdep). simpl.
    by rewrite (get_lookup _ _ _ _ Hmd).
  - done.
  - intros kvs Hk Hsc. simpl. by rewrite (Ha1 _ Hk Hsc).
  - intros s Hs. simpl. by rewrite (Ha2 _ Hs).
Qed.

End Head.

(** ** The containers of a Deployment *)

Section ContainerLoop.

Variable py_repr : heap → addr → string.

(** On scalars [map_image] does not look at the store. *)
Lemma map_image_store_free (i n : scalar) reg pre (h h2 : heap) :
  map_image py_repr (VS i) (VS n) reg pre h2
  = match map_image py_repr (VS i) (VS n) reg pre h with
    | Ok (v, _) => Ok (v, h2)
    | Raise e => Raise e
    end.
Proof.
  unfold map_image, py_or, py_bool, bind, ret, raise, py_in, py_format.
  destruct i as [|b|z|s]; simpl;
    repeat (match goal with
            | |- context [if ?b then _ else _] => destruct b eqn:?; simpl
            end); try done.
Qed.

Lemma default_scalar_at kvs k (d : val) :
  scalar_at kvs k → (∃ s, d = VS s) →
  ∃ s, default d (Dict.get (SStr k) kvs) = VS s.
Proof.
  intros Hsc Hd. destruct (Dict.get (SStr k) kvs) as [v|] eqn:Hg; simpl.
  - by apply Hsc.
  - done.
Qed.

(** The body of the loop on a plain container. *)
Lemma normalize_container_Ok name reg pre a kvs h u h' :
  h !! a = Some (ODict kvs) →
  scalar_at kvs "image" → scalar_at kvs "name" →
  scalar_at kvs "imagePullPolicy" → (∃ s, name = VS s) →
  normalize_container py_repr name reg pre (VRef a) h = Ok (u, h') →
  ∃ img,
    map_image py_repr (default (VStr "") (Dict.get (SStr "image") kvs))
      (default name (Dict.get (SStr "name") kvs)) reg pre h = Ok (img, h) ∧
    h' = <[a:=ODict (normalized img kvs)]> h.
Proof.
  intros Ha Hi Hn Hp Hname H. unfold normalize_container in H.
  mbind H as img h1 E. apply py_get_Ok_get in E as [-> ->].
  mbind H as hint h1 E. apply py_get_Ok_get in E as [-> ->].
  rewrite !(get_lookup _ _ _ _ Ha) in H.
  mbind H as img' h1 E. pose proof E as E0.
  apply map_image_Ok_val in E as [-> _].
  exists img'. split; [exact E0|].
  mbind H as u1 h1 E.
  apply py_setitem_Ok in E as (a0 & kvs0 & [= <-] & Ha0 & ->).
  rewrite Ha in Ha0. injection Ha0 as <-.
  pose proof (lookup_lt_Some _ _ _ Ha) as Hlt.
  mbind H as pp h2 E. apply py_get_Ok_get in E as [-> ->].
  mbind H as b h2 E. apply py_bool_Ok in E as [-> ->].
  assert (Hg : get (<[a:=ODict (Dict.set (SStr "image") img' kvs)]> h)
                 (VRef a) "imagePullPolicy"
               = Dict.get (SStr "imagePullPolicy") kvs).
  { unfold get. simpl. rewrite list_lookup_insert_eq by done. simpl.
    by apply dict_get_set_ne. }
  rewrite Hg in H. unfold normalized.
  destruct (Dict.get (SStr "imagePullPolicy") kvs) as [v|] eqn:Hpp; simpl in H.
  - destruct (Hp _ Hpp) as [s ->]. simpl in H.
    destruct (truthy_scalar s).
    + unfold ret in H. by injection H as <-.
    + apply (py_setitem_Ok (VRef a) "imagePullPolicy" (VStr "IfNotPresent"))
        in H as (a0 & kvs0 & [= <-] & Ha0 & ->).
      rewrite list_lookup_insert_eq in Ha0 by done. injection Ha0 as <-.
      by rewrite list_insert_insert_eq.
  - apply (py_setitem_Ok (VRef a) "imagePullPolicy" (VStr "IfNotPresent"))
      in H as (a0 & kvs0 & [= <-] & Ha0 & ->).
    rewrite list_lookup_insert_eq in Ha0 by done. injection Ha0 as <-.
    by rewrite list_insert_insert_eq.
Qed.

Lemma for_each_container_Ok name reg pre cs h u h' :
  NoDup cs → (∃ s, name = VS s) → Forall (plain_container h) cs →
  for_each cs (normalize_container py_repr name reg pre) h = Ok (u, h') →
  length h' = length h ∧
  (∀ a kvs, VRef a ∈ cs → h !! a = Some (ODict kvs) →
     ∃ img,
       map_image py_repr (default (VStr "") (Dict.get (SStr "image") kvs))
         (default name (Dict.get (SStr "name") kvs)) reg pre h
       = Ok (img, h) ∧
       h' !! a = Some (ODict (normalized img kvs))) ∧
  (∀ b, VRef b ∉ cs → h' !! b = h !! b).
Proof.
  intros Hnd Hname. revert h.
  induction Hnd as [|c cs Hc Hnd IH]; intros h Hall H; simpl in H.
  - unfold ret in H. assert (h' = h) as -> by congruence. split; [done|].
    split; [|done]. intros a kvs Ha. by apply elem_of_nil in Ha.
  - inversion Hall as [|?? Hpc Hall']; subst.
    destruct Hpc as (a & kvs & -> & Ha & Hi & Hn & Hp).
    mbind H as u1 h1 E.
    apply (normalize_container_Ok _ _ _ _ kvs) in E as (img & Himg & ->);
      [|done..].
    assert (Hother : ∀ b, VRef b ∈ cs →
      (<[a:=ODict (normalized img kvs)]> h) !! b = h !! b).
    { intros b Hb. apply list_lookup_insert_ne. by intros ->. }
    apply IH in H as (Hlen & Hin & Hout).
    2:{ rewrite Forall_forall in Hall'. apply Forall_forall. intros c Hcin.
        destruct (Hall' _ Hcin) as (b & kvsb & -> & Hb & ?).
        exists b, kvsb. by rewrite Hother. }
    rewrite length_insert in Hlen.
    split; [done|]. split.
    + intros b kvsb Hb Hhb. apply elem_of_cons in Hb as [[= ->]|Hb].
      * rewrite Ha in Hhb. injection Hhb as <-. exists img.
        split; [done|]. rewrite Hout by done.
        apply list_lookup_insert_eq. by eapply lookup_lt_Some.
      * rewrite <- Hother in Hhb by done.
        destruct (Hin _ _ Hb Hhb) as (img2 & Himg2 & Hres).
        exists img2. split; [|done].
        rewrite Forall_forall in Hall'.
        destruct (Hall' _ Hb) as (b' & kvs' & [= <-] & Hb' & Hi' & Hn' & _).
        rewrite Hother in Hhb by done. rewrite Hhb in Hb'.
        injection Hb' as <-.
        destruct (default_scalar_at kvsb "image" (VStr "") Hi'
                    ltac:(by eexists)) as [si Hsi].
        destruct (default_scalar_at kvsb "name" name Hn' Hname)
          as [sn Hsn].
        rewrite Hsi, Hsn in *.
        rewrite (map_image_store_free si sn reg pre
                   (<[a:=ODict (normalized img kvs)]> h) h).
        by rewrite Himg2.
    + intros b Hb. apply not_elem_of_cons in Hb as [Hne Hb].
      rewrite Hout by done. apply list_lookup_insert_ne. congruence.
Qed.

(** X15. The loop over the containers.  When the containers of the pod
    template are a list of distinct maps whose image, name and pull
    policy are scalars, the loop gives each container the image that
    [map_image] makes of its own image (the empty string when it has
    none) with its own name as the hint (the name of the resource when it
    has none), sets [imagePullPolicy] to [IfNotPresent] unless the
    container has a truthy one, keeps its other items and their order, and
    changes no other object. *)
Theorem normalize_containers_result (deployment name : val)
    (image_registry repo_prefix : string) (h : heap) (u : unit) (h' : heap)
    (ts : val) (l : addr) (cs : list val) :
  at_path h deployment ["spec"; "template"; "spec"] = Some ts →
  get h ts "containers" = Some (VRef l) → h !! l = Some (OList cs) →
  NoDup cs → (∃ s, name = VS s) → Forall (plain_container h) cs →
  normalize_containers py_repr deployment name image_registry repo_prefix h
  = Ok (u, h') →
  (∀ a kvs, VRef a ∈ cs → h !! a = Some (ODict kvs) →
     ∃ img,
       map_image py_repr (default (VStr "") (Dict.get (SStr "image") kvs))
         (default name (Dict.get (SStr "name") kvs))
         image_registry repo_prefix h
       = Ok (img, h) ∧
       h' !! a = Some (ODict (normalized img kvs))) ∧
  (∀ b, b < length h → VRef b ∉ cs → h' !! b = h !! b).
Proof.
  intros Hpath Hcont Hl Hnd Hname Hall H. unfold normalize_containers in H.
  simpl in Hpath.
  destruct (get h deployment "spec") as [ds|] eqn:Hds; [|done].
  destruct (get h ds "template") as [t|] eqn:Ht; [|done].
  destruct (get h t "spec") as [ts'|] eqn:Hts; [|done].
  injection Hpath as ->.
  mbind H as ds' h1 E. apply py_getitem_Ok in E as [Hds' ->].
  rewrite Hds in Hds'. injection Hds' as <-.
  mbind H as t' h1 E. apply py_getitem_Ok in E as [Ht' ->].
  rewrite Ht in Ht'. injection Ht' as <-.
  mbind H as ts' h1 E. apply py_getitem_Ok in E as [Hts' ->].
  rewrite Hts in Hts'. injection Hts' as <-.
  mbind H as e h1 E. apply new_list_Ok in E as [-> ->].
  mbind H as containers h1 E. apply py_get_Ok_get in E as [-> ->].
  pose proof (lookup_lt_Some _ _ _ Hl) as Hlt.
  assert (Htsok : val_ok (length h) ts).
  { destruct ts as [s|b]; [done|]. unfold get in Hcont. simpl in Hcont |- *.
    destruct (h !! b) eqn:Hb; [|done]. by eapply lookup_lt_Some. }
  rewrite (get_ok_prefix h (h ++ [OList []])), Hcont in H
    by (by apply prefix_app_r || done).
  simpl in H. mbind H as cs' h1 E.
  unfold bind, load in E. rewrite lookup_app_l, Hl in E by done.
  unfold ret in E. injection E as <- <-.
  assert (Hall1 : Forall (plain_container (h ++ [OList []])) cs).
  { eapply Forall_impl; [exact Hall|].
    intros c (a & kvs & -> & Ha & ?). exists a, kvs.
    split; [done|]. split; [|done].
    rewrite lookup_app_l; [done|]. by eapply lookup_lt_Some. }
  apply for_each_container_Ok in H as (Hlen & Hin & Hout); [|done..].
  split.
  - intros a kvs Ha Hha.
    assert (Hha1 : (h ++ [OList []]) !! a = Some (ODict kvs)).
    { rewrite lookup_app_l; [done|]. by eapply lookup_lt_Some. }
    destruct (Hin _ _ Ha Hha1) as (img & Himg & Hres).
    exists img. split; [|done].
    rewrite Forall_forall in Hall.
    destruct (Hall _ Ha) as (a' & kvs' & [= <-] & Ha' & Hi' & Hn' & _).
    rewrite Hha in Ha'. injection Ha' as <-.
    destruct (default_scalar_at kvs "image" (VStr "") Hi'
                ltac:(by eexists)) as [si Hsi].
    destruct (default_scalar_at kvs "name" name Hn' Hname) as [sn Hsn].
    rewrite Hsi, Hsn in *.
    rewrite (map_image_store_free si sn _ _ (h ++ [OList []]) h).
    by rewrite Himg.
  - intros b Hb Hnot. rewrite Hout by done. by rewrite lookup_app_l.
Qed.

End ContainerLoop.

(** ** Metadata that is no map *)

Lemma bind_raise {A B} (c : M A) (k : A → M B) h e :
  c h = Raise e → bind c k h = Raise e.
Proof. unfold bind. by intros ->. Qed.

Lemma py_or_new_dict_total h v :
  val_ok (length h) v → ∃ v' h', py_or v (new_dict []) h = Ok (v', h').
Proof.
  intros Hv. unfold py_or, bind. destruct v as [s|a]; simpl.
  - unfold ret. destruct (truthy_scalar s); eauto.
  - simpl in Hv. destruct (lookup_lt_is_Some_2 h a Hv) as [o Ho].
    unfold bind, load. rewrite Ho. unfold ret.
    destruct (truthy_obj o); eauto.
Qed.

Section BadMetadata.

Variable py_repr : heap → addr → string.

Lemma deployment_parts_scalar_metadata dc h s :
  wf h → val_ok (length h) dc → get h dc "metadata" = Some (VS s) →
  deployment_parts dc h = Raise AttributeError.
Proof.
  intros Hwf Hdc Hg. unfold deployment_parts.
  pose proof (get_is_dict _ _ _ _ Hg) as [kvs Hd].
  rewrite (bind_eq (new_dict []) _ h (VRef (length h)) (h ++ [ODict []]))
    by reflexivity.
  assert (Hd1 : is_Some (dict_items (h ++ [ODict []]) dc)).
  { exists kvs. by apply dict_items_app. }
  rewrite (bind_eq _ _ _ _ _ (py_get_eq _ dc "metadata" _ Hd1)).
  rewrite (get_app _ _ _ _ _ Hg). simpl.
  rewrite (bind_eq (deepcopy (VS s)) _ (h ++ [ODict []]) (VS s)
             (h ++ [ODict []])) by reflexivity.
  set (h1 := h ++ [ODict []]).
  rewrite (bind_eq (new_dict []) _ h1 (VRef (length h1)) (h1 ++ [ODict []]))
    by reflexivity.
  assert (Hwf1 : wf h1) by by apply wf_app_empty_dict.
  assert (Hwf2 : wf (h1 ++ [ODict []])) by by apply wf_app_empty_dict.
  assert (Hd2 : is_Some (dict_items (h1 ++ [ODict []]) dc)).
  { destruct Hd1 as [kvs1 Hk1]. exists kvs1. by apply dict_items_app. }
  rewrite (bind_eq _ _ _ _ _ (py_get_eq _ dc "spec" _ Hd2)).
  set (s0 := default _ _).
  assert (Hs0 : val_ok (length (h1 ++ [ODict []])) s0).
  { unfold s0. destruct (get _ dc "spec") as [v|] eqn:Hgs; simpl.
    - by eapply wf_get.
    - rewrite length_app. simpl. lia. }
  destruct (deepcopy_spec _ Hwf2 s0 Hs0) as (spec & h4 & m & E & _).
  rewrite (bind_eq _ _ _ _ _ E). reflexivity.
Qed.

Lemma route_parts_scalar_metadata route dd h s :
  wf h → val_ok (length h) route → get h route "metadata" = Some (VS s) →
  route_parts py_repr route dd h = Raise AttributeError.
Proof.
  intros Hwf Hdc Hg. unfold route_parts.
  pose proof (get_is_dict _ _ _ _ Hg) as [kvs Hd].
  rewrite (bind_eq (new_dict []) _ h (VRef (length h)) (h ++ [ODict []]))
    by reflexivity.
  assert (Hd1 : is_Some (dict_items (h ++ [ODict []]) route)).
  { exists kvs. by apply dict_items_app. }
  rewrite (bind_eq _ _ _ _ _ (py_get_eq _ route "metadata" _ Hd1)).
  rewrite (get_app _ _ _ _ _ Hg). simpl.
  rewrite (bind_eq (deepcopy (VS s)) _ (h ++ [ODict []]) (VS s)
             (h ++ [ODict []])) by reflexivity.
  set (h1 := h ++ [ODict []]).
  rewrite (bind_eq (new_dict []) _ h1 (VRef (length h1)) (h1 ++ [ODict []]))
    by reflexivity.
  assert (Hwf1 : wf h1) by by apply wf_app_empty_dict.
  assert (Hwf2 : wf (h1 ++ [ODict []])) by by apply wf_app_empty_dict.
  assert (Hd2 : is_Some (dict_items (h1 ++ [ODict []]) route)).
  { destruct Hd1 as [kvs1 Hk1]. exists kvs1. by apply dict_items_app. }
  rewrite (bind_eq _ _ _ _ _ (py_get_eq _ route "spec" _ Hd2)).
  set (s0 := default _ _).
  assert (Hs0 : val_ok (length (h1 ++ [ODict []])) s0).
  { unfold s0. destruct (get _ route "spec") as [v|] eqn:Hgs; simpl.
    - by eapply wf_get.
    - rewrite length_app. simpl. lia. }
  destruct (py_or_new_dict_total _ s0 Hs0) as (s1 & h3 & E1).
  rewrite (bind_eq _ _ _ _ _ E1).
  apply py_or_new_dict_Ok in E1 as (_ & Hwf3 & Hs1 & _); [|done..].
  destruct (deepcopy_spec _ Hwf3 s1 Hs1) as (spec & h4 & m & E & _).
  rewrite (bind_eq _ _ _ _ _ E). reflexivity.
Qed.

(** X16. Metadata that is no map.  A document of one of the three kinds
    of the source platform whose [metadata] is there but is a scalar, as
    when the key is left empty, makes the turn of the loop raise
    [AttributeError]: nothing is put out for it and the run stops there. *)
Theorem dispatch_scalar_metadata (a : args) (doc : val) (st : run * list val)
    (h : heap) (k : string) (s : scalar) :
  wf h → val_ok (length h) doc →
  get h doc "kind" = Some (VStr k) →
  k ∈ ["DeploymentConfig"; "Route"; "BuildConfig"] →
  get h doc "metadata" = Some (VS s) →
  dispatch py_repr a doc st h = Raise AttributeError.
Proof.
  intros Hwf Hdoc Hk Hin Hg. unfold dispatch. destruct st as [r out].
  pose proof (get_is_dict _ _ _ _ Hg) as Hd.
  rewrite (bind_eq _ _ _ _ _ (is_dict_eq _ _ Hd)). simpl.
  rewrite (bind_eq _ _ _ _ _ (py_in_eq _ _ _ _ Hk)). simpl.
  rewrite (bind_eq _ _ _ _ _ (py_get_eq _ doc "kind" VNone Hd)).
  rewrite Hk. simpl.
  repeat (apply elem_of_cons in Hin as [->|Hin]); [| | |by apply elem_of_nil in Hin].
  - rewrite decide_True by done. apply bind_raise.
    unfold to_deployment. apply bind_raise.
    by eapply deployment_parts_scalar_metadata.
  - rewrite decide_False, decide_True by done. apply bind_raise.
    unfold to_ingress. apply bind_raise.
    by eapply route_parts_scalar_metadata.
  - rewrite decide_False, decide_False, decide_True by done.
    rewrite (bind_eq (new_dict []) _ h (VRef (length h)) (h ++ [ODict []]))
      by reflexivity.
    assert (Hd1 : is_Some (dict_items (h ++ [ODict []]) doc)).
    { destruct Hd as [kvs Hkvs]. exists kvs. by apply dict_items_app. }
    rewrite (bind_eq _ _ _ _ _ (py_get_eq _ doc "metadata" _ Hd1)).
    rewrite (get_app _ _ _ _ _ Hg). reflexivity.
Qed.

End BadMetadata.

(** ** Entries that are no YAML files *)

Section OtherEntries.

Variable py_repr : heap → addr → string.

Lemma process_all_skips a tree r h :
  process_all py_repr a tree r h
  = process_all py_repr a
      (filter (λ e, e_is_file e && is_yaml_file (e_path e) = true) tree) r h.
Proof.
  revert r h. induction tree as [|e tree IH]; intros r h; [done|].
  rewrite filter_cons. cbn [process_all].
  destruct (e_is_file e && is_yaml_file (e_path e)) eqn:Hb.
  - rewrite decide_True by done. cbn [process_all]. unfold bind.
    destruct (process_entry py_repr a e r h) as [[r1 h1]|err]; [|done].
    apply IH.
  - rewrite decide_False by done.
    assert (Hskip : process_entry py_repr a e r h = Ok (r, h)).
    { unfold process_entry.
      apply andb_false_iff in Hb as [-> | ->]; simpl; [done|].
      by rewrite orb_true_r. }
    rewrite (bind_eq _ _ _ _ _ Hskip). apply IH.
Qed.

(** X17. Entries that are no YAML files.  Directories and files whose
    suffix is neither [.yml] nor [.yaml], in any case of the letters, have
    no part in a run: the run on a tree is the run on its YAML files alone,
    with the same counters, warnings, written files and store, or the same
    exception. *)
Theorem main_skips_other_entries (a : args) (tree : list entry) (h : heap) :
  main py_repr a tree h
  = main py_repr a
      (filter (λ e, e_is_file e && is_yaml_file (e_path e) = true) tree) h.
Proof. unfold main. apply process_all_skips. Qed.

End OtherEntries.

(** ** Instances on concrete inputs *)

Lemma map_image_registry_reference_witness :
  map_image (λ _ _, "") (VStr "web") (VStr "web")
    "myacr.azurecr.io/shop/web:1.4" "apps" []
  = Ok (VStr "myacr.azurecr.io/shop/web:1.4", []).
Proof. apply map_image_registry_reference; reflexivity. Defined.

Lemma map_image_idempotent_witness :
  map_image (λ _ _, "") (VStr "myacr.azurecr.io/apps/web:latest")
    (VStr "other") "myacr.azurecr.io" "team" []
  = Ok (VStr "myacr.azurecr.io/apps/web:latest", []).
Proof.
  apply (map_image_idempotent (λ _ _, "") "web" "web" "myacr.azurecr.io"
           "apps" (VStr "other") "team" [] []).
  reflexivity.
Defined.

Lemma map_image_scalar_image_witness :
  map_image (λ _ _, "") (VInt 5) (VStr "web") "myacr.azurecr.io" "" []
  = Raise TypeError.
Proof.
  exact (map_image_scalar_image (λ _ _, "") (SInt 5) (VStr "web")
           "myacr.azurecr.io" "" [] (λ x H, eq_ind (SInt 5)
              (λ s, match s with SInt _ => True | _ => False end) I _ H)).
Defined.

Lemma norm_labels_result_witness :
  ∃ h', norm_labels (VRef 0) [ODict [(SStr "name", VStr "web")]]
        = Ok (VRef 0, h') ∧
        get h' (VRef 0) "name" = Some (VStr "web") ∧
        ∃ lv, get h' (VRef 0) "labels" = Some (VRef lv) ∧
              h' !! lv = Some (ODict []).
Proof.
  destruct (norm_labels _ _) as [[x' h']|e] eqn:H;
    [|vm_compute in H; discriminate H].
  assert (x' = VRef 0) as -> by (vm_compute in H; congruence).
  exists h'. split; [reflexivity|].
  destruct (norm_labels_result _ _ _ _ H)
    as (_ & _ & _ & Hnew & Hkeep & _).
  split.
  - by rewrite Hkeep.
  - destruct (Hnew eq_refl) as (lv & Hlv & _ & Hobj). by exists lv.
Defined.

Lemma main_accounts_witness :
  ∃ r h',
    main (λ _ _, "") (Args "out" "apps.example.com" "nginx" "" "" "")
      [Entry (Path "openshift" "app.yaml") true (Loaded [VRef 0; VRef 6]);
       Entry (Path "openshift" "broken.yml") true (LoadError "bad indent")]
      (sample_route ++ [ODict [(SStr "kind", VStr "BuildConfig")]])
    = Ok (r, h') ∧
    converted r = n_DeploymentConfig (r_summary r) + n_Route (r_summary r) ∧
    length (warnings r) = n_BuildConfig (r_summary r) + 1.
Proof.
  destruct (main _ _ _ _) as [[r h']|e] eqn:H;
    [|vm_compute in H; discriminate H].
  exists r, h'. split; [reflexivity|].
  apply main_accounts in H as (Hc & _ & Hw & _). split; [exact Hc|exact Hw].
Defined.

Lemma map_output_filename_unhashable_kind_witness :
  map_output_filename (Path "openshift" "app.yaml") [VRef 0]
    [ODict [(SStr "kind", VRef 1)]; OList []]
  = Raise TypeError.
Proof.
  apply map_output_filename_unhashable_kind.
  - repeat constructor.
  - exists (VRef 0), [(SStr "kind", VRef 1)], 1.
    split; [apply list_elem_of_here|]. split; reflexivity.
Defined.

Lemma sample_route_wf : wf sample_route.
Proof. apply wf_Forall. repeat constructor; simpl; lia. Qed.

Lemma to_ingress_metadata_witness :
  ∃ ingress h' md lb items,
    to_ingress (λ _ _, "") (VRef 0) "apps.example.com" "nginx" "" sample_route
    = Ok (ingress, h') ∧
    get h' ingress "kind" = Some (VStr "Ingress") ∧
    get h' ingress "metadata" = Some md ∧
    get h' md "name" = Some (VStr "api") ∧
    get h' md "labels" = Some (VRef lb) ∧
    h' !! lb = Some (ODict items) ∧
    same_items [(SStr "app", VStr "api")] items.
Proof.
  destruct (to_ingress _ _ _ _ _ _) as [[ingress h']|e] eqn:H;
    [|vm_compute in H; discriminate H].
  exists ingress, h'.
  apply to_ingress_metadata in H as Hm;
    [|exact sample_route_wf|simpl; lia].
  destruct Hm as (_ & Hk & md & name & lb & an & items & Hmd & Hitems & Hname &
                  _ & _ & Hlb & Hlabels).
  exists md, lb, items. split; [reflexivity|].
  assert (name = VStr "api") as -> by (by apply Hname).
  unfold get. rewrite Hitems. simpl.
  split_and!; [exact Hk|exact Hmd|reflexivity|reflexivity|exact Hlb|].
  assert (truthy sample_route (route_labels sample_route (VRef 0)) = true)
    as Ht by reflexivity.
  rewrite Ht in Hlabels. destruct Hlabels as (kvs & Hkvs & Hsame).
  vm_compute in Hkvs. by injection Hkvs as <-.
Defined.

Lemma to_ingress_rule_witness :
  ∃ ingress h' rules,
    to_ingress (λ _ _, "") (VRef 0) "apps.example.com" "nginx" "" sample_route
    = Ok (ingress, h') ∧
    at_path h' ingress ["spec"; "rules"] = Some rules ∧
    content 8 h' rules
    = TL [TD [(SStr "host", TS (SStr "api.example.com"));
              (SStr "http",
               TD [(SStr "paths",
                    TL [TD [(SStr "path", TS (SStr "/"));
                            (SStr "pathType", TS (SStr "Prefix"));
                            (SStr "backend",
                             TD [(SStr "service",
                                  TD [(SStr "name", TS (SStr "api-svc"));
                                      (SStr "port",
                                       TD [(SStr "name",
                                            TS (SStr "http"))])])])]])])]].
Proof.
  destruct (to_ingress _ _ _ _ _ _) as [[ingress h']|e] eqn:H;
    [|vm_compute in H; discriminate H].
  exists ingress, h'.
  assert (Hok : val_ok (length sample_route) (VRef 0)) by (simpl; lia).
  destruct (to_ingress_rule _ _ _ _ _ _ _ _
              (SStr "api.example.com") (SStr "api-svc") (SStr "http")
              sample_route_wf Hok H)
    as (rules & Hr & Hc); [reflexivity..|].
  exists rules. split; [reflexivity|]. split; [exact Hr|exact Hc].
Defined.

Lemma to_deployment_source_untouched_witness :
  ∃ deployment h',
    to_deployment (λ _ _, "") (VRef 0) "" "" sample_dc = Ok (deployment, h') ∧
    sample_dc `prefix_of` h' ∧
    ∀ a, reach h' deployment a → length sample_dc ≤ a < length h'.
Proof.
  destruct (to_deployment _ _ _ _ _) as [[deployment h']|e] eqn:H;
    [|vm_compute in H; discriminate H].
  exists deployment, h'.
  apply to_deployment_source_untouched in H as Hs;
    [|apply wf_Forall; repeat constructor; simpl; lia|simpl; lia].
  destruct Hs as (Hp & _ & Hreach). split; [reflexivity|]. by split.
Defined.

Lemma to_ingress_source_untouched_witness :
  ∃ ingress h',
    to_ingress (λ _ _, "") (VRef 0) "apps.example.com" "nginx" "" sample_route
    = Ok (ingress, h') ∧
    sample_route `prefix_of` h' ∧
    ∀ a, reach h' ingress a → length sample_route ≤ a < length h'.
Proof.
  destruct (to_ingress _ _ _ _ _ _) as [[ingress h']|e] eqn:H;
    [|vm_compute in H; discriminate H].
  exists ingress, h'.
  apply to_ingress_source_untouched in H as Hs;
    [|exact sample_route_wf|simpl; lia].
  destruct Hs as (Hp & _ & Hreach). split; [reflexivity|]. by split.
Defined.

Lemma main_destinations_witness :
  ∃ r h',
    main (λ _ _, "") (Args "out" "apps.example.com" "nginx" "" "" "")
      [Entry (Path "openshift/edge" "api-Route.yml") true (Loaded [VRef 0]);
       Entry (Path "openshift" "notes.txt") true (Loaded [VRef 5])]
      sample_route
    = Ok (r, h') ∧
    (written r).*1 = [Path "out" "ingress.yaml"].
Proof.
  destruct (main _ _ _ _) as [[r h']|e] eqn:H;
    [|vm_compute in H; discriminate H].
  exists r, h'. split; [reflexivity|].
  apply main_destinations in H as Hd;
    [|exact sample_route_wf|repeat constructor; simpl; lia].
  rewrite Hd. reflexivity.
Defined.

Lemma main_counts_source_witness :
  ∃ r h',
    main (λ _ _, "") (Args "out" "apps.example.com" "nginx" "" "" "")
      [Entry (Path "openshift" "app.yaml") true (Loaded [VRef 0; VRef 5])]
      sample_route
    = Ok (r, h') ∧
    n_Route (r_summary r) = 1 ∧ n_Other (r_summary r) = 1.
Proof.
  destruct (main _ _ _ _) as [[r h']|e] eqn:H;
    [|vm_compute in H; discriminate H].
  exists r, h'. split; [reflexivity|].
  apply main_counts_source in H as Hc;
    [|exact sample_route_wf|repeat constructor; simpl; lia].
  destruct Hc as (_ & HR & _ & HO). rewrite HR, HO. split; reflexivity.
Defined.

Lemma to_deployment_head_witness :
  ∃ deployment h' md dspec,
    to_deployment (λ _ _, "") (VRef 0) "" "" sample_dc = Ok (deployment, h') ∧
    get h' deployment "kind" = Some (VStr "Deployment") ∧
    get h' deployment "metadata" = Some md ∧
    get h' md "name" = Some (VStr "web") ∧
    get h' deployment "spec" = Some dspec ∧
    get h' dspec "replicas" = Some (VInt 2) ∧
    get h' dspec "triggers" = None.
Proof.
  destruct (to_deployment _ _ _ _ _) as [[deployment h']|e] eqn:H;
    [|vm_compute in H; discriminate H].
  exists deployment, h'.
  apply to_deployment_head in H as Hh;
    [|apply wf_Forall; repeat constructor; simpl; lia|simpl; lia].
  destruct Hh as (md & dspec & name & labels & anns & replicas & sel & tpl &
                  strat & Hdep & Hmd & Hname & Hds & _ & Hrep).
  exists md, dspec.
  assert (name = VStr "web") as -> by (by apply Hname).
  assert (replicas = VInt 2) as -> by (by apply Hrep).
  unfold get. rewrite Hdep, Hmd, Hds. simpl.
  split; [reflexivity|]. by split_and!.
Defined.

Lemma to_deployment_annotations_witness :
  let h := [ODict [(SStr "kind", VStr "DeploymentConfig");
                   (SStr "metadata", VRef 1)];
            ODict [(SStr "name", VStr "web"); (SStr "annotations", VRef 2)];
            ODict [(SStr "openshift.io/generated-by", VStr "OpenShiftNewApp");
                   (SStr "team", VStr "shop")]] in
  ∃ deployment h' anns,
    to_deployment (λ _ _, "") (VRef 0) "" "" h = Ok (deployment, h') ∧
    at_path h' deployment ["metadata"; "annotations"] = Some (VRef anns) ∧
    dict_items h' (VRef anns) = Some [(SStr "team", VStr "shop")].
Proof.
  intros h.
  destruct (to_deployment _ _ _ _ _) as [[deployment h']|e] eqn:H;
    [|vm_compute in H; discriminate H].
  exists deployment, h'.
  apply to_deployment_annotations in H as Ha;
    [|apply wf_Forall; repeat constructor; simpl; lia|simpl; lia].
  destruct Ha as (anns & Hp & _ & Hk & _).
  exists anns. split; [reflexivity|]. split; [exact Hp|].
  apply (Hk [(SStr "openshift.io/generated-by", VStr "OpenShiftNewApp");
             (SStr "team", VStr "shop")]); [reflexivity|].
  repeat constructor; by eexists.
Defined.

Lemma normalize_containers_result_witness :
  ∃ h',
    normalize_containers (λ _ _, "") (VRef 0) (VStr "app")
      "myacr.azurecr.io" "" sample_containers = Ok (tt, h') ∧
    h' !! 5 = Some (ODict [(SStr "name", VStr "web");
                           (SStr "image", VStr "myacr.azurecr.io/web:latest");
                           (SStr "imagePullPolicy", VStr "IfNotPresent")]) ∧
    h' !! 6 = Some (ODict [(SStr "name", VStr "db");
                           (SStr "image", VStr "quay.io/shop/db:1");
                           (SStr "imagePullPolicy", VStr "Always")]) ∧
    h' !! 4 = Some (OList [VRef 5; VRef 6]).
Proof.
  destruct (normalize_containers _ _ _ _ _ _) as [[[] h']|e] eqn:H;
    [|vm_compute in H; discriminate H].
  exists h'. split; [reflexivity|].
  apply (normalize_containers_result _ _ _ _ _ _ _ _ (VRef 3) 4
           [VRef 5; VRef 6]) in H as [Hin Hout].
  - split_and!.
    + destruct (Hin 5 _ ltac:(apply list_elem_of_here) eq_refl)
        as (img & Himg & ->).
      vm_compute in Himg. by injection Himg as <-.
    + destruct (Hin 6 _ ltac:(apply list_elem_of_further, list_elem_of_here)
                  eq_refl) as (img & Himg & ->).
      vm_compute in Himg. by injection Himg as <-.
    + rewrite Hout; [reflexivity|simpl; lia|].
      apply (bool_decide_unpack _). vm_compute. exact I.
  - reflexivity.
  - reflexivity.
  - reflexivity.
  - apply (bool_decide_unpack _). vm_compute. exact I.
  - by eexists.
  - repeat constructor; eexists _, _;
      (split; [reflexivity|]); (split; [reflexivity|]);
      split_and!; intros v [= <-]; by eexists.
Defined.

Lemma dispatch_scalar_metadata_witness :
  dispatch (λ _ _, "") (Args "out" "apps.example.com" "nginx" "" "" "")
    (VRef 0) (run0, [])
    [ODict [(SStr "kind", VStr "Route"); (SStr "metadata", VNone)]]
  = Raise AttributeError.
Proof.
  apply (dispatch_scalar_metadata _ _ _ _ _ "Route" SNone).
  - apply wf_Forall. repeat constructor.
  - simpl. lia.
  - reflexivity.
  - apply list_elem_of_further, list_elem_of_here.
  - reflexivity.
Defined.
